(* ===== verification/_CoqProject ===== *)
-Q . S2P
Prelude.v
Text.v
Environment.v
ByteOrder.v
Packet.v
ControlPackets.v
HandshakePacket.v
AckPackets.v
NegativeAckPacket.v
DataPacket.v
Decoded.v
Dispatcher.v
Transport.v
SlidingWindow.v
CongestionControl.v
Shared.v
Codecs.v
Session.v
Sender.v
Receiver.v
Socket.v
Stream.v
Frames.v
Registration.v
Reading.v
Multiplexer.v
Accepting.v
Connection.v
Framing.v
Messages.v
Contact.v
Protobuf.v
MessageHandler.v
NatDetection.v
NatService.v
NetworkInterface.v
Utils.v
Gateway.v
NatPmp.v
MiniUpnp.v
Upnp.v
UpnpControlPoint.v
UdpTransport.v
TcpConnection.v
TcpTransport.v
RudpTransport.v
RudpListening.v
