(* ===== verification/Prelude.v ===== *)
(** * Verification of the MaidSafe transport library

    The library under src/src/maidsafe/transport moves messages between nodes.
    Its own protocol, RUDP, is a reliable stream over UDP; this development
    models that protocol stack bottom up and proves what each layer promises to
    the one above it.

    ** Files and what they model

    - [Prelude], this file: machine integers as [Z] with their wrap-around
      ([u8] .. [u64]), the result type [Res] with the faults of a run (failed
      assertion, access out of bounds, exhausted fuel), the state and error
      monad [M] with its weakest precondition [wp], lists and shared tactics.
    - [Text]: character strings as lists of codes.
    - [Environment]: what the program takes from outside as a class: the clock
      (a sequence of readings), random numbers, addresses, and whether the
      network takes a datagram.  [World] counts the readings and draws made and
      lists the datagrams sent, latest first.
    - [Packet], [ControlPackets], [HandshakePacket], [AckPackets],
      [NegativeAckPacket], [DataPacket]: the packet classes (rudp_*packet.cc)
      over byte lists; [Decoded] and [Codecs]: properties of all of them.
    - [Dispatcher]: rudp_dispatcher.cc.
    - [Transport]: rudp_parameters.cc, rudp_peer.h, rudp_tick_timer.h and
      RudpMultiplexer::SendTo; [Shared]: the objects of a socket that session,
      sender and receiver share by reference (peer, congestion control, timer).
    - [SlidingWindow]: rudp_sliding_window.h.
    - [CongestionControl]: rudp_congestion_control.cc.
    - [Session], [Sender], [Receiver]: the three parts of a socket;
      [Socket]: rudp_socket.cc, which composes them.  [Stream] puts a sender and
      a receiver on the two ends of a network that loses, repeats and reorders.
    - [Frames], [Registration], [Reading]: what the operations of a socket leave
      alone, what they do to its registration, and to an outstanding read: the
      interfaces that the next layers are proved against.
    - [Multiplexer]: rudp_multiplexer.cc, rudp_acceptor.cc, rudp_dispatch_op.h and
      rudp_accept_op.h, the sockets and acceptors behind one UDP socket;
      [Accepting]: its acceptor as a queue.
    - [Connection]: rudp_connection.cc, one conversation over a socket;
      [Framing], [Messages]: how it receives a message.  [ByteOrder]: the bytes
      of its length.
    - [RudpTransport]: rudp_transport.cc, multiplexers and connections together;
      [RudpListening]: what is pending while it listens.
    - [UdpTransport]: udp_transport.cc and udp_request.cc.
    - [TcpConnection], [TcpTransport]: tcp_connection.cc and tcp_transport.cc.
    - [Contact]: contact.cc, the addresses of a node.
    - [Protobuf]: the messages of transport.proto as records, and what the
      generated classes promise; [MessageHandler]: message_handler.cc and
      rudp_message_handler.cc, which sign, encrypt, parse and signal them.
    - [NatDetection]: nat_detection.cc, nat_detection_rpcs.cc, nat_traversal.cc, how
      a node finds out how it can be reached; [NatService]:
      nat_detection_service.cc and service.cc, the nodes that it asks.
    - [NetworkInterface], [Utils], [Gateway]: network_interface.cc, utils.cc and
      gateway.cc: the interfaces, addresses and default route of the host, read from
      the bytes of the kernel's structures.
    - [NatPmp]: the client of nat-pmp/, which asks a gateway for port mappings;
      [Upnp]: the client of upnp/, which keeps them in the table of a device, with the
      commands of miniupnpc, [MiniUpnp]: the vendored libupnp/ from the bytes of a
      request to the XML of its answer;
      [UpnpControlPoint]: upnp_client_impl.cc, another client of upnp/, which follows
      the events of devices and is not in the build.

    ** State and operations

    A class is a record of its data members; a member function is a function of
    the same name to [Res] or, when it changes the state, an action of the
    monad [M] over the object and what it reaches by reference.  Assertions and
    element accesses are written out and fault when they fail.  Iterations over
    a window are structural or have fuel: the size of the window for the
    loops of sender and receiver, the length of the text for the XML parser, the bytes
    received for the lines of an HTTP header, and a number that the caller chooses for
    the random draws of [AddSocket] (any that exceeds the draws needed).

    Objects that point at each other are in a store and addressed by handles:
    sockets and acceptors ([Multiplexer.Node]), connections and acceptors of the
    transports, the services of the UPnP control point, and the objects that NAT-PMP
    handlers refer to.  Handlers and
    functions given to an io_service or a strand are values that wait in the
    state; a step runs one of them, with what the operating system reports as
    its argument, so an invariant of the steps holds in every interleaving.

    ** Theorems

    - Formats: decoding is total and unambiguous, and inverse to encoding.
    - Windows: index arithmetic modulo 2{^31} (lemmas of [SlidingWindow]).
    - Congestion control: an invariant on all sizes for every sequence of
      notifications; the effect of an acknowledgement in exact arithmetic.
    - Session: safety and stability for every input; the handshake completes.
    - Sender and receiver: bytes are accepted, stored, acknowledged, sent
      again and delivered as a reliable stream requires.
    - Socket: no sequence of datagrams, ticks and calls makes it fail, and a
      read completes with the bytes that arrived.
    - End to end: what the application reads is what was accepted, in order,
      over any network, while fewer than 2{^31} - 512 packets were made; a packet that is
      missing is in the sender's window and would be accepted if it arrived, but one that
      is lost twice is not sent again.
    - Multiplexer and acceptor: the registry agrees with the sockets, a datagram
      reaches only its socket, connections are accepted in order.
    - Connections: a message is received as it was framed, whatever else
      happens meanwhile; the transport is told once that a connection ends.
    - Transports: the set of connections holds those that work and no other, and
      listening goes on; UDP requests are answered or time out.
    - Contacts and messages: construction and round trips; a secured message is
      read by whom it is meant for, and which messages make the handler fail.
    - NAT detection: whom a node asks and what it reports; what the service
      answers for every outcome of the proxies; after a rendezvous request the
      node behind the NAT is told of the proxy and starts to connect to it.
    - The host: the default route is found in the kernel's answer; local addresses
      agree; where an address loses a digit.
    - NAT-PMP: it gives up in the end; what stopping it does not do.
    - UPnP: the answers of a device are read as documents; the list of mappings agrees
      with the table of a device that answers, which has none left in the end, and what
      becomes of one that cannot be reached; the control point has exactly the services
      of its devices in its cache, and what it tells of mappings is true.
    - The theorems about closed runs record where the code does not do what it
      means to.

    ** Not modelled

    Real sockets and timers (asio) are their effects as above; the bytes of protobuf
    messages, cryptography, the discovery of a UPnP gateway, libupnp and the
    system calls are classes of functions with the laws that are documented for them.
    The sources for Windows and BSD in network_interface.cc and gateway.cc and the rest
    of the vendored libupnp/ (discovery, device descriptions, the commands that nothing
    calls) have no model.  The default arguments and the
    constructors of abstract base classes have nothing to model. *)

From stdpp Require Export base list numbers option gmap.
From Stdlib Require Export ZArith Lia ZifyNat ZifyBool.

#[global] Open Scope Z_scope.

(** ** Machine integers

    A [w]-bit unsigned integer of the program is a [Z]; the wrap-around of an
    operation on it is written out with one of these reductions. *)

Definition u8 (z : Z) : Z := z `mod` 256.
Definition u16 (z : Z) : Z := z `mod` 65536.
Definition u32 (z : Z) : Z := z `mod` 4294967296.
Definition u64 (z : Z) : Z := z `mod` 18446744073709551616.

Definition is_u8 (z : Z) : Prop := 0 ≤ z < 256.
Definition is_u16 (z : Z) : Prop := 0 ≤ z < 65536.
Definition bytes_ok (l : list Z) : Prop := Forall is_u8 l.
Definition is_u32 (z : Z) : Prop := 0 ≤ z < 4294967296.

Lemma u64_small z : 0 ≤ z < 2 ^ 64 → u64 z = z.
Proof. apply Z.mod_small. Qed.

(** [lia] for goals with division and remainder by constants. *)
Ltac mod_lia := zify; Z.to_euclidean_division_equations; lia.

Declare Scope rudp_scope.
Delimit Scope rudp_scope with rudp.
Notation "x '+u32' y" := (u32 (x + y)) (at level 50, left associativity) : rudp_scope.
Notation "x '-u32' y" := (u32 (x - y)) (at level 50, left associativity) : rudp_scope.
Notation "x '*u32' y" := (u32 (x * y)) (at level 40, left associativity) : rudp_scope.
#[global] Open Scope rudp_scope.

(** ** Faults

    What a run of the program can do besides returning: fail an [assert], read
    or write outside an object, or (an artefact of the model only) exhaust the
    fuel of a loop.  A theorem that an operation returns [Ok] excludes all of
    them. *)

Inductive fault := AssertionFailed | OutOfBounds | OutOfFuel.

Inductive Res (A : Type) := Ok (a : A) | Fault (f : fault).
Arguments Ok {A} _.
Arguments Fault {A} _.

#[export] Instance Res_ret : MRet Res := λ A a, Ok a.
#[export] Instance Res_bind : MBind Res := λ A B k m,
  match m with Ok a => k a | Fault f => Fault f end.

#[export] Instance fault_eq_dec : EqDecision fault.
Proof. solve_decision. Defined.

Lemma Res_bind_ok {A B} (a : A) (k : A → Res B) : (x ← Ok a; k x) = k a.
Proof. done. Qed.

Definition is_ok {A} (r : Res A) : bool := match r with Ok _ => true | Fault _ => false end.

(** The value returned, for examples that run the model. *)
Definition from_ok {A} (d : A) (r : Res A) : A := match r with Ok a => a | Fault _ => d end.

Lemma from_ok_eq {A} (d : A) (r : Res A) : is_ok r = true → r = Ok (from_ok d r).
Proof. by destruct r. Qed.

(** ** State with faults

    The C++ objects a member function reaches through references are the state
    [S]; the function is a computation in [M S]. *)

Definition M (S A : Type) : Type := S → Res (A * S).

#[export] Instance M_ret S : MRet (M S) := λ A a s, Ok (a, s).
#[export] Instance M_bind S : MBind (M S) := λ A B k m s,
  match m s with Ok (a, s') => k a s' | Fault f => Fault f end.

Definition get {S} : M S S := λ s, Ok (s, s).
Definition gets {S A} (f : S → A) : M S A := λ s, Ok (f s, s).
Definition modify {S} (f : S → S) : M S unit := λ s, Ok (tt, f s).
Definition throw {S A} (f : fault) : M S A := λ _, Fault f.
Definition liftR {S A} (r : Res A) : M S A := λ s,
  match r with Ok a => Ok (a, s) | Fault f => Fault f end.

(** [assert(b)] of <cassert>, in a build where it is active. *)
Definition assertb {S} (b : bool) : M S unit :=
  if b then mret tt else throw AssertionFailed.

(** [if (b) m;] *)
Definition when {S} (b : bool) (m : M S unit) : M S unit :=
  if b then m else mret tt.

(** A [while (cond) body] that makes at most [fuel] tests of its condition. *)
Fixpoint while_ {S} (fuel : nat) (cond : M S bool) (body : M S unit) : M S unit :=
  match fuel with
  | O => throw OutOfFuel
  | Datatypes.S fuel' =>
      b ← cond;
      if b : bool then body ;; while_ fuel' cond body else mret tt
  end.

(** A loop with loop-carried locals [L]: [step] returns [inl] to go on and
    [inr] to leave the loop. *)
Fixpoint loop {S L A} (fuel : nat) (step : L → M S (L + A)) (l : L) : M S A :=
  match fuel with
  | O => throw OutOfFuel
  | Datatypes.S fuel' =>
      r ← step l;
      match r with inl l' => loop fuel' step l' | inr a => mret a end
  end.

(** Run a computation on a part of the state. *)
Definition zoom {S T A} (pget : S → T) (pset : T → S → S) (m : M T A) : M S A := λ s,
  match m (pget s) with
  | Ok (a, t) => Ok (a, pset t s)
  | Fault f => Fault f
  end.

(** ** Total correctness

    [wp m s Q]: run from [s], [m] returns (no fault, no lack of fuel) and its
    result and final state satisfy [Q]. *)

Definition wp {S A} (m : M S A) (s : S) (Q : A → S → Prop) : Prop :=
  match m s with Ok (a, s') => Q a s' | Fault _ => False end.

Section wp.
Context {S : Type}.
Implicit Types s : S.

Lemma wp_Ok {A} (m : M S A) s Q :
  wp m s Q ↔ ∃ a s', m s = Ok (a, s') ∧ Q a s'.
Proof.
  unfold wp. destruct (m s) as [[a s']|f]; split.
  - eauto.
  - by intros (?&?&[= -> ->]&?).
  - intros [].
  - by intros (?&?&?&?).
Qed.

Lemma wp_mono {A} (m : M S A) s (P Q : A → S → Prop) :
  wp m s P → (∀ a s', P a s' → Q a s') → wp m s Q.
Proof. unfold wp. destruct (m s) as [[??]|]; eauto. Qed.

Lemma wp_conj {A} (m : M S A) s (P Q : A → S → Prop) :
  wp m s P → wp m s Q → wp m s (λ a s', P a s' ∧ Q a s').
Proof. unfold wp. destruct (m s) as [[??]|]; auto. Qed.

Lemma wp_det {A} (m : M S A) s a s' (Q : A → S → Prop) :
  m s = Ok (a, s') → wp m s Q → Q a s'.
Proof. unfold wp. by intros ->. Qed.

Lemma wp_ret {A} (a : A) s (Q : A → S → Prop) : Q a s → wp (mret a) s Q.
Proof. done. Qed.

Lemma wp_bind {A B} (m : M S A) (k : A → M S B) s Q :
  wp m s (λ a s', wp (k a) s' Q) → wp (m ≫= k) s Q.
Proof.
  unfold wp, mbind, M_bind. by destruct (m s) as [[??]|].
Qed.

Lemma wp_assoc {A B C} (m : M S A) (k : A → M S B) (h : B → M S C) s Q :
  wp (m ≫= k) s (λ b s', wp (h b) s' Q) → wp (m ≫= λ a, k a ≫= h) s Q.
Proof.
  unfold wp, mbind, M_bind. destruct (m s) as [[a s1]|]; [|done].
  by destruct (k a s1) as [[??]|].
Qed.

Lemma wp_get s (Q : S → S → Prop) : Q s s → wp get s Q.
Proof. done. Qed.

Lemma wp_gets {A} (f : S → A) s Q : Q (f s) s → wp (gets f) s Q.
Proof. done. Qed.

Lemma wp_modify (f : S → S) s (Q : unit → S → Prop) :
  Q tt (f s) → wp (modify f) s Q.
Proof. done. Qed.

Lemma wp_liftR {A} (r : Res A) s a (Q : A → S → Prop) :
  r = Ok a → Q a s → wp (liftR r) s Q.
Proof. by intros ->. Qed.

Lemma wp_assertb (b : bool) s (Q : unit → S → Prop) :
  b = true → Q tt s → wp (assertb b) s Q.
Proof. by intros ->. Qed.

Lemma wp_when (b : bool) m s (Q : unit → S → Prop) :
  (b = true → wp m s Q) → (b = false → Q tt s) → wp (when b m) s Q.
Proof. unfold when. destruct b; intros H1 H2; [by apply H1|by apply H2]. Qed.

Lemma wp_if {A} (b : bool) (m1 m2 : M S A) s Q :
  (b = true → wp m1 s Q) → (b = false → wp m2 s Q) →
  wp (if b then m1 else m2) s Q.
Proof. destruct b; auto. Qed.

(** Loops: an invariant and a measure that bounds the fuel. *)
Lemma wp_while (I : S → Prop) (μ : S → nat) fuel cond body s
    (Q : unit → S → Prop) :
  I s →
  (μ s < fuel)%nat →
  (∀ s, I s →
     wp cond s (λ b s1,
       if b : bool then wp body s1 (λ _ s2, I s2 ∧ (μ s2 < μ s)%nat)
       else Q tt s1)) →
  wp (while_ fuel cond body) s Q.
Proof.
  intros HI Hμ Hstep. revert s HI Hμ.
  induction fuel as [|fuel IH]; intros s HI Hμ; [lia|]. simpl.
  apply wp_bind. eapply wp_mono; [by apply Hstep|].
  intros [] s1; simpl; [|by intros; apply wp_ret].
  intros Hb. apply wp_bind. eapply wp_mono; [exact Hb|].
  intros _ s2 [HI2 Hlt]. apply IH; [done|lia].
Qed.

Lemma wp_loop {L A} (I : L → S → Prop) (μ : L → S → nat) fuel
    (step : L → M S (L + A)) l s (Q : A → S → Prop) :
  I l s →
  (μ l s < fuel)%nat →
  (∀ l s, I l s →
     wp (step l) s (λ r s',
       match r with
       | inl l' => I l' s' ∧ (μ l' s' < μ l s)%nat
       | inr a => Q a s'
       end)) →
  wp (loop fuel step l) s Q.
Proof.
  intros HI Hμ Hstep. revert l s HI Hμ.
  induction fuel as [|fuel IH]; intros l s HI Hμ; [lia|]. simpl.
  apply wp_bind. eapply wp_mono; [by apply Hstep|].
  intros [l'|a] s1; simpl; [|by intros; apply wp_ret].
  intros [HI2 Hlt]. apply IH; [done|lia].
Qed.

Lemma wp_zoom {T A} (pget : S → T) (pset : T → S → S) (m : M T A) s
    (Q : A → S → Prop) :
  wp m (pget s) (λ a t, Q a (pset t s)) → wp (zoom pget pset m) s Q.
Proof. unfold wp, zoom. by destruct (m (pget s)) as [[??]|]. Qed.
End wp.

(** One step of symbolic execution of a goal [wp m s Q]. *)
Ltac wp_step :=
  lazymatch goal with
  | |- wp (mbind _ _) _ _ => apply wp_bind
  | |- wp (mret _) _ _ => apply wp_ret
  | |- wp get _ _ => apply wp_get
  | |- wp (gets _) _ _ => apply wp_gets
  | |- wp (modify _) _ _ => apply wp_modify
  | |- wp (when _ _) _ _ => apply wp_when; intros ?
  | |- wp (if _ then _ else _) _ _ => apply wp_if; intros ?
  | |- wp (zoom _ _ _) _ _ => apply wp_zoom
  end; cbn beta.
Ltac wp_steps := repeat wp_step.

(** ** Runs that return *)

Section inversion.
Context {S : Type}.

Lemma M_bind_inv {A B} (m : M S A) (k : A → M S B) s b s' :
  (m ≫= k) s = Ok (b, s') → ∃ a s1, m s = Ok (a, s1) ∧ k a s1 = Ok (b, s').
Proof. unfold mbind, M_bind. destruct (m s) as [[a s1]|f]; [eauto|done]. Qed.

Lemma zoom_inv {T A} (pget : S → T) (pset : T → S → S) (m : M T A) s a s' :
  zoom pget pset m s = Ok (a, s') → ∃ t, m (pget s) = Ok (a, t) ∧ s' = pset t s.
Proof. unfold zoom. destruct (m (pget s)) as [[b t]|f]; [|done]. intros [= -> <-]. eauto. Qed.

Lemma liftR_inv {A B} (r : Res A) (k : A → M S B) s b s' :
  (x ← liftR r; k x) s = Ok (b, s') → ∃ x, r = Ok x ∧ k x s = Ok (b, s').
Proof.
  intros (x&s1&E1&E2)%M_bind_inv. unfold liftR in E1. destruct r; [|done].
  injection E1 as -> ->. eauto.
Qed.

(** A run that returns keeps [P]. *)
Definition preserves {A} (P : S → Prop) (m : M S A) : Prop :=
  ∀ s a s', m s = Ok (a, s') → P s → P s'.

Section preserves.
Context (P : S → Prop).

Lemma preserves_bind {A B} (m : M S A) (k : A → M S B) :
  preserves P m → (∀ a, preserves P (k a)) → preserves P (m ≫= k).
Proof. intros Hm Hk s b s' (a&s1&E1&E2)%M_bind_inv Hs. eapply Hk; [exact E2|]. by eapply Hm. Qed.
(** After reading the state, it is known. *)
Lemma preserves_get_bind {B} (k : S → M S B) :
  (∀ s b s', k s s = Ok (b, s') → P s → P s') → preserves P (get ≫= k).
Proof. intros Hk s b s' (a&s1&[= <- <-]&E2)%M_bind_inv Hs. by eapply Hk. Qed.
Lemma preserves_ret {A} (a : A) : preserves P (mret a).
Proof. by intros s b s' [= _ <-]. Qed.
Lemma preserves_get : preserves P get.
Proof. by intros s b s' [= _ <-]. Qed.
Lemma preserves_gets {A} (f : S → A) : preserves P (gets f).
Proof. by intros s b s' [= _ <-]. Qed.
Lemma preserves_liftR {A} (r : Res A) : preserves P (liftR r).
Proof. intros s b s'. unfold liftR. destruct r; [|done]. by intros [= _ <-]. Qed.
Lemma preserves_throw {A} f : preserves P (throw (A := A) f).
Proof. by intros ???. Qed.
Lemma preserves_assertb b : preserves P (assertb b).
Proof. unfold assertb. destruct b; [apply preserves_ret|apply preserves_throw]. Qed.
Lemma preserves_when b m : preserves P m → preserves P (when b m).
Proof. destruct b; [done|intros _; apply preserves_ret]. Qed.
Lemma preserves_modify f : (∀ s, P s → P (f s)) → preserves P (modify f).
Proof. intros Hf s b s' [= _ <-]. apply Hf. Qed.
End preserves.
End inversion.

(** Goals [preserves P m] by the structure of [m], which is not unfolded. *)
Ltac preserves_step :=
  match goal with
  | |- preserves _ (mret _) => apply preserves_ret
  | |- preserves _ get => apply preserves_get
  | |- preserves _ (gets _) => apply preserves_gets
  | |- preserves _ (liftR _) => apply preserves_liftR
  | |- preserves _ (throw _) => apply preserves_throw
  | |- preserves _ (assertb _) => apply preserves_assertb
  | |- preserves _ (when _ _) => apply preserves_when
  | |- preserves _ (mbind _ _) => apply preserves_bind; [|intros ?]
  | |- preserves _ (let _ := _ in _) => cbv zeta
  | |- preserves _ (if ?b then _ else _) => destruct b
  | |- preserves _ (match ?b with _ => _ end) => destruct b
  end.
Ltac preserves := repeat preserves_step.

(** ** Taking an element out of a list *)

Section delete.
Context {A : Type}.
Implicit Types (l : list A) (i : nat).

Lemma elem_of_delete (x : A) l i : x ∈ l → l !! i ≠ Some x → x ∈ delete i l.
Proof.
  intros [k Hk]%list_elem_of_lookup Hi. apply list_elem_of_lookup.
  assert (k ≠ i) by congruence. destruct (decide (k < i)%nat).
  - exists k. by rewrite list_lookup_delete_lt.
  - exists (k - 1)%nat. rewrite list_lookup_delete_ge by lia. by replace (S (k - 1)) with k by lia.
Qed.

Lemma filter_delete (P : A → bool) l i x : l !! i = Some x →
  ∃ l1 l2, filter P l = l1 ++ (if P x then [x] else []) ++ l2 ∧ filter P (delete i l) = l1 ++ l2.
Proof.
  intros Hi. exists (filter P (take i l)), (filter P (drop (S i) l)).
  rewrite delete_take_drop, filter_app. split; [|done].
  rewrite <-(take_drop_middle l i x Hi) at 1. rewrite filter_app, filter_cons.
  by destruct (decide (P x)), (P x).
Qed.

(** One that [P] does not select leaves the selection alone. *)
Lemma filter_delete_other (P : A → bool) l i x :
  l !! i = Some x → P x = false → filter P (delete i l) = filter P l.
Proof. intros (l1&l2&->&->)%(filter_delete P) ->. done. Qed.

(** The only one selected. *)
Lemma filter_delete_only (P : A → bool) l i x y :
  l !! i = Some x → P x = true → filter P l = [y] → x = y ∧ filter P (delete i l) = [].
Proof.
  intros (l1&l2&->&->)%(filter_delete P) ->. intros E.
  destruct l1 as [|a l1]; [by destruct l2; simplify_list_eq|]. by destruct l1; simplify_list_eq.
Qed.
End delete.
