(* ===== verification/Text.v ===== *)
(** * Strings

    What the program uses of the C and C++ libraries' strings, as lists of
    character codes. *)

From stdpp Require Import pretty.
From S2P Require Import Prelude.

(** [std::string::substr], which throws when it starts behind the end *)
Definition substr (pos n : nat) (s : list Z) : Res (list Z) :=
  if (length s <? pos)%nat then Fault OutOfBounds else Ok (take n (drop pos s)).

Lemma substr_Ok pos n s : (pos ≤ length s)%nat → substr pos n s = Ok (take n (drop pos s)).
Proof. intros. unfold substr. by rewrite (proj2 (Nat.ltb_ge _ _)). Qed.
Lemma substr_short pos n s : (length s < pos)%nat → substr pos n s = Fault OutOfBounds.
Proof. intros. unfold substr. by rewrite (proj2 (Nat.ltb_lt _ _)). Qed.

(** The characters of a [const char*] *)
Fixpoint c_string (s : list Z) : list Z :=
  match s with
  | c :: s => if c =? 0 then [] else c :: c_string s
  | [] => []
  end.

(** An integer in decimal notation: [boost::lexical_cast<std::string>], [%u] *)
Definition codes (s : string) : list Z := (λ c, Z.of_N (Ascii.N_of_ascii c)) <$> String.list_ascii_of_string s.
Definition decimal (z : Z) : list Z := codes (pretty z).

#[export] Instance codes_inj : Inj (=) (=) codes.
Proof.
  intros s. unfold codes. induction s as [|c s IH]; intros [|c' s'] E; try done. injection E as Ec E.
  f_equal; [|by apply IH]. apply (inj Z.of_N), (f_equal Ascii.ascii_of_N) in Ec. by rewrite !Ascii.ascii_N_embedding in Ec.
Qed.
#[export] Instance decimal_inj : Inj (=) (=) decimal.
Proof. intros x y E. by apply (inj pretty), (inj codes). Qed.

(** The characters of a number, and how many there are *)
Definition numeral (c : Z) : Prop := c = 45 ∨ 48 ≤ c ≤ 57.
Lemma pretty_N_go_codes k x s : (x < 10 ^ N.of_nat k)%N → ∃ ds,
  codes (pretty_N_go x s) = ds ++ codes s ∧ (length ds ≤ k)%nat ∧ Forall numeral ds.
Proof.
  revert x s. induction k as [|k IH]; intros x s Hx.
  - exists []. replace x with 0%N by (cbn in Hx; lia). by split_and!.
  - destruct (decide (x = 0)%N) as [->|Hne]; [exists []; split_and!; [done|cbn; lia|done]|].
    rewrite pretty_N_go_step by lia. destruct (IH (x `div` 10)%N (String (pretty_N_char (x `mod` 10)) s)) as (ds&E&Hl&Hd).
    { apply N.Div0.div_lt_upper_bound. by rewrite <-N.pow_succ_r', <-Nat2N.inj_succ. }
    exists (ds ++ codes (String (pretty_N_char (x `mod` 10)) "")). split_and!.
    + rewrite E, <-app_assoc. done.
    + rewrite length_app. cbn. lia.
    + apply Forall_app. split; [done|]. constructor; [|done]. unfold numeral, pretty_N_char. repeat case_match; cbn; lia.
Qed.
Lemma pretty_N_codes k x : (x < 10 ^ N.of_nat (S k))%N → (length (codes (pretty x)) ≤ S k)%nat ∧ Forall numeral (codes (pretty x)).
Proof.
  intros Hx. unfold pretty, pretty_N. case_decide.
  - split; [cbn; lia|]. constructor; [right; cbn; lia|done].
  - destruct (pretty_N_go_codes (S k) x "") as (ds&->&Hl&Hd); [done|]. cbn. by rewrite app_nil_r.
Qed.
Lemma decimal_codes k z : - 10 ^ Z.of_nat (S k) < z < 10 ^ Z.of_nat (S k) → (length (decimal z) ≤ S (S k))%nat ∧ Forall numeral (decimal z).
Proof.
  intros Hz. assert (Z.of_N (10 ^ N.of_nat (S k)) = 10 ^ Z.of_nat (S k)) as Ep by (rewrite N2Z.inj_pow, nat_N_Z; done).
  unfold decimal. destruct z as [|p|p].
  - split; [cbn; lia|]. constructor; [right; cbn; lia|done].
  - change (pretty (Z.pos p)) with (pretty (N.pos p)). destruct (pretty_N_codes k (N.pos p)); [lia|]. split; [lia|done].
  - change (pretty (Z.neg p)) with ("-" +:+ pretty (N.pos p))%string. change (codes ("-" +:+ ?s)) with (45 :: codes s).
    destruct (pretty_N_codes k (N.pos p)); [lia|]. split; [cbn; lia|]. constructor; [by left|done].
Qed.
