(* ===== verification/Environment.v ===== *)
(** * What the program takes from libraries

    The program is written against Boost (asio addresses and timers,
    posix_time), an operating-system UDP socket and the random numbers of
    maidsafe-common.  None of that code belongs to the repository, so each is a
    parameter, an operational class; what the proofs use of it is a class of
    laws beside it.  [Sim] at the end is one concrete environment, used to run
    the model on examples. *)

From S2P Require Import Prelude.

(** ** boost::asio::ip::address *)

Class IpAddress := {
  ip_address : Type;
  ip_eq_dec :: EqDecision ip_address;
  (** the default constructed [address()] *)
  ip_none : ip_address;
  ip_is_v4 : ip_address → bool;
  (** [address_v6::v4_compatible(a.to_v4()).to_bytes()], for a v4 address *)
  ip_v4_compatible_bytes : ip_address → list Z;
  (** [a.to_v6().to_bytes()], for a v6 address *)
  ip_v6_bytes : ip_address → list Z;
  (** the [address_v6] with the given bytes, as an [address] *)
  ip_of_v6_bytes : list Z → ip_address;
  v6_is_v4_compatible : list Z → bool;
  (** [address_v6(bytes).to_v4()] as an [address] *)
  v6_to_v4 : list Z → ip_address;
}.

(** [to_bytes] gives sixteen octets. *)
Class IpAddressLaws `{IpAddress} : Prop := {
  ip_v4_compatible_ok a :
    length (ip_v4_compatible_bytes a) = 16%nat ∧ bytes_ok (ip_v4_compatible_bytes a);
  ip_v6_ok a : length (ip_v6_bytes a) = 16%nat ∧ bytes_ok (ip_v6_bytes a);
}.

(** ** boost::posix_time

    A [time_duration] is a count of microseconds, a [Z]; a [ptime] is abstract,
    with its special values.  Boost derives [a <= b] as [!(b < a)]. *)
Class PosixTime := {
  ptime : Type;
  ptime_ltb : ptime → ptime → bool;
  ptime_eqb : ptime → ptime → bool;
  ptime_add : ptime → Z → ptime;
  (** [(a - b).total_microseconds()] *)
  ptime_sub : ptime → ptime → Z;
  pos_infin : ptime;
  (** the default constructed [ptime()] *)
  not_a_date_time : ptime;
}.

Definition ptime_leb `{PosixTime} (a b : ptime) : bool := negb (ptime_ltb b a).

Definition milliseconds (n : Z) : Z := n * 1000.
Definition total_milliseconds (d : Z) : Z := Z.quot d 1000.

Class PosixTimeLaws `{PosixTime} := {
  finite : ptime → Prop;
  ptime_eqb_eq a b : ptime_eqb a b = true ↔ a = b;
  ltb_irrefl a : ptime_ltb a a = false;
  ltb_infin a : finite a → ptime_ltb a pos_infin = true;
  infin_ltb a : ptime_ltb pos_infin a = false;
  finite_add a d : finite a → finite (ptime_add a d);
  ltb_add a d1 d2 : finite a → ptime_ltb (ptime_add a d1) (ptime_add a d2) = (d1 <? d2);
  sub_add a d : finite a → ptime_sub (ptime_add a d) a = d;
  add_0 a : finite a → ptime_add a 0 = a;
  (** every two finite times differ by a duration *)
  finite_diff a b : finite a → finite b → ∃ d, b = ptime_add a d;
}.

(** ** The outside world *)

Record endpoint `{IpAddress} := Endpoint { ep_address : ip_address; ep_port : Z }.
#[export] Instance endpoint_eq_dec `{IpAddress} : EqDecision endpoint.
Proof. solve_decision. Defined.

(** the default constructed [ip::udp::endpoint()] *)
Definition endpoint_none `{IpAddress} : endpoint := Endpoint _ ip_none 0.

Record datagram `{IpAddress} := Datagram { dg_to : endpoint; dg_bytes : list Z }.

Class Environment := {
  env_ip :: IpAddress;
  env_time :: PosixTime;
  (** the [i]-th reading of the system clock *)
  clock : nat → ptime;
  (** whether [send_to] reports an error, given all datagrams handed to it so
      far, the last one first *)
  send_error : list datagram → bool;
  (** the [i]-th value of [RandomUint32()] *)
  random_uint32 : nat → Z;
}.

Class EnvironmentLaws `{Environment} := {
  env_ip_laws :: IpAddressLaws;
  env_time_laws :: PosixTimeLaws;
  clock_finite i : finite (clock i);
  (** the clock does not run backwards *)
  clock_mono i : ptime_ltb (clock (S i)) (clock i) = false;
  random_u32 i : is_u32 (random_uint32 i);
}.

Record World `{Environment} := MkWorld {
  w_clock : nat;               (** clock readings taken *)
  w_random : nat;              (** random numbers drawn *)
  w_sent : list datagram;      (** datagrams handed to [send_to], newest first *)
}.

Section world.
Context `{Environment}.

(** [deadline_timer::traits_type::now()] *)
Definition Now : M World ptime := λ w,
  Ok (clock (w_clock w), MkWorld _ (S (w_clock w)) (w_random w) (w_sent w)).

(** [maidsafe::RandomUint32()] *)
Definition RandomUint32 : M World Z := λ w,
  Ok (random_uint32 (w_random w), MkWorld _ (w_clock w) (S (w_random w)) (w_sent w)).

(** [ip::udp::socket::send_to], with the error code it sets *)
Definition send_to (ep : endpoint) (bytes : list Z) : M World bool := λ w,
  let sent := Datagram _ ep bytes :: w_sent w in
  Ok (send_error sent, MkWorld _ (w_clock w) (w_random w) sent).

Lemma wp_Now w (Q : ptime → World → Prop) :
  Q (clock (w_clock w)) (MkWorld _ (S (w_clock w)) (w_random w) (w_sent w)) →
  wp Now w Q.
Proof. done. Qed.
End world.

(** ** A concrete environment

    Addresses are bytes (four or sixteen of them), times are microseconds, the
    clock reads [t0 + i * step], nothing is lost by the network, and the random
    numbers are a fixed sequence. *)
Module Sim.

Inductive time := NotADateTime | PosInfin | At (us : Z).

Definition time_ltb (a b : time) : bool :=
  match a, b with
  | At x, At y => x <? y
  | At _, PosInfin => true
  | _, _ => false
  end.

Definition time_eqb (a b : time) : bool :=
  match a, b with
  | NotADateTime, NotADateTime | PosInfin, PosInfin => true
  | At x, At y => x =? y
  | _, _ => false
  end.

Definition time_add (a : time) (d : Z) : time :=
  match a with At x => At (x + d) | _ => a end.

Definition time_sub (a b : time) : Z :=
  match a, b with At x, At y => x - y | _, _ => 0 end.

#[export] Instance posix_time : PosixTime := {|
  ptime := time; ptime_ltb := time_ltb; ptime_eqb := time_eqb;
  ptime_add := time_add; ptime_sub := time_sub;
  pos_infin := PosInfin; not_a_date_time := NotADateTime |}.

Definition time_finite (a : time) : Prop := match a with At _ => True | _ => False end.

Lemma time_eqb_eq a b : time_eqb a b = true ↔ a = b.
Proof. destruct a, b; simpl; rewrite ?Z.eqb_eq; naive_solver. Qed.
Lemma time_ltb_irrefl a : time_ltb a a = false.
Proof. destruct a; simpl; [done|done|lia]. Qed.
Lemma time_ltb_infin a : time_finite a → time_ltb a PosInfin = true.
Proof. by destruct a. Qed.
Lemma time_infin_ltb a : time_ltb PosInfin a = false.
Proof. by destruct a. Qed.
Lemma time_finite_add a d : time_finite a → time_finite (time_add a d).
Proof. by destruct a. Qed.
Lemma time_ltb_add a d1 d2 :
  time_finite a → time_ltb (time_add a d1) (time_add a d2) = (d1 <? d2).
Proof. destruct a; simpl; intros; [done|done|lia]. Qed.
Lemma time_sub_add a d : time_finite a → time_sub (time_add a d) a = d.
Proof. destruct a; simpl; intros; [done|done|lia]. Qed.
Lemma time_add_0 a : time_finite a → time_add a 0 = a.
Proof. destruct a; simpl; intros; [done|done|f_equal; lia]. Qed.
Lemma time_finite_diff a b : time_finite a → time_finite b → ∃ d, b = time_add a d.
Proof.
  destruct a as [| |x], b as [| |y]; simpl; intros ??; try done.
  exists (y - x). f_equal. lia.
Qed.

#[export] Instance posix_time_laws : PosixTimeLaws := {|
  finite := time_finite : @ptime posix_time → Prop;
  ptime_eqb_eq := time_eqb_eq; ltb_irrefl := time_ltb_irrefl;
  ltb_infin := time_ltb_infin; infin_ltb := time_infin_ltb;
  finite_add := time_finite_add; ltb_add := time_ltb_add;
  sub_add := time_sub_add; add_0 := time_add_0; finite_diff := time_finite_diff |}.

Inductive address := V4 (a b c d : Z) | V6 (bytes : list Z).
#[export] Instance address_eq_dec : EqDecision address.
Proof. solve_decision. Defined.

Definition pad16 (l : list Z) : list Z := u8 <$> (take 16 (l ++ replicate 16 0)).

#[export] Instance ip : IpAddress := {|
  ip_address := address;
  ip_none := V4 0 0 0 0;
  ip_is_v4 a := match a with V4 _ _ _ _ => true | _ => false end;
  ip_v4_compatible_bytes a :=
    match a with V4 a b c d => pad16 (replicate 12 0 ++ [a; b; c; d]) | V6 _ => replicate 16 0 end;
  ip_v6_bytes a := match a with V6 l => pad16 l | V4 _ _ _ _ => replicate 16 0 end;
  ip_of_v6_bytes := V6;
  v6_is_v4_compatible l := bool_decide (take 12 l = replicate 12 0);
  v6_to_v4 l :=
    match drop 12 l with [a; b; c; d] => V4 a b c d | _ => V4 0 0 0 0 end |}.

Lemma pad16_ok l : length (pad16 l) = 16%nat ∧ bytes_ok (pad16 l).
Proof.
  unfold pad16. split.
  - rewrite length_fmap, length_take, length_app, length_replicate. lia.
  - apply Forall_fmap, Forall_true. intros x. simpl. unfold is_u8, u8. mod_lia.
Qed.

Lemma zeros_ok : length (replicate 16 0) = 16%nat ∧ bytes_ok (replicate 16 0).
Proof. split; [done|]. apply Forall_replicate. unfold is_u8. lia. Qed.

#[export] Instance ip_laws : IpAddressLaws.
Proof.
  split; intros []; first [apply pad16_ok | apply zeros_ok].
Qed.

(** [t0]: first clock reading; [step]: time between two readings. *)
#[export] Instance env (t0 step : Z) : Environment := {|
  clock i := (At (t0 + Z.of_nat i * step) : @ptime posix_time);
  send_error _ := false;
  random_uint32 i := u32 (1 + Z.of_nat i * 0x9e3779b1) |}.

Lemma sim_clock_mono t0 step i :
  0 ≤ step →
  time_ltb (At (t0 + Z.of_nat (S i) * step)) (At (t0 + Z.of_nat i * step)) = false.
Proof. intros. simpl. nia. Qed.

Lemma sim_random_u32 i : is_u32 (u32 (1 + Z.of_nat i * 0x9e3779b1)).
Proof. unfold is_u32, u32. apply Z.mod_pos_bound. lia. Qed.

#[export] Instance env_laws t0 step (Hstep : 0 ≤ step) : @EnvironmentLaws (env t0 step) :=
  {| 
  env_ip_laws := (ip_laws : @IpAddressLaws (@env_ip (env t0 step))); env_time_laws := posix_time_laws;
  clock_finite i := I : @finite posix_time posix_time_laws (At _);
  clock_mono i := sim_clock_mono t0 step i Hstep;
  random_u32 := sim_random_u32 |}.
End Sim.
