(* ===== verification/ByteOrder.v ===== *)
(** * Numbers in network byte order

    The length in front of a message (rudp_connection.cc, tcp_connection.cc,
    udp_transport.cc) and the fields of NAT-PMP packets, as the code composes
    them of bytes and takes them apart. *)

From S2P Require Import Prelude.

(** transport.h: [DataSize] is a signed 32-bit integer. *)
Definition DataSize (z : Z) : Z := (z + 2147483648) `mod` 4294967296 - 2147483648.

(** The bytes [size >> 24], .., [size] as they are pushed. *)
Definition size_bytes (size : Z) : list Z := (λ i, u8 (size ≫ (8 * (3 - i)))) <$> [0; 1; 2; 3].

(** [(((((b0 << 8) | b1) << 8) | b2) << 8) | b3] *)
Definition size_of_bytes (b0 b1 b2 b3 : Z) : Z :=
  DataSize (Z.lor ((Z.lor ((Z.lor (b0 ≪ 8) b1) ≪ 8) b2) ≪ 8) b3).

Definition htons (v : Z) : list Z := [u8 (v ≫ 8); u8 v].
Definition htonl (v : Z) : list Z := [u8 (v ≫ 24); u8 (v ≫ 16); u8 (v ≫ 8); u8 v].

Definition byte_at (buf : list Z) (i : nat) : Res Z :=
  match buf !! i with Some b => Ok b | None => Fault OutOfBounds end.
Definition ntohs_at (buf : list Z) (i : nat) : Res Z :=
  a ← byte_at buf i; b ← byte_at buf (i + 1); mret (Z.lor (a ≪ 8) b).
Definition ntohl_at (buf : list Z) (i : nat) : Res Z :=
  a ← ntohs_at buf i; b ← ntohs_at buf (i + 2); mret (Z.lor (a ≪ 16) b).

Lemma testbit_small b k i : 0 ≤ b < 2 ^ k → 0 ≤ k ≤ i → Z.testbit b i = false.
Proof.
  intros Hb Hi. destruct (decide (b = 0)) as [->|]; [apply Z.bits_0|].
  apply Z.bits_above_log2; [lia|]. apply Z.log2_lt_pow2; [lia|].
  eapply Z.lt_le_trans; [apply Hb|apply Z.pow_le_mono_r; lia].
Qed.

(** The low bits come from the second, the others from the first. *)
Lemma lor_shiftl a b k : 0 ≤ k → 0 ≤ b < 2 ^ k → Z.lor (a ≪ k) b = a * 2 ^ k + b.
Proof.
  intros Hk Hb. rewrite <-Z.shiftl_mul_pow2, <-Z.add_lor_land by done.
  replace (Z.land (a ≪ k) b) with 0; [lia|]. symmetry. apply Z.bits_inj'. intros i Hi.
  rewrite Z.bits_0, Z.land_spec, Z.shiftl_spec by done. destruct (decide (i < k)).
  - by rewrite Z.testbit_neg_r by lia.
  - rewrite (testbit_small b k i), andb_false_r by lia. done.
Qed.

Lemma u8_range z : 0 ≤ u8 z < 256.
Proof. unfold u8. mod_lia. Qed.

Lemma size_of_bytes_value b0 b1 b2 b3 :
  is_u8 b0 → is_u8 b1 → is_u8 b2 → is_u8 b3 →
  size_of_bytes b0 b1 b2 b3 = DataSize (((b0 * 256 + b1) * 256 + b2) * 256 + b3).
Proof.
  unfold is_u8, size_of_bytes. intros. rewrite !lor_shiftl by lia. done.
Qed.

Lemma DataSize_small z : 0 ≤ z < 2147483648 → DataSize z = z.
Proof. unfold DataSize. intros. rewrite Z.mod_small; lia. Qed.

(** A length survives the transmission. *)
Lemma size_bytes_round_trip z b0 b1 b2 b3 :
  0 ≤ z < 2147483648 → size_bytes z = [b0; b1; b2; b3] → size_of_bytes b0 b1 b2 b3 = z.
Proof.
  intros Hz E. unfold size_bytes in E. cbn [fmap list_fmap Z.sub Z.mul Z.add Z.opp Z.pos_sub Pos.mul] in E.
  injection E as <- <- <- <-. rewrite size_of_bytes_value by apply u8_range.
  rewrite <-(DataSize_small z) at 5 by done. f_equal.
  rewrite !Z.shiftr_div_pow2 by lia. unfold u8. cbn. mod_lia.
Qed.

Lemma length_size_bytes z : length (size_bytes z) = 4%nat.
Proof. done. Qed.
Lemma size_bytes_ok z : bytes_ok (size_bytes z).
Proof. unfold size_bytes, bytes_ok. apply Forall_fmap, Forall_true. intros i. apply u8_range. Qed.

Lemma byte_at_lt buf i : (i < length buf)%nat → byte_at buf i = Ok (buf !!! i).
Proof. intros Hi. unfold byte_at. by rewrite list_lookup_lookup_total_lt. Qed.

Lemma byte_at_app pre l i j b : l !! i = Some b → j = (length pre + i)%nat → byte_at (pre ++ l) j = Ok b.
Proof.
  intros E ->. unfold byte_at. rewrite lookup_app_r by lia.
  by replace (length pre + i - length pre)%nat with i by lia; rewrite E.
Qed.

(** Fields of 16 and of 32 bits, wherever they are. *)
Lemma ntohs_at_app pre v post :
  is_u16 v → ntohs_at (pre ++ htons v ++ post) (length pre) = Ok v.
Proof.
  unfold is_u16. intros Hv. unfold ntohs_at.
  rewrite (byte_at_app pre (htons v ++ post) 0 (length pre) (u8 (v ≫ 8))) by (reflexivity || lia).
  cbn [mbind Res_bind]. rewrite (byte_at_app pre (htons v ++ post) 1 (length pre + 1) (u8 v)) by reflexivity.
  cbn [mbind Res_bind]. unfold mret, Res_ret. f_equal. rewrite lor_shiftl by (lia || apply u8_range).
  rewrite Z.shiftr_div_pow2 by lia. unfold u8. cbn. mod_lia.
Qed.

Lemma ntohl_at_app pre v post :
  is_u32 v → ntohl_at (pre ++ htonl v ++ post) (length pre) = Ok v.
Proof.
  unfold is_u32. intros Hv. unfold ntohl_at.
  assert (htonl v = htons (v / 65536) ++ htons (v `mod` 65536)) as ->.
  { unfold htonl, htons, u8. rewrite !Z.shiftr_div_pow2 by lia. cbn [app].
    change (2 ^ 24) with 16777216. change (2 ^ 16) with 65536. change (2 ^ 8) with 256.
    repeat (apply (f_equal2 cons); [mod_lia|]). done. }
  rewrite <-app_assoc, ntohs_at_app by (unfold is_u16; mod_lia).
  cbn [mbind Res_bind]. rewrite app_assoc.
  replace (length pre + 2)%nat with (length (pre ++ htons (v / 65536)))
    by (rewrite length_app; done).
  rewrite ntohs_at_app by (unfold is_u16; mod_lia). cbn [mbind Res_bind]. unfold mret, Res_ret. f_equal.
  rewrite lor_shiftl by (cbn; mod_lia). cbn. mod_lia.
Qed.
