(* ===== verification/Packet.v ===== *)
(** * Byte buffers and the base class of all RUDP packets

    Models src/maidsafe/transport/rudp_packet.cc: the big-endian integer
    helpers [RudpPacket::DecodeUint32] and [RudpPacket::EncodeUint32] and the
    peek at the destination socket id that the dispatcher performs on every
    datagram.  A buffer is the list of its bytes; every access checks its
    bound, so that "returns [Ok]" includes memory safety. *)

From S2P Require Import Prelude.

(** [p[i]] read and written through an [unsigned char *] into a buffer. *)
Definition rd (buf : list Z) (i : nat) : Res Z :=
  match buf !! i with Some b => Ok b | None => Fault OutOfBounds end.

Definition wr (buf : list Z) (i : nat) (b : Z) : Res (list Z) :=
  if decide (i < length buf)%nat then Ok (<[i:=b]> buf) else Fault OutOfBounds.

(** [std::memcpy] into a buffer at [p + off], and out of it. *)
Definition wr_bytes (buf : list Z) (off : nat) (bs : list Z) : Res (list Z) :=
  if decide (off + length bs ≤ length buf)%nat then Ok (list_inserts off bs buf)
  else Fault OutOfBounds.

Definition rd_bytes (buf : list Z) (off n : nat) : Res (list Z) :=
  if decide (off + n ≤ length buf)%nat then Ok (take n (drop off buf))
  else Fault OutOfBounds.

Definition buffer_size (buf : list Z) : Z := Z.of_nat (length buf).

(** ** RudpPacket *)

Definition DecodeUint32 (p : list Z) (off : nat) : Res Z :=
  p0 ← rd p (off + 0);
  p1 ← rd p (off + 1);
  p2 ← rd p (off + 2);
  p3 ← rd p (off + 3);
  let n := p0 in
  let n := Z.lor (u32 (n ≪ 8)) p1 in
  let n := Z.lor (u32 (n ≪ 8)) p2 in
  let n := Z.lor (u32 (n ≪ 8)) p3 in
  Ok n.

Definition EncodeUint32 (n : Z) (p : list Z) (off : nat) : Res (list Z) :=
  p ← wr p (off + 0) (Z.land (n ≫ 24) 255);
  p ← wr p (off + 1) (Z.land (n ≫ 16) 255);
  p ← wr p (off + 2) (Z.land (n ≫ 8) 255);
  wr p (off + 3) (Z.land n 255).

Definition DecodeDestinationSocketId (data : list Z) : Res (bool * Z) :=
  if buffer_size data <? 16 then Ok (false, 0)
  else id ← DecodeUint32 data 12; Ok (true, id).

(** ** Bytes *)

Lemma land_255 n : Z.land n 255 = n `mod` 256.
Proof. change 255 with (Z.ones 8). by rewrite Z.land_ones. Qed.

Lemma shiftr_mod n k : 0 ≤ k → Z.land (n ≫ k) 255 = (n / 2 ^ k) `mod` 256.
Proof. intros. by rewrite land_255, Z.shiftr_div_pow2. Qed.

Lemma land_255_u8 n : is_u8 (Z.land n 255).
Proof. rewrite land_255. unfold is_u8. mod_lia. Qed.

(** [n << 8 | b] is [n * 256 + b] on bytes. *)
Lemma lor_shift8 n b : 0 ≤ n < 16777216 → is_u8 b → Z.lor (u32 (n ≪ 8)) b = n * 256 + b.
Proof.
  intros Hn Hb. unfold u32. rewrite Z.shiftl_mul_pow2 by lia.
  change (2 ^ 8) with 256. rewrite Z.mod_small by lia.
  rewrite <-Z.add_lor_land.
  replace (Z.land (n * 256) b) with 0; [lia|].
  symmetry. apply Z.bits_inj'. intros k Hk. rewrite Z.bits_0, Z.land_spec.
  change 256 with (2 ^ 8). rewrite <-Z.shiftl_mul_pow2, Z.shiftl_spec by lia.
  destruct (decide (k < 8)).
  - by rewrite Z.testbit_neg_r by lia.
  - rewrite (Z.bits_above_log2 b k), andb_false_r; [done|unfold is_u8 in Hb; lia|].
    unfold is_u8 in Hb. destruct (decide (b = 0)) as [->|]; [simpl; lia|].
    apply Z.log2_lt_pow2; [lia|].
    apply Z.lt_le_trans with (2 ^ 8); [simpl; lia|apply Z.pow_le_mono_r; lia].
Qed.

Lemma combine4 b0 b1 b2 b3 :
  is_u8 b0 → is_u8 b1 → is_u8 b2 → is_u8 b3 →
  Z.lor (u32 (Z.lor (u32 (Z.lor (u32 (b0 ≪ 8)) b1 ≪ 8)) b2 ≪ 8)) b3
  = ((b0 * 256 + b1) * 256 + b2) * 256 + b3.
Proof.
  unfold is_u8. intros.
  rewrite (lor_shift8 b0), (lor_shift8 (_ + b1)), (lor_shift8 (_ + b2));
    unfold is_u8; lia.
Qed.

(** ** Accesses *)

Section access.
Implicit Types (buf : list Z).

Lemma rd_lookup buf i b : buf !! i = Some b → rd buf i = Ok b.
Proof. unfold rd. by intros ->. Qed.

Lemma rd_ok buf i : (i < length buf)%nat → ∃ b, rd buf i = Ok b ∧ buf !! i = Some b.
Proof.
  intros [b Hb]%lookup_lt_is_Some_2. exists b. split; [by apply rd_lookup|done].
Qed.

Lemma rd_u8 buf i b : bytes_ok buf → rd buf i = Ok b → is_u8 b.
Proof.
  unfold rd. intros Hb. destruct (buf !! i) eqn:E; [|done]. intros [= <-].
  by eapply (Forall_lookup_1 _ _ _ _ Hb).
Qed.

Lemma wr_ok buf i b : (i < length buf)%nat → wr buf i b = Ok (<[i:=b]> buf).
Proof. intros. unfold wr. by rewrite decide_True. Qed.

Lemma rd_insert_eq buf i b : (i < length buf)%nat → rd (<[i:=b]> buf) i = Ok b.
Proof. intros. apply rd_lookup. by apply list_lookup_insert_eq. Qed.

Lemma rd_insert_ne buf i j b : i ≠ j → rd (<[i:=b]> buf) j = rd buf j.
Proof. intros. unfold rd. by rewrite list_lookup_insert_ne. Qed.

Lemma rd_take buf n i : (i < n)%nat → rd (take n buf) i = rd buf i.
Proof. intros. unfold rd. by rewrite lookup_take_lt. Qed.

Lemma wr_bytes_ok buf off bs :
  (off + length bs ≤ length buf)%nat → wr_bytes buf off bs = Ok (list_inserts off bs buf).
Proof. intros. unfold wr_bytes. by rewrite decide_True. Qed.

Lemma rd_bytes_ok buf off n :
  (off + n ≤ length buf)%nat → rd_bytes buf off n = Ok (take n (drop off buf)).
Proof. intros. unfold rd_bytes. by rewrite decide_True. Qed.

Lemma rd_list_inserts_ne buf off bs i :
  (i < off ∨ off + length bs ≤ i)%nat → rd (list_inserts off bs buf) i = rd buf i.
Proof.
  intros [|]; unfold rd; [by rewrite list_lookup_inserts_lt|by rewrite list_lookup_inserts_ge].
Qed.

Lemma take_drop_list_inserts buf off bs :
  (off + length bs ≤ length buf)%nat →
  take (length bs) (drop off (list_inserts off bs buf)) = bs.
Proof.
  intros H. apply list_eq. intros i.
  destruct (decide (i < length bs)%nat).
  - rewrite lookup_take_lt, lookup_drop, list_lookup_inserts by lia. f_equal. lia.
  - rewrite lookup_take_ge by lia. symmetry. apply lookup_ge_None. lia.
Qed.

Lemma wr_OutOfBounds buf i b : (length buf ≤ i)%nat → wr buf i b = Fault OutOfBounds.
Proof. intros. unfold wr. rewrite decide_False; [done|lia]. Qed.
End access.

(** ** Integers in a buffer *)

(** What [EncodeUint32] leaves in the buffer. *)
Definition put32 (n : Z) (p : list Z) (off : nat) : list Z :=
  <[(off + 3)%nat := Z.land n 255]> (<[(off + 2)%nat := Z.land (n ≫ 8) 255]>
  (<[(off + 1)%nat := Z.land (n ≫ 16) 255]>
  (<[(off + 0)%nat := Z.land (n ≫ 24) 255]> p))).

Lemma length_put32 n p off : length (put32 n p off) = length p.
Proof. unfold put32. by rewrite !length_insert. Qed.

Lemma EncodeUint32_ok n p off :
  (off + 4 ≤ length p)%nat → EncodeUint32 n p off = Ok (put32 n p off).
Proof.
  intros H. unfold EncodeUint32.
  rewrite wr_ok, Res_bind_ok by lia.
  rewrite wr_ok, Res_bind_ok by (rewrite ?length_insert; lia).
  rewrite wr_ok, Res_bind_ok by (rewrite ?length_insert; lia).
  by rewrite wr_ok by (rewrite ?length_insert; lia).
Qed.

Lemma DecodeUint32_ok p off :
  (off + 4 ≤ length p)%nat → ∃ n, DecodeUint32 p off = Ok n.
Proof.
  intros H. unfold DecodeUint32.
  destruct (rd_ok p (off + 0)) as (?&->&_); [lia|].
  destruct (rd_ok p (off + 1)) as (?&->&_); [lia|].
  destruct (rd_ok p (off + 2)) as (?&->&_); [lia|].
  destruct (rd_ok p (off + 3)) as (?&->&_); [lia|].
  rewrite !Res_bind_ok. eauto.
Qed.

Lemma rd_put32_ne n p off i :
  (i < off ∨ off + 4 ≤ i)%nat → rd (put32 n p off) i = rd p i.
Proof. intros. unfold put32. by rewrite !rd_insert_ne by lia. Qed.

Lemma DecodeUint32_put32_eq n p off :
  (off + 4 ≤ length p)%nat → is_u32 n → DecodeUint32 (put32 n p off) off = Ok n.
Proof.
  intros Hl Hn. unfold DecodeUint32, put32.
  repeat first [rewrite rd_insert_eq by (rewrite ?length_insert; lia)
               |rewrite rd_insert_ne by lia].
  rewrite !Res_bind_ok, combine4 by apply land_255_u8. f_equal.
  rewrite !shiftr_mod, land_255 by lia.
  change (2 ^ 24) with 16777216. change (2 ^ 16) with 65536. change (2 ^ 8) with 256.
  unfold is_u32 in Hn. mod_lia.
Qed.

Lemma DecodeUint32_put32_ne n p off off' :
  (off + 4 ≤ off' ∨ off' + 4 ≤ off)%nat →
  DecodeUint32 (put32 n p off') off = DecodeUint32 p off.
Proof. intros. unfold DecodeUint32. by rewrite !rd_put32_ne by lia. Qed.

Lemma DecodeUint32_insert_ne p off i b :
  (i < off ∨ off + 4 ≤ i)%nat →
  DecodeUint32 (<[i:=b]> p) off = DecodeUint32 p off.
Proof. intros. unfold DecodeUint32. by rewrite !rd_insert_ne by lia. Qed.

Lemma DecodeUint32_list_inserts_ne p off off' bs :
  (off + 4 ≤ off' ∨ off' + length bs ≤ off)%nat →
  DecodeUint32 (list_inserts off' bs p) off = DecodeUint32 p off.
Proof. intros. unfold DecodeUint32. by rewrite !rd_list_inserts_ne by lia. Qed.

Lemma DecodeUint32_take p n off :
  (off + 4 ≤ n)%nat → DecodeUint32 (take n p) off = DecodeUint32 p off.
Proof. intros. unfold DecodeUint32. by rewrite !rd_take by lia. Qed.

Lemma DecodeUint32_u32 p off n :
  bytes_ok p → DecodeUint32 p off = Ok n → is_u32 n.
Proof.
  intros Hb. unfold DecodeUint32.
  destruct (rd p (off + 0)) as [b0|] eqn:E0; [|done].
  destruct (rd p (off + 1)) as [b1|] eqn:E1; [|done].
  destruct (rd p (off + 2)) as [b2|] eqn:E2; [|done].
  destruct (rd p (off + 3)) as [b3|] eqn:E3; [|done].
  apply rd_u8 in E0, E1, E2, E3; try done.
  rewrite !Res_bind_ok, combine4 by done. intros [= <-].
  unfold is_u8, is_u32 in *. lia.
Qed.

Create Rewrite HintDb codec.
#[export] Hint Rewrite length_put32 @length_insert @length_take @length_inserts : codec.
#[export] Hint Rewrite DecodeUint32_put32_eq using (autorewrite with codec; done || lia) : codec.
#[export] Hint Rewrite DecodeUint32_put32_ne using lia : codec.
#[export] Hint Rewrite DecodeUint32_insert_ne using lia : codec.
#[export] Hint Rewrite rd_put32_ne using lia : codec.
#[export] Hint Rewrite rd_insert_eq using (autorewrite with codec; lia) : codec.
#[export] Hint Rewrite rd_insert_ne using lia : codec.
#[export] Hint Rewrite EncodeUint32_ok using (autorewrite with codec; lia) : codec.
#[export] Hint Rewrite wr_ok using (autorewrite with codec; lia) : codec.

(** The dispatcher's peek never reads outside the datagram, whatever the
    datagram holds, and refuses exactly the datagrams shorter than a header. *)
Lemma DecodeDestinationSocketId_total data :
  ∃ id, DecodeDestinationSocketId data = Ok (16 <=? buffer_size data, id).
Proof.
  unfold DecodeDestinationSocketId.
  destruct (buffer_size data <? 16) eqn:E.
  - exists 0. do 2 f_equal. lia.
  - destruct (DecodeUint32_ok data 12) as [n ->]; [unfold buffer_size in E; lia|].
    exists n. rewrite Res_bind_ok. do 2 f_equal. lia.
Qed.
