(* ===== verification/ControlPackets.v ===== *)
(** * The control packets

    Models the classes of src/maidsafe/transport/rudp_control_packet.cc,
    rudp_handshake_packet.cc, rudp_ack_packet.cc, rudp_ack_of_ack_packet.cc,
    rudp_negative_ack_packet.cc, rudp_keepalive_packet.cc and
    rudp_shutdown_packet.cc, one Module per class.  [Decode] is a member
    function that overwrites the object it is called on: it takes the old
    object and returns the flag and the new object.  [Encode] takes the output
    buffer and returns the number of bytes and the buffer it leaves. *)

From S2P Require Import Prelude Packet.

(** ** RudpControlPacket *)
Module ControlPacket.

Definition kHeaderSize : Z := 16.

Record t := Mk {
  type_ : Z;
  additional_info_ : Z;
  time_stamp_ : Z;
  destination_socket_id_ : Z;
}.

Definition new : t := Mk 0 0 0 0.

Definition Type' (p : t) : Z := type_ p.
Definition SetType (n : Z) (p : t) : Res t :=
  if n <=? 32767
  then Ok (Mk n (additional_info_ p) (time_stamp_ p) (destination_socket_id_ p))
  else Fault AssertionFailed.

Definition AdditionalInfo (p : t) : Z := additional_info_ p.
Definition SetAdditionalInfo (n : Z) (p : t) : t :=
  Mk (type_ p) n (time_stamp_ p) (destination_socket_id_ p).

Definition TimeStamp (p : t) : Z := time_stamp_ p.
Definition SetTimeStamp (n : Z) (p : t) : t :=
  Mk (type_ p) (additional_info_ p) n (destination_socket_id_ p).

Definition DestinationSocketId (p : t) : Z := destination_socket_id_ p.
Definition SetDestinationSocketId (n : Z) (p : t) : t :=
  Mk (type_ p) (additional_info_ p) (time_stamp_ p) n.

Definition IsValidBase (buffer : list Z) (expected_packet_type : Z) : Res bool :=
  if negb (kHeaderSize <=? buffer_size buffer) then Ok false
  else
    p0 ← rd buffer 0;
    if Z.land p0 128 =? 0 then Ok false
    else if negb (Z.land p0 127 =? Z.land (expected_packet_type ≫ 8) 127) then Ok false
    else
      p1 ← rd buffer 1;
      Ok (p1 =? Z.land expected_packet_type 255).

Definition DecodeBase (buffer : list Z) (expected_packet_type : Z) (pkt : t) : Res (bool * t) :=
  valid ← IsValidBase buffer expected_packet_type;
  if negb valid then Ok (false, pkt)
  else
    p0 ← rd buffer 0;
    let ty := Z.land p0 127 in
    p1 ← rd buffer 1;
    let ty := Z.lor (u16 (ty ≪ 8)) p1 in
    info ← DecodeUint32 buffer 4;
    stamp ← DecodeUint32 buffer 8;
    dest ← DecodeUint32 buffer 12;
    Ok (true, Mk ty info stamp dest).

Definition EncodeBase (pkt : t) (buffer : list Z) : Res (Z * list Z) :=
  if buffer_size buffer <? kHeaderSize then Ok (0, buffer)
  else
    p ← wr buffer 0 (Z.land (type_ pkt ≫ 8) 127);
    p0 ← rd p 0;
    p ← wr p 0 (Z.lor p0 128);
    p ← wr p 1 (Z.land (type_ pkt) 255);
    p ← wr p 3 0;
    p ← wr p 2 0;
    p ← EncodeUint32 (additional_info_ pkt) p 4;
    p ← EncodeUint32 (time_stamp_ pkt) p 8;
    p ← EncodeUint32 (destination_socket_id_ pkt) p 12;
    Ok (kHeaderSize, p).

(** Every field is in the range of its C type, and the type in 15 bits. *)
Definition wf (p : t) : Prop :=
  0 ≤ type_ p ≤ 32767 ∧ is_u32 (additional_info_ p) ∧
  is_u32 (time_stamp_ p) ∧ is_u32 (destination_socket_id_ p).

(** What [EncodeBase] leaves in a buffer that is large enough. *)
Definition put_base (pkt : t) (p : list Z) : list Z :=
  put32 (destination_socket_id_ pkt) (put32 (time_stamp_ pkt)
    (put32 (additional_info_ pkt)
      (<[2%nat := 0]> (<[3%nat := 0]> (<[1%nat := Z.land (type_ pkt) 255]>
        (<[0%nat := Z.lor (Z.land (type_ pkt ≫ 8) 127) 128]>
          (<[0%nat := Z.land (type_ pkt ≫ 8) 127]> p)))))
      4) 8) 12.

Lemma length_put_base pkt p : length (put_base pkt p) = length p.
Proof. unfold put_base. by autorewrite with codec. Qed.

Lemma EncodeBase_short pkt p : buffer_size p < 16 → EncodeBase pkt p = Ok (0, p).
Proof. intros. unfold EncodeBase, kHeaderSize. by rewrite (proj2 (Z.ltb_lt _ _)). Qed.

Lemma EncodeBase_ok pkt p :
  16 ≤ buffer_size p → EncodeBase pkt p = Ok (16, put_base pkt p).
Proof.
  intros H. unfold EncodeBase, kHeaderSize. rewrite (proj2 (Z.ltb_ge _ _)) by done.
  unfold buffer_size in H.
  repeat (autorewrite with codec; rewrite Res_bind_ok). done.
Qed.

Lemma IsValidBase_total p t : ∃ b, IsValidBase p t = Ok b.
Proof.
  unfold IsValidBase, kHeaderSize.
  destruct (negb (16 <=? buffer_size p)) eqn:E; [eauto|].
  unfold buffer_size in E.
  destruct (rd_ok p 0) as (b0&->&_); [lia|].
  destruct (rd_ok p 1) as (b1&->&_); [lia|].
  rewrite !Res_bind_ok. repeat case_match; eauto.
Qed.

Lemma IsValidBase_size p t : IsValidBase p t = Ok true → 16 ≤ buffer_size p.
Proof.
  unfold IsValidBase, kHeaderSize. destruct (16 <=? buffer_size p) eqn:E; [lia|done].
Qed.

Lemma DecodeBase_valid p t pkt :
  IsValidBase p t = Ok true → ∃ pkt', DecodeBase p t pkt = Ok (true, pkt').
Proof.
  intros H. pose proof (IsValidBase_size _ _ H) as Hs. unfold buffer_size in Hs.
  unfold DecodeBase. rewrite H, Res_bind_ok. cbn [negb].
  destruct (rd_ok p 0) as (b0&->&_); [lia|].
  destruct (rd_ok p 1) as (b1&->&_); [lia|].
  destruct (DecodeUint32_ok p 4) as [? ->]; [lia|].
  destruct (DecodeUint32_ok p 8) as [? ->]; [lia|].
  destruct (DecodeUint32_ok p 12) as [? ->]; [lia|].
  rewrite !Res_bind_ok. eauto.
Qed.

Lemma DecodeBase_total p t pkt : ∃ r, DecodeBase p t pkt = Ok r.
Proof.
  destruct (IsValidBase_total p t) as [[] E].
  - destruct (DecodeBase_valid p t pkt E) as [? ->]. eauto.
  - unfold DecodeBase. rewrite E, Res_bind_ok. cbn. eauto.
Qed.

(** Bits of the two type bytes. *)
Lemma type_byte0 n : 0 ≤ n ≤ 32767 →
  Z.land (Z.lor (Z.land (n ≫ 8) 127) 128) 128 = 128 ∧
  Z.land (Z.lor (Z.land (n ≫ 8) 127) 128) 127 = Z.land (n ≫ 8) 127.
Proof.
  intros Hn. split; apply Z.bits_inj'; intros k Hk;
    rewrite ?Z.land_spec, ?Z.lor_spec, ?Z.land_spec;
    change 128 with (2 ^ 7); change 127 with (Z.ones 7);
    rewrite Z.testbit_ones by lia; rewrite Z.pow2_bits_eqb by lia;
    destruct (Z.testbit (n ≫ 8) k), (decide (k < 7)), (decide (k = 7)); lia.
Qed.

Lemma type_recombine n : 0 ≤ n ≤ 32767 →
  Z.lor (u16 (Z.land (n ≫ 8) 127 ≪ 8)) (Z.land n 255) = n.
Proof.
  intros Hn. rewrite land_255. change 127 with (Z.ones 7).
  rewrite Z.land_ones, Z.shiftr_div_pow2 by lia.
  change (2 ^ 7) with 128. change (2 ^ 8) with 256.
  rewrite (Z.mod_small (n / 256)) by mod_lia.
  replace (u16 ((n / 256) ≪ 8)) with (u32 ((n / 256) ≪ 8)).
  - rewrite lor_shift8; unfold is_u8; mod_lia.
  - unfold u32, u16. rewrite Z.shiftl_mul_pow2 by lia. change (2 ^ 8) with 256. mod_lia.
Qed.

(** A buffer that starts with the sixteen bytes [EncodeBase] writes. *)
Definition has_base (pkt : t) (q : list Z) : Prop :=
  (16 ≤ length q)%nat ∧
  ∃ p, (16 ≤ length p)%nat ∧ ∀ i, (i < 16)%nat → rd q i = rd (put_base pkt p) i.

Lemma control_has_base_put pkt p : (16 ≤ length p)%nat → has_base pkt (put_base pkt p).
Proof. intros. split; [by rewrite length_put_base|eauto]. Qed.

Lemma has_base_agree pkt q q' :
  has_base pkt q → (16 ≤ length q')%nat →
  (∀ i, (i < 16)%nat → rd q' i = rd q i) → has_base pkt q'.
Proof.
  intros (?&p&?&Hag) ? Hag'. split; [done|]. exists p. split; [done|].
  intros i ?. by rewrite Hag', Hag.
Qed.

Section decode.
Context (pkt : t) (q : list Z) (Hwf : wf pkt) (Hq : has_base pkt q).

Lemma rd_base_0 : rd q 0 = Ok (Z.lor (Z.land (type_ pkt ≫ 8) 127) 128).
Proof.
  destruct Hq as (_&p&?&->); [|lia]. unfold put_base. by autorewrite with codec.
Qed.

Lemma rd_base_1 : rd q 1 = Ok (Z.land (type_ pkt) 255).
Proof.
  destruct Hq as (_&p&?&->); [|lia]. unfold put_base. by autorewrite with codec.
Qed.

Lemma IsValidBase_put t :
  0 ≤ t ≤ 32767 → IsValidBase q t = Ok (bool_decide (type_ pkt = t)).
Proof.
  intros Ht. unfold IsValidBase, kHeaderSize, buffer_size.
  destruct Hq as [Hlen _].
  replace (16 <=? Z.of_nat (length q)) with true by lia. cbn [negb].
  destruct Hwf as [Hty _]. destruct (type_byte0 _ Hty) as [E1 E2].
  rewrite rd_base_0, rd_base_1, !Res_bind_ok, E1, E2. cbn [Z.eqb].
  pose proof (type_recombine _ Hty) as R1. pose proof (type_recombine _ Ht) as R2.
  case_bool_decide as Hd.
  - subst t. by rewrite !Z.eqb_refl.
  - destruct (_ =? _) eqn:A; [|done]. cbn [negb].
    destruct (_ =? _) eqn:B in |- *; [|done].
    exfalso. apply Hd. rewrite <-R1, <-R2.
    apply Z.eqb_eq in A, B. by rewrite A, B.
Qed.

Lemma DecodeBase_put pkt0 :
  DecodeBase q (type_ pkt) pkt0 = Ok (true, pkt).
Proof.
  unfold DecodeBase. pose proof Hwf as (Hty&Hi&Hs&Hd).
  rewrite IsValidBase_put, bool_decide_true, Res_bind_ok by done. cbn [negb].
  destruct (type_byte0 _ Hty) as [_ E2].
  rewrite rd_base_0, rd_base_1.
  destruct Hq as (_&p&?&Hag). unfold DecodeUint32. rewrite !Hag by lia.
  fold (DecodeUint32 (put_base pkt p) 4). fold (DecodeUint32 (put_base pkt p) 8).
  fold (DecodeUint32 (put_base pkt p) 12). unfold put_base.
  autorewrite with codec. rewrite !Res_bind_ok, E2, type_recombine by done.
  by destruct pkt.
Qed.
End decode.
End ControlPacket.
