(* ===== verification/HandshakePacket.v ===== *)
(** * The handshake packet

    Models src/maidsafe/transport/rudp_handshake_packet.cc. *)

From S2P Require Import Prelude Environment Packet ControlPackets.

Definition kPacketSize : Z := 64.
Definition kPacketType : Z := 0.
Definition kStreamSocketType : Z := 0.
Definition kDatagramSocketType : Z := 1.

Record t := Mk {
  base : ControlPacket.t;
  rudp_version_ : Z;
  socket_type_ : Z;
  initial_packet_sequence_number_ : Z;
  maximum_packet_size_ : Z;
  maximum_flow_window_size_ : Z;
  connection_type_ : Z;
  socket_id_ : Z;
  syn_cookie_ : Z;
  ip_address_ : list Z;
}.

Definition new : Res t :=
  b ← ControlPacket.SetType kPacketType ControlPacket.new;
  Ok (Mk b 0 0 0 0 0 0 0 0 (replicate 16 0)).

Definition RudpVersion (p : t) : Z := rudp_version_ p.
Definition SetRudpVersion (n : Z) (p : t) : t :=
  Mk (base p) n (socket_type_ p) (initial_packet_sequence_number_ p)
    (maximum_packet_size_ p) (maximum_flow_window_size_ p) (connection_type_ p)
    (socket_id_ p) (syn_cookie_ p) (ip_address_ p).

Definition SocketType (p : t) : Z := socket_type_ p.
Definition SetSocketType (n : Z) (p : t) : t :=
  Mk (base p) (rudp_version_ p) n (initial_packet_sequence_number_ p)
    (maximum_packet_size_ p) (maximum_flow_window_size_ p) (connection_type_ p)
    (socket_id_ p) (syn_cookie_ p) (ip_address_ p).

Definition InitialPacketSequenceNumber (p : t) : Z := initial_packet_sequence_number_ p.
Definition SetInitialPacketSequenceNumber (n : Z) (p : t) : t :=
  Mk (base p) (rudp_version_ p) (socket_type_ p) n
    (maximum_packet_size_ p) (maximum_flow_window_size_ p) (connection_type_ p)
    (socket_id_ p) (syn_cookie_ p) (ip_address_ p).

Definition MaximumPacketSize (p : t) : Z := maximum_packet_size_ p.
Definition SetMaximumPacketSize (n : Z) (p : t) : t :=
  Mk (base p) (rudp_version_ p) (socket_type_ p) (initial_packet_sequence_number_ p)
    n (maximum_flow_window_size_ p) (connection_type_ p)
    (socket_id_ p) (syn_cookie_ p) (ip_address_ p).

Definition MaximumFlowWindowSize (p : t) : Z := maximum_flow_window_size_ p.
Definition SetMaximumFlowWindowSize (n : Z) (p : t) : t :=
  Mk (base p) (rudp_version_ p) (socket_type_ p) (initial_packet_sequence_number_ p)
    (maximum_packet_size_ p) n (connection_type_ p)
    (socket_id_ p) (syn_cookie_ p) (ip_address_ p).

Definition ConnectionType (p : t) : Z := connection_type_ p.
Definition SetConnectionType (n : Z) (p : t) : t :=
  Mk (base p) (rudp_version_ p) (socket_type_ p) (initial_packet_sequence_number_ p)
    (maximum_packet_size_ p) (maximum_flow_window_size_ p) n
    (socket_id_ p) (syn_cookie_ p) (ip_address_ p).

Definition SocketId (p : t) : Z := socket_id_ p.
Definition SetSocketId (n : Z) (p : t) : t :=
  Mk (base p) (rudp_version_ p) (socket_type_ p) (initial_packet_sequence_number_ p)
    (maximum_packet_size_ p) (maximum_flow_window_size_ p) (connection_type_ p)
    n (syn_cookie_ p) (ip_address_ p).

Definition SynCookie (p : t) : Z := syn_cookie_ p.
Definition SetSynCookie (n : Z) (p : t) : t :=
  Mk (base p) (rudp_version_ p) (socket_type_ p) (initial_packet_sequence_number_ p)
    (maximum_packet_size_ p) (maximum_flow_window_size_ p) (connection_type_ p)
    (socket_id_ p) n (ip_address_ p).

Definition IpAddress `{IpAddress} (p : t) : ip_address :=
  if v6_is_v4_compatible (ip_address_ p) then v6_to_v4 (ip_address_ p)
  else ip_of_v6_bytes (ip_address_ p).

Definition SetIpAddress `{Environment.IpAddress} (address : ip_address) (p : t) : t :=
  Mk (base p) (rudp_version_ p) (socket_type_ p) (initial_packet_sequence_number_ p)
    (maximum_packet_size_ p) (maximum_flow_window_size_ p) (connection_type_ p)
    (socket_id_ p) (syn_cookie_ p)
    (if ip_is_v4 address then ip_v4_compatible_bytes address else ip_v6_bytes address).

(** Inherited from RudpControlPacket. *)
Definition SetDestinationSocketId (n : Z) (p : t) : t :=
  Mk (ControlPacket.SetDestinationSocketId n (base p)) (rudp_version_ p) (socket_type_ p)
    (initial_packet_sequence_number_ p) (maximum_packet_size_ p)
    (maximum_flow_window_size_ p) (connection_type_ p)
    (socket_id_ p) (syn_cookie_ p) (ip_address_ p).

Definition IsValid (buffer : list Z) : Res bool :=
  b ← ControlPacket.IsValidBase buffer kPacketType;
  Ok (b && (buffer_size buffer =? kPacketSize)).

Definition Decode (buffer : list Z) (pkt : t) : Res (bool * t) :=
  valid ← IsValid buffer;
  if negb valid then Ok (false, pkt)
  else
    r ← ControlPacket.DecodeBase buffer kPacketType (base pkt);
    if negb r.1 then Ok (false, pkt)
    else
      version ← DecodeUint32 buffer (16 + 0);
      socket_type ← DecodeUint32 buffer (16 + 4);
      initial ← DecodeUint32 buffer (16 + 8);
      max_packet ← DecodeUint32 buffer (16 + 12);
      max_flow ← DecodeUint32 buffer (16 + 16);
      conn_type ← DecodeUint32 buffer (16 + 20);
      sid ← DecodeUint32 buffer (16 + 24);
      cookie ← DecodeUint32 buffer (16 + 28);
      bytes ← rd_bytes buffer (16 + 32) 16;
      Ok (true, Mk r.2 version socket_type initial max_packet max_flow conn_type
                  sid cookie bytes).

Definition Encode (pkt : t) (buffer : list Z) : Res (Z * list Z) :=
  if buffer_size buffer <? kPacketSize then Ok (0, buffer)
  else
    r ← ControlPacket.EncodeBase (base pkt) buffer;
    if r.1 =? 0 then Ok (0, r.2)
    else
      p ← EncodeUint32 (rudp_version_ pkt) r.2 (16 + 0);
      p ← EncodeUint32 (socket_type_ pkt) p (16 + 4);
      p ← EncodeUint32 (initial_packet_sequence_number_ pkt) p (16 + 8);
      p ← EncodeUint32 (maximum_packet_size_ pkt) p (16 + 12);
      p ← EncodeUint32 (maximum_flow_window_size_ pkt) p (16 + 16);
      p ← EncodeUint32 (connection_type_ pkt) p (16 + 20);
      p ← EncodeUint32 (socket_id_ pkt) p (16 + 24);
      p ← EncodeUint32 (syn_cookie_ pkt) p (16 + 28);
      p ← wr_bytes p (16 + 32) (ip_address_ pkt);
      Ok (kPacketSize, p).

Definition wf (p : t) : Prop :=
  ControlPacket.wf (base p) ∧ ControlPacket.type_ (base p) = kPacketType ∧
  is_u32 (rudp_version_ p) ∧ is_u32 (socket_type_ p) ∧
  is_u32 (initial_packet_sequence_number_ p) ∧ is_u32 (maximum_packet_size_ p) ∧
  is_u32 (maximum_flow_window_size_ p) ∧ is_u32 (connection_type_ p) ∧
  is_u32 (socket_id_ p) ∧ is_u32 (syn_cookie_ p) ∧
  length (ip_address_ p) = 16%nat ∧ bytes_ok (ip_address_ p).

(** What [Encode] leaves in a buffer that is large enough. *)
Definition put (pkt : t) (p : list Z) : list Z :=
  list_inserts 48 (ip_address_ pkt) (put32 (syn_cookie_ pkt) (put32 (socket_id_ pkt)
    (put32 (connection_type_ pkt) (put32 (maximum_flow_window_size_ pkt)
      (put32 (maximum_packet_size_ pkt) (put32 (initial_packet_sequence_number_ pkt)
        (put32 (socket_type_ pkt) (put32 (rudp_version_ pkt)
          (ControlPacket.put_base (base pkt) p) 16) 20) 24) 28) 32) 36) 40) 44).

#[export] Hint Rewrite ControlPacket.length_put_base : codec.

Lemma handshake_length_put pkt p : length (put pkt p) = length p.
Proof. unfold put. by autorewrite with codec. Qed.

Lemma handshake_Encode_ok pkt p :
  wf pkt → 64 ≤ buffer_size p → Encode pkt p = Ok (64, put pkt p).
Proof.
  intros Hwf H. assert (length (ip_address_ pkt) = 16)%nat as Hip by apply Hwf.
  unfold Encode, kPacketSize. rewrite (proj2 (Z.ltb_ge _ _)) by done.
  rewrite ControlPacket.EncodeBase_ok, Res_bind_ok by lia. cbn [Z.eqb fst snd].
  unfold buffer_size in H. cbn [Nat.add].
  repeat (autorewrite with codec; rewrite Res_bind_ok).
  rewrite wr_bytes_ok by (autorewrite with codec; lia). done.
Qed.

Lemma handshake_IsValid_total p : ∃ b, IsValid p = Ok b.
Proof.
  unfold IsValid. destruct (ControlPacket.IsValidBase_total p kPacketType) as [b ->].
  rewrite Res_bind_ok. eauto.
Qed.

(** [Decode] returns on every datagram, and accepts exactly the valid ones. *)
Lemma handshake_Decode_total p pkt :
  ∃ b pkt', IsValid p = Ok b ∧ Decode p pkt = Ok (b, pkt') ∧ (b = false → pkt' = pkt).
Proof.
  unfold Decode, IsValid.
  destruct (ControlPacket.IsValidBase_total p kPacketType) as [b E]. rewrite E, !Res_bind_ok.
  destruct (b && (buffer_size p =? kPacketSize)) eqn:B; cbn [negb]; [|by eexists _, _].
  apply andb_prop in B as [-> Hs%Z.eqb_eq]. unfold buffer_size, kPacketSize in Hs.
  destruct (ControlPacket.DecodeBase_valid p kPacketType (base pkt) E) as [b' ->].
  rewrite Res_bind_ok. cbn [fst snd negb Nat.add].
  destruct (DecodeUint32_ok p 16) as [? ->]; [lia|].
  destruct (DecodeUint32_ok p 20) as [? ->]; [lia|].
  destruct (DecodeUint32_ok p 24) as [? ->]; [lia|].
  destruct (DecodeUint32_ok p 28) as [? ->]; [lia|].
  destruct (DecodeUint32_ok p 32) as [? ->]; [lia|].
  destruct (DecodeUint32_ok p 36) as [? ->]; [lia|].
  destruct (DecodeUint32_ok p 40) as [? ->]; [lia|].
  destruct (DecodeUint32_ok p 44) as [? ->]; [lia|].
  rewrite rd_bytes_ok by lia. rewrite !Res_bind_ok. by eexists _, _.
Qed.

Lemma handshake_has_base_put pkt p :
  (64 ≤ length p)%nat → ControlPacket.has_base (base pkt) (take 64 (put pkt p)).
Proof.
  intros H. eapply ControlPacket.has_base_agree.
  - apply (ControlPacket.control_has_base_put _ p). lia.
  - rewrite length_take, handshake_length_put. lia.
  - intros i ?. unfold put. rewrite rd_take, rd_list_inserts_ne by lia.
    by autorewrite with codec.
Qed.

Lemma handshake_Decode_put pkt p pkt0 :
  wf pkt → 64 ≤ buffer_size p → Decode (take 64 (put pkt p)) pkt0 = Ok (true, pkt).
Proof.
  intros (Hb&Ht&?&?&?&?&?&?&?&?&Hip&?) Hl. unfold buffer_size in Hl.
  pose proof (handshake_has_base_put pkt p ltac:(lia)) as Hbase. unfold Decode, IsValid.
  rewrite (ControlPacket.IsValidBase_put (base pkt)) by (done || unfold kPacketType; lia).
  rewrite Res_bind_ok, bool_decide_true by done.
  replace (buffer_size (take 64 (put pkt p))) with kPacketSize
    by (unfold buffer_size, kPacketSize; rewrite length_take, handshake_length_put; lia).
  rewrite Res_bind_ok, Z.eqb_refl. cbn [andb negb]. rewrite <-Ht.
  rewrite (ControlPacket.DecodeBase_put (base pkt)) by done.
  rewrite Res_bind_ok. cbn [fst snd negb Nat.add].
  rewrite !DecodeUint32_take by lia. unfold put.
  rewrite !DecodeUint32_list_inserts_ne by lia. autorewrite with codec.
  rewrite rd_bytes_ok by (autorewrite with codec; lia). rewrite !Res_bind_ok.
  rewrite skipn_firstn_comm, take_take.
  replace (16 `min` (64 - 48))%nat with (length (ip_address_ pkt)) by lia.
  rewrite take_drop_list_inserts by (autorewrite with codec; lia). by destruct pkt.
Qed.
