(* ===== verification/AckPackets.v ===== *)
(** * Acknowledgement, keepalive and shutdown packets

    Models src/maidsafe/transport/rudp_ack_packet.cc ([AckPacket]),
    rudp_ack_of_ack_packet.cc ([AckOfAckPacket]), rudp_keepalive_packet.cc
    ([KeepalivePacket]) and rudp_shutdown_packet.cc ([ShutdownPacket]). *)

From S2P Require Import Prelude Packet ControlPackets.

(** ** RudpAckPacket *)
Module AckPacket.

Definition kPacketSize : Z := 20.
Definition kOptionalPacketSize : Z := 40.
Definition kPacketType : Z := 2.

Record t := Mk {
  base : ControlPacket.t;
  packet_sequence_number_ : Z;
  has_optional_fields_ : bool;
  round_trip_time_ : Z;
  round_trip_time_variance_ : Z;
  available_buffer_size_ : Z;
  packets_receiving_rate_ : Z;
  estimated_link_capacity_ : Z;
}.

Definition new : Res t :=
  b ← ControlPacket.SetType kPacketType ControlPacket.new;
  Ok (Mk b 0 false 0 0 0 0 0).

(** The object [new] returns. *)
Definition init : t := Mk (ControlPacket.Mk kPacketType 0 0 0) 0 false 0 0 0 0 0.

Definition AckSequenceNumber (p : t) : Z := ControlPacket.AdditionalInfo (base p).
Definition SetAckSequenceNumber (n : Z) (p : t) : t :=
  Mk (ControlPacket.SetAdditionalInfo n (base p)) (packet_sequence_number_ p)
    (has_optional_fields_ p) (round_trip_time_ p) (round_trip_time_variance_ p)
    (available_buffer_size_ p) (packets_receiving_rate_ p) (estimated_link_capacity_ p).

Definition SetDestinationSocketId (n : Z) (p : t) : t :=
  Mk (ControlPacket.SetDestinationSocketId n (base p)) (packet_sequence_number_ p)
    (has_optional_fields_ p) (round_trip_time_ p) (round_trip_time_variance_ p)
    (available_buffer_size_ p) (packets_receiving_rate_ p) (estimated_link_capacity_ p).

Definition PacketSequenceNumber (p : t) : Z := packet_sequence_number_ p.
Definition SetPacketSequenceNumber (n : Z) (p : t) : t :=
  Mk (base p) n
    (has_optional_fields_ p) (round_trip_time_ p) (round_trip_time_variance_ p)
    (available_buffer_size_ p) (packets_receiving_rate_ p) (estimated_link_capacity_ p).

Definition HasOptionalFields (p : t) : bool := has_optional_fields_ p.
Definition SetHasOptionalFields (b : bool) (p : t) : t :=
  Mk (base p) (packet_sequence_number_ p)
    b (round_trip_time_ p) (round_trip_time_variance_ p)
    (available_buffer_size_ p) (packets_receiving_rate_ p) (estimated_link_capacity_ p).

Definition RoundTripTime (p : t) : Z := round_trip_time_ p.
Definition SetRoundTripTime (n : Z) (p : t) : t :=
  Mk (base p) (packet_sequence_number_ p)
    (has_optional_fields_ p) n (round_trip_time_variance_ p)
    (available_buffer_size_ p) (packets_receiving_rate_ p) (estimated_link_capacity_ p).

Definition RoundTripTimeVariance (p : t) : Z := round_trip_time_variance_ p.
Definition SetRoundTripTimeVariance (n : Z) (p : t) : t :=
  Mk (base p) (packet_sequence_number_ p)
    (has_optional_fields_ p) (round_trip_time_ p) n
    (available_buffer_size_ p) (packets_receiving_rate_ p) (estimated_link_capacity_ p).

Definition AvailableBufferSize (p : t) : Z := available_buffer_size_ p.
Definition SetAvailableBufferSize (n : Z) (p : t) : t :=
  Mk (base p) (packet_sequence_number_ p)
    (has_optional_fields_ p) (round_trip_time_ p) (round_trip_time_variance_ p)
    n (packets_receiving_rate_ p) (estimated_link_capacity_ p).

Definition PacketsReceivingRate (p : t) : Z := packets_receiving_rate_ p.
Definition SetPacketsReceivingRate (n : Z) (p : t) : t :=
  Mk (base p) (packet_sequence_number_ p)
    (has_optional_fields_ p) (round_trip_time_ p) (round_trip_time_variance_ p)
    (available_buffer_size_ p) n (estimated_link_capacity_ p).

Definition EstimatedLinkCapacity (p : t) : Z := estimated_link_capacity_ p.
Definition SetEstimatedLinkCapacity (n : Z) (p : t) : t :=
  Mk (base p) (packet_sequence_number_ p)
    (has_optional_fields_ p) (round_trip_time_ p) (round_trip_time_variance_ p)
    (available_buffer_size_ p) (packets_receiving_rate_ p) n.

Definition IsValid (buffer : list Z) : Res bool :=
  b ← ControlPacket.IsValidBase buffer kPacketType;
  Ok (b && ((buffer_size buffer =? kPacketSize) ||
            (buffer_size buffer =? kOptionalPacketSize))).

Definition Decode (buffer : list Z) (pkt : t) : Res (bool * t) :=
  valid ← IsValid buffer;
  if negb valid then Ok (false, pkt)
  else
    r ← ControlPacket.DecodeBase buffer kPacketType (base pkt);
    if negb r.1 then Ok (false, pkt)
    else
      seqnum ← DecodeUint32 buffer (16 + 0);
      if buffer_size buffer =? kOptionalPacketSize then
        rtt ← DecodeUint32 buffer (16 + 4);
        rttvar ← DecodeUint32 buffer (16 + 8);
        avail ← DecodeUint32 buffer (16 + 12);
        rate ← DecodeUint32 buffer (16 + 16);
        capacity ← DecodeUint32 buffer (16 + 20);
        Ok (true, Mk r.2 seqnum true rtt rttvar avail rate capacity)
      else
        Ok (true, Mk r.2 seqnum (has_optional_fields_ pkt) (round_trip_time_ pkt)
                    (round_trip_time_variance_ pkt) (available_buffer_size_ pkt)
                    (packets_receiving_rate_ pkt) (estimated_link_capacity_ pkt)).

Definition Encode (pkt : t) (buffer : list Z) : Res (Z * list Z) :=
  if buffer_size buffer <? kPacketSize then Ok (0, buffer)
  else
    r ← ControlPacket.EncodeBase (base pkt) buffer;
    if r.1 =? 0 then Ok (0, r.2)
    else
      p ← EncodeUint32 (packet_sequence_number_ pkt) r.2 (16 + 0);
      p ← (if has_optional_fields_ pkt then
             p ← EncodeUint32 (round_trip_time_ pkt) p (16 + 4);
             p ← EncodeUint32 (round_trip_time_variance_ pkt) p (16 + 8);
             p ← EncodeUint32 (available_buffer_size_ pkt) p (16 + 12);
             p ← EncodeUint32 (packets_receiving_rate_ pkt) p (16 + 16);
             EncodeUint32 (estimated_link_capacity_ pkt) p (16 + 20)
           else Ok p);
      Ok (if has_optional_fields_ pkt then kOptionalPacketSize else kPacketSize, p).

(** Field ranges; without the optional fields their members keep the values
    the constructor gave them. *)
Definition wf (p : t) : Prop :=
  ControlPacket.wf (base p) ∧ ControlPacket.type_ (base p) = kPacketType ∧
  is_u32 (packet_sequence_number_ p) ∧ is_u32 (round_trip_time_ p) ∧
  is_u32 (round_trip_time_variance_ p) ∧ is_u32 (available_buffer_size_ p) ∧
  is_u32 (packets_receiving_rate_ p) ∧ is_u32 (estimated_link_capacity_ p).

Definition plain (p : t) : Prop :=
  has_optional_fields_ p = false → round_trip_time_ p = 0 ∧
  round_trip_time_variance_ p = 0 ∧ available_buffer_size_ p = 0 ∧
  packets_receiving_rate_ p = 0 ∧ estimated_link_capacity_ p = 0.

Definition size (p : t) : nat := if has_optional_fields_ p then 40%nat else 20%nat.

Definition put (pkt : t) (p : list Z) : list Z :=
  let q := put32 (packet_sequence_number_ pkt) (ControlPacket.put_base (base pkt) p) 16 in
  if has_optional_fields_ pkt then
    put32 (estimated_link_capacity_ pkt) (put32 (packets_receiving_rate_ pkt)
      (put32 (available_buffer_size_ pkt) (put32 (round_trip_time_variance_ pkt)
        (put32 (round_trip_time_ pkt) q 20) 24) 28) 32) 36
  else q.

#[local] Hint Rewrite ControlPacket.length_put_base : codec.

Lemma ack_length_put pkt p : length (put pkt p) = length p.
Proof. unfold put. destruct (has_optional_fields_ pkt); by autorewrite with codec. Qed.

Lemma ack_Encode_ok pkt p :
  Z.of_nat (size pkt) ≤ buffer_size p → Encode pkt p = Ok (Z.of_nat (size pkt), put pkt p).
Proof.
  intros H. unfold Encode, kPacketSize, buffer_size, size, put in *.
  rewrite (proj2 (Z.ltb_ge _ _)) by (case_match; lia).
  rewrite ControlPacket.EncodeBase_ok, Res_bind_ok by (unfold buffer_size; case_match; lia).
  cbn [Z.eqb fst snd Nat.add].
  destruct (has_optional_fields_ pkt);
    repeat (autorewrite with codec; rewrite Res_bind_ok); done.
Qed.

(** With optional fields the buffer check is against the short size only:
    a buffer of 20 to 39 bytes passes it and is overrun. *)
Lemma Encode_overrun pkt p :
  has_optional_fields_ pkt = true → 20 ≤ buffer_size p < 40 →
  Encode pkt p = Fault OutOfBounds.
Proof.
  intros Ho [H1 H2]. unfold Encode, kPacketSize. rewrite (proj2 (Z.ltb_ge _ _)) by done.
  rewrite ControlPacket.EncodeBase_ok, Res_bind_ok by lia. cbn [Z.eqb fst snd Nat.add].
  unfold buffer_size in *. autorewrite with codec. rewrite Res_bind_ok, Ho.
  assert (∀ n q off, length q = length p → (off + 4 ≤ length p)%nat →
    EncodeUint32 n q off = Ok (put32 n q off)) as Hin.
  { intros. apply EncodeUint32_ok. lia. }
  assert (∀ n q off, length q = length p → (length p < off + 4)%nat →
    EncodeUint32 n q off = Fault OutOfBounds) as Hout.
  { intros n q off Hq Hoff. unfold EncodeUint32.
    destruct (decide (off + 0 < length q)%nat); [|by rewrite wr_OutOfBounds by lia].
    rewrite wr_ok, Res_bind_ok by lia.
    destruct (decide (off + 1 < length q)%nat);
      [|by rewrite wr_OutOfBounds by (autorewrite with codec; lia)].
    rewrite wr_ok, Res_bind_ok by (autorewrite with codec; lia).
    destruct (decide (off + 2 < length q)%nat);
      [|by rewrite wr_OutOfBounds by (autorewrite with codec; lia)].
    rewrite wr_ok, Res_bind_ok by (autorewrite with codec; lia).
    by rewrite wr_OutOfBounds by (autorewrite with codec; lia). }
  repeat match goal with
  | |- context [EncodeUint32 ?n ?q ?off] =>
      destruct (decide (off + 4 ≤ length p)%nat);
      [rewrite (Hin n q off) by (autorewrite with codec; lia); rewrite Res_bind_ok
      |rewrite (Hout n q off) by (autorewrite with codec; lia); done]
  end. lia.
Qed.

Lemma ack_Decode_total p pkt :
  ∃ b pkt', IsValid p = Ok b ∧ Decode p pkt = Ok (b, pkt') ∧ (b = false → pkt' = pkt).
Proof.
  unfold Decode, IsValid.
  destruct (ControlPacket.IsValidBase_total p kPacketType) as [b E]. rewrite E, !Res_bind_ok.
  destruct (b && _) eqn:B; cbn [negb]; [|by eexists _, _].
  apply andb_prop in B as [-> Hs]. unfold buffer_size, kPacketSize, kOptionalPacketSize in *.
  destruct (ControlPacket.DecodeBase_valid p kPacketType (base pkt) E) as [b' ->].
  rewrite Res_bind_ok. cbn [fst snd negb Nat.add].
  destruct (DecodeUint32_ok p 16) as [? ->]; [lia|]. rewrite Res_bind_ok.
  destruct (Z.of_nat (length p) =? 40) eqn:E40; [|by eexists _, _].
  destruct (DecodeUint32_ok p 20) as [? ->]; [lia|].
  destruct (DecodeUint32_ok p 24) as [? ->]; [lia|].
  destruct (DecodeUint32_ok p 28) as [? ->]; [lia|].
  destruct (DecodeUint32_ok p 32) as [? ->]; [lia|].
  destruct (DecodeUint32_ok p 36) as [? ->]; [lia|].
  rewrite !Res_bind_ok. by eexists _, _.
Qed.

Lemma ack_has_base_put pkt p :
  (size pkt ≤ length p)%nat → ControlPacket.has_base (base pkt) (take (size pkt) (put pkt p)).
Proof.
  unfold size. intros H. eapply ControlPacket.has_base_agree.
  - apply (ControlPacket.control_has_base_put _ p). case_match; lia.
  - rewrite length_take, ack_length_put. case_match; lia.
  - intros i ?. unfold put. rewrite rd_take by (case_match; lia).
    destruct (has_optional_fields_ pkt); by autorewrite with codec.
Qed.

Lemma ack_Decode_put pkt p :
  wf pkt → plain pkt → Z.of_nat (size pkt) ≤ buffer_size p →
  Decode (take (size pkt) (put pkt p)) init = Ok (true, pkt).
Proof.
  intros (Hb&Ht&?&?&?&?&?&?) Hpl Hl. unfold buffer_size in Hl.
  pose proof (ack_has_base_put pkt p ltac:(lia)) as Hbase. unfold Decode, IsValid.
  rewrite (ControlPacket.IsValidBase_put (base pkt)) by (done || unfold kPacketType; lia).
  rewrite Res_bind_ok, bool_decide_true by done.
  replace (buffer_size (take (size pkt) (put pkt p))) with (Z.of_nat (size pkt))
    by (unfold buffer_size; rewrite length_take, ack_length_put; lia).
  rewrite <-Ht, (ControlPacket.DecodeBase_put (base pkt)) by done.
  clear Hbase. unfold plain, size, put, kPacketSize, kOptionalPacketSize in *.
  destruct (has_optional_fields_ pkt) eqn:Ho; rewrite !Res_bind_ok.
  - clear Hpl. change (Z.of_nat 40 =? 20) with false. change (Z.of_nat 40 =? 40) with true.
    cbn [andb orb negb fst snd Nat.add].
    rewrite !DecodeUint32_take by lia. autorewrite with codec.
    rewrite !Res_bind_ok. destruct pkt; simpl in *; by subst.
  - destruct (Hpl eq_refl) as (?&?&?&?&?). clear Hpl.
    change (Z.of_nat 20 =? 20) with true. change (Z.of_nat 20 =? 40) with false.
    cbn [andb orb negb fst snd Nat.add].
    rewrite DecodeUint32_take by lia. autorewrite with codec.
    rewrite Res_bind_ok.
    destruct pkt; simpl in *; by subst.
Qed.
End AckPacket.

(** ** RudpAckOfAckPacket, RudpKeepalivePacket and RudpShutdownPacket

    Their encoding is the header alone. *)
Module AckOfAckPacket.

Definition kPacketSize : Z := 16.
Definition kPacketType : Z := 6.

Record t := Mk { base : ControlPacket.t }.

Definition new : Res t := b ← ControlPacket.SetType kPacketType ControlPacket.new; Ok (Mk b).

Definition AckSequenceNumber (p : t) : Z := ControlPacket.AdditionalInfo (base p).
Definition SetAckSequenceNumber (n : Z) (p : t) : t :=
  Mk (ControlPacket.SetAdditionalInfo n (base p)).
Definition SetDestinationSocketId (n : Z) (p : t) : t :=
  Mk (ControlPacket.SetDestinationSocketId n (base p)).

Definition IsValid (buffer : list Z) : Res bool :=
  b ← ControlPacket.IsValidBase buffer kPacketType;
  Ok (b && (buffer_size buffer =? kPacketSize)).

(** Unlike the other packets, [Decode] does not ask [IsValid]: the size is
    not compared with [kPacketSize]. *)
Definition Decode (buffer : list Z) (pkt : t) : Res (bool * t) :=
  r ← ControlPacket.DecodeBase buffer kPacketType (base pkt);
  Ok (r.1, Mk r.2).

Definition Encode (pkt : t) (buffer : list Z) : Res (Z * list Z) :=
  ControlPacket.EncodeBase (base pkt) buffer.

Definition wf (p : t) : Prop :=
  ControlPacket.wf (base p) ∧ ControlPacket.type_ (base p) = kPacketType.

Definition put (pkt : t) (p : list Z) : list Z := ControlPacket.put_base (base pkt) p.

Lemma ack_of_ack_Encode_ok pkt p : 16 ≤ buffer_size p → Encode pkt p = Ok (16, put pkt p).
Proof. apply ControlPacket.EncodeBase_ok. Qed.

Lemma ack_of_ack_length_put pkt p : length (put pkt p) = length p.
Proof. apply ControlPacket.length_put_base. Qed.

Lemma ack_of_ack_has_base_put pkt p :
  (16 ≤ length p)%nat → ControlPacket.has_base (base pkt) (take 16 (put pkt p)).
Proof.
  intros H. eapply ControlPacket.has_base_agree.
  - by apply (ControlPacket.control_has_base_put _ p).
  - rewrite length_take, ack_of_ack_length_put. lia.
  - intros i ?. by rewrite rd_take by lia.
Qed.

Lemma ack_of_ack_Decode_total p pkt :
  ∃ b pkt', ControlPacket.IsValidBase p kPacketType = Ok b ∧ Decode p pkt = Ok (b, pkt') ∧
    (b = false → pkt' = pkt).
Proof.
  unfold Decode. destruct (ControlPacket.IsValidBase_total p kPacketType) as [[] E].
  - destruct (ControlPacket.DecodeBase_valid p kPacketType (base pkt) E) as [b' ->].
    rewrite E, Res_bind_ok. by eexists _, _.
  - unfold ControlPacket.DecodeBase. rewrite E, Res_bind_ok. cbn [negb].
    rewrite Res_bind_ok. eexists _, _. split_and!; [done|done|]. by destruct pkt.
Qed.

Lemma ack_of_ack_Decode_put pkt p pkt0 :
  wf pkt → 16 ≤ buffer_size p → Decode (take 16 (put pkt p)) pkt0 = Ok (true, pkt).
Proof.
  intros (Hb&Ht) Hl. unfold buffer_size in Hl.
  pose proof (ack_of_ack_has_base_put pkt p ltac:(lia)) as Hbase. unfold Decode.
  rewrite <-Ht, (ControlPacket.DecodeBase_put (base pkt)), Res_bind_ok by done.
  by destruct pkt.
Qed.
End AckOfAckPacket.

Module KeepalivePacket.

Definition kPacketSize : Z := 16.
Definition kPacketType : Z := 1.

Record t := Mk { base : ControlPacket.t }.

Definition new : Res t := b ← ControlPacket.SetType kPacketType ControlPacket.new; Ok (Mk b).

Definition IsValid (buffer : list Z) : Res bool :=
  b ← ControlPacket.IsValidBase buffer kPacketType;
  Ok (b && (buffer_size buffer =? kPacketSize)).

Definition Decode (buffer : list Z) (pkt : t) : Res (bool * t) :=
  valid ← IsValid buffer;
  if negb valid then Ok (false, pkt)
  else
    r ← ControlPacket.DecodeBase buffer kPacketType (base pkt);
    Ok (r.1, Mk r.2).

Definition Encode (pkt : t) (buffer : list Z) : Res (Z * list Z) :=
  ControlPacket.EncodeBase (base pkt) buffer.

Definition wf (p : t) : Prop :=
  ControlPacket.wf (base p) ∧ ControlPacket.type_ (base p) = kPacketType.

Definition put (pkt : t) (p : list Z) : list Z := ControlPacket.put_base (base pkt) p.

Lemma keepalive_Encode_ok pkt p : 16 ≤ buffer_size p → Encode pkt p = Ok (16, put pkt p).
Proof. apply ControlPacket.EncodeBase_ok. Qed.

Lemma keepalive_length_put pkt p : length (put pkt p) = length p.
Proof. apply ControlPacket.length_put_base. Qed.

Lemma keepalive_has_base_put pkt p :
  (16 ≤ length p)%nat → ControlPacket.has_base (base pkt) (take 16 (put pkt p)).
Proof.
  intros H. eapply ControlPacket.has_base_agree.
  - by apply (ControlPacket.control_has_base_put _ p).
  - rewrite length_take, keepalive_length_put. lia.
  - intros i ?. by rewrite rd_take by lia.
Qed.

Lemma keepalive_Decode_total p pkt :
  ∃ b pkt', IsValid p = Ok b ∧ Decode p pkt = Ok (b, pkt') ∧ (b = false → pkt' = pkt).
Proof.
  unfold Decode, IsValid.
  destruct (ControlPacket.IsValidBase_total p kPacketType) as [b E]. rewrite E, !Res_bind_ok.
  destruct (b && _) eqn:B; cbn [negb]; [|by eexists _, _].
  apply andb_prop in B as [-> _].
  destruct (ControlPacket.DecodeBase_valid p kPacketType (base pkt) E) as [b' ->].
  rewrite Res_bind_ok. by eexists _, _.
Qed.

Lemma keepalive_Decode_put pkt p pkt0 :
  wf pkt → 16 ≤ buffer_size p → Decode (take 16 (put pkt p)) pkt0 = Ok (true, pkt).
Proof.
  intros (Hb&Ht) Hl. unfold buffer_size in Hl.
  pose proof (keepalive_has_base_put pkt p ltac:(lia)) as Hbase. unfold Decode, IsValid.
  rewrite (ControlPacket.IsValidBase_put (base pkt)) by (done || unfold kPacketType; lia).
  rewrite Res_bind_ok, bool_decide_true by done.
  replace (buffer_size (take 16 (put pkt p))) with kPacketSize
    by (unfold buffer_size, kPacketSize; rewrite length_take, keepalive_length_put; lia).
  rewrite Res_bind_ok, Z.eqb_refl. cbn [andb negb].
  rewrite <-Ht, (ControlPacket.DecodeBase_put (base pkt)), Res_bind_ok by done.
  by destruct pkt.
Qed.
End KeepalivePacket.

Module ShutdownPacket.

Definition kPacketSize : Z := 16.
Definition kPacketType : Z := 5.

Record t := Mk { base : ControlPacket.t }.

Definition new : Res t := b ← ControlPacket.SetType kPacketType ControlPacket.new; Ok (Mk b).

Definition SetDestinationSocketId (n : Z) (p : t) : t :=
  Mk (ControlPacket.SetDestinationSocketId n (base p)).

Definition IsValid (buffer : list Z) : Res bool :=
  b ← ControlPacket.IsValidBase buffer kPacketType;
  Ok (b && (buffer_size buffer =? kPacketSize)).

Definition Decode (buffer : list Z) (pkt : t) : Res (bool * t) :=
  valid ← IsValid buffer;
  if negb valid then Ok (false, pkt)
  else
    r ← ControlPacket.DecodeBase buffer kPacketType (base pkt);
    Ok (r.1, Mk r.2).

Definition Encode (pkt : t) (buffer : list Z) : Res (Z * list Z) :=
  ControlPacket.EncodeBase (base pkt) buffer.

Definition wf (p : t) : Prop :=
  ControlPacket.wf (base p) ∧ ControlPacket.type_ (base p) = kPacketType.

Definition put (pkt : t) (p : list Z) : list Z := ControlPacket.put_base (base pkt) p.

Lemma shutdown_Encode_ok pkt p : 16 ≤ buffer_size p → Encode pkt p = Ok (16, put pkt p).
Proof. apply ControlPacket.EncodeBase_ok. Qed.

Lemma shutdown_length_put pkt p : length (put pkt p) = length p.
Proof. apply ControlPacket.length_put_base. Qed.

Lemma shutdown_has_base_put pkt p :
  (16 ≤ length p)%nat → ControlPacket.has_base (base pkt) (take 16 (put pkt p)).
Proof.
  intros H. eapply ControlPacket.has_base_agree.
  - by apply (ControlPacket.control_has_base_put _ p).
  - rewrite length_take, shutdown_length_put. lia.
  - intros i ?. by rewrite rd_take by lia.
Qed.

Lemma shutdown_Decode_total p pkt :
  ∃ b pkt', IsValid p = Ok b ∧ Decode p pkt = Ok (b, pkt') ∧ (b = false → pkt' = pkt).
Proof.
  unfold Decode, IsValid.
  destruct (ControlPacket.IsValidBase_total p kPacketType) as [b E]. rewrite E, !Res_bind_ok.
  destruct (b && _) eqn:B; cbn [negb]; [|by eexists _, _].
  apply andb_prop in B as [-> _].
  destruct (ControlPacket.DecodeBase_valid p kPacketType (base pkt) E) as [b' ->].
  rewrite Res_bind_ok. by eexists _, _.
Qed.

Lemma shutdown_Decode_put pkt p pkt0 :
  wf pkt → 16 ≤ buffer_size p → Decode (take 16 (put pkt p)) pkt0 = Ok (true, pkt).
Proof.
  intros (Hb&Ht) Hl. unfold buffer_size in Hl.
  pose proof (shutdown_has_base_put pkt p ltac:(lia)) as Hbase. unfold Decode, IsValid.
  rewrite (ControlPacket.IsValidBase_put (base pkt)) by (done || unfold kPacketType; lia).
  rewrite Res_bind_ok, bool_decide_true by done.
  replace (buffer_size (take 16 (put pkt p))) with kPacketSize
    by (unfold buffer_size, kPacketSize; rewrite length_take, shutdown_length_put; lia).
  rewrite Res_bind_ok, Z.eqb_refl. cbn [andb negb].
  rewrite <-Ht, (ControlPacket.DecodeBase_put (base pkt)), Res_bind_ok by done.
  by destruct pkt.
Qed.
End ShutdownPacket.
