(* ===== verification/NegativeAckPacket.v ===== *)
(** * The negative acknowledgement packet

    Models src/maidsafe/transport/rudp_negative_ack_packet.cc: a list of lost
    sequence numbers, where an entry with the top bit set opens a range that
    the next entry closes. *)

From S2P Require Import Prelude Packet ControlPackets.

Definition kPacketType : Z := 3.

Record t := Mk {
  base : ControlPacket.t;
  sequence_numbers_ : list Z;
}.

Definition new : Res t :=
  b ← ControlPacket.SetType kPacketType ControlPacket.new; Ok (Mk b []).

Definition SetDestinationSocketId (n : Z) (p : t) : t :=
  Mk (ControlPacket.SetDestinationSocketId n (base p)) (sequence_numbers_ p).

Definition AddSequenceNumber (n : Z) (p : t) : Res t :=
  if n <=? 0x7fffffff then Ok (Mk (base p) (sequence_numbers_ p ++ [n]))
  else Fault AssertionFailed.

Definition AddSequenceNumbers (first last : Z) (p : t) : Res t :=
  if first <=? 0x7fffffff then
    if last <=? 0x7fffffff then
      Ok (Mk (base p) (sequence_numbers_ p ++ [Z.lor first 0x80000000; last]))
    else Fault AssertionFailed
  else Fault AssertionFailed.

Definition IsValid (buffer : list Z) : Res bool :=
  b ← ControlPacket.IsValidBase buffer kPacketType;
  Ok (b && (ControlPacket.kHeaderSize <? buffer_size buffer) &&
      ((buffer_size buffer - ControlPacket.kHeaderSize) `mod` 4 =? 0)).

(** The [for] loop of [ContainsSequenceNumber] from index [i] on, where [l] is
    [sequence_numbers_] from [i] on. *)
Fixpoint contains_from (l : list Z) (n : Z) : bool :=
  match l with
  | [] => false
  | x :: l' =>
      (match l' with
       | y :: _ =>
           if negb (Z.land x 0x80000000 =? 0) then
             (* This is a range. *)
             let first := Z.land x 0x7fffffff in
             let last := Z.land y 0x7fffffff in
             if first <=? last then (first <=? n) && (n <=? last)
             else ((first <=? n) && (n <=? 0x7fffffff)) || (n <=? last)
           else Z.land x 0x7fffffff =? n
       | [] => Z.land x 0x7fffffff =? n
       end)
      || contains_from l' n
  end.

Definition ContainsSequenceNumber (n : Z) (p : t) : Res bool :=
  if n <=? 0x7fffffff then Ok (contains_from (sequence_numbers_ p) n)
  else Fault AssertionFailed.

Definition HasSequenceNumbers (p : t) : bool :=
  negb (bool_decide (sequence_numbers_ p = [])).

(** The [for] loop of [Decode]: [k] integers from offset [off]. *)
Fixpoint decode_seqnums (buffer : list Z) (off k : nat) : Res (list Z) :=
  match k with
  | O => Ok []
  | S k' =>
      value ← DecodeUint32 buffer off;
      rest ← decode_seqnums buffer (off + 4) k';
      Ok (value :: rest)
  end.

Definition Decode (buffer : list Z) (pkt : t) : Res (bool * t) :=
  valid ← IsValid buffer;
  if negb valid then Ok (false, pkt)
  else
    r ← ControlPacket.DecodeBase buffer kPacketType (base pkt);
    if negb r.1 then Ok (false, pkt)
    else
      l ← decode_seqnums buffer 16 (Nat.div (length buffer - 16 + 3) 4);
      Ok (true, Mk r.2 l).

(** The [for] loop of [Encode]. *)
Fixpoint encode_seqnums (l : list Z) (p : list Z) (off : nat) : Res (list Z) :=
  match l with
  | [] => Ok p
  | n :: l' => p ← EncodeUint32 n p off; encode_seqnums l' p (off + 4)
  end.

Definition Encode (pkt : t) (buffer : list Z) : Res (Z * list Z) :=
  let total := ControlPacket.kHeaderSize + Z.of_nat (length (sequence_numbers_ pkt)) * 4 in
  if buffer_size buffer <? total then Ok (0, buffer)
  else
    r ← ControlPacket.EncodeBase (base pkt) buffer;
    if r.1 =? 0 then Ok (0, r.2)
    else
      p ← encode_seqnums (sequence_numbers_ pkt) r.2 16;
      Ok (total, p).

Definition wf (p : t) : Prop :=
  ControlPacket.wf (base p) ∧ ControlPacket.type_ (base p) = kPacketType ∧
  Forall is_u32 (sequence_numbers_ p).

Definition size (p : t) : nat := (16 + 4 * length (sequence_numbers_ p))%nat.

(** ** Encoding and decoding *)

Fixpoint put_seqnums (l : list Z) (p : list Z) (off : nat) : list Z :=
  match l with
  | [] => p
  | n :: l' => put_seqnums l' (put32 n p off) (off + 4)
  end.

Definition put (pkt : t) (p : list Z) : list Z :=
  put_seqnums (sequence_numbers_ pkt) (ControlPacket.put_base (base pkt) p) 16.

Lemma length_put_seqnums l p off : length (put_seqnums l p off) = length p.
Proof. revert p off. induction l; intros; simpl; [done|]. by rewrite IHl, length_put32. Qed.

Lemma nack_length_put pkt p : length (put pkt p) = length p.
Proof. unfold put. by rewrite length_put_seqnums, ControlPacket.length_put_base. Qed.

Lemma rd_put_seqnums_ne l p off i :
  (i < off)%nat → rd (put_seqnums l p off) i = rd p i.
Proof.
  revert p off. induction l as [|n l IH]; intros p off ?; simpl; [done|].
  by rewrite IH, rd_put32_ne by lia.
Qed.

Lemma encode_seqnums_ok l p off :
  (off + 4 * length l ≤ length p)%nat → encode_seqnums l p off = Ok (put_seqnums l p off).
Proof.
  revert p off. induction l as [|n l IH]; intros p off H; simpl in *; [done|].
  rewrite EncodeUint32_ok, Res_bind_ok by lia. apply IH. rewrite length_put32. lia.
Qed.

Lemma decode_seqnums_ok p off k :
  (off + 4 * k ≤ length p)%nat → ∃ l, decode_seqnums p off k = Ok l.
Proof.
  revert off. induction k as [|k IH]; intros off ?; simpl; [eauto|].
  destruct (DecodeUint32_ok p off) as [n ->]; [lia|].
  destruct (IH (off + 4)%nat) as [l ->]; [lia|]. rewrite !Res_bind_ok. eauto.
Qed.

Lemma decode_put_seqnums l p q off :
  Forall is_u32 l → (off + 4 * length l ≤ length p)%nat →
  (∀ i, (i < off + 4 * length l)%nat → rd q i = rd (put_seqnums l p off) i) →
  decode_seqnums q off (length l) = Ok l.
Proof.
  revert p off. induction l as [|n l IH]; intros p off Hu Hl Hag; [done|].
  inversion Hu; subst. simpl in *.
  assert (DecodeUint32 q off = DecodeUint32 (put32 n p off) off) as ->.
  { unfold DecodeUint32. rewrite !Hag, !rd_put_seqnums_ne by lia. done. }
  rewrite DecodeUint32_put32_eq, Res_bind_ok by (done || lia).
  rewrite (IH (put32 n p off)); [done|done|rewrite length_put32; lia|].
  intros i Hi. apply Hag. lia.
Qed.

Lemma nack_Encode_ok pkt p :
  Z.of_nat (size pkt) ≤ buffer_size p → Encode pkt p = Ok (Z.of_nat (size pkt), put pkt p).
Proof.
  intros H. unfold Encode, ControlPacket.kHeaderSize, size, buffer_size in *.
  rewrite (proj2 (Z.ltb_ge _ _)) by lia.
  rewrite ControlPacket.EncodeBase_ok, Res_bind_ok by (unfold buffer_size; lia).
  cbn [Z.eqb fst snd].
  rewrite encode_seqnums_ok, Res_bind_ok by (rewrite ControlPacket.length_put_base; lia).
  unfold put. do 2 f_equal. lia.
Qed.

Lemma nack_Decode_total p pkt :
  ∃ b pkt', IsValid p = Ok b ∧ Decode p pkt = Ok (b, pkt') ∧ (b = false → pkt' = pkt).
Proof.
  unfold Decode, IsValid.
  destruct (ControlPacket.IsValidBase_total p kPacketType) as [b E]. rewrite E, !Res_bind_ok.
  destruct (b && _ && _) eqn:B; cbn [negb]; [|by eexists _, _].
  apply andb_prop in B as [[-> Hs]%andb_prop Hm].
  unfold buffer_size, ControlPacket.kHeaderSize in *.
  destruct (ControlPacket.DecodeBase_valid p kPacketType (base pkt) E) as [b' ->].
  rewrite Res_bind_ok. cbn [fst snd negb].
  destruct (decode_seqnums_ok p 16 (Nat.div (length p - 16 + 3) 4)) as [l ->].
  - apply Z.eqb_eq in Hm. mod_lia.
  - rewrite Res_bind_ok. by eexists _, _.
Qed.

Lemma nack_has_base_put pkt p :
  (size pkt ≤ length p)%nat → ControlPacket.has_base (base pkt) (take (size pkt) (put pkt p)).
Proof.
  unfold size. intros H. eapply ControlPacket.has_base_agree.
  - apply (ControlPacket.control_has_base_put _ p). lia.
  - rewrite length_take, nack_length_put. lia.
  - intros i ?. unfold put. rewrite rd_take by lia. by rewrite rd_put_seqnums_ne by lia.
Qed.

Lemma nack_Decode_put pkt p pkt0 :
  wf pkt → sequence_numbers_ pkt ≠ [] → Z.of_nat (size pkt) ≤ buffer_size p →
  Decode (take (size pkt) (put pkt p)) pkt0 = Ok (true, pkt).
Proof.
  intros (Hb&Ht&Hs) Hne Hl. unfold buffer_size in Hl.
  pose proof (nack_has_base_put pkt p ltac:(lia)) as Hbase. unfold Decode, IsValid.
  rewrite (ControlPacket.IsValidBase_put (base pkt)) by (done || unfold kPacketType; lia).
  rewrite Res_bind_ok, bool_decide_true by done.
  assert (length (take (size pkt) (put pkt p)) = size pkt) as Hlen
    by (rewrite length_take, nack_length_put; lia).
  unfold buffer_size. rewrite Hlen. unfold ControlPacket.kHeaderSize.
  assert (0 < length (sequence_numbers_ pkt))%nat.
  { destruct (sequence_numbers_ pkt); [done|simpl; lia]. }
  replace (16 <? Z.of_nat (size pkt)) with true by (unfold size; lia).
  replace ((Z.of_nat (size pkt) - 16) `mod` 4 =? 0) with true
    by (symmetry; apply Z.eqb_eq; unfold size; mod_lia).
  rewrite Res_bind_ok. cbn [andb negb].
  rewrite <-Ht, (ControlPacket.DecodeBase_put (base pkt)), Res_bind_ok by done.
  cbn [fst snd negb].
  replace (Nat.div (size pkt - 16 + 3) 4) with (length (sequence_numbers_ pkt))
    by (unfold size; mod_lia).
  rewrite (decode_put_seqnums _ (ControlPacket.put_base (base pkt) p)).
  - rewrite Res_bind_ok. by destruct pkt.
  - done.
  - rewrite ControlPacket.length_put_base. unfold size in *. lia.
  - intros i Hi. unfold size, put. by rewrite rd_take by (simpl; lia).
Qed.

(** ** What a list of reported losses means

    The specification of a negative acknowledgement is the list of numbers and
    (cyclic) ranges that were added to it. *)

Inductive entry := Single (n : Z) | Range (first last : Z).

Definition is_seqnum (n : Z) : Prop := 0 ≤ n ≤ 0x7fffffff.

Definition entry_ok (e : entry) : Prop :=
  match e with Single n => is_seqnum n | Range a b => is_seqnum a ∧ is_seqnum b end.

(** [n] lies on the way from [first] to [last] around the sequence space. *)
Definition covers (n : Z) (e : entry) : bool :=
  match e with
  | Single m => n =? m
  | Range a b => if a <=? b then (a <=? n) && (n <=? b) else (a <=? n) || (n <=? b)
  end.

Definition add_entry (e : entry) (p : t) : Res t :=
  match e with
  | Single n => AddSequenceNumber n p
  | Range a b => AddSequenceNumbers a b p
  end.

Fixpoint add_entries (es : list entry) (p : t) : Res t :=
  match es with
  | [] => Ok p
  | e :: es' => p' ← add_entry e p; add_entries es' p'
  end.

Definition entry_words (e : entry) : list Z :=
  match e with Single n => [n] | Range a b => [Z.lor a 0x80000000; b] end.

Lemma land_top n : is_seqnum n → Z.land n 0x80000000 = 0.
Proof.
  unfold is_seqnum. intros. apply Z.bits_inj'. intros k Hk.
  rewrite Z.land_spec, Z.bits_0. change 0x80000000 with (2 ^ 31).
  rewrite Z.pow2_bits_eqb by lia. destruct (31 =? k) eqn:E; [|by rewrite andb_false_r].
  apply Z.eqb_eq in E as <-. rewrite andb_true_r.
  destruct (decide (n = 0)) as [->|]; [done|].
  apply Z.bits_above_log2; [lia|]. apply Z.log2_lt_pow2; lia.
Qed.

Lemma land_low n : is_seqnum n → Z.land n 0x7fffffff = n.
Proof.
  unfold is_seqnum. intros. change 0x7fffffff with (Z.ones 31).
  rewrite Z.land_ones by lia. apply Z.mod_small. lia.
Qed.

Lemma lor_top n : is_seqnum n →
  Z.land (Z.lor n 0x80000000) 0x80000000 = 0x80000000 ∧
  Z.land (Z.lor n 0x80000000) 0x7fffffff = n.
Proof.
  intros H. rewrite !Z.land_lor_distr_l, land_top, land_low by done. split; [done|].
  change (Z.land 0x80000000 0x7fffffff) with 0. by rewrite Z.lor_0_r.
Qed.

Lemma add_entries_words es p :
  Forall entry_ok es →
  add_entries es p = Ok (Mk (base p) (sequence_numbers_ p ++ concat (entry_words <$> es))).
Proof.
  intros H. revert p. induction H as [|e es He _ IH]; intros p; simpl.
  - rewrite app_nil_r. by destruct p.
  - destruct e as [n|a b]; simpl in *; unfold is_seqnum in He.
    + unfold AddSequenceNumber. rewrite (proj2 (Z.leb_le _ _)) by lia.
      rewrite Res_bind_ok, IH. simpl. by rewrite <-app_assoc.
    + unfold AddSequenceNumbers. rewrite !(proj2 (Z.leb_le _ _)) by lia.
      rewrite Res_bind_ok, IH. simpl. by rewrite <-app_assoc.
Qed.

Lemma contains_single a l n :
  is_seqnum a → contains_from (a :: l) n = (n =? a) || contains_from l n.
Proof.
  intros Ha. simpl. rewrite land_top, land_low by done. cbn [Z.eqb negb].
  rewrite (Z.eqb_sym a n). by destruct l.
Qed.

Lemma contains_entries es n :
  Forall entry_ok es → is_seqnum n →
  contains_from (concat (entry_words <$> es)) n = existsb (covers n) es.
Proof.
  intros H Hn. induction H as [|e es He _ IH]; [done|].
  destruct e as [a|a b]; cbn [fmap list_fmap concat entry_words app existsb covers].
  - by rewrite contains_single, IH.
  - destruct He as [Ha Hb].
    change (contains_from (?x :: ?y :: ?l) n) with
      ((if negb (Z.land x 0x80000000 =? 0) then
          if Z.land x 0x7fffffff <=? Z.land y 0x7fffffff
          then (Z.land x 0x7fffffff <=? n) && (n <=? Z.land y 0x7fffffff)
          else ((Z.land x 0x7fffffff <=? n) && (n <=? 0x7fffffff)) || (n <=? Z.land y 0x7fffffff)
        else Z.land x 0x7fffffff =? n) || contains_from (y :: l) n).
    destruct (lor_top a Ha) as [-> ->]. rewrite (land_low b), contains_single, IH by done.
    cbn [Z.eqb negb]. unfold is_seqnum in *.
    destruct (existsb (covers n) es); [by rewrite !orb_true_r|].
    rewrite !orb_false_r. destruct (a <=? b) eqn:E1; lia.
Qed.

(** A packet filled through [AddSequenceNumber] and [AddSequenceNumbers]
    contains a sequence number exactly if one of the added numbers or ranges
    covers it, wrap-around ranges included. *)
Lemma ContainsSequenceNumber_entries es b n :
  Forall entry_ok es → is_seqnum n →
  ∃ p, add_entries es (Mk b []) = Ok p ∧
       ContainsSequenceNumber n p = Ok (existsb (covers n) es).
Proof.
  intros Hes Hn. eexists. split; [by apply add_entries_words|].
  unfold ContainsSequenceNumber. rewrite (proj2 (Z.leb_le _ _)) by apply Hn.
  f_equal. by apply contains_entries.
Qed.
