(* ===== verification/DataPacket.v ===== *)
(** * The data packet

    Models src/maidsafe/transport/rudp_data_packet.cc. *)

From S2P Require Import Prelude Packet.

Definition kHeaderSize : Z := 16.

Record t := Mk {
  packet_sequence_number_ : Z;
  first_packet_in_message_ : bool;
  last_packet_in_message_ : bool;
  in_order_ : bool;
  message_number_ : Z;
  time_stamp_ : Z;
  destination_socket_id_ : Z;
  data_ : list Z;
}.

Definition new : t := Mk 0 false false false 0 0 0 [].

Definition PacketSequenceNumber (p : t) : Z := packet_sequence_number_ p.
Definition SetPacketSequenceNumber (n : Z) (p : t) : Res t :=
  if n <=? 0x7fffffff then
    Ok (Mk n (first_packet_in_message_ p) (last_packet_in_message_ p) (in_order_ p)
          (message_number_ p) (time_stamp_ p) (destination_socket_id_ p) (data_ p))
  else Fault AssertionFailed.

Definition FirstPacketInMessage (p : t) : bool := first_packet_in_message_ p.
Definition SetFirstPacketInMessage (b : bool) (p : t) : t :=
  Mk (packet_sequence_number_ p) b (last_packet_in_message_ p) (in_order_ p)
    (message_number_ p) (time_stamp_ p) (destination_socket_id_ p) (data_ p).

Definition LastPacketInMessage (p : t) : bool := last_packet_in_message_ p.
Definition SetLastPacketInMessage (b : bool) (p : t) : t :=
  Mk (packet_sequence_number_ p) (first_packet_in_message_ p) b (in_order_ p)
    (message_number_ p) (time_stamp_ p) (destination_socket_id_ p) (data_ p).

Definition InOrder (p : t) : bool := in_order_ p.
Definition SetInOrder (b : bool) (p : t) : t :=
  Mk (packet_sequence_number_ p) (first_packet_in_message_ p) (last_packet_in_message_ p) b
    (message_number_ p) (time_stamp_ p) (destination_socket_id_ p) (data_ p).

Definition MessageNumber (p : t) : Z := message_number_ p.
Definition SetMessageNumber (n : Z) (p : t) : Res t :=
  if n <=? 0x1fffffff then
    Ok (Mk (packet_sequence_number_ p) (first_packet_in_message_ p)
          (last_packet_in_message_ p) (in_order_ p)
          n (time_stamp_ p) (destination_socket_id_ p) (data_ p))
  else Fault AssertionFailed.

Definition TimeStamp (p : t) : Z := time_stamp_ p.
Definition SetTimeStamp (n : Z) (p : t) : t :=
  Mk (packet_sequence_number_ p) (first_packet_in_message_ p) (last_packet_in_message_ p)
    (in_order_ p) (message_number_ p) n (destination_socket_id_ p) (data_ p).

Definition DestinationSocketId (p : t) : Z := destination_socket_id_ p.
Definition SetDestinationSocketId (n : Z) (p : t) : t :=
  Mk (packet_sequence_number_ p) (first_packet_in_message_ p) (last_packet_in_message_ p)
    (in_order_ p) (message_number_ p) (time_stamp_ p) n (data_ p).

Definition Data (p : t) : list Z := data_ p.
Definition SetData (data : list Z) (p : t) : t :=
  Mk (packet_sequence_number_ p) (first_packet_in_message_ p) (last_packet_in_message_ p)
    (in_order_ p) (message_number_ p) (time_stamp_ p) (destination_socket_id_ p) data.

Definition IsValid (buffer : list Z) : Res bool :=
  if negb (16 <=? buffer_size buffer) then Ok false
  else p0 ← rd buffer 0; Ok (Z.land p0 0x80 =? 0).

Definition Decode (buffer : list Z) (pkt : t) : Res (bool * t) :=
  valid ← IsValid buffer;
  if negb valid then Ok (false, pkt)
  else
    let length := length buffer in
    p0 ← rd buffer 0;
    p1 ← rd buffer 1;
    p2 ← rd buffer 2;
    p3 ← rd buffer 3;
    let seqnum := Z.land p0 0x7f in
    let seqnum := Z.lor (u32 (seqnum ≪ 8)) p1 in
    let seqnum := Z.lor (u32 (seqnum ≪ 8)) p2 in
    let seqnum := Z.lor (u32 (seqnum ≪ 8)) p3 in
    p4 ← rd buffer 4;
    let first := negb (Z.land p4 0x80 =? 0) in
    let last := negb (Z.land p4 0x40 =? 0) in
    let in_order := negb (Z.land p4 0x20 =? 0) in
    p5 ← rd buffer 5;
    p6 ← rd buffer 6;
    p7 ← rd buffer 7;
    let message := Z.land p4 0x1f in
    let message := Z.lor (u32 (message ≪ 8)) p5 in
    let message := Z.lor (u32 (message ≪ 8)) p6 in
    let message := Z.lor (u32 (message ≪ 8)) p7 in
    stamp ← DecodeUint32 buffer 8;
    dest ← DecodeUint32 buffer 12;
    data ← rd_bytes buffer 16 (length - 16);
    Ok (true, Mk seqnum first last in_order message stamp dest data).

Definition Encode (pkt : t) (buffer : list Z) : Res (Z * list Z) :=
  let size := Z.of_nat (length (data_ pkt)) in
  if buffer_size buffer <? kHeaderSize + size then Ok (0, buffer)
  else
    let seqnum := packet_sequence_number_ pkt in
    let message := message_number_ pkt in
    p ← wr buffer 0 (Z.land (seqnum ≫ 24) 0x7f);
    p ← wr p 1 (Z.land (seqnum ≫ 16) 0xff);
    p ← wr p 2 (Z.land (seqnum ≫ 8) 0xff);
    p ← wr p 3 (Z.land seqnum 0xff);
    p ← wr p 4 (Z.land (message ≫ 24) 0x1f);
    p4 ← rd p 4;
    p ← wr p 4 (Z.lor p4 (if first_packet_in_message_ pkt then 0x80 else 0));
    p4 ← rd p 4;
    p ← wr p 4 (Z.lor p4 (if last_packet_in_message_ pkt then 0x40 else 0));
    p4 ← rd p 4;
    p ← wr p 4 (Z.lor p4 (if in_order_ pkt then 0x20 else 0));
    p ← wr p 5 (Z.land (message ≫ 16) 0xff);
    p ← wr p 6 (Z.land (message ≫ 8) 0xff);
    p ← wr p 7 (Z.land message 0xff);
    p ← EncodeUint32 (time_stamp_ pkt) p 8;
    p ← EncodeUint32 (destination_socket_id_ pkt) p 12;
    p ← wr_bytes p 16 (data_ pkt);
    Ok (kHeaderSize + size, p).

Definition wf (p : t) : Prop :=
  0 ≤ packet_sequence_number_ p ≤ 0x7fffffff ∧ 0 ≤ message_number_ p ≤ 0x1fffffff ∧
  is_u32 (time_stamp_ p) ∧ is_u32 (destination_socket_id_ p) ∧ bytes_ok (data_ p).

Definition size (p : t) : nat := (16 + length (data_ p))%nat.

(** The byte that carries the flags and the top of the message number. *)
Definition flags_byte (pkt : t) : Z :=
  Z.lor (Z.lor (Z.lor (Z.land (message_number_ pkt ≫ 24) 0x1f)
    (if first_packet_in_message_ pkt then 0x80 else 0))
    (if last_packet_in_message_ pkt then 0x40 else 0))
    (if in_order_ pkt then 0x20 else 0).

Definition put_header (pkt : t) (p : list Z) : list Z :=
  put32 (destination_socket_id_ pkt) (put32 (time_stamp_ pkt)
    (<[7%nat := Z.land (message_number_ pkt) 255]>
    (<[6%nat := Z.land (message_number_ pkt ≫ 8) 255]>
    (<[5%nat := Z.land (message_number_ pkt ≫ 16) 255]>
    (<[4%nat := flags_byte pkt]> (<[4%nat := Z.lor (Z.lor (Z.land (message_number_ pkt ≫ 24) 0x1f)
       (if first_packet_in_message_ pkt then 0x80 else 0))
       (if last_packet_in_message_ pkt then 0x40 else 0)]>
    (<[4%nat := Z.lor (Z.land (message_number_ pkt ≫ 24) 0x1f)
       (if first_packet_in_message_ pkt then 0x80 else 0)]>
    (<[4%nat := Z.land (message_number_ pkt ≫ 24) 0x1f]>
    (<[3%nat := Z.land (packet_sequence_number_ pkt) 255]>
    (<[2%nat := Z.land (packet_sequence_number_ pkt ≫ 8) 255]>
    (<[1%nat := Z.land (packet_sequence_number_ pkt ≫ 16) 255]>
    (<[0%nat := Z.land (packet_sequence_number_ pkt ≫ 24) 127]> p))))))))))) 8) 12.

Definition put (pkt : t) (p : list Z) : list Z := list_inserts 16 (data_ pkt) (put_header pkt p).

Lemma data_length_put pkt p : length (put pkt p) = length p.
Proof. unfold put, put_header. by autorewrite with codec. Qed.

Lemma data_Encode_ok pkt p :
  Z.of_nat (size pkt) ≤ buffer_size p → Encode pkt p = Ok (Z.of_nat (size pkt), put pkt p).
Proof.
  intros H. unfold Encode, kHeaderSize, size, buffer_size in *.
  rewrite (proj2 (Z.ltb_ge _ _)) by lia.
  repeat (autorewrite with codec; rewrite Res_bind_ok).
  rewrite wr_bytes_ok by (autorewrite with codec; lia). rewrite Res_bind_ok.
  do 2 f_equal. lia.
Qed.

Lemma Encode_short pkt p : buffer_size p < Z.of_nat (size pkt) → Encode pkt p = Ok (0, p).
Proof.
  intros H. unfold Encode, kHeaderSize, size in *. by rewrite (proj2 (Z.ltb_lt _ _)) by lia.
Qed.

Lemma data_IsValid_total p : ∃ b, IsValid p = Ok b.
Proof.
  unfold IsValid, buffer_size. destruct (negb _) eqn:E; [eauto|].
  destruct (rd_ok p 0) as (b0&->&_); [lia|]. rewrite Res_bind_ok. eauto.
Qed.

Lemma data_Decode_total p pkt :
  ∃ b pkt', IsValid p = Ok b ∧ Decode p pkt = Ok (b, pkt') ∧ (b = false → pkt' = pkt).
Proof.
  unfold Decode. destruct (data_IsValid_total p) as [b E]. rewrite E, Res_bind_ok.
  destruct b; cbn [negb]; [|by eexists _, _].
  assert (16 ≤ length p)%nat.
  { unfold IsValid, buffer_size in E. destruct (negb _) eqn:E'; [done|lia]. }
  destruct (rd_ok p 0) as (?&->&_); [lia|].
  destruct (rd_ok p 1) as (?&->&_); [lia|].
  destruct (rd_ok p 2) as (?&->&_); [lia|].
  destruct (rd_ok p 3) as (?&->&_); [lia|].
  destruct (rd_ok p 4) as (?&->&_); [lia|].
  destruct (rd_ok p 5) as (?&->&_); [lia|].
  destruct (rd_ok p 6) as (?&->&_); [lia|].
  destruct (rd_ok p 7) as (?&->&_); [lia|].
  destruct (DecodeUint32_ok p 8) as [? ->]; [lia|].
  destruct (DecodeUint32_ok p 12) as [? ->]; [lia|].
  rewrite rd_bytes_ok by lia. rewrite !Res_bind_ok. by eexists _, _.
Qed.

(** The flag bits and the message bits of [flags_byte] do not overlap: check
    all 32 values of the latter. *)
Lemma flags_byte_bits m (f l o : bool) :
  0 ≤ m < 32 →
  let b := Z.lor (Z.lor (Z.lor m (if f then 0x80 else 0)) (if l then 0x40 else 0))
             (if o then 0x20 else 0) in
  negb (Z.land b 0x80 =? 0) = f ∧ negb (Z.land b 0x40 =? 0) = l ∧
  negb (Z.land b 0x20 =? 0) = o ∧ Z.land b 0x1f = m.
Proof.
  intros Hm.
  assert (Forall (λ m, ∀ f l o : bool,
    let b := Z.lor (Z.lor (Z.lor m (if f then 0x80 else 0)) (if l then 0x40 else 0))
               (if o then 0x20 else 0) in
    negb (Z.land b 0x80 =? 0) = f ∧ negb (Z.land b 0x40 =? 0) = l ∧
    negb (Z.land b 0x20 =? 0) = o ∧ Z.land b 0x1f = m) (seqZ 0 32)) as H.
  { set (ms := seqZ 0 32). vm_compute in ms. subst ms.
    repeat (apply Forall_cons_2; [intros [] [] []; by vm_compute|]). apply Forall_nil_2. }
  rewrite Forall_forall in H. apply H, elem_of_seqZ. lia.
Qed.

Lemma rd_put_header pkt p i :
  (16 ≤ length p)%nat → (i < 16)%nat → rd (put pkt p) i = rd (put_header pkt p) i.
Proof. intros. unfold put. by rewrite rd_list_inserts_ne by lia. Qed.

Lemma land_31_message m : 0 ≤ m ≤ 0x1fffffff → Z.land (m ≫ 24) 0x1f = m / 16777216.
Proof.
  intros. change 0x1f with (Z.ones 5). rewrite Z.land_ones, Z.shiftr_div_pow2 by lia.
  change (2 ^ 24) with 16777216. change (2 ^ 5) with 32. mod_lia.
Qed.

Lemma land_127_seqnum m : 0 ≤ m ≤ 0x7fffffff → Z.land (m ≫ 24) 0x7f = m / 16777216.
Proof.
  intros. change 0x7f with (Z.ones 7). rewrite Z.land_ones, Z.shiftr_div_pow2 by lia.
  change (2 ^ 24) with 16777216. change (2 ^ 7) with 128. mod_lia.
Qed.

Lemma combine_bytes m :
  0 ≤ m ≤ 0x7fffffff →
  Z.lor (u32 (Z.lor (u32 (Z.lor (u32 ((m / 16777216) ≪ 8)) (Z.land (m ≫ 16) 255) ≪ 8))
    (Z.land (m ≫ 8) 255) ≪ 8)) (Z.land m 255) = m.
Proof.
  intros H. rewrite combine4; [|unfold is_u8; mod_lia|apply land_255_u8..].
  rewrite !shiftr_mod, land_255 by lia.
  change (2 ^ 16) with 65536. change (2 ^ 8) with 256. mod_lia.
Qed.

Lemma data_Decode_put pkt p pkt0 :
  wf pkt → Z.of_nat (size pkt) ≤ buffer_size p →
  Decode (take (size pkt) (put pkt p)) pkt0 = Ok (true, pkt).
Proof.
  intros (Hs&Hm&?&?&?) Hl. unfold buffer_size, size in *.
  assert (16 ≤ length p)%nat by lia.
  assert (∀ i, (i < 16)%nat →
    rd (take (16 + length (data_ pkt)) (put pkt p)) i = rd (put_header pkt p) i) as Hrd.
  { intros. by rewrite rd_take, rd_put_header by lia. }
  destruct (flags_byte_bits (Z.land (message_number_ pkt ≫ 24) 0x1f)
    (first_packet_in_message_ pkt) (last_packet_in_message_ pkt) (in_order_ pkt))
    as (Hf&Hla&Ho&Hmsg); [rewrite land_31_message by done; mod_lia|].
  fold (flags_byte pkt) in Hf, Hla, Ho, Hmsg.
  assert (Z.land (Z.land (packet_sequence_number_ pkt ≫ 24) 127) 128 = 0) as Hp0.
  { by rewrite <-Z.land_assoc, Z.land_0_r. }
  assert (Z.land (Z.land (packet_sequence_number_ pkt ≫ 24) 127) 127
    = packet_sequence_number_ pkt / 16777216) as Hp7.
  { by rewrite <-Z.land_assoc, land_127_seqnum. }
  unfold Decode, IsValid, buffer_size. rewrite !length_take, data_length_put.
  replace (16 <=? Z.of_nat ((16 + length (data_ pkt)) `min` length p)%nat) with true by lia.
  cbn [negb]. unfold DecodeUint32. rewrite !Hrd by lia.
  fold (DecodeUint32 (put_header pkt p) 8). fold (DecodeUint32 (put_header pkt p) 12).
  unfold put_header. autorewrite with codec. rewrite !Res_bind_ok, Hp0. cbn [Z.eqb negb].
  rewrite Hf, Hla, Ho, Hmsg, land_31_message, Hp7, !combine_bytes by (done || lia).
  rewrite rd_bytes_ok by (rewrite length_take, data_length_put; lia). rewrite Res_bind_ok.
  rewrite skipn_firstn_comm, take_take.
  replace (((16 + length (data_ pkt)) `min` length p - 16) `min`
           (16 + length (data_ pkt) - 16))%nat with (length (data_ pkt)) by lia.
  unfold put. rewrite take_drop_list_inserts by (unfold put_header; autorewrite with codec; lia).
  by destruct pkt.
Qed.

