(* ===== verification/Decoded.v ===== *)
(** * What decoding guarantees of the fields

    Decoding a datagram of bytes gives 32-bit fields: what the session, the
    sender and the receiver of a socket need to know of a packet that came from
    the network. *)

From S2P Require Import Prelude Packet ControlPackets AckPackets.
From S2P Require DataPacket HandshakePacket NegativeAckPacket.

Lemma Res_bind_inv {A B} (m : Res A) (k : A → Res B) b :
  (x ← m; k x) = Ok b → ∃ a, m = Ok a ∧ k a = Ok b.
Proof. destruct m as [a|]; [|done]. intros E. by exists a. Qed.

(** Split an equation [x ← m; k x = Ok b] into its steps. *)
Ltac res_inv :=
  repeat match goal with
  | H : mbind _ _ = Ok _ |- _ =>
      let x := fresh "x" in let E := fresh "E" in
      apply Res_bind_inv in H as (x&E&H)
  | H : context [if ?b then _ else _] |- _ => let B := fresh "B" in destruct b eqn:B
  | H : Ok _ = Ok _ |- _ => injection H; clear H; intros; subst
  end.

Create HintDb ranges.
#[export] Hint Resolve DecodeUint32_u32 : ranges.

Lemma DecodeBase_ranges p ty (pkt pkt' : ControlPacket.t) b :
  bytes_ok p → is_u32 (ControlPacket.AdditionalInfo pkt) →
  ControlPacket.DecodeBase p ty pkt = Ok (b, pkt') → is_u32 (ControlPacket.AdditionalInfo pkt').
Proof.
  intros Hp Hpkt E. unfold ControlPacket.DecodeBase in E. res_inv; cbn; eauto with ranges.
Qed.

Lemma ack_of_ack_ranges p (pkt pkt' : AckOfAckPacket.t) b :
  bytes_ok p → is_u32 (AckOfAckPacket.AckSequenceNumber pkt) →
  AckOfAckPacket.Decode p pkt = Ok (b, pkt') → is_u32 (AckOfAckPacket.AckSequenceNumber pkt').
Proof.
  intros Hp Hpkt E. unfold AckOfAckPacket.Decode in E. res_inv; try done.
  all: destruct x as [b' base']; by eapply DecodeBase_ranges.
Qed.

Definition ack_ranges_ok (p : AckPacket.t) : Prop :=
  is_u32 (AckPacket.PacketSequenceNumber p) ∧ is_u32 (AckPacket.RoundTripTime p) ∧
  is_u32 (AckPacket.RoundTripTimeVariance p) ∧ is_u32 (AckPacket.AvailableBufferSize p).

Lemma ack_ranges p (pkt pkt' : AckPacket.t) b :
  bytes_ok p → ack_ranges_ok pkt → AckPacket.Decode p pkt = Ok (b, pkt') → ack_ranges_ok pkt'.
Proof.
  intros Hp (?&?&?&?) E. unfold AckPacket.Decode in E. res_inv; unfold ack_ranges_ok; cbn.
  all: split_and!; eauto with ranges.
Qed.

Definition handshake_ranges_ok (p : HandshakePacket.t) : Prop :=
  is_u32 (HandshakePacket.SocketId p) ∧ is_u32 (HandshakePacket.ConnectionType p) ∧
  is_u32 (HandshakePacket.InitialPacketSequenceNumber p).

Lemma handshake_ranges p (pkt pkt' : HandshakePacket.t) b :
  bytes_ok p → handshake_ranges_ok pkt → HandshakePacket.Decode p pkt = Ok (b, pkt') →
  handshake_ranges_ok pkt'.
Proof.
  intros Hp (?&?&?) E. unfold HandshakePacket.Decode in E. res_inv; unfold handshake_ranges_ok; cbn.
  all: split_and!; eauto with ranges.
Qed.

Lemma lor_shift8_lt m n b : 0 ≤ n < m → m ≤ 16777216 → is_u8 b →
  0 ≤ Z.lor (u32 (n ≪ 8)) b < m * 256.
Proof. intros ? ? Hb. rewrite lor_shift8 by (done || lia). unfold is_u8 in Hb. lia. Qed.

(** The flag bit is not part of the sequence number. *)
Lemma data_ranges p (pkt pkt' : DataPacket.t) :
  bytes_ok p → DataPacket.Decode p pkt = Ok (true, pkt') →
  0 ≤ DataPacket.PacketSequenceNumber pkt' < 2147483648 ∧ bytes_ok (DataPacket.Data pkt').
Proof.
  intros Hp E. unfold DataPacket.Decode in E.
  apply Res_bind_inv in E as (v&_&E). destruct (negb v); [done|]. cbv zeta in E. res_inv.
  cbn [DataPacket.PacketSequenceNumber DataPacket.packet_sequence_number_ DataPacket.Data
    DataPacket.data_]. split.
  - assert (∀ y, 0 ≤ Z.land y 127 < 128) as H0.
    { intros y. change 127 with (Z.ones 7). rewrite Z.land_ones by lia. by apply Z.mod_pos_bound. }
    apply (lor_shift8_lt (128 * 256 * 256)); [|lia|by eapply rd_u8].
    apply (lor_shift8_lt (128 * 256)); [|lia|by eapply rd_u8].
    apply (lor_shift8_lt 128); [done|lia|by eapply rd_u8].
  - match goal with H : rd_bytes _ _ _ = Ok _ |- _ => revert H end. unfold rd_bytes.
    case_decide; [|done]. intros [= <-]. by apply Forall_take, Forall_drop.
Qed.
