(* ===== verification/Dispatcher.v ===== *)
(** * The dispatcher's tables

    Models the state of src/maidsafe/transport/rudp_dispatcher.cc: which socket
    has which identifier, and the acceptor.  A pointer to a socket or to an
    acceptor is a [handle]; what the objects behind the handles do with a
    datagram is in Socket.v and Multiplexer.v.  [route] is the decision
    [HandleReceiveFrom] takes for a datagram. *)

From S2P Require Import Prelude Environment Packet.

Definition handle := positive.

Record Dispatcher := MkDispatcher {
  acceptor_ : option handle;
  sockets_ : gmap Z handle;
}.

Definition new_dispatcher : Dispatcher := MkDispatcher None ∅.

Definition GetAcceptor (d : Dispatcher) : option handle := acceptor_ d.

Definition SetAcceptor (acceptor : option handle) (d : Dispatcher) : Res Dispatcher :=
  if bool_decide (acceptor = None ∨ acceptor_ d = None)
  then Ok (MkDispatcher acceptor (sockets_ d))
  else Fault AssertionFailed.

Definition RemoveSocket (id : Z) (d : Dispatcher) : Dispatcher :=
  if id =? 0 then d else MkDispatcher (acceptor_ d) (delete id (sockets_ d)).

(** The loop condition of [AddSocket]: the identifier cannot be given out. *)
Definition taken (id : Z) (d : Dispatcher) : bool :=
  (id =? 0) || bool_decide (is_Some (sockets_ d !! id)).

(** Where [HandleReceiveFrom] sends a datagram. *)
Inductive target :=
  | ToAcceptor (h : handle)
  | NoAcceptor
  | ToSocket (h : handle)
  | UnknownSocket (id : Z)
  | Unaddressed.

Definition route (data : list Z) (d : Dispatcher) : Res target :=
  r ← DecodeDestinationSocketId data;
  if negb r.1 then Ok Unaddressed
  else if r.2 =? 0 then Ok (match acceptor_ d with Some h => ToAcceptor h | None => NoAcceptor end)
  else Ok (match sockets_ d !! r.2 with Some h => ToSocket h | None => UnknownSocket r.2 end).

Section dispatcher.
Context `{Environment}.

(** Draws until the identifier is free; [fuel] bounds the draws. *)
Definition AddSocket (fuel : nat) (socket : handle) : M (Dispatcher * World) Z :=
  id ← loop fuel (λ id,
    d ← gets fst;
    if taken id d then
      r ← zoom snd (λ w s, (s.1, w)) RandomUint32;
      mret (inl r)
    else mret (inr id)) 0;
  modify (λ s, (MkDispatcher (acceptor_ s.1) (<[id := socket]> (sockets_ s.1)), s.2));;
  mret id.

Definition drawn (k : nat) (w : World) : World :=
  MkWorld _ (w_clock w) (w_random w + k) (w_sent w).

(** The [j]-th identifier that is tried, from [id] on. *)
Definition candidate (id : Z) (w : World) (j : nat) : Z :=
  match j with O => id | S j' => random_uint32 (w_random w + j') end.

Lemma candidate_S id w j :
  candidate id w (S j) = candidate (random_uint32 (w_random w)) (drawn 1 w) j.
Proof.
  destruct j as [|j]; cbn [candidate]; f_equal; [lia|]. unfold drawn. cbn [w_random]. lia.
Qed.

Lemma drawn_drawn j k w : drawn j (drawn k w) = drawn (k + j) w.
Proof. unfold drawn. cbn. by rewrite Nat.add_assoc. Qed.

Lemma wp_draw d k fuel id w (Q : Z → Dispatcher * World → Prop) :
  (k < fuel)%nat → (∀ j, (j < k)%nat → taken (candidate id w j) d = true) →
  taken (candidate id w k) d = false → Q (candidate id w k) (d, drawn k w) →
  wp (loop fuel (λ id,
    d ← gets fst;
    if taken id d then
      r ← zoom snd (λ w s, (s.1, w)) RandomUint32;
      mret (inl r)
    else mret (inr id)) id) (d, w) Q.
Proof.
  revert fuel id w. induction k as [|k IH]; intros fuel id w Hk Hall Hlast HQ;
    (destruct fuel as [|fuel]; [lia|]); cbn [loop]; apply wp_bind, wp_bind, wp_gets; cbn [fst].
  - cbn [candidate] in *. rewrite Hlast. apply wp_ret, wp_ret.
    unfold drawn in HQ. rewrite Nat.add_0_r in HQ. by destruct w.
  - specialize (Hall 0%nat ltac:(lia)) as H0. cbn [candidate] in H0. rewrite H0.
    apply wp_bind, wp_zoom. change (RandomUint32 (d, w).2) with
      (Ok (random_uint32 (w_random w), MkWorld _ (w_clock w) (S (w_random w)) (w_sent w))).
    unfold wp at 1, RandomUint32. cbn [snd fst]. apply wp_ret.
    replace (MkWorld _ (w_clock w) (S (w_random w)) (w_sent w)) with (drawn 1 w)
      by (unfold drawn; f_equal; lia).
    rewrite candidate_S in Hlast, HQ.
    apply IH; [lia| |done|by rewrite drawn_drawn].
    intros j Hj. rewrite <-(candidate_S id). apply Hall. lia.
Qed.

(** [AddSocket] gives out the first free identifier that is drawn. *)
Lemma wp_AddSocket fuel h k d w (Q : Z → Dispatcher * World → Prop) :
  (k < fuel)%nat →
  (∀ j, (j < k)%nat → taken (candidate 0 w j) d = true) → taken (candidate 0 w k) d = false →
  (let id := candidate 0 w k in
   Q id (MkDispatcher (acceptor_ d) (<[id := h]> (sockets_ d)), drawn k w)) →
  wp (AddSocket fuel h) (d, w) Q.
Proof.
  intros Hk Hall Hlast HQ. unfold AddSocket. apply wp_bind. eapply wp_draw; [done..|].
  by apply wp_bind, wp_modify, wp_ret.
Qed.

Lemma first_free id w d m :
  taken (candidate id w m) d = false →
  ∃ n, (n ≤ m)%nat ∧ taken (candidate id w n) d = false ∧
    ∀ j, (j < n)%nat → taken (candidate id w j) d = true.
Proof.
  intros Hm. assert ((∀ j, (j < m)%nat → taken (candidate id w j) d = true) ∨
    ∃ n, (n < m)%nat ∧ taken (candidate id w n) d = false ∧
      ∀ j, (j < n)%nat → taken (candidate id w j) d = true) as [Hall|(n&?&?&?)].
  - clear Hm. induction m as [|m [Hall|(n&?&?&?)]].
    + left. lia.
    + destruct (taken (candidate id w m) d) eqn:E.
      * left. intros j Hj. destruct (decide (j = m)) as [->|]; [done|]. apply Hall. lia.
      * right. exists m. split_and!; [lia|done..].
    + right. exists n. split_and!; [lia|done..].
  - exists m. by split_and!.
  - exists n. split_and!; [lia|done..].
Qed.

(** A new socket gets an identifier of its own: if a free identifier is
    among the first [fuel - 1] that are drawn, [AddSocket] returns one that is
    a non-zero 32-bit number no registered socket has, registers the socket
    under it, and leaves every other registration and the acceptor alone. *)
Theorem add_socket_fresh (fuel : nat) (h : handle) (d : Dispatcher) (w : World) (k : nat) :
  (∀ i, is_u32 (random_uint32 i)) → (S k < fuel)%nat →
  taken (random_uint32 (w_random w + k)) d = false →
  ∃ id d' w', AddSocket fuel h (d, w) = Ok (id, (d', w')) ∧
    id ≠ 0 ∧ is_u32 id ∧ sockets_ d !! id = None ∧ sockets_ d' !! id = Some h ∧
    (∀ id', id' ≠ id → sockets_ d' !! id' = sockets_ d !! id') ∧
    acceptor_ d' = acceptor_ d ∧ w_sent w' = w_sent w.
Proof.
  intros Hr Hk Hfree.
  assert (∃ n, (n ≤ S k)%nat ∧ taken (candidate 0 w n) d = false ∧
    ∀ j, (j < n)%nat → taken (candidate 0 w j) d = true) as (n&Hn&Hfn&Hall).
  { by apply first_free. }
  assert (wp (AddSocket fuel h) (d, w) (λ id s, id = candidate 0 w n ∧
    s = (MkDispatcher (acceptor_ d) (<[id := h]> (sockets_ d)), drawn n w))) as Hw
    by (eapply (wp_AddSocket fuel h n); [lia|done..]).
  apply wp_Ok in Hw as (id&s&E&->& ->). unfold taken in Hfn.
  apply orb_false_iff in Hfn as [H0 Hnone]. apply Z.eqb_neq in H0.
  apply bool_decide_eq_false in Hnone. rewrite <-eq_None_not_Some in Hnone.
  eexists _, _, _. split; [exact E|]. split_and!; try done.
  - destruct n as [|n]; [done|]. apply Hr.
  - cbn [sockets_]. by rewrite lookup_insert_eq.
  - intros id' Hid'. cbn [sockets_]. by rewrite lookup_insert_ne by congruence.
Qed.
End dispatcher.

Module DispatcherExamples.
#[local] Instance sim : Environment := Sim.env 0 1000.

(** The first number the environment draws, 1, belongs to another socket. *)
Lemma add_socket_fresh_witness :
  ∃ id d' w', AddSocket 5 7%positive (MkDispatcher None {[ 1 := 3%positive ]}, MkWorld _ 0 0 []) =
      Ok (id, (d', w')) ∧ id ≠ 0 ∧ sockets_ d' !! id = Some 7%positive.
Proof.
  destruct (add_socket_fresh 5 7%positive (MkDispatcher None {[ 1 := 3%positive ]})
    (MkWorld _ 0 0 []) 1) as (id&d'&w'&E&Hid&_&_&Hl&_).
  - apply Sim.sim_random_u32.
  - lia.
  - by vm_compute.
  - exists id, d', w'. split_and!; [exact E|exact Hid|exact Hl].
Defined.
End DispatcherExamples.
