(* ===== verification/Transport.v ===== *)
(** * Conditions, the multiplexer's send path, the peer and the tick timer

    Models the enumerations of src/maidsafe/transport/transport.h,
    [RudpMultiplexer::SendTo] of rudp_multiplexer.h, rudp_peer.h and
    rudp_tick_timer.h, with the parameters of rudp_parameters.cc. *)

From S2P Require Import Prelude Environment Packet.

(** ** transport.h *)

Inductive TransportCondition :=
  | kSuccess | kError | kRemoteUnreachable | kNoConnection | kNoNetwork
  | kInvalidIP | kInvalidPort | kInvalidData | kNoSocket | kInvalidAddress
  | kNoRendezvous | kBehindFirewall | kBindError | kConnectError
  | kAlreadyStarted | kListenError | kCloseSocketError | kSendFailure
  | kSendTimeout | kSendStalled | kSendParseFailure | kSendSizeFailure
  | kReceiveFailure | kReceiveTimeout | kReceiveStalled | kReceiveParseFailure
  | kReceiveSizeFailure | kAddManagedEndpointError | kAddManagedEndpointTimedOut
  | kManagedEndpointLost | kSetOptionFailure | kMessageSizeTooLarge
  | kWrongIpVersion | kPendingResult | kTransportConditionLimit.

#[export] Instance TransportCondition_eq_dec : EqDecision TransportCondition.
Proof. solve_decision. Defined.

Definition condition_code (c : TransportCondition) : Z :=
  match c with
  | kSuccess => 0 | kError => -350001 | kRemoteUnreachable => -350002
  | kNoConnection => -350003 | kNoNetwork => -350004 | kInvalidIP => -350005
  | kInvalidPort => -350006 | kInvalidData => -350007 | kNoSocket => -350008
  | kInvalidAddress => -350009 | kNoRendezvous => -350010
  | kBehindFirewall => -350011 | kBindError => -350012 | kConnectError => -350013
  | kAlreadyStarted => -350014 | kListenError => -350015
  | kCloseSocketError => -350016 | kSendFailure => -350017
  | kSendTimeout => -350018 | kSendStalled => -350019
  | kSendParseFailure => -350020 | kSendSizeFailure => -350021
  | kReceiveFailure => -350022 | kReceiveTimeout => -350023
  | kReceiveStalled => -350024 | kReceiveParseFailure => -350025
  | kReceiveSizeFailure => -350026 | kAddManagedEndpointError => -350027
  | kAddManagedEndpointTimedOut => -350028 | kManagedEndpointLost => -350029
  | kSetOptionFailure => -350030 | kMessageSizeTooLarge => -350031
  | kWrongIpVersion => -350032 | kPendingResult => -350033
  | kTransportConditionLimit => -359999
  end.

(** The timeouts of transport.h, in microseconds *)
Definition kDefaultInitialTimeout : Z := 10000000.
Definition kImmediateTimeout : Z := 0.
Definition kMinTimeout : Z := 500000.
Definition kStallTimeout : Z := 3000000.

(** ** rudp_parameters.cc *)
Module RudpParameters.
Definition default_window_size : Z := 16.
Definition maximum_window_size : Z := 512.
Definition default_size : Z := 1480.
Definition max_size : Z := 25980.
Definition kUDPPayload : Z := 65500.
Definition default_data_size : Z := 1450.
Definition max_data_size : Z := 25950.
Definition default_send_timeout : Z := milliseconds 1000.
Definition default_receive_timeout : Z := milliseconds 200.
Definition default_send_delay : Z := milliseconds 1000.
Definition default_receive_delay : Z := milliseconds 100.
Definition default_ack_timeout : Z := milliseconds 1000.
Definition ack_interval : Z := milliseconds 100.
Definition speed_calculate_inverval : Z := milliseconds 1000.
Definition slow_speed_threshold : Z := 1024.
Definition client_connect_timeout : Z := milliseconds 1000.
Definition kWireless : Z := 0x0fffffff.
Definition kT1 : Z := 0xf0ffffff.
Definition kE1 : Z := 0xf1ffffff.
Definition k10MEthernet : Z := 0xff0fffff.
Definition k100MEthernet : Z := 0xff1fffff.
Definition k1GEthernet : Z := 0xff2fffff.
Definition connection_type : Z := kWireless.
End RudpParameters.

(** ** RudpMultiplexer::SendTo

    A template over the packet class, of which it needs [Encode]. *)
Class Encodable (P : Type) := Encode : P → list Z → Res (Z * list Z).

Section multiplexer.
Context `{Environment}.

(** The [std::array] on the stack has no defined contents; [Encode] writes
    every byte that is sent, so zeros stand for them. *)
Definition send_buffer : list Z := replicate (Z.to_nat RudpParameters.max_size) 0.

Definition SendTo `{Encodable P} (packet : P) (ep : endpoint) : M World TransportCondition :=
  r ← liftR (Encode packet send_buffer);
  if r.1 =? 0 then mret kSendFailure
  else
    ec ← send_to ep (take (Z.to_nat r.1) r.2);
    mret (if ec : bool then kSendFailure else kSuccess).
End multiplexer.

(** ** RudpPeer *)
Record Peer `{Environment} := MkPeer {
  peer_endpoint : endpoint;
  peer_id : Z;
}.

Section peer.
Context `{Environment}.

Definition new_peer : Peer := MkPeer _ endpoint_none 0.
Definition peer_SetEndpoint (ep : endpoint) (p : Peer) : Peer := MkPeer _ ep (peer_id p).
Definition peer_SetId (id : Z) (p : Peer) : Peer := MkPeer _ (peer_endpoint p) id.

Definition peer_Send `{Encodable P} (packet : P) : M (Peer * World) TransportCondition := λ s,
  match SendTo packet (peer_endpoint s.1) s.2 with
  | Ok (c, w) => Ok (c, (s.1, w))
  | Fault f => Fault f
  end.
End peer.

(** ** RudpTickTimer

    The expiry time of the wrapped [deadline_timer]. *)
Record TickTimer `{Environment} := MkTickTimer { expires_at : ptime }.

Section tick_timer.
Context `{Environment}.

Definition timer_Reset (t : TickTimer) : TickTimer := MkTickTimer _ pos_infin.

(** Completes the pending wait and leaves the expiry time. *)
Definition timer_Cancel (t : TickTimer) : TickTimer := t.

Definition timer_Expired : M (TickTimer * World) bool := λ s,
  if ptime_eqb (expires_at s.1) pos_infin then Ok (true, s)
  else
    match Now s.2 with
    | Ok (now, w) => Ok (negb (ptime_ltb now (expires_at s.1)), (s.1, w))
    | Fault f => Fault f
    end.

(** Never moves the expiry further away. *)
Definition timer_TickAt (time : ptime) (t : TickTimer) : TickTimer :=
  if ptime_ltb time (expires_at t) then MkTickTimer _ time else t.

Definition timer_TickAfter (duration : Z) : M (TickTimer * World) unit := λ s,
  match Now s.2 with
  | Ok (now, w) => Ok (tt, (timer_TickAt (ptime_add now duration) s.1, w))
  | Fault f => Fault f
  end.

(** [TickAt] leaves the earlier of the old and the new expiry. *)
Lemma timer_TickAt_earlier time t :
  expires_at (timer_TickAt time t) = time ∧ ptime_ltb time (expires_at t) = true ∨
  expires_at (timer_TickAt time t) = expires_at t ∧ ptime_ltb time (expires_at t) = false.
Proof. unfold timer_TickAt. destruct (ptime_ltb _ _) eqn:E; auto. Qed.
End tick_timer.

(** ** Sending a packet whose encoding fits

    The wire format of a packet class: its encoding, once the buffer is large
    enough, takes [wire_size] bytes. *)
Class WireFormat (P : Type) `{Encodable P} := {
  wire_size : P → nat;
  wire_put : P → list Z → list Z;
  wire_ok : P → Prop;
  wire_size_pos p : (0 < wire_size p)%nat;
  wire_encode p buf :
    wire_ok p → (wire_size p ≤ length buf)%nat →
    Encode p buf = Ok (Z.of_nat (wire_size p), wire_put p buf);
  wire_length p buf : length (wire_put p buf) = length buf;
}.

Section send.
Context `{Environment} `{WireFormat P}.

(** The bytes of the datagram a packet becomes. *)
Definition wire_bytes (p : P) : list Z := take (wire_size p) (wire_put p send_buffer).

Lemma SendTo_fits p ep w :
  wire_ok p → (wire_size p ≤ Z.to_nat RudpParameters.max_size)%nat →
  SendTo p ep w =
    (let sent := Datagram _ ep (wire_bytes p) :: w_sent w in
     Ok (if send_error sent then kSendFailure else kSuccess,
         MkWorld _ (w_clock w) (w_random w) sent)).
Proof.
  intros Hok Hfit. unfold SendTo, mbind, M_bind, liftR.
  rewrite wire_encode by (done || unfold send_buffer; by rewrite length_replicate).
  pose proof (wire_size_pos p). cbn [fst snd].
  replace (Z.of_nat (wire_size p) =? 0) with false by lia.
  rewrite Nat2Z.id. done.
Qed.
End send.
