(* ===== verification/SlidingWindow.v ===== *)
(** * The sliding window

    Models the class template of src/maidsafe/transport/rudp_sliding_window.h:
    a deque of items numbered by consecutive sequence numbers of 31 bits, which
    wrap around.  The abstraction is the list of items together with the
    sequence number of the first one: item [i] has number
    [seq_add (begin_ w) i]. *)

From S2P Require Import Prelude Environment Transport.

Definition kMaxSequenceNumber : Z := 0x7fffffff.

Record Window (T : Type) := MkWindow {
  items_ : list T;
  maximum_size_ : Z;
  begin_ : Z;
  end_ : Z;
}.
Arguments MkWindow {T} _ _ _ _.
Arguments items_ {T} _.
Arguments maximum_size_ {T} _.
Arguments begin_ {T} _.
Arguments end_ {T} _.

Section operations.
Context {T : Type}.
Implicit Types (w : Window T) (n : Z).

(** The constructor that takes the initial sequence number. *)
Definition new_window (initial_sequence_number : Z) : Window T :=
  MkWindow [] RudpParameters.default_window_size
    initial_sequence_number initial_sequence_number.

Definition Reset (initial_sequence_number : Z) w : Res (Window T) :=
  if initial_sequence_number <=? kMaxSequenceNumber then
    Ok (MkWindow [] RudpParameters.default_window_size
          initial_sequence_number initial_sequence_number)
  else Fault AssertionFailed.

Definition Begin w : Z := begin_ w.
Definition End w : Z := end_ w.

Definition IsInRange (begin end' n : Z) : bool :=
  if begin <=? end' then (begin <=? n) && (n <? end')
  else (n <? end') || ((begin <=? n) && (n <=? kMaxSequenceNumber)).

Definition Contains n w : bool := IsInRange (begin_ w) (end_ w) n.

Definition IsComingSoon n w : bool :=
  let begin := end_ w in
  let end' := (begin +u32 RudpParameters.maximum_window_size) `mod`
              (kMaxSequenceNumber +u32 1) in
  IsInRange begin end' n.

Definition MaximumSize w : Z := maximum_size_ w.
Definition SetMaximumSize (size : Z) w : Window T :=
  MkWindow (items_ w)
    (if size <? RudpParameters.maximum_window_size then size
     else RudpParameters.maximum_window_size)
    (begin_ w) (end_ w).

Definition Size w : Z := Z.of_nat (length (items_ w)).
Definition IsEmpty w : bool := match items_ w with [] => true | _ => false end.
Definition IsFull w : bool := maximum_size_ w <=? Z.of_nat (length (items_ w)).

Definition Next n : Z := if n =? kMaxSequenceNumber then 0 else n +u32 1.

(** [item] is the default constructed [T()]. *)
Definition Append (item : T) w : Res (Z * Window T) :=
  if negb (IsFull w) then
    Ok (end_ w, MkWindow (items_ w ++ [item]) (maximum_size_ w) (begin_ w) (Next (end_ w)))
  else Fault AssertionFailed.

Definition Remove w : Res (Window T) :=
  match items_ w with
  | [] => Fault AssertionFailed
  | _ :: l => Ok (MkWindow l (maximum_size_ w) (Next (begin_ w)) (end_ w))
  end.

Definition SequenceNumberToIndex n w : Res Z :=
  if Contains n w then
    Ok (if begin_ w <=? end_ w then n -u32 begin_ w
        else if n <? end_ w then u32 (kMaxSequenceNumber - begin_ w + n + 1)
        else n -u32 begin_ w)
  else Fault AssertionFailed.

(** [operator[]], as an rvalue and as the target of a member update. *)
Definition at_ n w : Res T :=
  i ← SequenceNumberToIndex n w;
  match items_ w !! Z.to_nat i with Some x => Ok x | None => Fault OutOfBounds end.

Definition update n (f : T → T) w : Res (Window T) :=
  i ← SequenceNumberToIndex n w;
  if decide (Z.to_nat i < length (items_ w))%nat
  then Ok (MkWindow (alter f (Z.to_nat i) (items_ w)) (maximum_size_ w) (begin_ w) (end_ w))
  else Fault OutOfBounds.

Definition Front w : Res T :=
  match items_ w with [] => Fault OutOfBounds | x :: _ => Ok x end.

(** The non-const overload, which is the one called on a non-const window. *)
Definition Back w : Res T :=
  if negb (IsEmpty w)
  then match items_ w with [] => Fault OutOfBounds | x :: _ => Ok x end
  else Fault AssertionFailed.

Definition Back_const w : Res T :=
  if negb (IsEmpty w)
  then match last (items_ w) with None => Fault OutOfBounds | Some x => Ok x end
  else Fault AssertionFailed.
End operations.

(** [GenerateSequenceNumber]: draw until the low 31 bits are not zero. *)
Definition GenerateSequenceNumber `{Environment} (fuel : nat) : M World Z :=
  loop fuel (λ _, r ← RandomUint32;
    let seqnum := Z.land r 0x7fffffff in
    mret (if seqnum =? 0 then inl seqnum else inr seqnum)) 0.

(** The default constructor. *)
Definition default_window `{Environment} {T} (fuel : nat) : M World (Window T) :=
  n ← GenerateSequenceNumber fuel;
  liftR (Reset n (MkWindow [] 0 0 0)).

(** ** Sequence arithmetic *)

Definition modulus : Z := 2147483648.
Definition seq_add (n i : Z) : Z := (n + i) `mod` modulus.
Definition seq_sub (n m : Z) : Z := (n - m) `mod` modulus.
Definition is_seq (n : Z) : Prop := 0 ≤ n < modulus.

Lemma seq_add_is_seq n i : is_seq (seq_add n i).
Proof. apply Z.mod_pos_bound. done. Qed.

Lemma seq_sub_is_seq n i : is_seq (seq_sub n i).
Proof. apply Z.mod_pos_bound. done. Qed.

Lemma seq_add_0 n : is_seq n → seq_add n 0 = n.
Proof. unfold is_seq, seq_add. rewrite Z.add_0_r. apply Z.mod_small. Qed.

Lemma seq_add_add n i j : seq_add (seq_add n i) j = seq_add n (i + j).
Proof. unfold seq_add. rewrite Zplus_mod_idemp_l. f_equal. lia. Qed.

Lemma seq_sub_add n i : 0 ≤ i < modulus → seq_sub (seq_add n i) n = i.
Proof.
  intros. unfold seq_sub, seq_add. rewrite Zminus_mod_idemp_l.
  replace (n + i - n) with i by lia. by apply Z.mod_small.
Qed.

Lemma seq_add_sub n m : is_seq n → seq_add m (seq_sub n m) = n.
Proof.
  intros. unfold seq_sub, seq_add. rewrite Zplus_mod_idemp_r.
  replace (m + (n - m)) with n by lia. by apply Z.mod_small.
Qed.

Lemma seq_add_inj n i j :
  0 ≤ i < modulus → 0 ≤ j < modulus → seq_add n i = seq_add n j → i = j.
Proof. intros Hi Hj E. by rewrite <-(seq_sub_add n i), <-(seq_sub_add n j), E. Qed.

Lemma Next_spec n : is_seq n → Next n = seq_add n 1.
Proof.
  unfold is_seq, Next, seq_add, kMaxSequenceNumber, u32, modulus. intros.
  destruct (n =? 0x7fffffff) eqn:E; mod_lia.
Qed.

(** ** Well-formed windows *)

Definition wf {T} (w : Window T) : Prop :=
  is_seq (begin_ w) ∧ end_ w = seq_add (begin_ w) (Size w) ∧
  Size w ≤ RudpParameters.maximum_window_size ∧
  0 ≤ maximum_size_ w ≤ RudpParameters.maximum_window_size.

Section window.
Context {T : Type}.
Implicit Types (w : Window T) (n : Z).

Lemma wf_size w : wf w → 0 ≤ Size w ≤ 512.
Proof. intros (_&_&H&_). unfold Size in *. unfold RudpParameters.maximum_window_size in H. lia. Qed.

Lemma wf_end w : wf w → is_seq (end_ w).
Proof. intros (_&->&_). apply seq_add_is_seq. Qed.

Lemma wf_Reset n w : 0 ≤ n → wf w →
  Reset n w = if n <=? kMaxSequenceNumber then Ok (new_window n) else Fault AssertionFailed.
Proof. done. Qed.

Lemma wf_new_window n : is_seq n → wf (new_window n : Window T).
Proof.
  intros. unfold wf, new_window, Size. simpl. split_and!; try done.
  by rewrite seq_add_0.
Qed.

(** [Contains] is the cyclic interval of [Size] numbers from [begin_]. *)
Lemma Contains_spec n w :
  wf w → is_seq n → Contains n w = (seq_sub n (begin_ w) <? Size w).
Proof.
  intros Hwf Hn. pose proof (wf_size w Hwf). destruct Hwf as (Hb&He&_).
  unfold Contains, IsInRange, seq_sub, seq_add, is_seq, modulus, kMaxSequenceNumber in *.
  rewrite He. destruct (_ <=? _) eqn:E in |- *; mod_lia.
Qed.

(** A number above the 31-bit range is never in the window. *)
Lemma Contains_out_of_range n w : wf w → modulus ≤ n → Contains n w = false.
Proof.
  intros Hwf Hn. pose proof (wf_end w Hwf) as He. destruct Hwf as (Hb&_).
  unfold Contains, IsInRange, is_seq, modulus, kMaxSequenceNumber in *.
  destruct (_ <=? _) eqn:E in |- *; lia.
Qed.

Lemma Contains_is_seq n w : wf w → 0 ≤ n → Contains n w = true → is_seq n.
Proof.
  intros Hwf Hn HC. destruct (decide (n < modulus)); [done|].
  rewrite Contains_out_of_range in HC; done || lia.
Qed.

Lemma IsComingSoon_spec n w :
  wf w → is_seq n →
  IsComingSoon n w = (seq_sub n (end_ w) <? RudpParameters.maximum_window_size).
Proof.
  intros Hwf Hn. pose proof (wf_end w Hwf) as He.
  unfold IsComingSoon, IsInRange, seq_sub, is_seq, modulus, kMaxSequenceNumber, u32,
    RudpParameters.maximum_window_size in *.
  destruct (_ <=? _) eqn:E in |- *; mod_lia.
Qed.

Lemma IsComingSoon_is_seq n w : wf w → 0 ≤ n → IsComingSoon n w = true → is_seq n.
Proof.
  intros Hwf Hn HC. destruct (decide (n < modulus)); [done|]. exfalso.
  pose proof (wf_end w Hwf) as He.
  unfold IsComingSoon, IsInRange, is_seq, modulus, kMaxSequenceNumber, u32,
    RudpParameters.maximum_window_size in *.
  destruct (_ <=? _) eqn:E in HC; mod_lia.
Qed.

Lemma Contains_index w i :
  wf w → (i < length (items_ w))%nat → Contains (seq_add (begin_ w) (Z.of_nat i)) w = true.
Proof.
  intros Hwf Hi. pose proof (wf_size w Hwf). unfold Size in *.
  rewrite Contains_spec, seq_sub_add; try done.
  - unfold Size. lia.
  - unfold modulus. lia.
  - apply seq_add_is_seq.
Qed.

Lemma SequenceNumberToIndex_spec n w :
  wf w → is_seq n → Contains n w = true →
  SequenceNumberToIndex n w = Ok (seq_sub n (begin_ w)).
Proof.
  intros Hwf Hn HC. unfold SequenceNumberToIndex. rewrite HC. f_equal.
  pose proof (wf_size w Hwf). rewrite Contains_spec in HC by done. apply Z.ltb_lt in HC.
  destruct Hwf as (Hb&He&_). rewrite He.
  unfold seq_sub, seq_add, is_seq, modulus, kMaxSequenceNumber, u32 in *.
  destruct (_ <=? _) eqn:E1 in |- *; [mod_lia|].
  destruct (_ <? _) eqn:E2 in |- *; mod_lia.
Qed.

Lemma SequenceNumberToIndex_index w i :
  wf w → (i < length (items_ w))%nat →
  SequenceNumberToIndex (seq_add (begin_ w) (Z.of_nat i)) w = Ok (Z.of_nat i).
Proof.
  intros Hwf Hi. pose proof (wf_size w Hwf). unfold Size in *.
  rewrite SequenceNumberToIndex_spec, seq_sub_add; try done.
  - unfold modulus. lia.
  - apply seq_add_is_seq.
  - by apply Contains_index.
Qed.

(** The item with the [i]-th sequence number of the window is item [i]. *)
Lemma at_index w i x :
  wf w → items_ w !! i = Some x → at_ (seq_add (begin_ w) (Z.of_nat i)) w = Ok x.
Proof.
  intros Hwf Hx. unfold at_.
  rewrite SequenceNumberToIndex_index by (done || by eapply lookup_lt_Some).
  by rewrite Res_bind_ok, Nat2Z.id, Hx.
Qed.

Lemma update_index w i f :
  wf w → (i < length (items_ w))%nat →
  update (seq_add (begin_ w) (Z.of_nat i)) f w =
    Ok (MkWindow (alter f i (items_ w)) (maximum_size_ w) (begin_ w) (end_ w)).
Proof.
  intros Hwf Hi. unfold update. rewrite SequenceNumberToIndex_index by done.
  by rewrite Res_bind_ok, Nat2Z.id, decide_True.
Qed.

Lemma wf_alter w i f :
  wf w → wf (MkWindow (alter f i (items_ w)) (maximum_size_ w) (begin_ w) (end_ w)).
Proof. unfold wf, Size. simpl. by rewrite length_alter. Qed.

Lemma wf_SetMaximumSize size w : 0 ≤ size → wf w → wf (SetMaximumSize size w).
Proof.
  unfold wf, SetMaximumSize, Size, RudpParameters.maximum_window_size. simpl.
  intros ? (?&?&?&?). split_and!; try done; destruct (size <? 512) eqn:E; lia.
Qed.

Lemma Append_ok w x :
  wf w → IsFull w = false →
  ∃ w', Append x w = Ok (end_ w, w') ∧ wf w' ∧ items_ w' = items_ w ++ [x] ∧
    begin_ w' = begin_ w ∧ maximum_size_ w' = maximum_size_ w ∧
    end_ w = seq_add (begin_ w) (Z.of_nat (length (items_ w))).
Proof.
  intros Hwf HF. unfold Append. rewrite HF. cbn [negb].
  eexists. split; [done|]. simpl. split_and!; try done; [|by destruct Hwf as (_&?&_)].
  pose proof (wf_end w Hwf). destruct Hwf as (Hb&He&Hs&Hm).
  unfold wf, Size, IsFull, RudpParameters.maximum_window_size in *. simpl.
  rewrite length_app. simpl.
  split_and!; try done; try lia.
  rewrite Next_spec by done. rewrite He, seq_add_add. f_equal. lia.
Qed.

Lemma Remove_ok w x l :
  wf w → items_ w = x :: l →
  ∃ w', Remove w = Ok w' ∧ wf w' ∧ items_ w' = l ∧
    begin_ w' = seq_add (begin_ w) 1 ∧ end_ w' = end_ w ∧
    maximum_size_ w' = maximum_size_ w.
Proof.
  intros Hwf HI. unfold Remove. rewrite HI.
  eexists. split; [done|]. simpl.
  destruct Hwf as (Hb&He&Hs&Hm). rewrite Next_spec by done.
  unfold wf, Size, RudpParameters.maximum_window_size in *. simpl. rewrite HI in *. simpl in *.
  split_and!; try done; try lia.
  - apply seq_add_is_seq.
  - rewrite He, seq_add_add. f_equal. lia.
Qed.

(** Walking the window with [Next] from [Begin] meets the indices in order
    and [End] after the last one. *)
Lemma Next_index w i :
  wf w → Next (seq_add (begin_ w) (Z.of_nat i)) = seq_add (begin_ w) (Z.of_nat (S i)).
Proof.
  intros. rewrite Next_spec by apply seq_add_is_seq. rewrite seq_add_add. f_equal. lia.
Qed.

Lemma index_End w i :
  wf w → (i ≤ length (items_ w))%nat →
  (seq_add (begin_ w) (Z.of_nat i) =? end_ w) = bool_decide (i = length (items_ w)).
Proof.
  intros Hwf Hi. pose proof (wf_size w Hwf). destruct Hwf as (Hb&->&_).
  unfold Size in *. case_bool_decide as E.
  - subst. apply Z.eqb_refl.
  - apply Z.eqb_neq. intros F. apply seq_add_inj in F; unfold modulus; lia.
Qed.

Lemma Begin_index w : wf w → begin_ w = seq_add (begin_ w) (Z.of_nat 0).
Proof. intros (?&_). by rewrite seq_add_0. Qed.

Lemma length_items_End w : wf w → end_ w = seq_add (begin_ w) (Z.of_nat (length (items_ w))).
Proof. by intros (_&?&_). Qed.
End window.

Create HintDb window.
#[export] Hint Resolve wf_new_window wf_SetMaximumSize wf_alter wf_end wf_size
  seq_add_is_seq seq_sub_is_seq : window.

(** ** [for (n = w.Begin(); n != w.End(); n = w.Next(n)) body]

    [body] says whether it returns from the enclosing function. *)
Section for_each.
Context {S T : Type} (win : S → Window T).

Definition for_each (body : Z → M S bool) : M S bool :=
  w ← gets win;
  loop (Datatypes.S (length (items_ w))) (λ n,
    w ← gets win;
    if n =? End w then mret (inr false)
    else
      ret ← body n;
      mret (if ret : bool then inr true else inl (Next n))) (Begin w).

(** Index by index: [I i] holds when the body is about to see index [i]. *)
Lemma wp_for_each b len (I : nat → S → Prop) body s (Q : bool → S → Prop) :
  I 0%nat s →
  (∀ i s, I i s → wf (win s) ∧ begin_ (win s) = b ∧ length (items_ (win s)) = len) →
  (∀ i s, I i s → (i < len)%nat →
     wp (body (seq_add b (Z.of_nat i))) s
       (λ r s', if r : bool then Q true s' else I (Datatypes.S i) s')) →
  (∀ s, I len s → Q false s) →
  wp (for_each body) s Q.
Proof.
  intros H0 Hwin Hbody Hend. unfold for_each. destruct (Hwin _ _ H0) as (Hwf&Hb&Hlen).
  apply wp_bind, wp_gets. rewrite Hlen.
  apply (wp_loop (λ n s, ∃ i, n = seq_add b (Z.of_nat i) ∧ (i ≤ len)%nat ∧ I i s)
    (λ n s, len - Z.to_nat (seq_sub n b))%nat).
  - exists 0%nat. split_and!; [|lia|done].
    unfold Begin. rewrite <-Hb. by apply Begin_index.
  - lia.
  - clear s Hwf Hb Hlen H0. intros n s (i&->&Hi&HI). destruct (Hwin _ _ HI) as (Hwf&Hb&Hlen).
    apply wp_bind, wp_gets. unfold End. rewrite <-Hb at 1. rewrite index_End by (done || lia).
    rewrite Hlen. case_bool_decide as E.
    + apply wp_ret. subst i. by apply Hend.
    + apply wp_bind. eapply wp_mono; [apply Hbody; [done|lia]|].
      intros [] s' Hs'; apply wp_ret; [done|]. split.
      * exists (Datatypes.S i). split_and!; [|lia|done].
        rewrite <-Hb. by apply Next_index.
      * pose proof (wf_size _ Hwf) as Hsz. unfold Size in Hsz.
        rewrite <-Hb, Next_index, !seq_sub_add by (done || unfold modulus; lia). lia.
Qed.
End for_each.
