(* ===== verification/CongestionControl.v ===== *)
(** * Congestion control

    Models src/maidsafe/transport/rudp_congestion_control.cc: the estimates a
    socket keeps of the round trip time, the packet arrival rate and the link
    capacity, and the sizes of its windows and of its data packets.  [size_t]
    is 64 bits wide.  The two floating point scalings ([0.9 * n] and [1.5 * n]
    on a [size_t], truncated) are written out in binary64 arithmetic and shown
    equal to integer ones on the ranges that occur. *)

From stdpp Require Import sorting.
From S2P Require Import Prelude Environment Transport SlidingWindow.

(** ** binary64 scaling of an integer

    [round53 p] keeps the 53 leading bits of the integer [p], rounding to
    nearest and ties to even. *)
Definition round53 (p : Z) : Z :=
  let e := Z.max 0 (Z.log2 p - 52) in
  let q := p / 2 ^ e in
  let r := p mod 2 ^ e in
  let up := (2 ^ e <? 2 * r) || ((2 ^ e =? 2 * r) && Z.odd q) in
  (if up then q + 1 else q) * 2 ^ e.

(** [static_cast<size_t>(c * n)] for the double [c = m * 2^-53]. *)
Definition scale (m n : Z) : Z := round53 (m * n) / 2 ^ 53.

(** the significands of the doubles [0.9] and [1.5] *)
Definition double_0_9 : Z := 8106479329266893.
Definition double_1_5 : Z := 13510798882111488.

Definition kMaxArrivalTimes : nat := 17.
Definition kMaxPacketPairIntervals : nat := 17.
Definition kSynPeriod : Z := milliseconds 10.

(** [while (l.size() > k) l.pop_front();] *)
Fixpoint pop_front_while_longer {A} (k : nat) (l : list A) : list A :=
  match l with
  | [] => []
  | _ :: l' => if (k <? length l)%nat then pop_front_while_longer k l' else l
  end.

Record CC `{PosixTime} := MkCC {
  slow_start_phase_ : bool;
  round_trip_time_ : Z;
  round_trip_time_variance_ : Z;
  packets_receiving_rate_ : Z;
  estimated_link_capacity_ : Z;
  send_window_size_ : Z;
  receive_window_size_ : Z;
  send_data_size_ : Z;
  send_delay_ : Z;
  send_timeout_ : Z;
  receive_delay_ : Z;
  receive_timeout_ : Z;
  ack_delay_ : Z;
  ack_timeout_ : Z;
  ack_interval_ : Z;
  lost_packets_ : Z;
  corrupted_packets_ : Z;
  arrival_times_ : list ptime;
  packet_pair_intervals_ : list Z;
  peer_connection_type_ : Z;
  allowed_lost_ : Z;
  transmitted_bits_ : Z;
  last_record_transmit_time_ : ptime;
  transmission_speed_ : Z;
}.
Arguments MkCC {_}.

(** ** Assignment to one member *)
Section members.
Context `{PosixTime}.

Definition set_round_trip_time (v : Z) (c : CC) : CC :=
  MkCC (slow_start_phase_ c) v (round_trip_time_variance_ c) (packets_receiving_rate_ c)
    (estimated_link_capacity_ c) (send_window_size_ c) (receive_window_size_ c)
    (send_data_size_ c) (send_delay_ c) (send_timeout_ c) (receive_delay_ c)
    (receive_timeout_ c) (ack_delay_ c) (ack_timeout_ c) (ack_interval_ c) (lost_packets_ c)
    (corrupted_packets_ c) (arrival_times_ c) (packet_pair_intervals_ c)
    (peer_connection_type_ c) (allowed_lost_ c) (transmitted_bits_ c)
    (last_record_transmit_time_ c) (transmission_speed_ c).
Definition set_round_trip_time_variance (v : Z) (c : CC) : CC :=
  MkCC (slow_start_phase_ c) (round_trip_time_ c) v (packets_receiving_rate_ c)
    (estimated_link_capacity_ c) (send_window_size_ c) (receive_window_size_ c)
    (send_data_size_ c) (send_delay_ c) (send_timeout_ c) (receive_delay_ c)
    (receive_timeout_ c) (ack_delay_ c) (ack_timeout_ c) (ack_interval_ c) (lost_packets_ c)
    (corrupted_packets_ c) (arrival_times_ c) (packet_pair_intervals_ c)
    (peer_connection_type_ c) (allowed_lost_ c) (transmitted_bits_ c)
    (last_record_transmit_time_ c) (transmission_speed_ c).
Definition set_packets_receiving_rate (v : Z) (c : CC) : CC :=
  MkCC (slow_start_phase_ c) (round_trip_time_ c) (round_trip_time_variance_ c) v
    (estimated_link_capacity_ c) (send_window_size_ c) (receive_window_size_ c)
    (send_data_size_ c) (send_delay_ c) (send_timeout_ c) (receive_delay_ c)
    (receive_timeout_ c) (ack_delay_ c) (ack_timeout_ c) (ack_interval_ c) (lost_packets_ c)
    (corrupted_packets_ c) (arrival_times_ c) (packet_pair_intervals_ c)
    (peer_connection_type_ c) (allowed_lost_ c) (transmitted_bits_ c)
    (last_record_transmit_time_ c) (transmission_speed_ c).
Definition set_estimated_link_capacity (v : Z) (c : CC) : CC :=
  MkCC (slow_start_phase_ c) (round_trip_time_ c) (round_trip_time_variance_ c)
    (packets_receiving_rate_ c) v (send_window_size_ c) (receive_window_size_ c)
    (send_data_size_ c) (send_delay_ c) (send_timeout_ c) (receive_delay_ c)
    (receive_timeout_ c) (ack_delay_ c) (ack_timeout_ c) (ack_interval_ c) (lost_packets_ c)
    (corrupted_packets_ c) (arrival_times_ c) (packet_pair_intervals_ c)
    (peer_connection_type_ c) (allowed_lost_ c) (transmitted_bits_ c)
    (last_record_transmit_time_ c) (transmission_speed_ c).
Definition set_send_window_size (v : Z) (c : CC) : CC :=
  MkCC (slow_start_phase_ c) (round_trip_time_ c) (round_trip_time_variance_ c)
    (packets_receiving_rate_ c) (estimated_link_capacity_ c) v (receive_window_size_ c)
    (send_data_size_ c) (send_delay_ c) (send_timeout_ c) (receive_delay_ c)
    (receive_timeout_ c) (ack_delay_ c) (ack_timeout_ c) (ack_interval_ c) (lost_packets_ c)
    (corrupted_packets_ c) (arrival_times_ c) (packet_pair_intervals_ c)
    (peer_connection_type_ c) (allowed_lost_ c) (transmitted_bits_ c)
    (last_record_transmit_time_ c) (transmission_speed_ c).
Definition set_receive_window_size (v : Z) (c : CC) : CC :=
  MkCC (slow_start_phase_ c) (round_trip_time_ c) (round_trip_time_variance_ c)
    (packets_receiving_rate_ c) (estimated_link_capacity_ c) (send_window_size_ c) v
    (send_data_size_ c) (send_delay_ c) (send_timeout_ c) (receive_delay_ c)
    (receive_timeout_ c) (ack_delay_ c) (ack_timeout_ c) (ack_interval_ c) (lost_packets_ c)
    (corrupted_packets_ c) (arrival_times_ c) (packet_pair_intervals_ c)
    (peer_connection_type_ c) (allowed_lost_ c) (transmitted_bits_ c)
    (last_record_transmit_time_ c) (transmission_speed_ c).
Definition set_send_data_size (v : Z) (c : CC) : CC :=
  MkCC (slow_start_phase_ c) (round_trip_time_ c) (round_trip_time_variance_ c)
    (packets_receiving_rate_ c) (estimated_link_capacity_ c) (send_window_size_ c)
    (receive_window_size_ c) v (send_delay_ c) (send_timeout_ c) (receive_delay_ c)
    (receive_timeout_ c) (ack_delay_ c) (ack_timeout_ c) (ack_interval_ c) (lost_packets_ c)
    (corrupted_packets_ c) (arrival_times_ c) (packet_pair_intervals_ c)
    (peer_connection_type_ c) (allowed_lost_ c) (transmitted_bits_ c)
    (last_record_transmit_time_ c) (transmission_speed_ c).
Definition set_ack_delay (v : Z) (c : CC) : CC :=
  MkCC (slow_start_phase_ c) (round_trip_time_ c) (round_trip_time_variance_ c)
    (packets_receiving_rate_ c) (estimated_link_capacity_ c) (send_window_size_ c)
    (receive_window_size_ c) (send_data_size_ c) (send_delay_ c) (send_timeout_ c)
    (receive_delay_ c) (receive_timeout_ c) v (ack_timeout_ c) (ack_interval_ c)
    (lost_packets_ c) (corrupted_packets_ c) (arrival_times_ c) (packet_pair_intervals_ c)
    (peer_connection_type_ c) (allowed_lost_ c) (transmitted_bits_ c)
    (last_record_transmit_time_ c) (transmission_speed_ c).
Definition set_lost_packets (v : Z) (c : CC) : CC :=
  MkCC (slow_start_phase_ c) (round_trip_time_ c) (round_trip_time_variance_ c)
    (packets_receiving_rate_ c) (estimated_link_capacity_ c) (send_window_size_ c)
    (receive_window_size_ c) (send_data_size_ c) (send_delay_ c) (send_timeout_ c)
    (receive_delay_ c) (receive_timeout_ c) (ack_delay_ c) (ack_timeout_ c) (ack_interval_ c)
    v (corrupted_packets_ c) (arrival_times_ c) (packet_pair_intervals_ c)
    (peer_connection_type_ c) (allowed_lost_ c) (transmitted_bits_ c)
    (last_record_transmit_time_ c) (transmission_speed_ c).
Definition set_corrupted_packets (v : Z) (c : CC) : CC :=
  MkCC (slow_start_phase_ c) (round_trip_time_ c) (round_trip_time_variance_ c)
    (packets_receiving_rate_ c) (estimated_link_capacity_ c) (send_window_size_ c)
    (receive_window_size_ c) (send_data_size_ c) (send_delay_ c) (send_timeout_ c)
    (receive_delay_ c) (receive_timeout_ c) (ack_delay_ c) (ack_timeout_ c) (ack_interval_ c)
    (lost_packets_ c) v (arrival_times_ c) (packet_pair_intervals_ c)
    (peer_connection_type_ c) (allowed_lost_ c) (transmitted_bits_ c)
    (last_record_transmit_time_ c) (transmission_speed_ c).
Definition set_arrival_times (v : list ptime) (c : CC) : CC :=
  MkCC (slow_start_phase_ c) (round_trip_time_ c) (round_trip_time_variance_ c)
    (packets_receiving_rate_ c) (estimated_link_capacity_ c) (send_window_size_ c)
    (receive_window_size_ c) (send_data_size_ c) (send_delay_ c) (send_timeout_ c)
    (receive_delay_ c) (receive_timeout_ c) (ack_delay_ c) (ack_timeout_ c) (ack_interval_ c)
    (lost_packets_ c) (corrupted_packets_ c) v (packet_pair_intervals_ c)
    (peer_connection_type_ c) (allowed_lost_ c) (transmitted_bits_ c)
    (last_record_transmit_time_ c) (transmission_speed_ c).
Definition set_packet_pair_intervals (v : list Z) (c : CC) : CC :=
  MkCC (slow_start_phase_ c) (round_trip_time_ c) (round_trip_time_variance_ c)
    (packets_receiving_rate_ c) (estimated_link_capacity_ c) (send_window_size_ c)
    (receive_window_size_ c) (send_data_size_ c) (send_delay_ c) (send_timeout_ c)
    (receive_delay_ c) (receive_timeout_ c) (ack_delay_ c) (ack_timeout_ c) (ack_interval_ c)
    (lost_packets_ c) (corrupted_packets_ c) (arrival_times_ c) v (peer_connection_type_ c)
    (allowed_lost_ c) (transmitted_bits_ c) (last_record_transmit_time_ c)
    (transmission_speed_ c).
Definition set_peer_connection_type (v : Z) (c : CC) : CC :=
  MkCC (slow_start_phase_ c) (round_trip_time_ c) (round_trip_time_variance_ c)
    (packets_receiving_rate_ c) (estimated_link_capacity_ c) (send_window_size_ c)
    (receive_window_size_ c) (send_data_size_ c) (send_delay_ c) (send_timeout_ c)
    (receive_delay_ c) (receive_timeout_ c) (ack_delay_ c) (ack_timeout_ c) (ack_interval_ c)
    (lost_packets_ c) (corrupted_packets_ c) (arrival_times_ c) (packet_pair_intervals_ c) v
    (allowed_lost_ c) (transmitted_bits_ c) (last_record_transmit_time_ c)
    (transmission_speed_ c).
Definition set_allowed_lost (v : Z) (c : CC) : CC :=
  MkCC (slow_start_phase_ c) (round_trip_time_ c) (round_trip_time_variance_ c)
    (packets_receiving_rate_ c) (estimated_link_capacity_ c) (send_window_size_ c)
    (receive_window_size_ c) (send_data_size_ c) (send_delay_ c) (send_timeout_ c)
    (receive_delay_ c) (receive_timeout_ c) (ack_delay_ c) (ack_timeout_ c) (ack_interval_ c)
    (lost_packets_ c) (corrupted_packets_ c) (arrival_times_ c) (packet_pair_intervals_ c)
    (peer_connection_type_ c) v (transmitted_bits_ c) (last_record_transmit_time_ c)
    (transmission_speed_ c).
Definition set_transmitted_bits (v : Z) (c : CC) : CC :=
  MkCC (slow_start_phase_ c) (round_trip_time_ c) (round_trip_time_variance_ c)
    (packets_receiving_rate_ c) (estimated_link_capacity_ c) (send_window_size_ c)
    (receive_window_size_ c) (send_data_size_ c) (send_delay_ c) (send_timeout_ c)
    (receive_delay_ c) (receive_timeout_ c) (ack_delay_ c) (ack_timeout_ c) (ack_interval_ c)
    (lost_packets_ c) (corrupted_packets_ c) (arrival_times_ c) (packet_pair_intervals_ c)
    (peer_connection_type_ c) (allowed_lost_ c) v (last_record_transmit_time_ c)
    (transmission_speed_ c).
Definition set_last_record_transmit_time (v : ptime) (c : CC) : CC :=
  MkCC (slow_start_phase_ c) (round_trip_time_ c) (round_trip_time_variance_ c)
    (packets_receiving_rate_ c) (estimated_link_capacity_ c) (send_window_size_ c)
    (receive_window_size_ c) (send_data_size_ c) (send_delay_ c) (send_timeout_ c)
    (receive_delay_ c) (receive_timeout_ c) (ack_delay_ c) (ack_timeout_ c) (ack_interval_ c)
    (lost_packets_ c) (corrupted_packets_ c) (arrival_times_ c) (packet_pair_intervals_ c)
    (peer_connection_type_ c) (allowed_lost_ c) (transmitted_bits_ c) v
    (transmission_speed_ c).
Definition set_transmission_speed (v : Z) (c : CC) : CC :=
  MkCC (slow_start_phase_ c) (round_trip_time_ c) (round_trip_time_variance_ c)
    (packets_receiving_rate_ c) (estimated_link_capacity_ c) (send_window_size_ c)
    (receive_window_size_ c) (send_data_size_ c) (send_delay_ c) (send_timeout_ c)
    (receive_delay_ c) (receive_timeout_ c) (ack_delay_ c) (ack_timeout_ c) (ack_interval_ c)
    (lost_packets_ c) (corrupted_packets_ c) (arrival_times_ c) (packet_pair_intervals_ c)
    (peer_connection_type_ c) (allowed_lost_ c) (transmitted_bits_ c)
    (last_record_transmit_time_ c) v.
End members.

(** ** Operations *)
Section operations.
Context `{Environment}.

Definition new_congestion_control : CC :=
  MkCC true 0 0 0 0 RudpParameters.default_window_size RudpParameters.default_window_size
    RudpParameters.default_data_size RudpParameters.default_send_delay
    RudpParameters.default_send_timeout RudpParameters.default_receive_delay
    RudpParameters.default_receive_timeout (milliseconds 10)
    RudpParameters.default_ack_timeout 16 0 0 [] [] 0 0 0 not_a_date_time 0.

Definition OnOpen (send_seqnum receive_seqnum : Z) (c : CC) : CC := set_transmitted_bits 0 c.
Definition OnClose (c : CC) : CC := set_transmitted_bits 0 c.
Definition OnDataPacketSent (seqnum : Z) (c : CC) : CC := c.

Definition OnDataPacketReceived (seqnum : Z) : M (CC * World) unit :=
  now ← zoom snd (λ w s, (s.1, w)) Now;
  c ← gets fst;
  let c :=
    match last (arrival_times_ c) with
    | Some back =>
        if seqnum mod 16 =? 1 then
          set_packet_pair_intervals (pop_front_while_longer kMaxPacketPairIntervals
            (packet_pair_intervals_ c ++ [ptime_sub now back])) c
        else c
    | None => c
    end in
  let c := set_arrival_times
    (pop_front_while_longer kMaxArrivalTimes (arrival_times_ c ++ [now])) c in
  modify (λ s, (c, s.2)).

(** The differences of neighbours, as [uint64_t] microseconds. *)
Fixpoint neighbour_intervals (l : list ptime) : list Z :=
  match l with
  | a :: ((b :: _) as l') => u64 (ptime_sub b a) :: neighbour_intervals l'
  | _ => []
  end.

(** [v[v.size() / 2]] *)
Definition middle (v : list Z) : Res Z :=
  match v !! (length v / 2)%nat with
  | Some m => Ok m
  | None => Fault OutOfBounds
  end.

Definition OnGenerateAck (seqnum : Z) (c : CC) : Res CC :=
  if (length (arrival_times_ c) <=? 8)%nat then Ok c
  else
    let intervals := merge_sort Z.le (neighbour_intervals (arrival_times_ c)) in
    med ← middle intervals;
    let valid := filter (λ i, med / 8 ≤ i ∧ i ≤ u64 (med * 8)) intervals in
    let num_valid_intervals := Z.of_nat (length valid) in
    let total := foldl (λ t i, u64 (t + i)) 0 valid in
    c ← (if (0 <? total) && (8 <? num_valid_intervals) then
           if negb (num_valid_intervals <=? (2 ^ 64 - 1) / 1000000) then Fault AssertionFailed
           else if negb (u64 (1000000 * num_valid_intervals) / total <=? 2 ^ 32 - 1)
           then Fault AssertionFailed
           else Ok (set_packets_receiving_rate
                      (u32 (u64 (1000000 * num_valid_intervals) / total)) c)
         else Ok (set_packets_receiving_rate 0 c));
    c ← match packet_pair_intervals_ c with
        | [] => Ok c
        | _ =>
            med ← middle (merge_sort Z.le (u64 <$> packet_pair_intervals_ c));
            Ok (set_estimated_link_capacity (if 0 <? med then u32 (1000000 / med) else 0) c)
        end;
    Ok (set_receive_window_size RudpParameters.maximum_window_size c).

(** The overload with one argument does nothing. *)
Definition OnAck1 (seqnum : Z) (c : CC) : CC := c.

Definition AllowedLost (c : CC) : Z := allowed_lost_ c.

(** The body of the six argument [OnAck], in its three parts: the estimates,
    the size of data packets, the send window. *)
Definition ack_estimates (round_trip_time round_trip_time_variance
    packets_receiving_rate estimated_link_capacity : Z) (c : CC) : CC :=
  let c := set_round_trip_time round_trip_time c in
  let c := set_round_trip_time_variance round_trip_time_variance c in
  let c := set_ack_delay (u64 (4 * round_trip_time_ c)) c in
  let c := set_ack_delay (ack_delay_ c + round_trip_time_variance_ c) c in
  let c := set_ack_delay (ack_delay_ c + kSynPeriod) c in
  let c :=
    if negb (packets_receiving_rate =? 0) then
      let tmp := u64 (packets_receiving_rate_ c * 7) in
      let tmp := u64 (tmp + packets_receiving_rate) / 8 in
      set_packets_receiving_rate (u32 tmp) c
    else c in
  if negb (estimated_link_capacity =? 0) then
    let tmp := u64 (estimated_link_capacity_ c * 7) in
    let tmp := u64 (tmp + estimated_link_capacity) / 8 in
    set_estimated_link_capacity (u32 tmp) c
  else c.

Definition ack_data_size (c : CC) : CC :=
  let c :=
    if AllowedLost c <? u64 (corrupted_packets_ c + lost_packets_ c) then
      let c := set_send_data_size (scale double_0_9 (send_data_size_ c)) c in
      set_send_data_size (Z.max RudpParameters.default_data_size (send_data_size_ c)) c
    else
      let c := set_send_data_size (scale double_1_5 (send_data_size_ c)) c in
      set_send_data_size (Z.min RudpParameters.max_data_size (send_data_size_ c)) c in
  let c := set_corrupted_packets 0 c in
  set_lost_packets 0 c.

Definition ack_window (available_buffer_size : Z) (c : CC) : CC :=
  if u64 (8 * send_data_size_ c) <? available_buffer_size then
    let c := set_send_window_size (u64 (send_window_size_ c +
      u32 (available_buffer_size + 1) / RudpParameters.max_data_size)) c in
    set_send_window_size (Z.min (send_window_size_ c) RudpParameters.maximum_window_size) c
  else
    let c := set_send_window_size (scale double_0_9 (send_window_size_ c)) c in
    set_send_window_size (Z.max (send_window_size_ c) RudpParameters.default_window_size) c.

Definition OnAck (seqnum round_trip_time round_trip_time_variance available_buffer_size
    packets_receiving_rate estimated_link_capacity : Z) (c : CC) : CC :=
  let c := ack_estimates round_trip_time round_trip_time_variance
    packets_receiving_rate estimated_link_capacity c in
  let c := ack_data_size c in
  ack_window available_buffer_size c.

Definition OnNegativeAck (seqnum : Z) (c : CC) : CC :=
  set_corrupted_packets (u64 (corrupted_packets_ c + 1)) c.

Definition OnSendTimeout (seqnum : Z) (c : CC) : CC :=
  set_lost_packets (u64 (lost_packets_ c + 1)) c.

Definition OnAckOfAck (round_trip_time : Z) (c : CC) : CC :=
  let diff :=
    if round_trip_time <? round_trip_time_ c
    then round_trip_time_ c -u32 round_trip_time
    else round_trip_time -u32 round_trip_time_ c in
  let tmp := u32 (u64 (round_trip_time_ c * 7)) in
  let tmp := (tmp +u32 round_trip_time) / 8 in
  let c := set_round_trip_time tmp c in
  let tmp := u32 (u64 (round_trip_time_variance_ c * 3)) in
  let tmp := (tmp +u32 diff) / 4 in
  let c := set_round_trip_time_variance tmp c in
  let c := set_ack_delay (u64 (4 * round_trip_time_ c)) c in
  let c := set_ack_delay (ack_delay_ c + round_trip_time_variance_ c) c in
  set_ack_delay (ack_delay_ c + kSynPeriod) c.

Definition SetPeerConnectionType (connection_type : Z) (c : CC) : CC :=
  let c := set_peer_connection_type connection_type c in
  let worst_connection_type :=
    Z.min (peer_connection_type_ c) RudpParameters.connection_type in
  if worst_connection_type <=? RudpParameters.kWireless then set_allowed_lost 5 c
  else if worst_connection_type <=? RudpParameters.kE1 then set_allowed_lost 2 c
  else if worst_connection_type <=? RudpParameters.k1GEthernet then set_allowed_lost 1 c
  else c.

Definition IsSlowTransmission (length : Z) : M (CC * World) bool :=
  let now := zoom snd (λ w s, (s.1, w)) Now in
  let upd f := modify (λ s, (f s.1, s.2)) in
  c ← gets fst;
  if transmitted_bits_ c =? 0 then
    upd (set_transmitted_bits (u32 (transmitted_bits_ c + u32 (u64 (length * 8)))));;
    t ← now;
    upd (set_last_record_transmit_time t);;
    mret false
  else
    upd (set_transmitted_bits (u32 (transmitted_bits_ c + u32 (u64 (length * 8)))));;
    t ← now;
    c ← gets fst;
    let duration := ptime_sub t (last_record_transmit_time_ c) in
    if RudpParameters.speed_calculate_inverval <? duration then
      let speed := u32 (Z.quot (1000 *u32 transmitted_bits_ c) (total_milliseconds duration)) in
      upd (set_transmission_speed speed);;
      upd (set_transmitted_bits 1);;
      t ← now;
      upd (set_last_record_transmit_time t);;
      mret (speed <? RudpParameters.slow_speed_threshold)
    else mret false.

Definition TransmissionSpeed (c : CC) : Z := transmission_speed_ c.
Definition RoundTripTime (c : CC) : Z := round_trip_time_ c.
Definition RoundTripTimeVariance (c : CC) : Z := round_trip_time_variance_ c.
Definition PacketsReceivingRate (c : CC) : Z := packets_receiving_rate_ c.
Definition EstimatedLinkCapacity (c : CC) : Z := estimated_link_capacity_ c.
Definition SendWindowSize (c : CC) : Z := send_window_size_ c.
Definition ReceiveWindowSize (c : CC) : Z := receive_window_size_ c.
Definition SendDataSize (c : CC) : Z := send_data_size_ c.

Definition BestReadBufferSize (c : CC) : Res Z :=
  if u64 (receive_window_size_ c * RudpParameters.max_data_size) <? 2 ^ 32 - 1
  then Ok (u32 (u64 (receive_window_size_ c * RudpParameters.max_data_size)))
  else Fault AssertionFailed.

Definition SendDelay (c : CC) : Z := send_delay_ c.
Definition SendTimeout (c : CC) : Z := send_timeout_ c.
Definition ReceiveDelay (c : CC) : Z := receive_delay_ c.
Definition ReceiveTimeout (c : CC) : Z := receive_timeout_ c.
Definition AckDelay (c : CC) : Z := ack_delay_ c.
Definition AckTimeout (c : CC) : Z := ack_timeout_ c.
Definition AckInterval (c : CC) : Z := RudpParameters.ack_interval.
End operations.

(** ** The scalings are integer ones *)

Lemma round53_bounds p :
  0 ≤ p →
  let e := Z.max 0 (Z.log2 p - 52) in
  p / 2 ^ e * 2 ^ e ≤ round53 p ≤ p / 2 ^ e * 2 ^ e + 2 ^ e.
Proof.
  intros Hp e. unfold round53. fold e.
  assert (0 < 2 ^ e) by (apply Z.pow_pos_nonneg; lia).
  destruct (_ || _); nia.
Qed.

(** Products of a significand with a number below [2 ^ 15] have 68 bits. *)
Lemma round53_exponent m n :
  0 < m < 2 ^ 54 → 0 < n < 2 ^ 15 → Z.max 0 (Z.log2 (m * n) - 52) ≤ 16.
Proof.
  intros Hm Hn.
  assert (m * n < 2 ^ 69) as H.
  { change (2 ^ 69) with (2 ^ 54 * 2 ^ 15). nia. }
  apply Z.log2_lt_pow2 in H; lia.
Qed.

Lemma scale_0_9 n : 0 < n < 2 ^ 15 → scale double_0_9 n = 9 * n / 10.
Proof.
  intros Hn. unfold scale.
  pose proof (round53_bounds (double_0_9 * n)) as HB. cbv zeta in HB.
  pose proof (round53_exponent double_0_9 n) as HE.
  set (e := Z.max 0 (Z.log2 (double_0_9 * n) - 52)) in *.
  unfold double_0_9 in *. specialize (HB ltac:(lia)). specialize (HE ltac:(lia) Hn).
  set (p := 8106479329266893 * n) in *.
  set (q := 9 * n / 10).
  assert (0 ≤ e) as He0 by (unfold e; lia).
  assert (2 ^ 53 = 2 ^ (53 - e) * 2 ^ e) as H53 by (rewrite <-Z.pow_add_r by lia; f_equal; lia).
  assert (2 ^ e ≤ 2 ^ 16) as He by (apply Z.pow_le_mono_r; lia).
  assert (0 < 2 ^ e) by (apply Z.pow_pos_nonneg; lia).
  assert (10 * q ≤ 9 * n < 10 * q + 10) as Hq by (unfold q; mod_lia).
  assert (10 * p = 9 * n * 2 ^ 53 + 2 * n) as Hp by (unfold p; lia).
  assert (q * 2 ^ 53 ≤ p / 2 ^ e * 2 ^ e) as Hlow.
  { rewrite H53, Z.mul_assoc. apply Z.mul_le_mono_nonneg_r; [lia|].
    apply Z.div_le_lower_bound; [lia|].
    rewrite (Z.mul_comm (2 ^ e)), <-Z.mul_assoc, <-H53. lia. }
  assert (p / 2 ^ e * 2 ^ e ≤ p) as Hup by (rewrite Z.mul_comm; by apply Z.mul_div_le).
  symmetry. apply (Z.div_unique _ _ _ (round53 p - 2 ^ 53 * q)); lia.
Qed.

Lemma scale_1_5 n : 0 < n < 2 ^ 15 → scale double_1_5 n = 3 * n / 2.
Proof.
  intros Hn. unfold scale.
  pose proof (round53_exponent double_1_5 n) as HE.
  unfold round53. set (e := Z.max 0 (Z.log2 (double_1_5 * n) - 52)) in *.
  unfold double_1_5 in *. specialize (HE ltac:(lia) Hn).
  assert (0 ≤ e) as He0 by (unfold e; lia).
  assert (0 < 2 ^ e) by (apply Z.pow_pos_nonneg; lia).
  assert (13510798882111488 * n = (3 * n * 2 ^ (52 - e)) * 2 ^ e) as HP.
  { rewrite <-Z.mul_assoc, <-Z.pow_add_r by lia. replace (52 - e + e) with 52 by lia. lia. }
  rewrite HP, Z.mod_mul, Z.div_mul by lia.
  rewrite (proj2 (Z.ltb_ge _ _)), (proj2 (Z.eqb_neq _ _)) by lia. cbn [orb andb].
  rewrite <-HP. change (2 ^ 53) with (4503599627370496 * 2).
  replace (13510798882111488 * n) with (4503599627370496 * (3 * n)) by lia.
  by rewrite Z.div_mul_cancel_l by lia.
Qed.

(** ** What holds whatever the order of the notifications *)

Section invariant.
Context `{Environment}.

Definition sizes_ok (c : CC) : Prop :=
  RudpParameters.default_data_size ≤ send_data_size_ c ≤ RudpParameters.max_data_size ∧
  RudpParameters.default_window_size ≤ send_window_size_ c ≤ RudpParameters.maximum_window_size ∧
  RudpParameters.default_window_size ≤ receive_window_size_ c ≤ RudpParameters.maximum_window_size.

Definition history_ok (c : CC) : Prop :=
  (length (arrival_times_ c) ≤ kMaxArrivalTimes)%nat ∧
  (length (packet_pair_intervals_ c) ≤ kMaxPacketPairIntervals)%nat.

Definition estimates_ok (c : CC) : Prop :=
  is_u32 (round_trip_time_ c) ∧ is_u32 (round_trip_time_variance_ c) ∧
  is_u32 (packets_receiving_rate_ c) ∧ is_u32 (estimated_link_capacity_ c) ∧
  is_u32 (transmitted_bits_ c) ∧ is_u32 (transmission_speed_ c) ∧
  0 ≤ ack_delay_ c.

Definition cc_inv (c : CC) : Prop := sizes_ok c ∧ history_ok c ∧ estimates_ok c.

Lemma new_congestion_control_inv : cc_inv new_congestion_control.
Proof. repeat split; simpl; unfold is_u32; try done; lia. Qed.

Lemma length_pop_front_while_longer {A} k (l : list A) :
  (length (pop_front_while_longer k l) ≤ k)%nat.
Proof.
  induction l as [|x l IH]; simpl; [lia|].
  destruct (_ <? _)%nat eqn:E; simpl; [done|lia].
Qed.

Lemma pop_front_while_longer_suffix {A} k (l : list A) :
  pop_front_while_longer k l = drop (length l - k) l.
Proof.
  induction l as [|x l IH]; [done|]. cbn [pop_front_while_longer length].
  destruct (k <? S (length l))%nat eqn:E.
  - rewrite IH. replace (S (length l) - k)%nat with (S (length l - k)) by lia. done.
  - by replace (S (length l) - k)%nat with 0%nat by lia.
Qed.

Lemma u32_is_u32 z : is_u32 (u32 z).
Proof. unfold is_u32, u32. mod_lia. Qed.


Lemma length_neighbour_intervals (l : list ptime) :
  length (neighbour_intervals l) = (length l - 1)%nat.
Proof.
  induction l as [|a [|b l] IH]; [done|done|].
  change (S (length (neighbour_intervals (b :: l))) = (length (a :: b :: l) - 1)%nat).
  rewrite IH. simpl. lia.
Qed.

Lemma middle_ok v : v ≠ [] → ∃ m, middle v = Ok m ∧ m ∈ v.
Proof.
  intros Hv. unfold middle.
  assert (length v / 2 < length v)%nat as Hl.
  { destruct v; [done|]. apply Nat.div_lt; simpl; lia. }
  destruct (lookup_lt_is_Some_2 v _ Hl) as [m Hm]. rewrite Hm.
  eexists. split; [done|]. by eapply list_elem_of_lookup_2.
Qed.

Lemma length_merge_sort (l : list Z) : length (merge_sort Z.le l) = length l.
Proof. apply Permutation_length, merge_sort_Permutation. Qed.

Lemma merge_sort_not_nil (l : list Z) : l ≠ [] → merge_sort Z.le l ≠ [].
Proof. rewrite <-!length_zero_iff_nil, length_merge_sort. done. Qed.

(** The assertions of [OnGenerateAck] cannot fail: at most sixteen intervals
    are averaged. *)
Lemma OnGenerateAck_ok seqnum c :
  cc_inv c → ∃ c', OnGenerateAck seqnum c = Ok c' ∧ cc_inv c' ∧
    (length (arrival_times_ c') = length (arrival_times_ c)) ∧
    ((8 < length (arrival_times_ c))%nat →
     receive_window_size_ c' = RudpParameters.maximum_window_size).
Proof.
  intros (Hs&(Ha&Hp)&He). unfold OnGenerateAck.
  destruct (_ <=? 8)%nat eqn:E8.
  { exists c. repeat split; try done; try apply Hs; try apply He. lia. }
  set (l := merge_sort Z.le _).
  assert (length l = length (arrival_times_ c) - 1)%nat as Hl.
  { unfold l. by rewrite length_merge_sort, length_neighbour_intervals. }
  destruct (middle_ok l) as (m&->&_).
  { intros Hn. rewrite Hn in Hl. simpl in Hl. lia. }
  rewrite Res_bind_ok. set (valid := filter _ l).
  assert (length valid ≤ length l)%nat as Hv by apply length_filter.
  unfold kMaxArrivalTimes in Ha.
  set (total := foldl _ 0 valid).
  assert (∃ c1, cc_inv c1 ∧ arrival_times_ c1 = arrival_times_ c ∧
    (if (0 <? total) && (8 <? Z.of_nat (length valid)) then
      if negb (Z.of_nat (length valid) <=? (2 ^ 64 - 1) / 1000000) then Fault AssertionFailed
      else if negb (u64 (1000000 * Z.of_nat (length valid)) / total <=? 2 ^ 32 - 1)
      then Fault AssertionFailed
      else Ok (set_packets_receiving_rate
           (u32 (u64 (1000000 * Z.of_nat (length valid)) / total)) c)
    else Ok (set_packets_receiving_rate 0 c)) = Ok c1) as (c1&(Hs1&(Ha1&Hp1)&He1)&Hat&->).
  { destruct (_ && _) eqn:Et.
    - rewrite (proj2 (Z.leb_le _ ((2 ^ 64 - 1) / 1000000))) by
        (change ((2 ^ 64 - 1) / 1000000) with 18446744073709; lia).
      rewrite (proj2 (Z.leb_le _ (2 ^ 32 - 1))).
      2: { rewrite u64_small by lia. apply Z.div_le_upper_bound; nia. }
      eexists. split; [|split; [|done]]; [|done].
      split; [exact Hs|split; [done|]]. destruct He as (?&?&?&?&?&?&?).
      unfold estimates_ok. split_and!; simpl; try done; apply u32_is_u32.
    - eexists. split; [|split; [|done]]; [|done].
      split; [exact Hs|split; [done|]]. destruct He as (?&?&?&?&?&?&?).
      unfold estimates_ok, is_u32 in *. split_and!; simpl; lia. }
  rewrite Res_bind_ok.
  assert (∃ c2, cc_inv c2 ∧ arrival_times_ c2 = arrival_times_ c1 ∧
    match packet_pair_intervals_ c1 with
    | [] => Ok c1
    | _ => med ← middle (merge_sort Z.le (u64 <$> packet_pair_intervals_ c1));
           Ok (set_estimated_link_capacity (if 0 <? med then u32 (1000000 / med) else 0) c1)
    end = Ok c2) as (c2&(Hs2&(Ha2&Hp2)&He2)&Hat2&->).
  { destruct (packet_pair_intervals_ c1) as [|i js] eqn:Ei.
    { exists c1. repeat split; try done; try apply Hs1; try apply He1. by rewrite Ei. }
    destruct (middle_ok (merge_sort Z.le (u64 <$> i :: js))) as (m2&->&_).
    { apply merge_sort_not_nil. done. }
    rewrite Res_bind_ok. eexists. split; [|split; [|done]]; [|done].
    split; [exact Hs1|split; [split; [done|by rewrite <-Ei in Hp1]|]].
    destruct He1 as (?&?&?&?&?&?&?). unfold estimates_ok. split_and!; simpl; try done.
    destruct (_ <? _); [apply u32_is_u32|unfold is_u32; lia]. }
  rewrite Res_bind_ok. eexists. split; [done|]. split_and!; try done; [|simpl; by rewrite Hat2, Hat].
  repeat split; try apply Hs2; try apply He2; try done.
Qed.

(** The parts of [OnAck], member by member. *)
Lemma ack_estimates_members rtt var rate cap c :
  let c' := ack_estimates rtt var rate cap c in
  arrival_times_ c' = arrival_times_ c ∧
  packet_pair_intervals_ c' = packet_pair_intervals_ c ∧
  transmitted_bits_ c' = transmitted_bits_ c ∧
  transmission_speed_ c' = transmission_speed_ c ∧
  send_data_size_ c' = send_data_size_ c ∧ send_window_size_ c' = send_window_size_ c ∧
  receive_window_size_ c' = receive_window_size_ c ∧ allowed_lost_ c' = allowed_lost_ c ∧
  lost_packets_ c' = lost_packets_ c ∧ corrupted_packets_ c' = corrupted_packets_ c ∧
  round_trip_time_ c' = rtt ∧ round_trip_time_variance_ c' = var ∧
  ack_delay_ c' = u64 (4 * rtt) + var + kSynPeriod ∧
  packets_receiving_rate_ c' =
    (if rate =? 0 then packets_receiving_rate_ c
     else u32 (u64 (u64 (packets_receiving_rate_ c * 7) + rate) / 8)) ∧
  estimated_link_capacity_ c' =
    (if cap =? 0 then estimated_link_capacity_ c
     else u32 (u64 (u64 (estimated_link_capacity_ c * 7) + cap) / 8)).
Proof. unfold ack_estimates. by destruct (rate =? 0), (cap =? 0). Qed.

Lemma ack_data_size_eq c :
  sizes_ok c →
  ack_data_size c =
    set_lost_packets 0 (set_corrupted_packets 0 (set_send_data_size
      (if AllowedLost c <? u64 (corrupted_packets_ c + lost_packets_ c)
       then Z.max 1450 (9 * send_data_size_ c / 10)
       else Z.min 25950 (3 * send_data_size_ c / 2)) c)).
Proof.
  unfold sizes_ok, RudpParameters.default_data_size, RudpParameters.max_data_size.
  intros (Hd&_). rewrite <-(scale_0_9 (send_data_size_ c)), <-(scale_1_5 (send_data_size_ c)) by lia.
  unfold ack_data_size. by destruct (AllowedLost c <? _).
Qed.

Lemma ack_window_eq avail c :
  0 ≤ send_data_size_ c ≤ 25950 → 16 ≤ send_window_size_ c ≤ 512 → is_u32 avail →
  ack_window avail c =
    set_send_window_size
      (if 8 * send_data_size_ c <? avail
       then Z.min (send_window_size_ c + u32 (avail + 1) / 25950) 512
       else Z.max (9 * send_window_size_ c / 10) 16) c.
Proof.
  intros Hd Hw Ha. rewrite <-(scale_0_9 (send_window_size_ c)) by lia.
  assert (0 ≤ u32 (avail + 1) / 25950 < 2 ^ 32) as Hg by (unfold u32; mod_lia).
  rewrite <-(u64_small (send_window_size_ c + _)) by lia.
  unfold ack_window. rewrite (u64_small (8 * send_data_size_ c)) by lia.
  by destruct (_ <? avail).
Qed.

(** The sizes after an acknowledgement, in integers. *)
Lemma OnAck_eq seqnum rtt var avail rate cap c :
  sizes_ok c → is_u32 avail →
  let size :=
    if AllowedLost c <? u64 (corrupted_packets_ c + lost_packets_ c)
    then Z.max 1450 (9 * send_data_size_ c / 10)
    else Z.min 25950 (3 * send_data_size_ c / 2) in
  OnAck seqnum rtt var avail rate cap c =
    set_send_window_size
      (if 8 * size <? avail
       then Z.min (send_window_size_ c + u32 (avail + 1) / 25950) 512
       else Z.max (9 * send_window_size_ c / 10) 16)
      (set_lost_packets 0 (set_corrupted_packets 0 (set_send_data_size size
        (ack_estimates rtt var rate cap c)))).
Proof.
  intros (Hd&Hw&Hr) Ha size.
  destruct (ack_estimates_members rtt var rate cap c) as (_&_&_&_&E1&E2&E3&E4&E5&E6&_).
  unfold OnAck. cbv zeta. set (c1 := ack_estimates rtt var rate cap c) in *.
  rewrite ack_data_size_eq by (unfold sizes_ok; by rewrite E1, E2, E3).
  unfold AllowedLost. rewrite E1, E4, E5, E6. fold size.
  unfold RudpParameters.default_data_size, RudpParameters.max_data_size,
    RudpParameters.default_window_size, RudpParameters.maximum_window_size in *.
  assert (0 ≤ size ≤ 25950).
  { unfold size. destruct (_ <? u64 _); mod_lia. }
  rewrite ack_window_eq; cbn [send_data_size_ send_window_size_ set_send_data_size
    set_lost_packets set_corrupted_packets]; rewrite ?E2; done.
Qed.

Lemma OnAck_inv seqnum rtt var avail rate cap c :
  cc_inv c → is_u32 rtt → is_u32 var → is_u32 avail →
  cc_inv (OnAck seqnum rtt var avail rate cap c).
Proof.
  intros (Hs&Hh&(G1&G2&G3&G4&G5&G6&G7)) Hr Hv Ha. rewrite OnAck_eq by done.
  destruct (ack_estimates_members rtt var rate cap c)
    as (F1&F2&F3&F4&_&_&F5&_&_&_&F6&F7&F8&F9&F10).
  set (c1 := ack_estimates rtt var rate cap c) in *. clearbody c1.
  destruct Hs as (Hd&Hw&Hrw).
  unfold RudpParameters.default_data_size, RudpParameters.max_data_size,
    RudpParameters.default_window_size, RudpParameters.maximum_window_size in *.
  assert (0 ≤ u32 (avail + 1) / 25950) by (unfold u32; mod_lia).
  split; [|split].
  - unfold sizes_ok, RudpParameters.default_data_size, RudpParameters.max_data_size,
      RudpParameters.default_window_size, RudpParameters.maximum_window_size.
    cbn -[Z.mul Z.div u32 u64 Z.max Z.min]. rewrite F5.
    split_and!; try lia; destruct (_ <? _) in |- *; mod_lia.
  - unfold history_ok. simpl. by rewrite F1, F2.
  - unfold estimates_ok. simpl. rewrite F3, F4, F6, F7, F8, F9, F10. split_and!; try done.
    + destruct (rate =? 0); [done|apply u32_is_u32].
    + destruct (cap =? 0); [done|apply u32_is_u32].
    + unfold kSynPeriod, milliseconds, is_u32, u64 in *. mod_lia.
Qed.

Lemma OnAckOfAck_inv rtt c : cc_inv c → cc_inv (OnAckOfAck rtt c).
Proof.
  intros (Hs&Hh&(?&?&?&?&?&?&?)). split; [exact Hs|split; [exact Hh|]].
  unfold estimates_ok, is_u32, OnAckOfAck in *.
  set (diff := if rtt <? _ then _ else _).
  cbn -[Z.mul Z.div u32 u64 milliseconds].
  pose proof (u32_is_u32 (u32 (u64 (round_trip_time_ c * 7)) + rtt)) as A1.
  pose proof (u32_is_u32 (u32 (u64 (round_trip_time_variance_ c * 3)) + diff)) as A2.
  unfold is_u32 in *.
  set (a := u32 (_ + rtt)) in *. set (b := u32 (_ + diff)) in *.
  assert (0 ≤ u64 (4 * (a / 8))) by (apply Z.mod_pos_bound; lia).
  unfold kSynPeriod, milliseconds. split_and!; try done; mod_lia.
Qed.

Lemma OnDataPacketReceived_ok seqnum c w :
  cc_inv c → ∃ c' w', OnDataPacketReceived seqnum (c, w) = Ok (tt, (c', w')) ∧ cc_inv c' ∧
    w_sent w' = w_sent w.
Proof.
  intros (Hs&(Ha&Hp)&He). unfold OnDataPacketReceived, mbind, M_bind, zoom, Now, gets.
  cbv beta iota zeta. cbn [fst snd]. eexists _, _. split; [reflexivity|]. split; [|done].
  destruct (last (arrival_times_ c)); [destruct (_ =? 1)|].
  all: split; [exact Hs|split; [|exact He]]; split; simpl;
    try apply length_pop_front_while_longer; done.
Qed.

Lemma IsSlowTransmission_ok n c w :
  cc_inv c → ∃ b c' w', IsSlowTransmission n (c, w) = Ok (b, (c', w')) ∧ cc_inv c' ∧
    w_sent w' = w_sent w.
Proof.
  intros (Hs&Hh&(?&?&?&?&?&?&?)). unfold IsSlowTransmission, mbind, M_bind, gets.
  cbn [fst snd]. destruct (transmitted_bits_ c =? 0).
  - eexists _, _, _. split; [reflexivity|]. split; [|done].
    split; [exact Hs|split; [exact Hh|]]. unfold estimates_ok. split_and!; try done; apply u32_is_u32.
  - simpl zoom. cbn -[ptime_sub u32 Z.mul Z.quot total_milliseconds].
    destruct (_ <? ptime_sub _ _).
    all: eexists _, _, _; split; [reflexivity|]; split; [|done].
    all: split; [exact Hs|split; [exact Hh|]]; unfold estimates_ok; split_and!; try done;
      simpl; try apply u32_is_u32.
Qed.

(** The notifications a socket's sender, receiver and read loop give. *)
Inductive cc_event :=
  | EvOpen (send_seqnum receive_seqnum : Z)
  | EvClose
  | EvDataPacketSent (seqnum : Z)
  | EvDataPacketReceived (seqnum : Z)
  | EvGenerateAck (seqnum : Z)
  | EvAck (seqnum rtt var avail rate cap : Z)
  | EvNegativeAck (seqnum : Z)
  | EvSendTimeout (seqnum : Z)
  | EvAckOfAck (rtt : Z)
  | EvConnectionType (connection_type : Z)
  | EvTransmission (length : Z).

(** The arguments are [uint32_t] values. *)
Definition event_ok (e : cc_event) : Prop :=
  match e with
  | EvAck _ rtt var avail _ _ => is_u32 rtt ∧ is_u32 var ∧ is_u32 avail
  | _ => True
  end.

Definition notify (e : cc_event) : M (CC * World) unit :=
  let pure f := modify (λ s, (f s.1, s.2)) in
  match e with
  | EvOpen a b => pure (OnOpen a b)
  | EvClose => pure OnClose
  | EvDataPacketSent n => pure (OnDataPacketSent n)
  | EvDataPacketReceived n => OnDataPacketReceived n
  | EvGenerateAck n => c ← gets fst; c ← liftR (OnGenerateAck n c); pure (λ _, c)
  | EvAck n rtt var avail rate cap => pure (OnAck n rtt var avail rate cap)
  | EvNegativeAck n => pure (OnNegativeAck n)
  | EvSendTimeout n => pure (OnSendTimeout n)
  | EvAckOfAck rtt => pure (OnAckOfAck rtt)
  | EvConnectionType t => pure (SetPeerConnectionType t)
  | EvTransmission n => IsSlowTransmission n;; mret tt
  end.

Fixpoint notify_all (es : list cc_event) : M (CC * World) unit :=
  match es with [] => mret tt | e :: es => notify e;; notify_all es end.

Lemma transmitted_bits_0_inv c : cc_inv c → cc_inv (set_transmitted_bits 0 c).
Proof. intros (?&?&(?&?&?&?&_&?&?)). by split_and!. Qed.

Lemma notify_inv e c w :
  cc_inv c → event_ok e → wp (notify e) (c, w) (λ _ s, cc_inv s.1).
Proof.
  intros Hc He. destruct e; try exact Hc.
  - by apply transmitted_bits_0_inv.
  - by apply transmitted_bits_0_inv.
  - destruct (OnDataPacketReceived_ok seqnum c w Hc) as (c'&w'&E&?&_).
    by unfold wp, notify; rewrite E.
  - destruct (OnGenerateAck_ok seqnum c Hc) as (c'&E&?&_).
    unfold notify. wp_steps. cbn [fst]. eapply wp_liftR; [exact E|]. by wp_steps.
  - by apply OnAck_inv; try apply He.
  - by apply OnAckOfAck_inv.
  - unfold notify, SetPeerConnectionType. wp_steps.
    repeat (destruct (_ <=? _); [exact Hc|]). exact Hc.
  - destruct (IsSlowTransmission_ok length c w Hc) as (b&c'&w'&E&?&_).
    unfold notify. wp_steps. unfold wp. by rewrite E.
Qed.

Lemma notify_all_inv es c w :
  Forall event_ok es → cc_inv c → wp (notify_all es) (c, w) (λ _ s, cc_inv s.1).
Proof.
  intros Hes. revert c w. induction Hes as [|e es He _ IH]; intros c w Hc; [exact Hc|].
  cbn [notify_all]. wp_steps. eapply wp_mono; [by apply notify_inv|].
  intros [] [c1 w1] Hc1. by apply IH.
Qed.

(** C9: Congestion control is safe whatever it is told: for every sequence of
    notifications (opening, data sent and received, acknowledgements
    generated and received, losses, connection types, read and write sizes)
    no assertion fails and no container is read outside its bounds, the size
    of data packets stays between 1450 and 25950 bytes, both window sizes
    stay between 16 and 512 packets, and at most 17 arrival times and 17
    packet pair intervals are remembered. *)
Theorem congestion_control_invariant (es : list cc_event) (w : World) :
  Forall event_ok es →
  ∃ c w', notify_all es (new_congestion_control, w) = Ok (tt, (c, w')) ∧
    1450 ≤ SendDataSize c ≤ 25950 ∧ 16 ≤ SendWindowSize c ≤ 512 ∧
    16 ≤ ReceiveWindowSize c ≤ 512 ∧
    (length (arrival_times_ c) ≤ 17)%nat ∧ (length (packet_pair_intervals_ c) ≤ 17)%nat ∧
    BestReadBufferSize c = Ok (ReceiveWindowSize c * 25950).
Proof.
  intros Hes.
  pose proof (notify_all_inv es _ w Hes new_congestion_control_inv) as H1.
  apply wp_Ok in H1 as ([]&[c w']&E&Hc).
  exists c, w'. split; [exact E|]. destruct Hc as ((Hd&Hw&Hr)&(Ha&Hp)&_).
  split_and!; try apply Hd; try apply Hw; try apply Hr; try done.
  unfold BestReadBufferSize, ReceiveWindowSize. cbn [fst] in Hr.
  unfold RudpParameters.default_window_size, RudpParameters.maximum_window_size,
    RudpParameters.max_data_size in *.
  rewrite !u64_small by lia. rewrite (proj2 (Z.ltb_lt _ _)) by lia.
  unfold u32. by rewrite Z.mod_small by lia.
Qed.

(** C40: What an acknowledgement does to the sending rate, in exact integer arithmetic:
    the data size shrinks to nine tenths (never below 1450) when more packets were lost
    or corrupted since the last acknowledgement than the connection type allows, and
    grows by half (never above 25950) otherwise; the send window grows by the number of
    maximal packets the peer has room for when that is more than eight packets of the
    current data size, and shrinks to nine tenths otherwise (a comment in the code has
    eight packets of the maximal size, and four fifths); the loss counters restart. The
    floating point scalings of the code never differ from this. *)
Theorem on_ack_adjusts_sizes (es : list cc_event) (w w' : World) (c : CC)
    (seqnum rtt var avail rate cap : Z) :
  Forall event_ok es →
  notify_all es (new_congestion_control, w) = Ok (tt, (c, w')) →
  is_u32 avail →
  let c' := OnAck seqnum rtt var avail rate cap c in
  SendDataSize c' =
    (if AllowedLost c <? u64 (corrupted_packets_ c + lost_packets_ c)
     then Z.max 1450 (9 * SendDataSize c / 10)
     else Z.min 25950 (3 * SendDataSize c / 2)) ∧
  SendWindowSize c' =
    (if 8 * SendDataSize c' <? avail
     then Z.min (SendWindowSize c + u32 (avail + 1) / 25950) 512
     else Z.max (9 * SendWindowSize c / 10) 16) ∧
  corrupted_packets_ c' = 0 ∧ lost_packets_ c' = 0 ∧
  RoundTripTime c' = rtt ∧ AckDelay c' = u64 (4 * rtt) + var + 10000.
Proof.
  intros Hes E Ha.
  pose proof (wp_det _ _ _ _ _ E
    (notify_all_inv es _ w Hes new_congestion_control_inv)) as (Hs&_).
  rewrite OnAck_eq by done. cbv zeta.
  destruct (ack_estimates_members rtt var rate cap c) as (_&_&_&_&_&_&_&_&_&_&?&_&?&_).
  by split_and!.
Qed.

(** Once a second has passed since the last measurement, a transfer is
    reported slow exactly when its average rate is below 1024 bits per
    second - provided fewer than 4294968 bits were counted meanwhile. *)
Theorem slow_transmission_threshold (n : Z) (c : CC) (w : World) (bits ms : Z) :
  is_u32 (transmitted_bits_ c) → transmitted_bits_ c ≠ 0 → 0 ≤ n →
  bits = transmitted_bits_ c + 8 * n → bits ≤ 4294967 →
  ptime_sub (clock (w_clock w)) (last_record_transmit_time_ c) = milliseconds ms → 1000 < ms →
  ∃ c' w', IsSlowTransmission n (c, w) = Ok (bool_decide (bits * 1000 < 1024 * ms), (c', w')) ∧
    TransmissionSpeed c' = bits * 1000 / ms ∧ transmitted_bits_ c' = 1.
Proof.
  unfold is_u32, milliseconds. intros Hb Hn0 Hn -> Hsmall Hd Hms.
  unfold IsSlowTransmission, mbind, M_bind, gets.
  cbn [fst snd]. rewrite (proj2 (Z.eqb_neq _ _)) by done.
  simpl zoom. cbn -[ptime_sub u32 Z.mul Z.quot total_milliseconds].
  rewrite Hd. unfold RudpParameters.speed_calculate_inverval, milliseconds, total_milliseconds.
  rewrite (proj2 (Z.ltb_lt _ _)) by lia.
  rewrite Z.quot_mul by lia.
  assert (u32 (transmitted_bits_ c + u32 (u64 (n * 8))) = transmitted_bits_ c + 8 * n) as ->.
  { unfold u32, u64. mod_lia. }
  assert (u32 (1000 * (transmitted_bits_ c + 8 * n)) =
    1000 * (transmitted_bits_ c + 8 * n)) as -> by (unfold u32; mod_lia).
  set (b := 1000 * (transmitted_bits_ c + 8 * n)).
  rewrite Z.quot_div_nonneg by (unfold b; lia).
  assert (0 ≤ b / ms ≤ b) as Hq.
  { split; [apply Z.div_pos; unfold b; lia|]. apply Z.div_le_upper_bound; unfold b; nia. }
  assert (u32 (b / ms) = b / ms) as -> by (apply Z.mod_small; unfold b in *; lia).
  replace ((transmitted_bits_ c + 8 * n) * 1000) with b by (unfold b; lia).
  unfold RudpParameters.slow_speed_threshold.
  assert ((b / ms <? 1024) = bool_decide (b < 1024 * ms)) as ->.
  { pose proof (Z.div_mod b ms). pose proof (Z.mod_pos_bound b ms).
    case_bool_decide as E; [apply Z.ltb_lt|apply Z.ltb_ge]; nia. }
  eexists _, _. split; [reflexivity|]. done.
Qed.
End invariant.

(** ** Runs in the simulated environment *)

Module CCExamples.
#[local] Instance sim : Environment := Sim.env 0 1000.

Definition quiet : list cc_event :=
  [EvOpen 7 9; EvConnectionType 0xff0fffff; EvDataPacketReceived 17; EvGenerateAck 1;
   EvSendTimeout 8; EvAck 1 20000 500 1000000 0 0].
Definition w0 : World := MkWorld _ 0 0 [].
Definition start : CC := new_congestion_control .
Definition slow : CC :=
  set_last_record_transmit_time (Sim.At 0 : ptime) (set_transmitted_bits 800 start).
Definition fast : CC :=
  set_last_record_transmit_time (Sim.At 0 : ptime) (set_transmitted_bits 1 start).

Lemma congestion_control_invariant_witness :
  ∃ (c : CC) w',
    notify_all quiet (start, w0) = Ok (tt, (c, w')) ∧
    1450 ≤ SendDataSize c ≤ 25950 ∧ 16 ≤ SendWindowSize c ≤ 512 ∧
    16 ≤ ReceiveWindowSize c ≤ 512 ∧
    (length (arrival_times_ c) ≤ 17)%nat ∧ (length (packet_pair_intervals_ c) ≤ 17)%nat ∧
    BestReadBufferSize c = Ok (ReceiveWindowSize c * 25950).
Proof.
  apply (congestion_control_invariant quiet w0).
  unfold quiet. repeat constructor; by vm_compute.
Defined.

Definition after_quiet : CC * World := (from_ok (tt, (start, w0)) (notify_all quiet (start, w0))).2.

Lemma after_quiet_eq :
  notify_all quiet (start, w0) = Ok (tt, (after_quiet.1, after_quiet.2)).
Proof.
  rewrite (from_ok_eq (tt, (start, w0)) (notify_all quiet (start, w0))) by by vm_compute.
  unfold after_quiet. by destruct (from_ok _ _) as [[] []].
Qed.

Lemma on_ack_adjusts_sizes_witness :
  SendDataSize (OnAck 2 10000 100 5000000 0 0 after_quiet.1) = 3262 ∧
  SendWindowSize (OnAck 2 10000 100 5000000 0 0 after_quiet.1) = 246.
Proof.
  destruct (on_ack_adjusts_sizes quiet w0 after_quiet.2 after_quiet.1
    2 10000 100 5000000 0 0) as (E1&E2&_).
  - unfold quiet; repeat constructor; by vm_compute.
  - exact after_quiet_eq.
  - by vm_compute.
  - split; [rewrite E1|rewrite E2, E1]; by vm_compute.
Defined.

(** One hundred bytes before, ten more now, two seconds in between. *)
Lemma slow_transmission_threshold_witness :
  ∃ c' w', IsSlowTransmission 10 (slow, MkWorld _ 2000 0 []) =
      Ok (true, (c', w')) ∧
    TransmissionSpeed (c' : CC) = 440.
Proof.
  destruct (slow_transmission_threshold 10 slow (MkWorld _ 2000 0 []) 880 2000)
    as (c'&w'&E1&E2&_); [by vm_compute..|].
  exists c', w'. by rewrite E1, E2.
Defined.

(** The rate is computed in 32 bits: [1000 * transmitted_bits_] wraps
    around, so a transfer of 536871 bytes in 1001 milliseconds (over four
    megabits per second) is reported as slow, with a recorded speed of zero,
    and its socket is closed. *)
Theorem fast_transmission_reported_slow :
  match IsSlowTransmission 536871 (fast, MkWorld _ 1001 0 []) with
  | Ok (slow, (c, _)) => slow = true ∧ TransmissionSpeed (c : CC) = 1
  | Fault _ => False
  end.
Proof. by vm_compute. Qed.
End CCExamples.
