(* ===== verification/Shared.v ===== *)
(** * What the parts of a socket share

    The session, the sender and the receiver of a socket hold references to the
    socket's peer, tick timer and congestion control, and reach the network and
    the clock through them.  An operation of such a part with own state [X] is
    a computation on [X * Shared].  The instances at the start make each packet
    class something [SendTo] can send, with its wire format. *)

From S2P Require Import Prelude Environment Packet Transport CongestionControl.
From S2P Require HandshakePacket AckPackets NegativeAckPacket DataPacket.
Export AckPackets.

(** ** Packets on the wire *)

#[export] Instance data_encodable : Encodable DataPacket.t := DataPacket.Encode.
#[export] Instance ack_encodable : Encodable AckPacket.t := AckPacket.Encode.
#[export] Instance ack_of_ack_encodable : Encodable AckOfAckPacket.t := AckOfAckPacket.Encode.
#[export] Instance shutdown_encodable : Encodable ShutdownPacket.t := ShutdownPacket.Encode.
#[export] Instance negative_ack_encodable : Encodable NegativeAckPacket.t :=
  NegativeAckPacket.Encode.
#[export] Instance handshake_encodable : Encodable HandshakePacket.t := HandshakePacket.Encode.

Lemma fits {n : nat} {buf : list Z} : (n ≤ length buf)%nat → Z.of_nat n ≤ buffer_size buf.
Proof. unfold buffer_size. lia. Qed.

#[export, refine] Instance data_wire : WireFormat DataPacket.t := {|
  wire_size := DataPacket.size; wire_put := DataPacket.put; wire_ok _ := True;
  wire_encode p buf _ H := DataPacket.data_Encode_ok p buf (fits H);
  wire_length := DataPacket.data_length_put |}.
Proof. unfold DataPacket.size. lia. Defined.

#[export, refine] Instance ack_wire : WireFormat AckPacket.t := {|
  wire_size := AckPacket.size; wire_put := AckPacket.put; wire_ok _ := True;
  wire_encode p buf _ H := AckPacket.ack_Encode_ok p buf (fits H);
  wire_length := AckPacket.ack_length_put |}.
Proof. intros p. unfold AckPacket.size. case_match; lia. Defined.

#[export, refine] Instance ack_of_ack_wire : WireFormat AckOfAckPacket.t := {|
  wire_size _ := 16%nat; wire_put := AckOfAckPacket.put; wire_ok _ := True;
  wire_encode p buf _ H := AckOfAckPacket.ack_of_ack_Encode_ok p buf (fits H);
  wire_length := AckOfAckPacket.ack_of_ack_length_put |}.
Proof. lia. Defined.

#[export, refine] Instance shutdown_wire : WireFormat ShutdownPacket.t := {|
  wire_size _ := 16%nat; wire_put := ShutdownPacket.put; wire_ok _ := True;
  wire_encode p buf _ H := ShutdownPacket.shutdown_Encode_ok p buf (fits H);
  wire_length := ShutdownPacket.shutdown_length_put |}.
Proof. lia. Defined.

#[export, refine] Instance negative_ack_wire : WireFormat NegativeAckPacket.t := {|
  wire_size := NegativeAckPacket.size; wire_put := NegativeAckPacket.put; wire_ok _ := True;
  wire_encode p buf _ H := NegativeAckPacket.nack_Encode_ok p buf (fits H);
  wire_length := NegativeAckPacket.nack_length_put |}.
Proof. unfold NegativeAckPacket.size. lia. Defined.

#[export, refine] Instance handshake_wire : WireFormat HandshakePacket.t := {|
  wire_size _ := 64%nat; wire_put := HandshakePacket.put; wire_ok := HandshakePacket.wf;
  wire_encode p buf Hp H := HandshakePacket.handshake_Encode_ok p buf Hp (fits H);
  wire_length := HandshakePacket.handshake_length_put |}.
Proof. lia. Defined.

Lemma handshake_fits (p : HandshakePacket.t) :
  (wire_size p ≤ Z.to_nat RudpParameters.max_size)%nat.
Proof. unfold RudpParameters.max_size. cbn [wire_size handshake_wire]. lia. Qed.

(** ** The shared objects *)

Record Shared `{Environment} := MkShared {
  sh_peer : Peer;
  sh_timer : TickTimer;
  sh_cc : CC;
  sh_world : World;
}.
Arguments MkShared {_}.

Section shared.
Context `{Environment}.

Definition with_world (w : World) (s : Shared) : Shared :=
  MkShared (sh_peer s) (sh_timer s) (sh_cc s) w.

Definition upd_peer (f : Peer → Peer) : M Shared unit :=
  modify (λ s, MkShared (f (sh_peer s)) (sh_timer s) (sh_cc s) (sh_world s)).

Definition Send `{Encodable P} (packet : P) : M Shared TransportCondition :=
  zoom (λ s, (sh_peer s, sh_world s))
    (λ pw s, MkShared pw.1 (sh_timer s) (sh_cc s) pw.2) (peer_Send packet).

Definition now : M Shared ptime := zoom sh_world with_world Now.

Definition in_timer {A} : M (TickTimer * World) A → M Shared A :=
  zoom (λ s, (sh_timer s, sh_world s))
    (λ tw s, MkShared (sh_peer s) tw.1 (sh_cc s) tw.2).

Definition TickAt (time : ptime) : M Shared unit :=
  modify (λ s, MkShared (sh_peer s) (timer_TickAt time (sh_timer s)) (sh_cc s) (sh_world s)).
Definition ResetTimer : M Shared unit :=
  modify (λ s, MkShared (sh_peer s) (timer_Reset (sh_timer s)) (sh_cc s) (sh_world s)).
Definition CancelTimer : M Shared unit :=
  modify (λ s, MkShared (sh_peer s) (timer_Cancel (sh_timer s)) (sh_cc s) (sh_world s)).
Definition TickAfter (duration : Z) : M Shared unit := in_timer (timer_TickAfter duration).
Definition Expired : M Shared bool := in_timer timer_Expired.

Definition in_cc {A} : M (CC * World) A → M Shared A :=
  zoom (λ s, (sh_cc s, sh_world s))
    (λ cw s, MkShared (sh_peer s) (sh_timer s) cw.1 cw.2).
Definition upd_cc (f : CC → CC) : M Shared unit :=
  modify (λ s, MkShared (sh_peer s) (sh_timer s) (f (sh_cc s)) (sh_world s)).

(** Own state and shared state. *)
Definition shared {X A} (m : M Shared A) : M (X * Shared) A :=
  zoom snd (λ sh s, (s.1, sh)) m.
Definition self {X A} (f : X → A) : M (X * Shared) A := gets (λ s, f s.1).
Definition upd_self {X} (f : X → X) : M (X * Shared) unit := modify (λ s, (f s.1, s.2)).
Definition cc_get {X A} (f : CC → A) : M (X * Shared) A := gets (λ s, f (sh_cc s.2)).
Definition peer_get {X A} (f : Peer → A) : M (X * Shared) A := gets (λ s, f (sh_peer s.2)).

(** *** Their rules *)

Definition sent_from (sh : Shared) (bytes : list Z) : list datagram :=
  Datagram _ (peer_endpoint (sh_peer sh)) bytes :: w_sent (sh_world sh).

(** The state after a packet was handed to the network. *)
Definition after_send (bytes : list Z) (sh : Shared) : Shared :=
  with_world (MkWorld _ (w_clock (sh_world sh)) (w_random (sh_world sh))
    (sent_from sh bytes)) sh.

Lemma wp_Send `{WireFormat P} (packet : P) sh (Q : TransportCondition → Shared → Prop) :
  wire_ok packet → (wire_size packet ≤ Z.to_nat RudpParameters.max_size)%nat →
  Q (if send_error (sent_from sh (wire_bytes packet)) then kSendFailure else kSuccess)
    (after_send (wire_bytes packet) sh) →
  wp (Send packet) sh Q.
Proof.
  intros Hok Hfit HQ. unfold Send. apply wp_zoom. unfold wp, peer_Send. cbn [fst snd].
  rewrite SendTo_fits by done. destruct sh. exact HQ.
Qed.

(** The clock only moves its own counter. *)
Definition tick (w : World) : World := MkWorld _ (S (w_clock w)) (w_random w) (w_sent w).

Lemma wp_now sh (Q : ptime → Shared → Prop) :
  Q (clock (w_clock (sh_world sh))) (with_world (tick (sh_world sh)) sh) → wp now sh Q.
Proof. done. Qed.

Lemma wp_TickAt t sh (Q : unit → Shared → Prop) :
  Q tt (MkShared (sh_peer sh) (timer_TickAt t (sh_timer sh)) (sh_cc sh) (sh_world sh)) →
  wp (TickAt t) sh Q.
Proof. done. Qed.

Definition after_tick (d : Z) (sh : Shared) : Shared :=
  MkShared (sh_peer sh)
    (timer_TickAt (ptime_add (clock (w_clock (sh_world sh))) d) (sh_timer sh))
    (sh_cc sh) (tick (sh_world sh)).

Lemma wp_TickAfter d sh (Q : unit → Shared → Prop) :
  Q tt (after_tick d sh) → wp (TickAfter d) sh Q.
Proof. done. Qed.

(** [Expired] may read the clock; it changes nothing else. *)
Lemma wp_Expired sh (Q : bool → Shared → Prop) :
  (∀ b w, w = sh_world sh ∨ w = tick (sh_world sh) → Q b (with_world w sh)) →
  wp Expired sh Q.
Proof.
  intros HQ. unfold wp, Expired, in_timer, zoom, timer_Expired. cbn [fst snd].
  destruct (ptime_eqb _ _); cbn.
  - apply (HQ true (sh_world sh)). by left.
  - apply (HQ _ (tick (sh_world sh))). by right.
Qed.

Lemma wp_shared {X A} (m : M Shared A) (s : X * Shared) Q :
  wp m s.2 (λ a sh, Q a (s.1, sh)) → wp (shared m) s Q.
Proof. intros Hw. unfold shared. apply wp_zoom. exact Hw. Qed.

Lemma wp_self {X A} (f : X → A) (s : X * Shared) (Q : A → X * Shared → Prop) :
  Q (f s.1) s → wp (self f) s Q.
Proof. done. Qed.

Lemma wp_upd_self {X} (f : X → X) (s : X * Shared) (Q : unit → X * Shared → Prop) :
  Q tt (f s.1, s.2) → wp (upd_self f) s Q.
Proof. done. Qed.

Lemma wp_cc_get {X A} (f : CC → A) (s : X * Shared) (Q : A → X * Shared → Prop) :
  Q (f (sh_cc s.2)) s → wp (cc_get f) s Q.
Proof. done. Qed.

Lemma wp_peer_get {X A} (f : Peer → A) (s : X * Shared) (Q : A → X * Shared → Prop) :
  Q (f (sh_peer s.2)) s → wp (peer_get f) s Q.
Proof. done. Qed.

Lemma wp_upd_cc f sh (Q : unit → Shared → Prop) :
  Q tt (MkShared (sh_peer sh) (sh_timer sh) (f (sh_cc sh)) (sh_world sh)) →
  wp (upd_cc f) sh Q.
Proof. done. Qed.

Lemma wp_upd_peer f sh (Q : unit → Shared → Prop) :
  Q tt (MkShared (f (sh_peer sh)) (sh_timer sh) (sh_cc sh) (sh_world sh)) →
  wp (upd_peer f) sh Q.
Proof. done. Qed.
End shared.

(** One step of a computation on own and shared state. *)
Ltac sh_step :=
  first
    [ wp_step
    | lazymatch goal with
      | |- wp (shared _) _ _ => apply wp_shared
      | |- wp (self _) _ _ => apply wp_self
      | |- wp (upd_self _) _ _ => apply wp_upd_self
      | |- wp (cc_get _) _ _ => apply wp_cc_get
      | |- wp (peer_get _) _ _ => apply wp_peer_get
      | |- wp (upd_cc _) _ _ => apply wp_upd_cc
      | |- wp (upd_peer _) _ _ => apply wp_upd_peer
      | |- wp now _ _ => apply wp_now
      | |- wp (TickAt _) _ _ => apply wp_TickAt
      | |- wp (TickAfter _) _ _ => apply wp_TickAfter
      end ]; cbn beta; cbn [fst snd].
Ltac sh_steps := repeat sh_step.

(** ** A concrete state for examples *)
Module Demo.
(** The clock advances by a millisecond per reading. *)
#[export] Instance sim : Environment := Sim.env 0 1000.
#[export] Instance sim_ip : @IpAddressLaws (@env_ip sim) := Sim.ip_laws.
#[export] Instance sim_time : @PosixTimeLaws (@env_time sim) := Sim.posix_time_laws.
#[export] Instance sim_laws : EnvironmentLaws := Sim.env_laws 0 1000 ltac:(lia).

Definition address (d : Z) : ip_address := Sim.V4 10 0 0 d.
Definition remote (d : Z) : endpoint := Endpoint _ (address d) 5000.

(** A socket's shared objects, towards the host [10.0.0.d]. *)
Definition shared_at (d pid : Z) : Shared :=
  MkShared (MkPeer _ (remote d) pid) (MkTickTimer _ pos_infin) new_congestion_control
    (MkWorld _ 0 0 []).
End Demo.
