(* ===== verification/Codecs.v ===== *)
(** * The packet formats

    Properties of the seven packet classes taken together: what encoding and
    decoding guarantee, whatever the datagram. *)

From S2P Require Import Prelude Environment Packet ControlPackets AckPackets Transport Shared Decoded.
From S2P Require DataPacket HandshakePacket NegativeAckPacket.

(** ** Which decoder takes a datagram *)

Inductive kind :=
  KData | KAck | KAckOfAck | KNegativeAck | KHandshake | KShutdown | KKeepalive.

#[export] Instance kind_eq_dec : EqDecision kind.
Proof. solve_decision. Defined.

(** What [Decode] returns on a newly constructed packet of the class. *)
Definition accept (k : kind) (data : list Z) : Res bool :=
  match k with
  | KData => r ← DataPacket.Decode data DataPacket.new; Ok r.1
  | KAck => p ← AckPacket.new; r ← AckPacket.Decode data p; Ok r.1
  | KAckOfAck => p ← AckOfAckPacket.new; r ← AckOfAckPacket.Decode data p; Ok r.1
  | KNegativeAck => p ← NegativeAckPacket.new; r ← NegativeAckPacket.Decode data p; Ok r.1
  | KHandshake => p ← HandshakePacket.new; r ← HandshakePacket.Decode data p; Ok r.1
  | KShutdown => p ← ShutdownPacket.new; r ← ShutdownPacket.Decode data p; Ok r.1
  | KKeepalive => p ← KeepalivePacket.new; r ← KeepalivePacket.Decode data p; Ok r.1
  end.

Definition packet_type (k : kind) : option Z :=
  match k with
  | KData => None
  | KAck => Some AckPacket.kPacketType
  | KAckOfAck => Some AckOfAckPacket.kPacketType
  | KNegativeAck => Some NegativeAckPacket.kPacketType
  | KHandshake => Some HandshakePacket.kPacketType
  | KShutdown => Some ShutdownPacket.kPacketType
  | KKeepalive => Some KeepalivePacket.kPacketType
  end.

(** The first bytes of a datagram that is taken. *)
Definition starts_as (t : option Z) (data : list Z) : Prop :=
  match t with
  | None => ∃ b, rd data 0 = Ok b ∧ Z.land b 128 = 0
  | Some t => ∃ b, rd data 0 = Ok b ∧ Z.land b 128 ≠ 0 ∧ rd data 1 = Ok (Z.land t 255)
  end.

Lemma IsValidBase_starts data t :
  ControlPacket.IsValidBase data t = Ok true → starts_as (Some t) data.
Proof.
  unfold ControlPacket.IsValidBase. destruct (negb (_ <=? _)); [done|]. intros E.
  apply Res_bind_inv in E as (b&E0&E). destruct (Z.land b 128 =? 0) eqn:E1; [done|].
  destruct (negb _); [done|]. apply Res_bind_inv in E as (b1&E2&E). injection E as E.
  apply Z.eqb_eq in E. apply Z.eqb_neq in E1. exists b. by rewrite E2, E.
Qed.

Lemma DecodeBase_starts data t pkt b :
  ControlPacket.DecodeBase data t pkt = Ok b → b.1 = true → starts_as (Some t) data.
Proof.
  unfold ControlPacket.DecodeBase. intros E Hb. apply Res_bind_inv in E as (v&Ev&E).
  destruct v; [by apply IsValidBase_starts|]. cbn [negb] in E. by injection E as <-.
Qed.

(** Every [IsValid] begins with [IsValidBase]. *)
Lemma valid_starts data t (f : bool → bool) :
  (b ← ControlPacket.IsValidBase data t; Ok (f b)) = Ok true → (∀ b, f b = true → b = true) →
  starts_as (Some t) data.
Proof.
  intros E Hf. apply Res_bind_inv in E as (b&Eb&E). injection E as E.
  apply Hf in E as ->. by apply IsValidBase_starts.
Qed.

(** Every [Decode] of a control packet but one begins with [IsValid]. *)
Lemma guarded_starts {A} data t (f : bool → bool) (no : bool * A) (k : Res (bool * A)) r :
  (valid ← (b ← ControlPacket.IsValidBase data t; Ok (f b)); if negb valid then Ok no else k) = Ok r →
  no.1 = false → r.1 = true → (∀ b, f b = true → b = true) → starts_as (Some t) data.
Proof.
  intros E Hno Hr Hf. apply Res_bind_inv in E as ([]&Ev&E); [by eapply valid_starts|].
  injection E as <-. congruence.
Qed.

Lemma andb_guard c b : b && c = true → b = true.
Proof. by destruct b. Qed.

Lemma accept_starts k data : accept k data = Ok true → starts_as (packet_type k) data.
Proof.
  destruct k; cbn [accept packet_type]; intros E.
  { apply Res_bind_inv in E as (r&E&Er). injection Er as Er. unfold DataPacket.Decode in E.
    apply Res_bind_inv in E as ([]&E&Hr); [|by simplify_eq/=]. unfold DataPacket.IsValid in E.
    destruct (negb _); [done|]. apply Res_bind_inv in E as (b&Eb&E). injection E as E.
    exists b. split; [done|by apply Z.eqb_eq]. }
  all: apply Res_bind_inv in E as (p&_&E); apply Res_bind_inv in E as (r&E&Er); injection Er as Er.
  - eapply guarded_starts; [exact E|done|done|]. intros b. apply andb_guard.
  - unfold AckOfAckPacket.Decode in E. apply Res_bind_inv in E as (x&E&Ex). injection Ex as <-.
    by eapply DecodeBase_starts.
  - eapply guarded_starts; [exact E|done|done|]. by intros b [? _]%andb_prop%proj1%andb_prop.
  - eapply guarded_starts; [exact E|done|done|]. intros b. apply andb_guard.
  - eapply guarded_starts; [exact E|done|done|]. intros b. apply andb_guard.
  - eapply guarded_starts; [exact E|done|done|]. intros b. apply andb_guard.
Qed.

(** The order in which a socket tries the decoders does not matter: no
    datagram is taken by the decoders of two different packet classes. *)
Theorem decoding_unambiguous (k1 k2 : kind) (data : list Z) :
  accept k1 data = Ok true → accept k2 data = Ok true → k1 = k2.
Proof.
  intros E1%accept_starts E2%accept_starts.
  destruct k1, k2; try done; exfalso; cbn [packet_type starts_as] in *;
    destruct E1 as (?&?&E1), E2 as (?&?&E2); destruct_and?; try congruence;
    match goal with
    | H1 : rd data 1 = Ok _, H2 : rd data 1 = Ok _ |- _ =>
        rewrite H1 in H2; injection H2; vm_compute; discriminate
    end.
Qed.

(** Decoding is total: whatever the datagram holds and however short it is,
    each decoder returns, without reading outside it. *)
Theorem decoding_total (k : kind) (data : list Z) : ∃ b, accept k data = Ok b.
Proof.
  assert (∀ P (new : Res P) (p0 : P) (decode : P → Res (bool * P)) v,
    new = Ok p0 → (∃ b p, v = Ok b ∧ decode p0 = Ok (b, p) ∧ (b = false → p = p0)) →
    ∃ b, (p ← new; r ← decode p; Ok r.1) = Ok b) as Hdecode.
  { intros P new p0 decode v -> (b&p&_&E&_). exists b. by rewrite Res_bind_ok, E. }
  destruct k; cbn [accept].
  - destruct (DataPacket.data_Decode_total data DataPacket.new) as (b&p&_&->&_). by exists b.
  - eapply Hdecode; [reflexivity|apply AckPacket.ack_Decode_total].
  - eapply Hdecode; [reflexivity|apply AckOfAckPacket.ack_of_ack_Decode_total].
  - eapply Hdecode; [reflexivity|apply NegativeAckPacket.nack_Decode_total].
  - eapply Hdecode; [reflexivity|apply HandshakePacket.handshake_Decode_total].
  - eapply Hdecode; [reflexivity|apply ShutdownPacket.shutdown_Decode_total].
  - eapply Hdecode; [reflexivity|apply KeepalivePacket.keepalive_Decode_total].
Qed.

(** ** Round trips *)

(** The buffer [SendTo] encodes into has [max_size] bytes. *)
Lemma send_buffer_fits (n : nat) : Z.of_nat n ≤ 25980 → Z.of_nat n ≤ buffer_size send_buffer.
Proof.
  intros. unfold buffer_size, send_buffer. rewrite length_replicate.
  unfold RudpParameters.max_size. lia.
Qed.

(** C8: A data packet survives the network: decoding the datagram [SendTo] makes
    of it gives back the packet, sequence number, flags, message number,
    addressing and data, for every packet with fields in range and at most
    25964 bytes of data. *)
Theorem data_packet_round_trip (p p0 : DataPacket.t) :
  DataPacket.wf p → Z.of_nat (length (DataPacket.Data p)) ≤ 25964 →
  DataPacket.Decode (wire_bytes p) p0 = Ok (true, p).
Proof.
  intros Hp Hl. apply DataPacket.data_Decode_put; [done|].
  apply send_buffer_fits. unfold DataPacket.size, DataPacket.Data in *. lia.
Qed.

(** C39: So do the control packets: handshake, acknowledgement (with or without
    its optional fields), acknowledgement of an acknowledgement, negative
    acknowledgement (with at least one number) and shutdown are decoded to what
    was sent. *)
Theorem control_packets_round_trip (h : HandshakePacket.t) (a : AckPacket.t)
    (aa : AckOfAckPacket.t) (n : NegativeAckPacket.t) (s : ShutdownPacket.t)
    (h0 : HandshakePacket.t) (aa0 : AckOfAckPacket.t) (n0 : NegativeAckPacket.t)
    (s0 : ShutdownPacket.t) :
  HandshakePacket.wf h → AckPacket.wf a → AckPacket.plain a → AckOfAckPacket.wf aa →
  NegativeAckPacket.wf n → NegativeAckPacket.HasSequenceNumbers n = true →
  Z.of_nat (length (NegativeAckPacket.sequence_numbers_ n)) ≤ 6491 → ShutdownPacket.wf s →
  HandshakePacket.Decode (wire_bytes h) h0 = Ok (true, h) ∧
  (p ← AckPacket.new; AckPacket.Decode (wire_bytes a) p) = Ok (true, a) ∧
  AckOfAckPacket.Decode (wire_bytes aa) aa0 = Ok (true, aa) ∧
  NegativeAckPacket.Decode (wire_bytes n) n0 = Ok (true, n) ∧
  ShutdownPacket.Decode (wire_bytes s) s0 = Ok (true, s).
Proof.
  intros Hh Ha Hpa Haa Hn Hne Hln Hs. split_and!.
  - apply HandshakePacket.handshake_Decode_put; [done|]. by apply (send_buffer_fits 64).
  - change (AckPacket.new) with (Ok AckPacket.init). rewrite Res_bind_ok.
    apply AckPacket.ack_Decode_put; [done..|]. apply send_buffer_fits.
    unfold AckPacket.size. case_match; lia.
  - apply AckOfAckPacket.ack_of_ack_Decode_put; [done|]. by apply (send_buffer_fits 16).
  - apply NegativeAckPacket.nack_Decode_put; [done| |].
    + intros E. unfold NegativeAckPacket.HasSequenceNumbers in Hne. by rewrite E in Hne.
    + apply send_buffer_fits. unfold NegativeAckPacket.size. lia.
  - apply ShutdownPacket.shutdown_Decode_put; [done|]. by apply (send_buffer_fits 16).
Qed.

(** A negative acknowledgement that is filled with single numbers and ranges
    (which may wrap around) and sent over the network reports to its receiver
    exactly the numbers that were added. *)
Theorem negative_ack_reports_exactly (es : list NegativeAckPacket.entry) (dest n : Z)
    (n0 : NegativeAckPacket.t) :
  es ≠ [] → Z.of_nat (length es) ≤ 3245 → Forall NegativeAckPacket.entry_ok es →
  NegativeAckPacket.is_seqnum n → is_u32 dest →
  ∃ p q, NegativeAckPacket.add_entries es
      (NegativeAckPacket.Mk (ControlPacket.Mk NegativeAckPacket.kPacketType 0 0 dest) []) = Ok p ∧
    NegativeAckPacket.Decode (wire_bytes p) n0 = Ok (true, q) ∧
    NegativeAckPacket.ContainsSequenceNumber n q = Ok (existsb (NegativeAckPacket.covers n) es).
Proof.
  intros Hne Hl Hes Hn Hd. eexists _, _. split; [by apply NegativeAckPacket.add_entries_words|].
  cbn [NegativeAckPacket.base NegativeAckPacket.sequence_numbers_ app].
  assert (length (concat (NegativeAckPacket.entry_words <$> es)) ≤ 2 * length es)%nat as Hlen.
  { clear. induction es as [|[] es IH]; cbn; [done|lia|lia]. }
  split.
  - apply NegativeAckPacket.nack_Decode_put.
    + split_and!; [by repeat split; try apply Hd|done|]. cbn [NegativeAckPacket.sequence_numbers_].
      clear -Hes. induction Hes as [|[m|a b] es He _ IH]; cbn [fmap list_fmap concat]; [constructor|..];
        cbn [NegativeAckPacket.entry_words app NegativeAckPacket.entry_ok] in *;
        unfold NegativeAckPacket.is_seqnum in *.
      * constructor; [unfold is_u32; lia|done].
      * constructor; [|constructor; [unfold is_u32; lia|done]].
        destruct He as [[Ha1 Ha2] _]. split; [by apply Z.lor_nonneg|].
        apply Z.log2_lt_cancel. rewrite Z.log2_lor by lia. apply Z.max_lub_lt; [|by vm_compute].
        change (Z.log2 4294967296) with 32. 
        apply Z.le_lt_trans with (Z.log2 0x7fffffff); [by apply Z.log2_le_mono|by vm_compute].
    + cbn [NegativeAckPacket.sequence_numbers_]. destruct es as [|[] es]; done.
    + apply send_buffer_fits. unfold NegativeAckPacket.size.
      cbn [NegativeAckPacket.sequence_numbers_]. lia.
  - unfold NegativeAckPacket.ContainsSequenceNumber. rewrite (proj2 (Z.leb_le _ _)) by apply Hn.
    f_equal. cbn [NegativeAckPacket.sequence_numbers_]. by apply NegativeAckPacket.contains_entries.
Qed.

(** [RudpAckPacket::Encode] checks the buffer against the short format only:
    with the optional fields, a buffer of 20 to 39 bytes passes the check
    and is written past its end.  (The callers in the program pass larger ones.) *)
Theorem ack_encode_overruns (p : AckPacket.t) (buffer : list Z) :
  AckPacket.HasOptionalFields p = true → 20 ≤ buffer_size buffer < 40 →
  AckPacket.Encode p buffer = Fault OutOfBounds.
Proof. apply AckPacket.Encode_overrun. Qed.

(** ** Instances *)
Module CodecExamples.
Import NegativeAckPacket.

Definition base (ty : Z) : ControlPacket.t := ControlPacket.Mk ty 5 1234567890 77.
Definition handshake : HandshakePacket.t :=
  HandshakePacket.Mk (base HandshakePacket.kPacketType) 4 0 100 1500 64 5 77 42 (replicate 16 7).
Definition ack : AckPacket.t :=
  AckPacket.Mk (base AckPacket.kPacketType) 100 true 1 2 3 4 0xffffffff.
Definition ack_of_ack : AckOfAckPacket.t := AckOfAckPacket.Mk (base AckOfAckPacket.kPacketType).
Definition negative_ack : NegativeAckPacket.t :=
  NegativeAckPacket.Mk (base NegativeAckPacket.kPacketType) [3; 0x80000005; 9].
Definition shutdown : ShutdownPacket.t := ShutdownPacket.Mk (base ShutdownPacket.kPacketType).
Definition data : DataPacket.t :=
  DataPacket.Mk 0x7fffffff true false true 0x1fffffff 0xffffffff 77 [104; 105].

Ltac ranges := repeat constructor; vm_compute; (reflexivity || discriminate).

Lemma decoding_unambiguous_witness :
  accept KAck (wire_bytes ack) = Ok true ∧ KAck = KAck.
Proof.
  split; [reflexivity|]. by apply (decoding_unambiguous KAck KAck (wire_bytes ack)).
Defined.

Lemma data_packet_round_trip_witness :
  DataPacket.Decode (wire_bytes data) DataPacket.new = Ok (true, data).
Proof. apply data_packet_round_trip; [ranges|by vm_compute]. Defined.

Lemma control_packets_round_trip_witness :
  HandshakePacket.Decode (wire_bytes handshake) handshake = Ok (true, handshake) ∧
  (p ← AckPacket.new; AckPacket.Decode (wire_bytes ack) p) = Ok (true, ack) ∧
  AckOfAckPacket.Decode (wire_bytes ack_of_ack) ack_of_ack = Ok (true, ack_of_ack) ∧
  Decode (wire_bytes negative_ack) negative_ack = Ok (true, negative_ack) ∧
  ShutdownPacket.Decode (wire_bytes shutdown) shutdown = Ok (true, shutdown).
Proof.
  apply control_packets_round_trip;
    [ranges|ranges|by intros ?|ranges|ranges|reflexivity|by vm_compute|ranges].
Defined.

(** One lost packet, and a range that wraps around. *)
Lemma negative_ack_reports_exactly_witness :
  ∃ p q, add_entries [Single 7; Range 0x7ffffffe 2] (Mk (ControlPacket.Mk kPacketType 0 0 77) []) = Ok p ∧
    Decode (wire_bytes p) negative_ack = Ok (true, q) ∧
    ContainsSequenceNumber 1 q = Ok true.
Proof.
  apply (negative_ack_reports_exactly [Single 7; Range 0x7ffffffe 2] 77 1 negative_ack);
    [discriminate|by vm_compute|ranges|ranges|ranges].
Defined.

Lemma ack_encode_overruns_witness :
  AckPacket.Encode ack (replicate 24 0) = Fault OutOfBounds.
Proof. apply ack_encode_overruns; [reflexivity|]. by vm_compute. Defined.
End CodecExamples.
