(* ===== verification/Session.v ===== *)
(** * The session: the handshake state machine

    Models src/maidsafe/transport/rudp_session.cc.  A client probes, answers
    the server's cookie challenge and waits for the acceptance; a server
    challenges and accepts.  Each of the two repeats its last message when the
    answer does not come (the client on a tick, the server when it hears the
    client again). *)

From S2P Require Import Prelude Environment Packet ControlPackets Transport SlidingWindow.
From S2P Require Import CongestionControl Shared.
From S2P Require HandshakePacket.

Inductive Mode := kClient | kServer.
Inductive State := kClosed | kProbing | kHandshaking | kConnected.

#[export] Instance Mode_eq_dec : EqDecision Mode.
Proof. solve_decision. Defined.
#[export] Instance State_eq_dec : EqDecision State.
Proof. solve_decision. Defined.

Record Session := MkSession {
  id_ : Z;
  sending_sequence_number_ : Z;
  receiving_sequence_number_ : Z;
  peer_connection_type_ : Z;
  mode_ : Mode;
  state_ : State;
}.

Definition new_session : Session := MkSession 0 0 0 0 kClient kClosed.

Definition set_state (v : State) (s : Session) : Session :=
  MkSession (id_ s) (sending_sequence_number_ s) (receiving_sequence_number_ s)
    (peer_connection_type_ s) (mode_ s) v.
Definition set_receiving_sequence_number (v : Z) (s : Session) : Session :=
  MkSession (id_ s) (sending_sequence_number_ s) v (peer_connection_type_ s) (mode_ s) (state_ s).
Definition set_peer_connection_type (v : Z) (s : Session) : Session :=
  MkSession (id_ s) (sending_sequence_number_ s) (receiving_sequence_number_ s)
    v (mode_ s) (state_ s).

(** [==] on the two enumerations. *)
Definition is_mode (m : Mode) (s : Session) : bool :=
  match mode_ s, m with kClient, kClient | kServer, kServer => true | _, _ => false end.
Definition is_state (t : State) (s : Session) : bool :=
  match state_ s, t with
  | kClosed, kClosed | kProbing, kProbing | kHandshaking, kHandshaking
  | kConnected, kConnected => true
  | _, _ => false
  end.

Definition IsOpen (s : Session) : bool := negb (is_state kClosed s).
Definition IsConnected (s : Session) : bool := is_state kConnected s.
Definition Id (s : Session) : Z := id_ s.
Definition ReceivingSequenceNumber (s : Session) : Z := receiving_sequence_number_ s.
Definition PeerConnectionType (s : Session) : Z := peer_connection_type_ s.
Definition Close (s : Session) : Session := set_state kClosed s.

Section session.
Context `{Environment}.

Definition SendConnectionRequest : M (Session * Shared) unit :=
  s ← self id;
  assertb (is_mode kClient s);;
  peer ← peer_get id;
  packet ← liftR HandshakePacket.new;
  let packet := HandshakePacket.SetRudpVersion 4 packet in
  let packet := HandshakePacket.SetSocketType HandshakePacket.kStreamSocketType packet in
  let packet := HandshakePacket.SetSocketId (id_ s) packet in
  let packet := HandshakePacket.SetIpAddress (ep_address (peer_endpoint peer)) packet in
  let packet := HandshakePacket.SetDestinationSocketId 0 packet in
  let packet := HandshakePacket.SetConnectionType 1 packet in
  shared (Send packet);;
  shared (TickAfter (milliseconds 250)).

Definition SendCookieChallenge : M (Session * Shared) unit :=
  s ← self id;
  assertb (is_mode kServer s);;
  peer ← peer_get id;
  packet ← liftR HandshakePacket.new;
  let packet := HandshakePacket.SetRudpVersion 4 packet in
  let packet := HandshakePacket.SetSocketType HandshakePacket.kStreamSocketType packet in
  let packet := HandshakePacket.SetSocketId (id_ s) packet in
  let packet := HandshakePacket.SetIpAddress (ep_address (peer_endpoint peer)) packet in
  let packet := HandshakePacket.SetDestinationSocketId (peer_id peer) packet in
  let packet := HandshakePacket.SetConnectionType RudpParameters.connection_type packet in
  let packet := HandshakePacket.SetSynCookie 1 packet in
  shared (Send packet);;
  mret tt.

Definition SendCookieResponse : M (Session * Shared) unit :=
  s ← self id;
  assertb (is_mode kClient s);;
  peer ← peer_get id;
  packet ← liftR HandshakePacket.new;
  let packet := HandshakePacket.SetRudpVersion 4 packet in
  let packet := HandshakePacket.SetSocketType HandshakePacket.kStreamSocketType packet in
  let packet :=
    HandshakePacket.SetInitialPacketSequenceNumber (sending_sequence_number_ s) packet in
  let packet := HandshakePacket.SetMaximumPacketSize RudpParameters.max_size packet in
  let packet :=
    HandshakePacket.SetMaximumFlowWindowSize RudpParameters.maximum_window_size packet in
  let packet := HandshakePacket.SetSocketId (id_ s) packet in
  let packet := HandshakePacket.SetIpAddress (ep_address (peer_endpoint peer)) packet in
  let packet := HandshakePacket.SetDestinationSocketId (peer_id peer) packet in
  let packet := HandshakePacket.SetConnectionType RudpParameters.connection_type packet in
  let packet := HandshakePacket.SetSynCookie 1 packet in
  shared (Send packet);;
  shared (TickAfter (milliseconds 250)).

Definition SendConnectionAccepted : M (Session * Shared) unit :=
  s ← self id;
  assertb (is_mode kServer s);;
  peer ← peer_get id;
  packet ← liftR HandshakePacket.new;
  let packet := HandshakePacket.SetRudpVersion 4 packet in
  let packet := HandshakePacket.SetSocketType HandshakePacket.kStreamSocketType packet in
  let packet :=
    HandshakePacket.SetInitialPacketSequenceNumber (sending_sequence_number_ s) packet in
  let packet := HandshakePacket.SetMaximumPacketSize RudpParameters.max_size packet in
  let packet :=
    HandshakePacket.SetMaximumFlowWindowSize RudpParameters.maximum_window_size packet in
  let packet := HandshakePacket.SetSocketId (id_ s) packet in
  let packet := HandshakePacket.SetIpAddress (ep_address (peer_endpoint peer)) packet in
  let packet := HandshakePacket.SetDestinationSocketId (peer_id peer) packet in
  let packet := HandshakePacket.SetConnectionType 0xffffffff packet in
  let packet := HandshakePacket.SetSynCookie 0 packet in
  shared (Send packet);;
  mret tt.

Definition Open (id sequence_number : Z) (mode : Mode) : M (Session * Shared) unit :=
  assertb (negb (id =? 0));;
  upd_self (λ s, MkSession id sequence_number (receiving_sequence_number_ s)
                   (peer_connection_type_ s) mode (state_ s));;
  match mode with
  | kClient => upd_self (set_state kProbing);; SendConnectionRequest
  | kServer => upd_self (set_state kHandshaking);; SendCookieChallenge
  end.

Definition HandleHandshake (packet : HandshakePacket.t) : M (Session * Shared) unit :=
  pid ← peer_get peer_id;
  when (pid =? 0) (shared (upd_peer (peer_SetId (HandshakePacket.SocketId packet))));;
  s ← self id;
  if is_mode kClient s then
    when (is_state kProbing s || is_state kHandshaking s) (
      upd_self (set_state kHandshaking);;
      if HandshakePacket.ConnectionType packet =? 0xffffffff then
        upd_self (set_state kConnected);;
        upd_self (set_receiving_sequence_number
                    (HandshakePacket.InitialPacketSequenceNumber packet))
      else
        upd_self (set_peer_connection_type (HandshakePacket.ConnectionType packet));;
        SendCookieResponse)
  else if is_state kConnected s then SendConnectionAccepted
  else if HandshakePacket.SynCookie packet =? 1 then
    upd_self (set_state kConnected);;
    upd_self (set_peer_connection_type (HandshakePacket.ConnectionType packet));;
    upd_self (set_receiving_sequence_number
                (HandshakePacket.InitialPacketSequenceNumber packet));;
    SendConnectionAccepted
  else SendCookieChallenge.

Definition HandleTick : M (Session * Shared) unit :=
  s ← self id;
  when (is_mode kClient s) (
    if is_state kProbing s then SendConnectionRequest
    else when (is_state kHandshaking s) SendCookieResponse).

(** ** The messages *)

Definition message (initial max_packet max_flow connection_type sid cookie dest : Z)
    (address : ip_address) : HandshakePacket.t :=
  HandshakePacket.Mk (ControlPacket.Mk HandshakePacket.kPacketType 0 0 dest)
    4 HandshakePacket.kStreamSocketType initial max_packet max_flow connection_type sid cookie
    (if ip_is_v4 address then ip_v4_compatible_bytes address else ip_v6_bytes address).

Definition connection_request (s : Session) (p : Peer) : HandshakePacket.t :=
  message 0 0 0 1 (id_ s) 0 0 (ep_address (peer_endpoint p)).
Definition cookie_challenge (s : Session) (p : Peer) : HandshakePacket.t :=
  message 0 0 0 RudpParameters.connection_type (id_ s) 1 (peer_id p)
    (ep_address (peer_endpoint p)).
Definition cookie_response (s : Session) (p : Peer) : HandshakePacket.t :=
  message (sending_sequence_number_ s) RudpParameters.max_size
    RudpParameters.maximum_window_size RudpParameters.connection_type (id_ s) 1 (peer_id p)
    (ep_address (peer_endpoint p)).
Definition connection_accepted (s : Session) (p : Peer) : HandshakePacket.t :=
  message (sending_sequence_number_ s) RudpParameters.max_size
    RudpParameters.maximum_window_size 0xffffffff (id_ s) 0 (peer_id p)
    (ep_address (peer_endpoint p)).

(** What a session needs to build messages: fields in range. *)
Definition session_ok (s : Session) (p : Peer) : Prop :=
  is_u32 (id_ s) ∧ is_u32 (sending_sequence_number_ s) ∧ is_u32 (peer_id p).

Lemma message_wf `{!IpAddressLaws} initial mp mf ct sid cookie dest address :
  is_u32 initial → is_u32 mp → is_u32 mf → is_u32 ct → is_u32 sid → is_u32 cookie →
  is_u32 dest → HandshakePacket.wf (message initial mp mf ct sid cookie dest address).
Proof.
  intros. destruct (ip_v4_compatible_ok address), (ip_v6_ok address).
  unfold HandshakePacket.wf, ControlPacket.wf, message. simpl.
  split_and!; try done; by destruct (ip_is_v4 address).
Qed.

Context `{!IpAddressLaws}.

Lemma messages_wf s p :
  session_ok s p →
  HandshakePacket.wf (connection_request s p) ∧ HandshakePacket.wf (cookie_challenge s p) ∧
  HandshakePacket.wf (cookie_response s p) ∧ HandshakePacket.wf (connection_accepted s p).
Proof. intros (?&?&?). split_and!; by apply message_wf. Qed.

Lemma wp_SendConnectionRequest s sh (Q : unit → Session * Shared → Prop) :
  session_ok s (sh_peer sh) → mode_ s = kClient →
  Q tt (s, after_tick (milliseconds 250)
          (after_send (wire_bytes (connection_request s (sh_peer sh))) sh)) →
  wp SendConnectionRequest (s, sh) Q.
Proof.
  intros Hok Hm HQ. destruct (messages_wf s _ Hok) as (?&_&_&_).
  unfold SendConnectionRequest. sh_steps. apply wp_assertb; [by unfold is_mode, id; rewrite Hm|].
  sh_steps. eapply wp_liftR; [reflexivity|]. cbv zeta. sh_steps.
  eapply wp_Send; [done|by apply handshake_fits|]. sh_steps. exact HQ.
Qed.

Lemma wp_SendCookieChallenge s sh (Q : unit → Session * Shared → Prop) :
  session_ok s (sh_peer sh) → mode_ s = kServer →
  Q tt (s, after_send (wire_bytes (cookie_challenge s (sh_peer sh))) sh) →
  wp SendCookieChallenge (s, sh) Q.
Proof.
  intros Hok Hm HQ. destruct (messages_wf s _ Hok) as (_&?&_&_).
  unfold SendCookieChallenge. sh_steps. apply wp_assertb; [by unfold is_mode, id; rewrite Hm|].
  sh_steps. eapply wp_liftR; [reflexivity|]. cbv zeta. sh_steps.
  eapply wp_Send; [done|by apply handshake_fits|]. sh_steps. exact HQ.
Qed.

Lemma wp_SendCookieResponse s sh (Q : unit → Session * Shared → Prop) :
  session_ok s (sh_peer sh) → mode_ s = kClient →
  Q tt (s, after_tick (milliseconds 250)
          (after_send (wire_bytes (cookie_response s (sh_peer sh))) sh)) →
  wp SendCookieResponse (s, sh) Q.
Proof.
  intros Hok Hm HQ. destruct (messages_wf s _ Hok) as (_&_&?&_).
  unfold SendCookieResponse. sh_steps. apply wp_assertb; [by unfold is_mode, id; rewrite Hm|].
  sh_steps. eapply wp_liftR; [reflexivity|]. cbv zeta. sh_steps.
  eapply wp_Send; [done|by apply handshake_fits|]. sh_steps. exact HQ.
Qed.

Lemma wp_SendConnectionAccepted s sh (Q : unit → Session * Shared → Prop) :
  session_ok s (sh_peer sh) → mode_ s = kServer →
  Q tt (s, after_send (wire_bytes (connection_accepted s (sh_peer sh))) sh) →
  wp SendConnectionAccepted (s, sh) Q.
Proof.
  intros Hok Hm HQ. destruct (messages_wf s _ Hok) as (_&_&_&?).
  unfold SendConnectionAccepted. sh_steps. apply wp_assertb; [by unfold is_mode, id; rewrite Hm|].
  sh_steps. eapply wp_liftR; [reflexivity|]. cbv zeta. sh_steps.
  eapply wp_Send; [done|by apply handshake_fits|]. sh_steps. exact HQ.
Qed.

(** ** Any sequence of packets, ticks and closing *)

Inductive session_event :=
  | EvHandshake (packet : HandshakePacket.t)
  | EvTick
  | EvClose.

(** What decoding guarantees of a packet. *)
Definition event_ok (e : session_event) : Prop :=
  match e with EvHandshake packet => is_u32 (HandshakePacket.SocketId packet) | _ => True end.

Definition session_step (e : session_event) : M (Session * Shared) unit :=
  match e with
  | EvHandshake packet => HandleHandshake packet
  | EvTick => HandleTick
  | EvClose => upd_self Close
  end.

Fixpoint session_run (es : list session_event) : M (Session * Shared) unit :=
  match es with [] => mret tt | e :: es => session_step e;; session_run es end.

(** The edges of the state diagram, for a client and for a server. *)
Definition edge (m : Mode) (a b : State) : bool :=
  match m, a, b with
  | kClient, kProbing, (kProbing | kHandshaking | kConnected)
  | kClient, kHandshaking, (kHandshaking | kConnected)
  | kServer, kClosed, (kHandshaking | kConnected | kClosed)
  | kServer, kHandshaking, (kHandshaking | kConnected)
  | kClient, kClosed, kClosed
  | _, kConnected, kConnected => true
  | _, _, _ => false
  end.

(** One packet or tick keeps the mode, the identifier and the sending number,
    follows the diagram, and keeps what was negotiated once connected. *)
Definition follows (s s' : Session) : Prop :=
  mode_ s' = mode_ s ∧ id_ s' = id_ s ∧
  sending_sequence_number_ s' = sending_sequence_number_ s ∧
  edge (mode_ s) (state_ s) (state_ s') = true ∧
  (state_ s = kConnected →
     receiving_sequence_number_ s' = receiving_sequence_number_ s ∧
     peer_connection_type_ s' = peer_connection_type_ s).

Definition session_inv (s : Session) (p : Peer) : Prop :=
  session_ok s p ∧ (mode_ s = kServer → state_ s ≠ kProbing).

Ltac session_send Hok :=
  lazymatch goal with
  | |- wp SendConnectionRequest _ _ =>
      apply wp_SendConnectionRequest; [exact Hok|reflexivity|]
  | |- wp SendCookieChallenge _ _ => apply wp_SendCookieChallenge; [exact Hok|reflexivity|]
  | |- wp SendCookieResponse _ _ => apply wp_SendCookieResponse; [exact Hok|reflexivity|]
  | |- wp SendConnectionAccepted _ _ =>
      apply wp_SendConnectionAccepted; [exact Hok|reflexivity|]
  | |- _ => idtac
  end.
(** What else a packet does: the congestion control is left alone, and a
    session that gets connected takes its receiving number from the packet. *)
Definition handled (packet : HandshakePacket.t) (s : Session) (sh : Shared)
    (st : Session * Shared) : Prop :=
  sh_cc st.2 = sh_cc sh ∧
  (state_ st.1 = kConnected → state_ s = kConnected ∨
     receiving_sequence_number_ st.1 = HandshakePacket.InitialPacketSequenceNumber packet).

Ltac session_cbn :=
  cbn [fst snd mode_ id_ sending_sequence_number_ state_ set_state
      set_peer_connection_type set_receiving_sequence_number edge
      receiving_sequence_number_ peer_connection_type_].
Ltac session_done Hok :=
  split; [split; [exact Hok|by intros]|];
  split; [unfold follows; session_cbn; split_and!; [reflexivity..|by intros]|].

Lemma wp_HandleHandshake s sh packet :
  session_inv s (sh_peer sh) → is_u32 (HandshakePacket.SocketId packet) →
  wp (HandleHandshake packet) (s, sh)
    (λ _ s', session_inv s'.1 (sh_peer s'.2) ∧ follows s s'.1 ∧ handled packet s sh s').
Proof.
  intros [Hok Hmode] Hid. unfold HandleHandshake. wp_steps. apply wp_peer_get. cbn [fst snd].
  apply wp_bind.
  eapply (wp_mono _ _ (λ _ s', s'.1 = s ∧ session_ok s (sh_peer s'.2) ∧ sh_cc s'.2 = sh_cc sh)).
  { wp_step; sh_steps; [|done]. split; [done|].
    destruct Hok as (?&?&?). by split_and!. }
  intros _ [s0 sh1] (E&Hok1&Ecc). cbn [fst snd] in E, Hok1, Ecc. subst s0.
  apply wp_bind, wp_self. cbn [fst]. unfold id.
  destruct s as [i sq rq ct [] []];
    (cbn [is_mode is_state mode_ state_ orb when]; try by destruct (Hmode eq_refl)); sh_steps;
    session_send Hok1; session_done Hok1; (split; [exact Ecc|session_cbn; intros ?]);
    first [by left|by right|congruence].
Qed.

Lemma wp_session_step e s sh :
  session_inv s (sh_peer sh) → event_ok e → EvClose ≠ e →
  wp (session_step e) (s, sh)
    (λ _ s', session_inv s'.1 (sh_peer s'.2) ∧ follows s s'.1 ∧ sh_cc s'.2 = sh_cc sh).
Proof.
  intros Hinv He Hne. destruct e as [packet| |]; cbn [session_step].
  - eapply wp_mono; [by apply wp_HandleHandshake|]. by intros [] st (?&?&?&_).
  - destruct Hinv as [Hok Hmode]. unfold HandleTick. apply wp_bind, wp_self. cbn [fst]. unfold id.
    destruct s as [i sq rq ct [] []];
      (cbn [is_mode is_state mode_ state_ orb when]; try by destruct (Hmode eq_refl)); sh_steps;
      session_send Hok; session_done Hok; reflexivity.
  - by destruct Hne.
Qed.

Lemma wp_session_run_connected es s sh :
  session_inv s (sh_peer sh) → Forall event_ok es → EvClose ∉ es → state_ s = kConnected →
  wp (session_run es) (s, sh) (λ _ s', state_ s'.1 = kConnected ∧
    receiving_sequence_number_ s'.1 = receiving_sequence_number_ s ∧
    peer_connection_type_ s'.1 = peer_connection_type_ s).
Proof.
  intros Hinv Hes. revert s sh Hinv. induction Hes as [|e es He _ IH]; intros s sh Hinv Hnc Hs.
  { by apply wp_ret. }
  apply not_elem_of_cons in Hnc as [Hne Hnc]. cbn [session_run]. apply wp_bind.
  eapply wp_mono; [by apply wp_session_step|].
  intros _ [s1 sh1] (Hinv1&(_&_&_&Hedge&Hkeep)&_). cbn [fst snd] in *.
  destruct (Hkeep Hs) as [<- <-]. apply IH; try done.
  rewrite Hs in Hedge. by destruct (mode_ s), (state_ s1).
Qed.

Lemma wp_session_run es s sh :
  session_inv s (sh_peer sh) → Forall event_ok es →
  wp (session_run es) (s, sh) (λ _ s', session_inv s'.1 (sh_peer s'.2) ∧
    mode_ s'.1 = mode_ s ∧ id_ s'.1 = id_ s ∧
    sending_sequence_number_ s'.1 = sending_sequence_number_ s).
Proof.
  intros Hinv Hes. revert s sh Hinv. induction Hes as [|e es He _ IH]; intros s sh Hinv.
  { by apply wp_ret. }
  cbn [session_run]. apply wp_bind. 
  assert (e = EvClose ∨ EvClose ≠ e) as [->|Hne] by (destruct e; by (right + left)).
  - apply wp_upd_self. destruct Hinv as [Hok Hmode]. by apply (IH (Close s) sh).
  - eapply wp_mono; [by apply wp_session_step|].
    intros _ [s1 sh1] (Hinv1&(<-&<-&<-&_)&_). cbn [fst snd] in *. by apply IH.
Qed.

Lemma wp_Open id n m s sh (Q : unit → Session * Shared → Prop) :
  id ≠ 0 → is_u32 id → is_u32 n → is_u32 (peer_id (sh_peer sh)) →
  (let s' := MkSession id n (receiving_sequence_number_ s) (peer_connection_type_ s) m
               (match m with kClient => kProbing | kServer => kHandshaking end) in
   Q tt (s', match m with
             | kClient => after_tick (milliseconds 250)
                 (after_send (wire_bytes (connection_request s' (sh_peer sh))) sh)
             | kServer => after_send (wire_bytes (cookie_challenge s' (sh_peer sh))) sh
             end)) →
  wp (Open id n m) (s, sh) Q.
Proof.
  intros Hid0 Hid Hn Hp HQ. unfold Open. apply wp_bind, wp_assertb; [lia|].
  apply wp_bind, wp_upd_self. cbn [fst snd].
  destruct m; apply wp_bind, wp_upd_self; cbn [fst snd].
  - by apply wp_SendConnectionRequest.
  - by apply wp_SendCookieChallenge.
Qed.

(** Once opened, a session is safe whatever arrives: for any sequence of
    handshake packets, ticks and closings no assertion fails (in particular
    none of the four send helpers is ever called in the wrong mode), and
    mode, identifier and initial sending number never change. *)
Theorem session_never_faults (id n : Z) (m : Mode) (sh : Shared)
    (es : list session_event) :
  id ≠ 0 → is_u32 id → is_u32 n → is_u32 (peer_id (sh_peer sh)) →
  Forall event_ok es →
  ∃ s' sh', (Open id n m;; session_run es) (new_session, sh) = Ok (tt, (s', sh')) ∧
    mode_ s' = m ∧ Id s' = id ∧ sending_sequence_number_ s' = n.
Proof.
  intros Hid0 Hid Hn Hp Hes.
  assert (wp (Open id n m;; session_run es) (new_session, sh)
    (λ _ s', mode_ s'.1 = m ∧ id_ s'.1 = id ∧ sending_sequence_number_ s'.1 = n)) as Hw.
  { apply wp_bind, wp_Open; try done. cbv zeta.
    eapply wp_mono; [apply wp_session_run; [|done]|]; [|by intros ?? (_&?)].
    by destruct m; split. }
  apply wp_Ok in Hw as ([]&[s' sh']&E&?). by exists s', sh'.
Qed.

(** What was negotiated stays: after a session is connected, no sequence
    of further handshake packets (duplicates, replays, forgeries) and ticks
    disconnects it or changes the sequence number it expects or the peer's
    connection type. *)
Theorem session_connected_stable (es : list session_event) (s : Session) (sh : Shared) :
  session_ok s (sh_peer sh) → IsConnected s = true →
  Forall event_ok es → EvClose ∉ es →
  ∃ s' sh', session_run es (s, sh) = Ok (tt, (s', sh')) ∧
    IsConnected s' = true ∧
    ReceivingSequenceNumber s' = ReceivingSequenceNumber s ∧
    PeerConnectionType s' = PeerConnectionType s.
Proof.
  intros Hok Hc Hes Hn.
  assert (state_ s = kConnected) as Hs.
  { unfold IsConnected, is_state in Hc. by destruct (state_ s). }
  assert (session_inv s (sh_peer sh)) as Hinv by (split; [done|by rewrite Hs]).
  pose proof (wp_session_run_connected es s sh Hinv Hes Hn Hs) as Hw.
  apply wp_Ok in Hw as ([]&[s' sh']&E&Hs'&?&?). exists s', sh'. cbn [fst] in *.
  split; [done|]. split; [|done]. unfold IsConnected, is_state. by rewrite Hs'.
Qed.

(** ** Two parties *)

(** The handshake packet in the datagram last sent. *)
Definition last_message (sh : Shared) : Res HandshakePacket.t :=
  match w_sent (sh_world sh) with
  | [] => Fault OutOfBounds
  | dg :: _ =>
      p ← HandshakePacket.new;
      r ← HandshakePacket.Decode (dg_bytes dg) p;
      if r.1 : bool then Ok r.2 else Fault AssertionFailed
  end.

(** Deliver the last message of [from] to [to]. *)
Definition deliver (from to : Session * Shared) : Res (Session * Shared) :=
  p ← last_message from.2; r ← HandleHandshake p to; Ok r.2.

Lemma last_message_sent packet sh :
  HandshakePacket.wf packet → last_message (after_send (wire_bytes packet) sh) = Ok packet.
Proof.
  intros Hwf. unfold last_message. cbn [after_send with_world sh_world w_sent sent_from dg_bytes].
  change HandshakePacket.new with (Ok (HandshakePacket.Mk
    (ControlPacket.Mk HandshakePacket.kPacketType 0 0 0) 0 0 0 0 0 0 0 0 (replicate 16 0))).
  rewrite Res_bind_ok. unfold wire_bytes. cbn [wire_size wire_put handshake_wire].
  rewrite HandshakePacket.handshake_Decode_put, Res_bind_ok; [done|done|].
  unfold buffer_size, send_buffer. rewrite length_replicate. unfold RudpParameters.max_size. lia.
Qed.

(** The client's answer (or its repetition on a tick) reaches the server, the
    acceptance it draws is lost; [k] times over. *)
Fixpoint lost_acceptances (k : nat) (c v : Session * Shared) :
    Res ((Session * Shared) * (Session * Shared)) :=
  match k with
  | O => Ok (c, v)
  | S k' =>
      v ← deliver c v;
      c ← (r ← HandleTick c; Ok r.2);
      lost_acceptances k' c v
  end.

(** A client with identifier [idc] and initial number [seqc] opens a session
    towards a server's; the server's identifier and number are [ids] and
    [seqs].  The server's challenge arrives, then [k] acceptances are lost,
    and the last one arrives. *)
Definition exchange (idc seqc ids seqs : Z) (k : nat) (shc shv : Shared) :
    Res ((Session * Shared) * (Session * Shared)) :=
  c ← (r ← Open idc seqc kClient (new_session, shc); Ok r.2);
  v ← (r ← Open ids seqs kServer (new_session, shv); Ok r.2);
  c ← deliver v c;
  r ← lost_acceptances k c v;
  v ← deliver r.1 r.2;
  c ← deliver v r.1;
  Ok (c, v).

Lemma wp_res (m : M (Session * Shared) unit) s (Q : Session * Shared → Prop) :
  wp m s (λ _ s', Q s') → ∃ s', (r ← m s; Ok r.2) = Ok s' ∧ Q s'.
Proof. intros Hw. apply wp_Ok in Hw as ([]&s'&E&HQ). exists s'. by rewrite E. Qed.

Lemma last_message_after_tick d sh : last_message (after_tick d sh) = last_message sh.
Proof. done. Qed.

(** A client that was challenged and waits for the acceptance. *)
Definition waiting (idc seqc ids : Z) (c : Session * Shared) : Prop :=
  ∃ rn, c.1 = MkSession idc seqc rn RudpParameters.kWireless kClient kHandshaking ∧
    peer_id (sh_peer c.2) = ids ∧
    last_message c.2 = Ok (cookie_response c.1 (sh_peer c.2)).

(** A server that may or may not have been answered. *)
Definition serving (idc ids seqs : Z) (v : Session * Shared) : Prop :=
  mode_ v.1 = kServer ∧ id_ v.1 = ids ∧ sending_sequence_number_ v.1 = seqs ∧
  peer_id (sh_peer v.2) = idc.

(** A server that was answered. *)
Definition accepted (idc seqc ids seqs : Z) (v : Session * Shared) : Prop :=
  serving idc ids seqs v ∧ state_ v.1 = kConnected ∧
  receiving_sequence_number_ v.1 = seqc ∧ peer_connection_type_ v.1 = RudpParameters.kWireless.

Section parties.
Context (idc seqc ids seqs : Z).
Hypothesis Hidc : idc ≠ 0 ∧ is_u32 idc.
Hypothesis Hids : ids ≠ 0 ∧ is_u32 ids.
Hypothesis Hseqc : is_u32 seqc.
Hypothesis Hseqs : is_u32 seqs.

Lemma deliver_response c v :
  waiting idc seqc ids c → serving idc ids seqs v →
  (state_ v.1 ≠ kConnected ∨ accepted idc seqc ids seqs v) →
  ∃ v', deliver c v = Ok v' ∧ accepted idc seqc ids seqs v' ∧
    last_message v'.2 = Ok (connection_accepted v'.1 (sh_peer v'.2)).
Proof.
  destruct c as [cs csh], v as [vs vsh]. cbn [fst snd].
  intros (rn&E&Hp&Hm) (Hmode&Hid&Hseq&Hpv) Hst. cbn [fst snd] in *. subst cs.
  unfold deliver. cbn [snd]. rewrite Hm, Res_bind_ok. apply wp_res.
  unfold HandleHandshake. apply wp_bind, wp_peer_get. cbn [fst snd]. rewrite Hpv.
  rewrite (proj2 (Z.eqb_neq idc 0)) by tauto. apply wp_bind, wp_ret.
  apply wp_bind, wp_self. unfold id. cbn [fst]. unfold is_mode. rewrite Hmode.
  assert (∀ s, id_ s = ids → sending_sequence_number_ s = seqs → session_ok s (sh_peer vsh))
    as Hok by (intros s E1 E2; unfold session_ok; rewrite E1, E2, Hpv; by destruct Hidc, Hids).
  destruct (is_state kConnected vs) eqn:Es.
  - apply wp_SendConnectionAccepted; [by apply Hok|done|]. cbn [fst snd].
    destruct Hst as [Hst|Hst].
    { unfold is_state in Es. by destruct (state_ vs). }
    split; [exact Hst|]. apply last_message_sent, messages_wf. by apply Hok.
  - change (HandshakePacket.SynCookie _ =? 1) with true. cbn [fst snd].
    do 3 (apply wp_bind, wp_upd_self; cbn [fst snd]).
    apply wp_SendConnectionAccepted; [by apply Hok|done|]. cbn [fst snd].
    split; [by unfold accepted, serving|]. apply last_message_sent, messages_wf. by apply Hok.
Qed.

Lemma tick_waiting c :
  waiting idc seqc ids c →
  ∃ c', (r ← HandleTick c; Ok r.2) = Ok c' ∧ waiting idc seqc ids c'.
Proof.
  destruct c as [cs csh]. intros (rn&E&Hp&Hm). cbn [fst snd] in *. subst cs. apply wp_res.
  unfold HandleTick. apply wp_bind, wp_self. unfold id.
  cbn [fst is_mode is_state mode_ state_ when].
  assert (session_ok (MkSession idc seqc rn RudpParameters.kWireless kClient kHandshaking)
    (sh_peer csh)) as Hok by (unfold session_ok; cbn; rewrite Hp; by destruct Hidc, Hids).
  apply wp_SendCookieResponse; [done|done|].
  exists rn. cbn [fst snd]. split_and!; [done|done|].
  rewrite last_message_after_tick. by apply last_message_sent, messages_wf.
Qed.

Lemma lost_acceptances_ok k c v :
  waiting idc seqc ids c → serving idc ids seqs v →
  (state_ v.1 ≠ kConnected ∨ accepted idc seqc ids seqs v) →
  ∃ c' v', lost_acceptances k c v = Ok (c', v') ∧
    waiting idc seqc ids c' ∧ serving idc ids seqs v' ∧
    (state_ v'.1 ≠ kConnected ∨ accepted idc seqc ids seqs v').
Proof.
  revert c v. induction k as [|k IH]; intros c v Hc Hv Hst; cbn [lost_acceptances].
  { by exists c, v. }
  destruct (deliver_response c v Hc Hv Hst) as (v1&->&Hv1&_). rewrite Res_bind_ok.
  destruct (tick_waiting c Hc) as (c1&->&Hc1). rewrite Res_bind_ok.
  apply IH; [done|by destruct Hv1|by right].
Qed.

Lemma deliver_challenge c v :
  (∃ rn ct, c.1 = MkSession idc seqc rn ct kClient kProbing) → peer_id (sh_peer c.2) = 0 →
  serving idc ids seqs v → last_message v.2 = Ok (cookie_challenge v.1 (sh_peer v.2)) →
  ∃ c', deliver v c = Ok c' ∧ waiting idc seqc ids c'.
Proof.
  destruct c as [cs csh], v as [vs vsh]. cbn [fst snd].
  intros (rn&ct&->) Hp (_&Hid&_) Hm. cbn [fst snd] in *.
  unfold deliver. cbn [snd]. rewrite Hm, Res_bind_ok. apply wp_res.
  unfold HandleHandshake. apply wp_bind, wp_peer_get. cbn [fst snd]. rewrite Hp.
  cbn [Z.eqb when]. apply wp_bind, wp_shared, wp_upd_peer. cbn [fst snd].
  apply wp_bind, wp_self. unfold id. cbn [fst is_mode is_state mode_ state_ when orb].
  apply wp_bind, wp_upd_self. cbn [fst snd].
  change (HandshakePacket.ConnectionType _ =? 0xffffffff) with false. cbn [fst snd].
  apply wp_bind, wp_upd_self. cbn [fst snd].
  assert (∀ s sh, id_ s = idc → sending_sequence_number_ s = seqc → peer_id sh = ids →
    session_ok s sh) as Hok
    by (intros s sh E1 E2 E3; unfold session_ok; rewrite E1, E2, E3; by destruct Hidc, Hids).
  apply wp_SendCookieResponse; [by apply Hok|done|].
  exists rn. cbn [fst snd]. split_and!; [done|done|].
  rewrite last_message_after_tick. by apply last_message_sent, messages_wf, Hok.
Qed.

Lemma deliver_acceptance c v :
  waiting idc seqc ids c → accepted idc seqc ids seqs v →
  last_message v.2 = Ok (connection_accepted v.1 (sh_peer v.2)) →
  ∃ c', deliver v c = Ok c' ∧ state_ c'.1 = kConnected ∧ id_ c'.1 = idc ∧
    receiving_sequence_number_ c'.1 = seqs ∧ peer_id (sh_peer c'.2) = ids ∧
    peer_connection_type_ c'.1 = RudpParameters.kWireless.
Proof.
  destruct c as [cs csh], v as [vs vsh]. cbn [fst snd].
  intros (rn&E&Hp&_) ((_&_&Hseq&_)&_) Hm. cbn [fst snd] in *. subst cs.
  unfold deliver. cbn [snd]. rewrite Hm, Res_bind_ok. apply wp_res.
  unfold HandleHandshake. apply wp_bind, wp_peer_get. cbn [fst snd]. rewrite Hp.
  rewrite (proj2 (Z.eqb_neq ids 0)) by tauto. apply wp_bind, wp_ret.
  apply wp_bind, wp_self. unfold id. cbn [fst is_mode is_state mode_ state_ when orb].
  apply wp_bind, wp_upd_self. cbn [fst snd].
  change (HandshakePacket.ConnectionType _ =? 0xffffffff) with true. cbn [fst snd].
  apply wp_bind, wp_upd_self. cbn [fst snd]. apply wp_upd_self. by split_and!.
Qed.
End parties.

(** C7: The handshake completes: a client that opens towards a listening
    server gets connected however many of the server's acceptances are lost
    (each of the client's ticks repeats its answer, and a connected server
    accepts again), and then both sides are connected, each expects the
    other's initial sequence number, and each addresses the other by its
    socket identifier. *)
Theorem handshake_completes (idc seqc ids seqs : Z) (k : nat) (shc shv : Shared) :
  idc ≠ 0 ∧ is_u32 idc → ids ≠ 0 ∧ is_u32 ids → is_u32 seqc → is_u32 seqs →
  peer_id (sh_peer shc) = 0 → peer_id (sh_peer shv) = idc →
  ∃ c v, exchange idc seqc ids seqs k shc shv = Ok (c, v) ∧
    IsConnected c.1 = true ∧ IsConnected v.1 = true ∧
    ReceivingSequenceNumber c.1 = seqs ∧ ReceivingSequenceNumber v.1 = seqc ∧
    peer_id (sh_peer c.2) = Id v.1 ∧ peer_id (sh_peer v.2) = Id c.1 ∧
    PeerConnectionType c.1 = RudpParameters.kWireless ∧
    PeerConnectionType v.1 = RudpParameters.kWireless.
Proof.
  intros Hidc Hids Hseqc Hseqs Hpc Hpv. unfold exchange.
  destruct (wp_res (Open idc seqc kClient) (new_session, shc) (λ c,
    (∃ rn ct, c.1 = MkSession idc seqc rn ct kClient kProbing) ∧ peer_id (sh_peer c.2) = 0))
    as (c1&->&Hc1&Hp1).
  { apply wp_Open; try tauto; [by rewrite Hpc|]. by split; [eexists _, _|]. }
  rewrite Res_bind_ok.
  destruct (wp_res (Open ids seqs kServer) (new_session, shv) (λ v,
    serving idc ids seqs v ∧ state_ v.1 = kHandshaking ∧
    last_message v.2 = Ok (cookie_challenge v.1 (sh_peer v.2)))) as (v1&->&Hv1&Hs1&Hm1).
  { apply wp_Open; try tauto; [by rewrite Hpv; tauto|]. cbv zeta. split; [by split_and!|].
    split; [done|]. apply last_message_sent, messages_wf.
    unfold session_ok. cbn. rewrite Hpv. by destruct Hidc, Hids. }
  rewrite Res_bind_ok.
  destruct (deliver_challenge idc seqc ids seqs Hidc Hids Hseqc c1 v1) as (c2&->&Hc2);
    [done..|]. rewrite Res_bind_ok.
  destruct (lost_acceptances_ok idc seqc ids seqs Hidc Hids Hseqc Hseqs k c2 v1)
    as (c3&v3&->&Hc3&Hv3&Hst3); [done|done|left; by rewrite Hs1|].
  rewrite Res_bind_ok. cbn [fst snd].
  destruct (deliver_response idc seqc ids seqs Hidc Hids Hseqs c3 v3)
    as (v4&->&Hv4&Hm4); [done..|]. rewrite Res_bind_ok.
  destruct (deliver_acceptance idc seqc ids seqs Hidc Hids c3 v4)
    as (c5&E5&Hs5&Hi5&Hr5&Hp5&Ht5);
    [done..|].
  rewrite E5, Res_bind_ok. exists c5, v4.
  destruct Hv4 as ((_&Hi4&_&Hp4)&Hs4&Hr4&Ht4).
  unfold IsConnected, is_state, ReceivingSequenceNumber, PeerConnectionType, Id.
  rewrite Hs5, Hs4, Hi4, Hi5. by split_and!.
Qed.
End session.

(** ** Examples *)
Module SessionExamples.
Import Demo.

Definition noise : list session_event :=
  [EvTick; EvHandshake (message 7 0 0 0xffffffff 9 1 0 (address 1)); EvTick; EvClose;
   EvHandshake (message 8 0 0 5 9 0 0 (address 2))].

Lemma session_never_faults_witness :
  ∃ s' sh', (Open 3 77 kClient;; session_run noise) (new_session, shared_at 1 0) =
    Ok (tt, (s', sh')) ∧ mode_ s' = kClient ∧ Id s' = 3 ∧ sending_sequence_number_ s' = 77.
Proof.
  apply (session_never_faults 3 77 kClient (shared_at 1 0) noise);
    [done|by vm_compute..|].
  unfold noise. repeat constructor; by vm_compute.
Defined.

Definition established : Session := MkSession 3 77 7 5 kServer kConnected.

Lemma session_connected_stable_witness :
  ∃ s' sh', session_run [EvTick; EvHandshake (message 8 0 0 5 9 1 0 (address 2))]
      (established, shared_at 1 9) = Ok (tt, (s', sh')) ∧
    IsConnected s' = true ∧ ReceivingSequenceNumber s' = 7 ∧ PeerConnectionType s' = 5.
Proof.
  apply (session_connected_stable _ established (shared_at 1 9)).
  - by vm_compute.
  - done.
  - repeat constructor; by vm_compute.
  - rewrite !elem_of_cons, elem_of_nil. intros [|[|[]]]; discriminate.
Defined.

Lemma handshake_completes_witness :
  ∃ c v, exchange 3 77 4 88 2 (shared_at 2 0) (shared_at 1 3) = Ok (c, v) ∧
    IsConnected c.1 = true ∧ IsConnected v.1 = true ∧
    ReceivingSequenceNumber c.1 = 88 ∧ ReceivingSequenceNumber v.1 = 77 ∧
    peer_id (sh_peer c.2) = Id v.1 ∧ peer_id (sh_peer v.2) = Id c.1 ∧
    PeerConnectionType c.1 = RudpParameters.kWireless ∧
    PeerConnectionType v.1 = RudpParameters.kWireless.
Proof.
  apply (handshake_completes 3 77 4 88 2 (shared_at 2 0) (shared_at 1 3)); by vm_compute.
Defined.
End SessionExamples.
