(* ===== verification/Sender.v ===== *)
(** * The sender

    Models src/maidsafe/transport/rudp_sender.cc: the window of packets that
    were accepted from the application and not yet acknowledged.  [AddData]
    cuts the application's bytes into packets, [HandleAck] drops the
    acknowledged ones, [HandleNegativeAck] and [HandleTick] mark packets as
    lost, and [DoSend] sends the first lost one. *)

From S2P Require Import Prelude Environment Packet ControlPackets Transport SlidingWindow.
From S2P Require Import CongestionControl Shared.
From S2P Require DataPacket NegativeAckPacket.

Record UnackedPacket `{Environment} := MkUnacked {
  packet : DataPacket.t;
  lost : bool;
  last_send_time : ptime;
}.
Arguments MkUnacked {_}.

Record Sender `{Environment} := MkSender {
  unacked_packets_ : Window UnackedPacket;
  send_timeout_ : ptime;
}.
Arguments MkSender {_}.

Section sender.
Context `{Environment}.

Definition new_unacked : UnackedPacket := MkUnacked DataPacket.new false not_a_date_time.

(** The window starts at a random sequence number. *)
Definition new_sender (fuel : nat) : M World Sender :=
  w ← default_window fuel;
  mret (MkSender w not_a_date_time).

Definition set_window (w : Window UnackedPacket) (s : Sender) : Sender :=
  MkSender w (send_timeout_ s).
Definition set_send_timeout (t : ptime) (s : Sender) : Sender :=
  MkSender (unacked_packets_ s) t.

(** [unacked_packets_[n]] read, and assigned through a reference. *)
Definition unacked (n : Z) : M (Sender * Shared) UnackedPacket :=
  w ← self unacked_packets_; liftR (at_ n w).
Definition upd_unacked (n : Z) (f : UnackedPacket → UnackedPacket) : M (Sender * Shared) unit :=
  w ← self unacked_packets_;
  w ← liftR (update n f w);
  upd_self (set_window w).

Definition mark_lost (p : UnackedPacket) : UnackedPacket :=
  MkUnacked (packet p) true (last_send_time p).
Definition mark_sent (t : ptime) (p : UnackedPacket) : UnackedPacket :=
  MkUnacked (packet p) false t.

Definition GetNextPacketSequenceNumber (s : Sender) : Z := End (unacked_packets_ s).
Definition Flushed (s : Sender) : bool := IsEmpty (unacked_packets_ s).

Definition DoSend : M (Sender * Shared) unit :=
  now ← shared now;
  ret ← for_each (λ s, unacked_packets_ s.1) (λ n,
    p ← unacked n;
    if lost p then
      c ← shared (Send (packet p));
      if bool_decide (c = kSuccess) then
        upd_unacked n (mark_sent now);;
        shared (upd_cc (OnDataPacketSent n));;
        delay ← cc_get SendDelay;
        shared (TickAt (ptime_add now delay));;
        mret true
      else mret false
    else mret false);
  if ret : bool then mret tt
  else
    w ← self unacked_packets_;
    when (negb (IsEmpty w)) (
      front ← liftR (Front w);
      timeout ← cc_get SendTimeout;
      upd_self (set_send_timeout (ptime_add (last_send_time front) timeout))).

(** One round of [AddData]'s loop, which fills a new packet with the bytes
    from [ptr] on, [rest], and returns how many it took. *)
Definition add_packet (rest : list Z) : M (Sender * Shared) nat :=
  w ← self unacked_packets_;
  r ← liftR (Append new_unacked w);
  let n := r.1 in
  upd_self (set_window r.2);;
  p ← unacked n;
  q ← liftR (DataPacket.SetPacketSequenceNumber n (packet p));
  let q := DataPacket.SetFirstPacketInMessage true q in
  let q := DataPacket.SetLastPacketInMessage true q in
  let q := DataPacket.SetInOrder true q in
  q ← liftR (DataPacket.SetMessageNumber 0 q);
  let q := DataPacket.SetTimeStamp 0 q in
  id ← peer_get peer_id;
  let q := DataPacket.SetDestinationSocketId id q in
  size ← cc_get SendDataSize;
  let length := Z.to_nat (Z.min size (Z.of_nat (length rest))) in
  let q := DataPacket.SetData (take length rest) q in
  upd_unacked n (λ p, MkUnacked q true (last_send_time p));;
  mret length.

(** Returns the number of bytes taken, [ptr - begin]. *)
Definition AddData (data : list Z) : M (Sender * Shared) nat :=
  send_window ← cc_get SendWindowSize;
  w ← self unacked_packets_;
  (if (send_window =? 0) && (Size w =? 0)
   then upd_self (set_window (SetMaximumSize RudpParameters.default_window_size w))
   else upd_self (set_window (SetMaximumSize send_window w)));;
  w ← self unacked_packets_;
  taken ← loop (S (Z.to_nat (MaximumSize w))) (λ ptr : nat,
    w ← self unacked_packets_;
    if negb (IsFull w) && (ptr <? length data)%nat then
      length ← add_packet (drop ptr data);
      mret (inl (ptr + length)%nat)
    else mret (inr ptr)) 0%nat;
  DoSend;;
  mret taken.

Definition HandleAck (packet : AckPacket.t) : M (Sender * Shared) unit :=
  let seqnum := AckPacket.PacketSequenceNumber packet in
  (if AckPacket.HasOptionalFields packet then
     shared (upd_cc (OnAck seqnum (AckPacket.RoundTripTime packet)
       (AckPacket.RoundTripTimeVariance packet) (AckPacket.AvailableBufferSize packet)
       (AckPacket.PacketsReceivingRate packet) (AckPacket.EstimatedLinkCapacity packet)))
   else shared (upd_cc (OnAck1 seqnum)));;
  response_packet ← liftR AckOfAckPacket.new;
  id ← peer_get peer_id;
  let response_packet := AckOfAckPacket.SetDestinationSocketId id response_packet in
  let response_packet :=
    AckOfAckPacket.SetAckSequenceNumber (AckPacket.AckSequenceNumber packet) response_packet in
  shared (Send response_packet);;
  w ← self unacked_packets_;
  when (Contains seqnum w || (End w =? seqnum)) (
    while_ (S (length (items_ w)))
      (w ← self unacked_packets_; mret (negb (Begin w =? seqnum)))
      (w ← self unacked_packets_; w ← liftR (Remove w); upd_self (set_window w));;
    DoSend).

Definition HandleNegativeAck (packet : NegativeAckPacket.t) : M (Sender * Shared) unit :=
  for_each (λ s, unacked_packets_ s.1) (λ n,
    b ← liftR (NegativeAckPacket.ContainsSequenceNumber n packet);
    when b (shared (upd_cc (OnNegativeAck n));; upd_unacked n mark_lost);;
    mret false);;
  DoSend.

Definition HandleTick : M (Sender * Shared) unit :=
  s ← self id;
  t ← shared now;
  when (ptime_leb (send_timeout_ s) t) (
    upd_self (set_send_timeout pos_infin);;
    for_each (λ s, unacked_packets_ s.1) (λ n,
      p ← unacked n;
      timeout ← cc_get SendTimeout;
      t ← shared now;
      when (ptime_ltb (ptime_add (last_send_time p) timeout) t) (
        shared (upd_cc (OnSendTimeout n));; upd_unacked n mark_lost);;
      mret false);;
    mret tt);;
  DoSend.

Definition NotifyClose : M (Sender * Shared) unit :=
  shut_down_packet ← liftR ShutdownPacket.new;
  id ← peer_get peer_id;
  let shut_down_packet := ShutdownPacket.SetDestinationSocketId id shut_down_packet in
  shared (Send shut_down_packet);;
  mret tt.
End sender.

(** ** The sender's invariant *)

Section theory.
Context `{Environment}.
Implicit Types (s : Sender) (sh : Shared).

(** A packet of the window: numbered by its place, not empty, not too big. *)
Definition packet_ok (n : Z) (u : UnackedPacket) : Prop :=
  DataPacket.wf (packet u) ∧ DataPacket.PacketSequenceNumber (packet u) = n ∧
  (1 ≤ length (DataPacket.Data (packet u)) ≤ Z.to_nat RudpParameters.max_data_size)%nat.

Definition sender_ok s : Prop :=
  let w := unacked_packets_ s in
  wf w ∧ ∀ i u, items_ w !! i = Some u → packet_ok (seq_add (begin_ w) (Z.of_nat i)) u.

Definition alter_item (i : nat) (f : UnackedPacket → UnackedPacket) s : Sender :=
  let w := unacked_packets_ s in
  set_window (MkWindow (alter f i (items_ w)) (maximum_size_ w) (begin_ w) (end_ w)) s.

Lemma packet_fits n u :
  packet_ok n u → (wire_size (packet u) ≤ Z.to_nat RudpParameters.max_size)%nat.
Proof.
  intros (_&_&Hl). cbn [wire_size data_wire]. unfold DataPacket.size, DataPacket.Data in *.
  unfold RudpParameters.max_data_size, RudpParameters.max_size in *. lia.
Qed.

Lemma sender_ok_alter s i f :
  sender_ok s → (∀ u, packet (f u) = packet u) → sender_ok (alter_item i f s).
Proof.
  intros [Hwf Hp] Hf. split; [by apply wf_alter|].
  intros j u. cbn [alter_item set_window unacked_packets_ items_ begin_].
  destruct (decide (i = j)) as [<-|Hij].
  - rewrite list_lookup_alter, decide_True by done. intros (u'&E&->)%fmap_Some_1.
    apply Hp in E. unfold packet_ok in *. by rewrite Hf.
  - rewrite list_lookup_alter_ne by done. apply Hp.
Qed.

(** *** Access to the window *)

Lemma wp_unacked s sh i u (Q : UnackedPacket → Sender * Shared → Prop) :
  wf (unacked_packets_ s) → items_ (unacked_packets_ s) !! i = Some u → Q u (s, sh) →
  wp (unacked (seq_add (begin_ (unacked_packets_ s)) (Z.of_nat i))) (s, sh) Q.
Proof.
  intros Hwf Hu HQ. unfold unacked. apply wp_bind, wp_self. cbn [fst].
  eapply wp_liftR; [by apply at_index|done].
Qed.

Lemma wp_upd_unacked s sh i f (Q : unit → Sender * Shared → Prop) :
  wf (unacked_packets_ s) → (i < length (items_ (unacked_packets_ s)))%nat →
  Q tt (alter_item i f s, sh) →
  wp (upd_unacked (seq_add (begin_ (unacked_packets_ s)) (Z.of_nat i)) f) (s, sh) Q.
Proof.
  intros Hwf Hi HQ. unfold upd_unacked. apply wp_bind, wp_self. cbn [fst].
  apply wp_bind. eapply wp_liftR; [by apply update_index|]. by apply wp_upd_self.
Qed.

(** *** DoSend *)

(** Hand the lost packets to the network, in order, until it takes one. *)
Fixpoint attempt (items : list UnackedPacket) (i : nat) sh : option nat * Shared :=
  match items with
  | [] => (None, sh)
  | u :: items' =>
      if lost u then
        let sh' := after_send (wire_bytes (packet u)) sh in
        if send_error (w_sent (sh_world sh')) then attempt items' (S i) sh' else (Some i, sh')
      else attempt items' (S i) sh
  end.

Definition do_send_result s sh : Sender * Shared :=
  let now := clock (w_clock (sh_world sh)) in
  match attempt (items_ (unacked_packets_ s)) 0 (with_world (tick (sh_world sh)) sh) with
  | (Some i, sh') =>
      (alter_item i (mark_sent now) s,
       MkShared (sh_peer sh')
         (timer_TickAt (ptime_add now (SendDelay (sh_cc sh'))) (sh_timer sh'))
         (sh_cc sh') (sh_world sh'))
  | (None, sh') =>
      (match items_ (unacked_packets_ s) with
       | [] => s
       | u :: _ => set_send_timeout (ptime_add (last_send_time u) (SendTimeout (sh_cc sh'))) s
       end, sh')
  end.

Lemma wp_DoSend s sh (Q : unit → Sender * Shared → Prop) :
  sender_ok s → Q tt (do_send_result s sh) → wp DoSend (s, sh) Q.
Proof.
  intros [Hwf Hp] HQ. unfold DoSend. apply wp_bind, wp_shared, wp_now. cbn [fst snd].
  apply wp_bind. unfold do_send_result in HQ.
  set (sh1 := with_world (tick (sh_world sh)) sh) in *.
  set (w := unacked_packets_ s) in *.
  apply (wp_for_each _ (begin_ w) (length (items_ w)) (λ i st, st.1 = s ∧
    attempt (items_ w) 0 sh1 = attempt (drop i (items_ w)) i st.2)).
  - done.
  - by intros i [s1 sh2] [E _]; cbn [fst snd] in *; subst s1.
  - intros i [s1 sh2] [E Hat] Hi. cbn [fst snd] in *. subst s1.
    destruct (lookup_lt_is_Some_2 _ _ Hi) as [u Hu].
    apply wp_bind. eapply wp_unacked; [done|exact Hu|].
    rewrite (drop_S _ _ _ Hu) in Hat. cbn [attempt] in Hat.
    destruct (lost u); [|by apply wp_ret].
    apply wp_bind, wp_shared. apply wp_Send; [done|by eapply packet_fits, Hp|].
    cbn [fst snd]. change (w_sent (sh_world (after_send _ sh2))) with
      (sent_from sh2 (wire_bytes (packet u))) in Hat.
    destruct (send_error _).
    + rewrite bool_decide_false by discriminate. by apply wp_ret.
    + rewrite bool_decide_true by exact eq_refl.
      apply wp_bind, wp_upd_unacked; [done|done|].
      sh_steps. rewrite Hat in HQ. exact HQ.
  - intros [s1 sh2] [E Hat]. cbn [fst snd] in *. subst s1. rewrite drop_all in Hat.
    cbn [attempt] in Hat. rewrite Hat in HQ.
    apply wp_bind, wp_self. cbn [fst]. fold w. unfold IsEmpty, Front.
    destruct (items_ w) as [|u l]; [exact HQ|]. cbn [negb when].
    apply wp_bind. eapply wp_liftR; [reflexivity|]. sh_steps. exact HQ.
Qed.

(** *** AddData *)

Definition chunk_packet (n dest : Z) (d : list Z) : DataPacket.t :=
  DataPacket.Mk n true true true 0 0 dest d.

(** The packets for chunks [cs], the first one numbered [n]: all to be sent. *)
Fixpoint new_packets (n dest : Z) (cs : list (list Z)) : list UnackedPacket :=
  match cs with
  | [] => []
  | d :: cs' =>
      MkUnacked (chunk_packet n dest d) true not_a_date_time ::
      new_packets (seq_add n 1) dest cs'
  end.

Definition appended (dest : Z) (cs : list (list Z)) s : Sender :=
  let w := unacked_packets_ s in
  set_window (MkWindow (items_ w ++ new_packets (end_ w) dest cs) (maximum_size_ w)
    (begin_ w) (seq_add (end_ w) (Z.of_nat (length cs)))) s.

(** How [data] is cut: at most [slots] chunks of [size] bytes, the last one
    shorter. *)
Fixpoint split_data (slots size : nat) (data : list Z) : list (list Z) :=
  match slots, data with
  | S slots', _ :: _ => take size data :: split_data slots' size (drop size data)
  | _, _ => []
  end.

Lemma new_packets_app n dest cs d :
  is_seq n →
  new_packets n dest (cs ++ [d]) =
    new_packets n dest cs ++
    [MkUnacked (chunk_packet (seq_add n (Z.of_nat (length cs))) dest d) true not_a_date_time].
Proof.
  revert n. induction cs as [|c cs IH]; intros n Hn; cbn [app new_packets].
  - by rewrite seq_add_0.
  - rewrite IH by apply seq_add_is_seq. rewrite seq_add_add. simpl.
    do 4 f_equal. by replace (1 + Z.of_nat (length cs)) with (Z.of_nat (S (length cs))) by lia.
Qed.

Lemma length_new_packets n dest cs : length (new_packets n dest cs) = length cs.
Proof. revert n. induction cs; intros; simpl; [done|]. by rewrite IHcs. Qed.

Lemma new_packets_lookup n dest cs i u :
  is_seq n → new_packets n dest cs !! i = Some u →
  ∃ d, cs !! i = Some d ∧
    u = MkUnacked (chunk_packet (seq_add n (Z.of_nat i)) dest d) true not_a_date_time.
Proof.
  revert n i. induction cs as [|c cs IH]; intros n i Hn Hu; [done|].
  destruct i as [|i]; simpl in *.
  - injection Hu as <-. exists c. by rewrite seq_add_0.
  - apply IH in Hu as (d&?&->); [|apply seq_add_is_seq]. exists d. split; [done|].
    rewrite seq_add_add. by replace (1 + Z.of_nat i) with (Z.of_nat (S i)) by lia.
Qed.

(** What a chunk may be. *)
Definition chunk_ok (d : list Z) : Prop :=
  bytes_ok d ∧ (1 ≤ length d ≤ Z.to_nat RudpParameters.max_data_size)%nat.

Lemma wf_appended dest cs s :
  wf (unacked_packets_ s) →
  Z.of_nat (length cs) + Size (unacked_packets_ s) ≤ RudpParameters.maximum_window_size →
  wf (unacked_packets_ (appended dest cs s)).
Proof.
  intros (Hb&He&_&Hm) Hl. unfold wf, appended, Size in *.
  cbn [set_window unacked_packets_ items_ begin_ end_ maximum_size_].
  rewrite length_app, length_new_packets. split_and!; try done; try lia.
  rewrite He, seq_add_add. f_equal. lia.
Qed.

Lemma sender_ok_appended dest cs s :
  sender_ok s → is_u32 dest → Forall chunk_ok cs →
  Z.of_nat (length cs) + Size (unacked_packets_ s) ≤ RudpParameters.maximum_window_size →
  sender_ok (appended dest cs s).
Proof.
  intros [Hwf Hp] Hd Hcs Hl. pose proof Hwf as (Hb&He&_&Hm).
  split; [by apply wf_appended|].
  intros i u. cbn [appended set_window unacked_packets_ items_ begin_].
  intros [Hu|(Hi&Hu)]%lookup_app_Some; [by apply Hp|].
  apply new_packets_lookup in Hu as (d&Hd'&->); [|by apply wf_end].
  rewrite Forall_lookup in Hcs. destruct (Hcs _ _ Hd') as [Hbytes Hlen].
  split; [|split; [|done]].
  - unfold DataPacket.wf, chunk_packet. cbn.
    pose proof (seq_add_is_seq (end_ (unacked_packets_ s))
      (Z.of_nat (i - length (items_ (unacked_packets_ s))))) as Hs.
    unfold is_seq, modulus in Hs. unfold is_u32 in *. split_and!; try done; lia.
  - unfold DataPacket.PacketSequenceNumber, chunk_packet. cbn.
    rewrite He, seq_add_add. f_equal. unfold Size. lia.
Qed.

(** The premises of an operation that takes data: sizes as congestion control
    keeps them, a peer identifier in range. *)
Definition shared_ok sh : Prop := cc_inv (sh_cc sh) ∧ is_u32 (peer_id (sh_peer sh)).

Lemma wp_add_packet rest s sh (Q : nat → Sender * Shared → Prop) :
  wf (unacked_packets_ s) → IsFull (unacked_packets_ s) = false → shared_ok sh →
  (let k := (Z.to_nat (SendDataSize (sh_cc sh)) `min` length rest)%nat in
   Q k (appended (peer_id (sh_peer sh)) [take k rest] s, sh)) →
  wp (add_packet rest) (s, sh) Q.
Proof.
  intros Hwf HF [Hcc Hpid] HQ. pose proof (wf_end _ Hwf) as Hend.
  unfold add_packet. apply wp_bind, wp_self. cbn [fst]. set (w := unacked_packets_ s) in *.
  destruct (Append_ok w new_unacked Hwf HF) as (w'&E&Hwf'&Hi'&Hb'&Hm'&He).
  apply wp_bind. eapply wp_liftR; [exact E|]. cbn [fst snd].
  apply wp_bind, wp_upd_self. cbn [fst snd]. set (s1 := set_window w' s).
  assert (end_ w = seq_add (begin_ (unacked_packets_ s1)) (Z.of_nat (length (items_ w)))) as E1
    by (cbn [s1 set_window unacked_packets_]; by rewrite Hb').
  rewrite E1. apply wp_bind. eapply (wp_unacked s1 _ _ new_unacked); [done| |].
  { cbn [s1 set_window unacked_packets_]. by rewrite Hi', list_lookup_middle. }
  rewrite <-E1. apply wp_bind. eapply wp_liftR.
  { unfold DataPacket.SetPacketSequenceNumber. unfold is_seq, modulus in Hend.
    by rewrite (proj2 (Z.leb_le _ _)) by lia. }
  cbv zeta. apply wp_bind. eapply wp_liftR; [reflexivity|].
  apply wp_bind, wp_peer_get. cbn [fst snd]. apply wp_bind, wp_cc_get. cbn [fst snd].
  rewrite E1. apply wp_bind, wp_upd_unacked; [done| |].
  { cbn [s1 set_window unacked_packets_]. rewrite Hi', length_app. simpl. lia. }
  apply wp_ret. cbv zeta in HQ.
  rewrite Z2Nat.inj_min, Nat2Z.id.
  eapply eq_rect; [exact HQ|]. do 2 f_equal.
  unfold appended, alter_item, s1, set_window. cbn [unacked_packets_ send_timeout_]. fold w.
  f_equal. rewrite Hi', Hb', Hm', alter_app_r_alt by lia.
  rewrite Nat.sub_diag. cbn [new_packets alter list_alter length].
  assert (end_ w' = seq_add (end_ w) 1) as ->.
  { destruct Hwf' as (_&->&_). unfold Size. rewrite Hi', Hb', length_app, He, seq_add_add.
    f_equal. simpl. lia. }
  rewrite <-He. reflexivity.
Qed.

Lemma split_data_app slots size data cs :
  (0 < size)%nat →
  split_data slots size data = cs ++ split_data (slots - length cs) size (drop (length (concat cs)) data) →
  (length cs < slots)%nat → (length (concat cs) < length data)%nat →
  let rest := drop (length (concat cs)) data in
  split_data slots size data =
    (cs ++ [take size rest]) ++
    split_data (slots - length (cs ++ [take size rest])) size
      (drop (length (concat (cs ++ [take size rest]))) data).
Proof.
  intros Hsize E Hs Hl rest. rewrite E. fold rest.
  assert (rest ≠ []) as Hr.
  { intros Er. apply (f_equal length) in Er. unfold rest in Er. rewrite length_drop in Er.
    simpl in Er. lia. }
  rewrite length_app, concat_app, length_app. cbn [length concat]. rewrite app_nil_r.
  replace (slots - length cs)%nat with (S (slots - (length cs + 1))) by lia.
  assert (split_data (S (slots - (length cs + 1))) size rest =
    take size rest :: split_data (slots - (length cs + 1)) size (drop size rest)) as ->.
  { destruct rest; [done|reflexivity]. }
  rewrite <-app_assoc. cbn [app]. do 3 f_equal. rewrite <-drop_drop. fold rest.
  rewrite length_take. destruct (decide (size ≤ length rest)%nat).
  - by rewrite Nat.min_l by done.
  - by rewrite Nat.min_r, !drop_ge by lia.
Qed.

Lemma split_data_chunks slots size data :
  (1 ≤ size ≤ Z.to_nat RudpParameters.max_data_size)%nat → bytes_ok data →
  Forall chunk_ok (split_data slots size data) ∧
  (length (split_data slots size data) ≤ slots)%nat ∧
  concat (split_data slots size data) = take (slots * size) data.
Proof.
  intros Hsize. revert data. induction slots as [|slots IH]; intros data Hd; [done|].
  destruct (decide (data = [])) as [->|Hne].
  { split_and!; [constructor|simpl; lia|by rewrite take_nil]. }
  assert (split_data (S slots) size data = take size data :: split_data slots size (drop size data))
    as -> by by destruct data.
  assert (0 < length data)%nat by (destruct data; [done|simpl; lia]).
  destruct (IH (drop size data)) as (H1&H2&H3); [by apply Forall_drop|].
  split_and!.
  - constructor; [|done]. split; [by apply Forall_take|]. rewrite length_take. lia.
  - simpl. lia.
  - cbn [concat]. rewrite H3. change (S slots * size)%nat with (size + slots * size)%nat.
    by rewrite <-take_take_drop.
Qed.

(** The [i]-th piece *)
Lemma split_data_lookup slots size data i d : (0 < size)%nat → split_data slots size data !! i = Some d →
  d = take size (drop (i * size) data) ∧ (0 < length d ≤ size)%nat.
Proof.
  intros Hs. revert data i. induction slots as [|slots IH]; intros data i; [done|].
  destruct data as [|b data]; [done|]. destruct i as [|i]; cbn [split_data lookup list_lookup].
  - intros [= <-]. split; [done|]. rewrite length_take. cbn [length]. lia.
  - intros [-> Hd]%IH. split; [|done]. rewrite drop_drop. done.
Qed.

Lemma appended_nil dest s : wf (unacked_packets_ s) → appended dest [] s = s.
Proof.
  intros Hwf. unfold appended, set_window. cbn [new_packets length].
  rewrite app_nil_r, seq_add_0 by by apply wf_end. by destruct s as [[] ?].
Qed.

Lemma appended_app dest cs d s :
  wf (unacked_packets_ s) →
  appended dest [d] (appended dest cs s) = appended dest (cs ++ [d]) s.
Proof.
  intros Hwf. unfold appended. cbn [set_window unacked_packets_ items_ end_ maximum_size_ begin_].
  rewrite new_packets_app by by apply wf_end. rewrite <-app_assoc, seq_add_add, length_app.
  unfold set_window. do 3 f_equal. simpl. lia.
Qed.

Definition with_maximum (size : Z) s : Sender :=
  set_window (SetMaximumSize size (unacked_packets_ s)) s.

(** The chunks [AddData] makes of [data]. *)
Definition add_data_chunks s sh (data : list Z) : list (list Z) :=
  split_data (Z.to_nat (SendWindowSize (sh_cc sh) - Size (unacked_packets_ s)))
    (Z.to_nat (SendDataSize (sh_cc sh))) data.

Definition added s sh (data : list Z) : Sender :=
  appended (peer_id (sh_peer sh)) (add_data_chunks s sh data)
    (with_maximum (SendWindowSize (sh_cc sh)) s).

Lemma add_data_chunks_ok s sh data :
  shared_ok sh → bytes_ok data →
  Forall chunk_ok (add_data_chunks s sh data) ∧
  (length (add_data_chunks s sh data) ≤
     Z.to_nat (SendWindowSize (sh_cc sh) - Size (unacked_packets_ s)))%nat ∧
  concat (add_data_chunks s sh data) =
    take (Z.to_nat (SendWindowSize (sh_cc sh) - Size (unacked_packets_ s)) *
          Z.to_nat (SendDataSize (sh_cc sh))) data.
Proof.
  intros [((Hd&_)&_) _] Hb. apply split_data_chunks; [|done].
  unfold SendDataSize, RudpParameters.default_data_size, RudpParameters.max_data_size in *. lia.
Qed.

Lemma sender_ok_with_maximum n s : 0 ≤ n → sender_ok s → sender_ok (with_maximum n s).
Proof. intros Hn [Hwf Hp]. split; [by apply wf_SetMaximumSize|exact Hp]. Qed.

Lemma sender_ok_added s sh data :
  sender_ok s → shared_ok sh → bytes_ok data → sender_ok (added s sh data).
Proof.
  intros Hs Hsh Hb. destruct (add_data_chunks_ok s sh data Hsh Hb) as (H1&H2&_).
  pose proof Hsh as [((_&Hw&_)&_) Hpid]. unfold RudpParameters.default_window_size in *.
  apply sender_ok_appended; [|done|done|].
  - apply sender_ok_with_maximum; [|done]. unfold SendWindowSize. lia.
  - pose proof (wf_size _ (proj1 Hs)).
    unfold RudpParameters.maximum_window_size, SendWindowSize in *.
    change (Size (unacked_packets_ (with_maximum _ s))) with (Size (unacked_packets_ s)). lia.
Qed.

Lemma wp_AddData s sh data (Q : nat → Sender * Shared → Prop) :
  sender_ok s → shared_ok sh → bytes_ok data →
  Q (length (concat (add_data_chunks s sh data))) (do_send_result (added s sh data) sh) →
  wp (AddData data) (s, sh) Q.
Proof.
  intros Hs Hsh Hb HQ. pose proof (sender_ok_added s sh data Hs Hsh Hb) as Hadded.
  pose proof Hsh as [((Hd&Hw&_)&_) Hpid].
  unfold RudpParameters.default_window_size, RudpParameters.maximum_window_size,
    RudpParameters.default_data_size, RudpParameters.max_data_size in *.
  unfold AddData. apply wp_bind, wp_cc_get. cbn [fst snd]. apply wp_bind, wp_self. cbn [fst snd].
  unfold SendWindowSize at 1. rewrite (proj2 (Z.eqb_neq (send_window_size_ _) 0)) by lia.
  cbn [andb]. apply wp_bind, wp_upd_self. cbn [fst snd].
  change (set_window (SetMaximumSize (SendWindowSize (sh_cc sh)) (unacked_packets_ s)) s)
    with (with_maximum (SendWindowSize (sh_cc sh)) s).
  set (s0 := with_maximum _ s). apply wp_bind, wp_self. cbn [fst snd]. apply wp_bind.
  assert (sender_ok s0) as Hs0.
  { apply sender_ok_with_maximum; [unfold SendWindowSize; lia|done]. }
  assert (MaximumSize (unacked_packets_ s0) = SendWindowSize (sh_cc sh)) as Hmax.
  { unfold MaximumSize, s0, with_maximum, SetMaximumSize, SendWindowSize,
      RudpParameters.maximum_window_size. cbn. destruct (_ <? 512) eqn:E; lia. }
  rewrite Hmax. set (slots := Z.to_nat (SendWindowSize (sh_cc sh) - Size (unacked_packets_ s))).
  set (size := Z.to_nat (SendDataSize (sh_cc sh))).
  assert (0 < size)%nat as Hsize by (unfold size, SendDataSize; lia).
  pose proof (wf_size _ (proj1 Hs)) as Hsz. set (id := peer_id (sh_peer sh)).
  assert (∀ cs, IsFull (unacked_packets_ (appended id cs s0)) =
    (slots <=? length cs)%nat) as Hfull.
  { intros cs. unfold IsFull. cbn [appended set_window unacked_packets_ items_ maximum_size_].
    change (maximum_size_ (unacked_packets_ s0)) with (MaximumSize (unacked_packets_ s0)).
    rewrite Hmax, length_app, length_new_packets. unfold slots, Size in *.
    change (items_ (unacked_packets_ s0)) with (items_ (unacked_packets_ s)). lia. }
  assert (∀ cs, (length cs ≤ slots)%nat → wf (unacked_packets_ (appended id cs s0))) as Hwf.
  { intros cs Hcs. apply wf_appended; [apply Hs0|].
    change (Size (unacked_packets_ s0)) with (Size (unacked_packets_ s)).
    unfold slots, SendWindowSize, RudpParameters.maximum_window_size in *. lia. }
  apply (wp_loop (λ (ptr : nat) st, ∃ cs, st = (appended id cs s0, sh) ∧
      ptr = length (concat cs) ∧ (length cs ≤ slots)%nat ∧
      split_data slots size data = cs ++ split_data (slots - length cs) size (drop ptr data))
    (λ _ st, Z.to_nat (SendWindowSize (sh_cc sh)) -
             length (items_ (unacked_packets_ st.1)))%nat).
  - exists []. rewrite appended_nil by apply Hs0. rewrite Nat.sub_0_r.
    split_and!; try done. simpl; lia.
  - unfold SendWindowSize. lia.
  - intros ptr st (cs&->&->&Hl&Hsplit). apply wp_bind, wp_self. cbn [fst].
    rewrite Hfull. destruct (_ && _) eqn:Econd.
    + apply andb_prop in Econd as [E1 E2].
      apply wp_bind, wp_add_packet; [by apply Hwf|rewrite Hfull; lia|done|]. cbv zeta.
      apply wp_ret. fold id.
      assert (take (Z.to_nat (SendDataSize (sh_cc sh)) `min`
          length (drop (length (concat cs)) data)) (drop (length (concat cs)) data) =
        take size (drop (length (concat cs)) data)) as Htake.
      { fold size. by rewrite <-take_take, firstn_all. }
      rewrite Htake, appended_app by apply Hs0.
      pose proof (split_data_app slots size data cs Hsize Hsplit ltac:(lia) ltac:(lia)) as Hsplit'.
      cbv zeta in Hsplit'. set (d := take size _) in *. split.
      * exists (cs ++ [d]).
        assert (length (concat cs) + size `min` length (drop (length (concat cs)) data) =
          length (concat (cs ++ [d])))%nat as Eptr.
        { rewrite concat_app, length_app. cbn [concat]. rewrite app_nil_r.
          unfold d. by rewrite length_take. }
        fold size. rewrite Eptr. split_and!; [done|done| |done]. rewrite length_app. simpl. lia.
      * cbn [fst appended set_window unacked_packets_ items_].
        rewrite !length_app, !length_new_packets, length_app. simpl.
        change (items_ (unacked_packets_ s0)) with (items_ (unacked_packets_ s)).
        unfold slots, Size, SendWindowSize in *. lia.
    + apply wp_ret. apply wp_bind.
      assert (split_data (slots - length cs) size (drop (length (concat cs)) data) = []) as Enil.
      { apply andb_false_iff in Econd as [E|E].
        - by replace (slots - length cs)%nat with 0%nat by lia.
        - rewrite drop_ge by lia. by destruct (slots - length cs)%nat. }
      rewrite Enil, app_nil_r in Hsplit.
      change (add_data_chunks s sh data) with (split_data slots size data) in HQ.
      change (added s sh data) with (appended id (split_data slots size data) s0) in HQ, Hadded.
      rewrite Hsplit in HQ, Hadded. apply wp_DoSend; [done|]. by apply wp_ret.
Qed.

(** *** Acknowledgements *)

Definition dropped (k : nat) s : Sender :=
  let w := unacked_packets_ s in
  set_window (MkWindow (drop k (items_ w)) (maximum_size_ w)
    (seq_add (begin_ w) (Z.of_nat k)) (end_ w)) s.

Lemma dropped_0 s : wf (unacked_packets_ s) → dropped 0 s = s.
Proof.
  intros Hwf. unfold dropped, set_window. rewrite drop_0, seq_add_0 by apply Hwf.
  by destruct s as [[] ?].
Qed.

Lemma wf_dropped k s :
  (k ≤ length (items_ (unacked_packets_ s)))%nat →
  wf (unacked_packets_ s) → wf (unacked_packets_ (dropped k s)).
Proof.
  intros Hk (Hb&He&Hl&Hm). unfold wf, Size, dropped in *.
  cbn [set_window unacked_packets_ items_ begin_ end_ maximum_size_].
  rewrite length_drop. split_and!; try done; try lia; [apply seq_add_is_seq|].
  rewrite He, seq_add_add. f_equal. lia.
Qed.

Lemma sender_ok_dropped k s :
  (k ≤ length (items_ (unacked_packets_ s)))%nat → sender_ok s → sender_ok (dropped k s).
Proof.
  intros Hk [Hwf Hp]. split; [by apply wf_dropped|].
  intros i u. cbn [dropped set_window unacked_packets_ items_ begin_].
  rewrite lookup_drop. intros Hu%Hp. rewrite seq_add_add.
  by replace (Z.of_nat k + Z.of_nat i) with (Z.of_nat (k + i)) by lia.
Qed.

(** A number the window accepts as acknowledged, and how many packets it
    acknowledges. *)
Definition acknowledges (n : Z) s : bool :=
  Contains n (unacked_packets_ s) || (End (unacked_packets_ s) =? n).
Definition acked_count (n : Z) s : nat := Z.to_nat (seq_sub n (begin_ (unacked_packets_ s))).

Lemma acknowledges_spec n s :
  wf (unacked_packets_ s) → 0 ≤ n → acknowledges n s = true →
  (acked_count n s ≤ length (items_ (unacked_packets_ s)))%nat ∧
  n = seq_add (begin_ (unacked_packets_ s)) (Z.of_nat (acked_count n s)).
Proof.
  intros Hwf Hn Ha. unfold acknowledges, acked_count in *.
  pose proof (wf_size _ Hwf) as Hsz. pose proof (seq_sub_is_seq n (begin_ (unacked_packets_ s))) as [Hs1 Hs2].
  rewrite Z2Nat.id by done.
  apply orb_prop in Ha as [Ha|Ha].
  - assert (is_seq n) as Hsn by by eapply Contains_is_seq.
    rewrite Contains_spec in Ha by done. unfold Size in *. split; [lia|].
    symmetry. by apply seq_add_sub.
  - apply Z.eqb_eq in Ha. subst n. unfold End. split.
    + destruct Hwf as (_&->&_). rewrite seq_sub_add; unfold Size, modulus in *; lia.
    + symmetry. apply seq_add_sub, (wf_end _ Hwf).
Qed.

Lemma wp_remove_until n s sh (Q : unit → Sender * Shared → Prop) :
  wf (unacked_packets_ s) → 0 ≤ n → acknowledges n s = true →
  Q tt (dropped (acked_count n s) s, sh) →
  wp (while_ (S (length (items_ (unacked_packets_ s))))
        (w ← self unacked_packets_; mret (negb (Begin w =? n)))
        (w ← self unacked_packets_; w ← liftR (Remove w); upd_self (set_window w)))
     (s, sh) Q.
Proof.
  intros Hwf Hn Ha HQ. destruct (acknowledges_spec n s Hwf Hn Ha) as [Hk En].
  set (k := acked_count n s) in *. set (w := unacked_packets_ s) in *.
  pose proof (wf_size _ Hwf) as Hsz. unfold Size in Hsz.
  apply (wp_while (λ st, ∃ i, (i ≤ k)%nat ∧ st = (dropped i s, sh))
    (λ st, length (items_ (unacked_packets_ st.1)))).
  - exists 0%nat. split; [lia|]. by rewrite dropped_0.
  - cbn [fst]. fold w. lia.
  - intros st (i&Hi&->). apply wp_bind, wp_self. apply wp_ret. cbn [fst].
    change (Begin (unacked_packets_ (dropped i s))) with (seq_add (begin_ w) (Z.of_nat i)).
    destruct (_ =? n) eqn:E; cbn [negb].
    + apply Z.eqb_eq in E. rewrite En in E.
      apply seq_add_inj in E; [|unfold modulus; lia..].
      by replace i with k by lia.
    + assert (i ≠ k) by (intros ->; rewrite En in E; by rewrite Z.eqb_refl in E).
      apply wp_bind, wp_self. cbn [fst].
      assert (i < length (items_ w))%nat as Hlt by lia.
      destruct (lookup_lt_is_Some_2 _ _ Hlt) as [u Hu].
      unfold Remove. cbn [dropped set_window unacked_packets_ items_]. fold w.
      pose proof (drop_S _ _ _ Hu) as Hdrop. rewrite Hdrop. apply wp_bind. eapply wp_liftR; [reflexivity|].
      apply wp_upd_self. cbn [fst snd]. split.
      * exists (S i). split; [lia|]. unfold dropped, set_window. cbn. fold w. do 3 f_equal.
        rewrite Next_spec, seq_add_add by apply seq_add_is_seq. f_equal. lia.
      * cbn [fst unacked_packets_ set_window items_ dropped]. fold w.
        cbn [length]. rewrite !length_drop. lia.
Qed.

Definition ack_of_ack_for (packet : AckPacket.t) sh : AckOfAckPacket.t :=
  AckOfAckPacket.SetAckSequenceNumber (AckPacket.AckSequenceNumber packet)
    (AckOfAckPacket.SetDestinationSocketId (peer_id (sh_peer sh))
      (AckOfAckPacket.Mk (ControlPacket.Mk AckOfAckPacket.kPacketType 0 0 0))).

(** Congestion control was told, and the answer was sent. *)
Definition after_ack (packet : AckPacket.t) sh : Shared :=
  after_send (wire_bytes (ack_of_ack_for packet sh))
    (MkShared (sh_peer sh) (sh_timer sh)
      (if AckPacket.HasOptionalFields packet then
         OnAck (AckPacket.PacketSequenceNumber packet) (AckPacket.RoundTripTime packet)
           (AckPacket.RoundTripTimeVariance packet) (AckPacket.AvailableBufferSize packet)
           (AckPacket.PacketsReceivingRate packet) (AckPacket.EstimatedLinkCapacity packet)
           (sh_cc sh)
       else sh_cc sh)
      (sh_world sh)).

Definition handle_ack_result (packet : AckPacket.t) s sh : Sender * Shared :=
  let n := AckPacket.PacketSequenceNumber packet in
  if acknowledges n s
  then do_send_result (dropped (acked_count n s) s) (after_ack packet sh)
  else (s, after_ack packet sh).

Lemma wp_HandleAck packet s sh (Q : unit → Sender * Shared → Prop) :
  sender_ok s → 0 ≤ AckPacket.PacketSequenceNumber packet →
  Q tt (handle_ack_result packet s sh) → wp (HandleAck packet) (s, sh) Q.
Proof.
  intros Hs Hn HQ. unfold HandleAck, handle_ack_result in *.
  apply wp_bind.
  assert (∀ m : M (Sender * Shared) unit,
    m = (if AckPacket.HasOptionalFields packet then
     shared (upd_cc (OnAck (AckPacket.PacketSequenceNumber packet)
       (AckPacket.RoundTripTime packet)
       (AckPacket.RoundTripTimeVariance packet) (AckPacket.AvailableBufferSize packet)
       (AckPacket.PacketsReceivingRate packet) (AckPacket.EstimatedLinkCapacity packet)))
   else shared (upd_cc (OnAck1 (AckPacket.PacketSequenceNumber packet)))) →
    wp m (s, sh) (λ _ st, st = (s, MkShared (sh_peer sh) (sh_timer sh)
      (if AckPacket.HasOptionalFields packet then
         OnAck (AckPacket.PacketSequenceNumber packet) (AckPacket.RoundTripTime packet)
           (AckPacket.RoundTripTimeVariance packet) (AckPacket.AvailableBufferSize packet)
           (AckPacket.PacketsReceivingRate packet) (AckPacket.EstimatedLinkCapacity packet)
           (sh_cc sh)
       else sh_cc sh) (sh_world sh)))) as Hcc.
  { intros m ->. by destruct (AckPacket.HasOptionalFields packet); apply wp_shared, wp_upd_cc. }
  eapply wp_mono; [by apply Hcc|]. intros _ st ->. clear Hcc.
  apply wp_bind. eapply wp_liftR; [reflexivity|].
  apply wp_bind, wp_peer_get. cbn [fst snd sh_peer]. cbv zeta.
  apply wp_bind, wp_shared. apply wp_Send; [done| |].
  { unfold RudpParameters.max_size. cbn [wire_size ack_of_ack_wire]. lia. }
  cbn [fst snd]. apply wp_bind, wp_self. cbn [fst].
  change (Contains _ _ || _) with (acknowledges (AckPacket.PacketSequenceNumber packet) s).
  destruct (acknowledges _ s) eqn:Ea; [|exact HQ]. cbn [when].
  apply wp_bind, wp_remove_until; [apply Hs|done|done|].
  apply wp_DoSend; [|exact HQ].
  apply sender_ok_dropped; [|done]. by apply acknowledges_spec; [apply Hs| |].
Qed.

(** *** Passes that mark packets as lost *)

(** [h n u sh] decides whether packet [u], numbered [n], is lost. *)
Fixpoint mark_pass (h : Z → UnackedPacket → Shared → bool * Shared) (n : Z)
    (items : list UnackedPacket) sh : list UnackedPacket * Shared :=
  match items with
  | [] => ([], sh)
  | u :: items' =>
      let (b, sh1) := h n u sh in
      let (items2, sh2) := mark_pass h (seq_add n 1) items' sh1 in
      ((if b then mark_lost u else u) :: items2, sh2)
  end.

Definition with_items (l : list UnackedPacket) s : Sender :=
  let w := unacked_packets_ s in
  set_window (MkWindow l (maximum_size_ w) (begin_ w) (end_ w)) s.

Lemma with_items_same s : with_items (items_ (unacked_packets_ s)) s = s.
Proof. by destruct s as [[] ?]. Qed.

Lemma mark_pass_packets h n items sh : packet <$> (mark_pass h n items sh).1 = packet <$> items.
Proof.
  revert n sh. induction items as [|u items IH]; intros n sh; [done|]. cbn [mark_pass].
  destruct (h n u sh) as [b sh1]. specialize (IH (seq_add n 1) sh1).
  destruct (mark_pass h _ items sh1) as [items2 sh2]. cbn in *. rewrite IH. by destruct b.
Qed.

Lemma wf_with_items l s :
  length l = length (items_ (unacked_packets_ s)) → wf (unacked_packets_ s) →
  wf (unacked_packets_ (with_items l s)).
Proof. unfold wf, Size. cbn. by intros ->. Qed.

Lemma sender_ok_with_items l s :
  packet <$> l = packet <$> items_ (unacked_packets_ s) → sender_ok s →
  sender_ok (with_items l s).
Proof.
  intros E [Hwf Hp]. split.
  - apply wf_with_items; [|done]. apply (f_equal length) in E. by rewrite !length_fmap in E.
  - intros i u Hu. cbn [with_items set_window unacked_packets_ items_ begin_] in *.
    assert ((packet <$> items_ (unacked_packets_ s)) !! i = Some (packet u)) as Hi.
    { by rewrite <-E, list_lookup_fmap, Hu. }
    rewrite list_lookup_fmap in Hi. apply fmap_Some_1 in Hi as (u'&Hu'&Eu).
    unfold packet_ok. rewrite Eu. by apply Hp.
Qed.

(** The loop [for_each body] is the pass [h] when its body marks what [h]
    decides. *)
Lemma wp_mark_loop (h : Z → UnackedPacket → Shared → bool * Shared) body s sh
    (Q : bool → Sender * Shared → Prop) :
  sender_ok s →
  (∀ n i u s' sh' (Q' : bool → Sender * Shared → Prop),
     wf (unacked_packets_ s') → items_ (unacked_packets_ s') !! i = Some u →
     n = seq_add (begin_ (unacked_packets_ s')) (Z.of_nat i) →
     Q' false (if (h n u sh').1 then alter_item i mark_lost s' else s', (h n u sh').2) →
     wp (body n) (s', sh') Q') →
  (let r := mark_pass h (begin_ (unacked_packets_ s)) (items_ (unacked_packets_ s)) sh in
   Q false (with_items r.1 s, r.2)) →
  wp (for_each (λ st : Sender * Shared, unacked_packets_ st.1) body) (s, sh) Q.
Proof.
  intros [Hwf _] Hbody HQ. set (w := unacked_packets_ s) in *. set (r := mark_pass h _ _ sh) in HQ.
  apply (wp_for_each _ (begin_ w) (length (items_ w)) (λ i st, ∃ l,
    length l = i ∧ st.1 = with_items (l ++ drop i (items_ w)) s ∧ (i ≤ length (items_ w))%nat ∧
    let r' := mark_pass h (seq_add (begin_ w) (Z.of_nat i)) (drop i (items_ w)) st.2 in
    r = (l ++ r'.1, r'.2))).
  - exists []. cbn [fst snd]. rewrite drop_0, seq_add_0 by apply Hwf. split_and!; [done| |lia|].
    + cbn [app]. unfold w. by rewrite with_items_same.
    + unfold r. by destruct (mark_pass _ _ _ _).
  - intros i [s' sh'] (l&Hl&E&Hi&_). cbn [fst] in *. subst s'.
    assert (length (l ++ drop i (items_ w)) = length (items_ w)) as Hlen
      by (rewrite length_app, length_drop; lia).
    split_and!; [by apply wf_with_items|done|done].
  - intros i [s' sh'] (l&Hl&E&_&Er) Hi. cbn [fst snd] in *. subst s'.
    destruct (lookup_lt_is_Some_2 _ _ Hi) as [u Hu].
    assert (length (l ++ drop i (items_ w)) = length (items_ w)) as Hlen
      by (rewrite length_app, length_drop; lia).
    set (s' := with_items (l ++ drop i (items_ w)) s).
    assert (items_ (unacked_packets_ s') !! i = Some u) as Hu'.
    { cbn [s' with_items set_window unacked_packets_ items_].
      rewrite lookup_app_r, Hl, Nat.sub_diag, lookup_drop, Nat.add_0_r by lia. done. }
    eapply Hbody; [by apply wf_with_items|exact Hu'|done|].
    rewrite (drop_S _ _ _ Hu) in Er. cbn [mark_pass] in Er.
    set (n := seq_add (begin_ w) (Z.of_nat i)) in *.
    destruct (h n u sh') as [b sh1]. cbn [fst snd].
    exists (l ++ [if b then mark_lost u else u]). rewrite length_app. cbn [length].
    split_and!; [lia| |lia|].
    + rewrite <-app_assoc. cbn [app].
      assert (with_items (l ++ u :: drop (S i) (items_ w)) s = s') as Es'
        by (unfold s'; by rewrite <-(drop_S _ _ _ Hu)).
      destruct b; [|by rewrite Es'].
      unfold alter_item, s', with_items, set_window. cbn.
      rewrite (drop_S _ _ _ Hu), alter_app_r_alt, Hl, Nat.sub_diag by lia. done.
    + replace (seq_add (begin_ w) (Z.of_nat (S i))) with (seq_add n 1)
        by (unfold n; rewrite seq_add_add; f_equal; lia).
      destruct (mark_pass h (seq_add n 1) _ sh1) as [l2 sh2]. cbn [fst snd] in *.
      by rewrite <-app_assoc.
  - intros [s' sh'] (l&Hl&E&_&Er). cbn [fst snd] in *. subst s'.
    rewrite drop_all in Er |- *. cbn [mark_pass fst snd] in Er. rewrite app_nil_r in Er |- *.
    subst r. rewrite Er in HQ. exact HQ.
Qed.

Definition upd_shared_cc (f : CC → CC) sh : Shared :=
  MkShared (sh_peer sh) (sh_timer sh) (f (sh_cc sh)) (sh_world sh).

Lemma wp_mark n i u s sh f (Q : unit → Sender * Shared → Prop) :
  wf (unacked_packets_ s) → items_ (unacked_packets_ s) !! i = Some u →
  n = seq_add (begin_ (unacked_packets_ s)) (Z.of_nat i) →
  Q tt (alter_item i mark_lost s, upd_shared_cc f sh) →
  wp (shared (upd_cc f);; upd_unacked n mark_lost) (s, sh) Q.
Proof.
  intros Hwf Hu -> HQ. apply wp_bind, wp_shared, wp_upd_cc. cbn [fst snd].
  apply wp_upd_unacked; [done|by eapply lookup_lt_Some|done].
Qed.

(** Negative acknowledgement: the packets it contains. *)
Definition nack_hit (packet : NegativeAckPacket.t) (n : Z) (u : UnackedPacket) sh :
    bool * Shared :=
  if NegativeAckPacket.contains_from (NegativeAckPacket.sequence_numbers_ packet) n
  then (true, upd_shared_cc (OnNegativeAck n) sh) else (false, sh).

Definition handle_nack_result (packet : NegativeAckPacket.t) s sh : Sender * Shared :=
  let w := unacked_packets_ s in
  let r := mark_pass (nack_hit packet) (begin_ w) (items_ w) sh in
  do_send_result (with_items r.1 s) r.2.

Lemma wp_HandleNegativeAck packet s sh (Q : unit → Sender * Shared → Prop) :
  sender_ok s → Q tt (handle_nack_result packet s sh) →
  wp (HandleNegativeAck packet) (s, sh) Q.
Proof.
  intros Hs HQ. unfold HandleNegativeAck. apply wp_bind.
  apply (wp_mark_loop (nack_hit packet)); [done| |].
  - intros n i u s' sh' Q' Hwf Hu En HQ'.
    assert (n ≤ 0x7fffffff) as Hn.
    { rewrite En. pose proof (seq_add_is_seq (begin_ (unacked_packets_ s')) (Z.of_nat i)) as [_ Hlt].
      unfold modulus in Hlt. lia. }
    apply wp_bind. eapply (wp_liftR (A := bool)).
    { unfold NegativeAckPacket.ContainsSequenceNumber.
      by rewrite (proj2 (Z.leb_le _ _) Hn). }
    unfold nack_hit in HQ'. destruct (NegativeAckPacket.contains_from _ n); cbn [when].
    + apply wp_bind. eapply wp_mark; [done|done|done|]. by apply wp_ret.
    + apply wp_bind. apply wp_ret. apply wp_ret. exact HQ'.
  - apply wp_DoSend; [|exact HQ]. apply sender_ok_with_items; [|done]. apply mark_pass_packets.
Qed.

(** Timeout: the packets sent longer ago than the timeout, by a clock read
    anew for every packet. *)
Definition timeout_hit (n : Z) (u : UnackedPacket) sh : bool * Shared :=
  let sh1 := with_world (tick (sh_world sh)) sh in
  if ptime_ltb (ptime_add (last_send_time u) (SendTimeout (sh_cc sh)))
       (clock (w_clock (sh_world sh)))
  then (true, upd_shared_cc (OnSendTimeout n) sh1) else (false, sh1).

Definition handle_tick_result s sh : Sender * Shared :=
  let w := unacked_packets_ s in
  let sh1 := with_world (tick (sh_world sh)) sh in
  if ptime_leb (send_timeout_ s) (clock (w_clock (sh_world sh))) then
    let r := mark_pass timeout_hit (begin_ w) (items_ w) sh1 in
    do_send_result (with_items r.1 (set_send_timeout pos_infin s)) r.2
  else do_send_result s sh1.

Lemma sender_wp_HandleTick s sh (Q : unit → Sender * Shared → Prop) :
  sender_ok s → Q tt (handle_tick_result s sh) → wp HandleTick (s, sh) Q.
Proof.
  intros Hs HQ. unfold HandleTick, handle_tick_result in *. apply wp_bind, wp_self.
  apply wp_bind, wp_shared, wp_now. unfold id. cbn [fst snd].
  destruct (ptime_leb _ _); cbn [when]; apply wp_bind; [|apply wp_ret; by apply wp_DoSend].
  apply wp_bind, wp_upd_self. cbn [fst snd]. apply wp_bind.
  apply (wp_mark_loop timeout_hit); [done| |].
  - intros n i u s' sh' Q' Hwf Hu En HQ'. apply wp_bind. rewrite En.
    eapply wp_unacked; [done|exact Hu|]. rewrite <-En.
    apply wp_bind, wp_cc_get. cbn [fst snd].
    apply wp_bind, wp_shared, wp_now. cbn [fst snd].
    unfold timeout_hit in HQ'. destruct (ptime_ltb _ _); cbn [when].
    + apply wp_bind. eapply wp_mark; [done|done|done|]. by apply wp_ret.
    + apply wp_bind. apply wp_ret. apply wp_ret. exact HQ'.
  - apply wp_ret. apply wp_DoSend; [|exact HQ].
    apply sender_ok_with_items; [|done]. apply mark_pass_packets.
Qed.

Definition shutdown_for sh : ShutdownPacket.t :=
  ShutdownPacket.SetDestinationSocketId (peer_id (sh_peer sh))
    (ShutdownPacket.Mk (ControlPacket.Mk ShutdownPacket.kPacketType 0 0 0)).

Lemma wp_NotifyClose s sh (Q : unit → Sender * Shared → Prop) :
  Q tt (s, after_send (wire_bytes (shutdown_for sh)) sh) → wp NotifyClose (s, sh) Q.
Proof.
  intros HQ. unfold NotifyClose. apply wp_bind. eapply wp_liftR; [reflexivity|].
  apply wp_bind, wp_peer_get. cbn [fst snd]. cbv zeta.
  apply wp_bind, wp_shared. apply wp_Send; [done| |].
  { unfold RudpParameters.max_size. cbn [wire_size shutdown_wire]. lia. }
  by apply wp_ret.
Qed.

(** *** What DoSend changes and what it leaves alone *)

Lemma attempt_frame items i sh :
  let r := attempt items i sh in
  sh_cc r.2 = sh_cc sh ∧ sh_peer r.2 = sh_peer sh ∧ sh_timer r.2 = sh_timer sh ∧
  w_clock (sh_world r.2) = w_clock (sh_world sh) ∧
  ∃ new, w_sent (sh_world r.2) = new ++ w_sent (sh_world sh) ∧
    Forall (λ dg, dg_to dg = peer_endpoint (sh_peer sh) ∧
      ∃ u, u ∈ items ∧ lost u = true ∧ dg_bytes dg = wire_bytes (packet u)) new.
Proof.
  revert i sh. induction items as [|u items IH]; intros i sh; cbn [attempt].
  { split_and!; try done. by exists []. }
  destruct (lost u) eqn:El.
  - set (sh1 := after_send _ sh).
    assert (∃ new, w_sent (sh_world sh1) = new ++ w_sent (sh_world sh) ∧
      Forall (λ dg, dg_to dg = peer_endpoint (sh_peer sh) ∧
        ∃ u', u' ∈ u :: items ∧ lost u' = true ∧ dg_bytes dg = wire_bytes (packet u')) new)
      as Hone.
    { eexists [_]. split; [reflexivity|]. constructor; [|constructor].
      split; [done|]. exists u. split_and!; [left|done|done]. }
    destruct (send_error _); [|by cbn [snd]].
    destruct (IH (S i) sh1) as (E1&E2&E3&E4&new&En&Hn).
    rewrite E1, E2, E3, E4. split_and!; try done.
    destruct Hone as (new1&E1'&Hn1). exists (new ++ new1). split.
    + rewrite En, E1'. by rewrite <-app_assoc.
    + apply Forall_app. split; [|done]. eapply Forall_impl; [exact Hn|].
      intros dg (?&u'&?&?). split; [done|]. exists u'. split; [by right|done].
  - destruct (IH (S i) sh) as (E1&E2&E3&E4&new&En&Hn).
    split_and!; try done. exists new. split; [done|].
    eapply Forall_impl; [exact Hn|].
    intros dg (?&u'&?&?). split; [done|]. exists u'. split; [by right|done].
Qed.

(** The packets of a sender, with their numbering and capacity. *)
Definition same_packets s s' : Prop :=
  let w := unacked_packets_ s in let w' := unacked_packets_ s' in
  packet <$> items_ w' = packet <$> items_ w ∧
  begin_ w' = begin_ w ∧ end_ w' = end_ w ∧ maximum_size_ w' = maximum_size_ w.

Lemma fmap_alter_packet f i (l : list UnackedPacket) :
  (∀ u, packet (f u) = packet u) → packet <$> alter f i l = packet <$> l.
Proof.
  intros Hf. revert i. induction l as [|u l IH]; intros [|i]; [done..| |].
  - cbn. by rewrite Hf.
  - change (alter f (S i) (u :: l)) with (u :: alter f i l). cbn. by rewrite <-(IH i).
Qed.

Lemma do_send_frame s sh :
  let r := do_send_result s sh in
  same_packets s r.1 ∧ sh_cc r.2 = sh_cc sh ∧ sh_peer r.2 = sh_peer sh ∧
  ∃ new, w_sent (sh_world r.2) = new ++ w_sent (sh_world sh) ∧
    Forall (λ dg, dg_to dg = peer_endpoint (sh_peer sh) ∧
      ∃ u, u ∈ items_ (unacked_packets_ s) ∧ dg_bytes dg = wire_bytes (packet u)) new.
Proof.
  unfold do_send_result.
  destruct (attempt_frame (items_ (unacked_packets_ s)) 0 (with_world (tick (sh_world sh)) sh))
    as (E1&E2&_&_&new&En&Hn).
  destruct (attempt _ _ _) as [[i|] sh']; cbn [fst snd] in *; (split; [|split; [|split]]).
  - split_and!; try done. by apply fmap_alter_packet.
  - done.
  - done.
  - exists new. split; [done|]. eapply Forall_impl; [exact Hn|]. intros dg (?&u&?&_&?). eauto.
  - by destruct (items_ _).
  - done.
  - done.
  - exists new. split; [done|]. eapply Forall_impl; [exact Hn|]. intros dg (?&u&?&_&?). eauto.
Qed.

Lemma sender_ok_same_packets s s' : same_packets s s' → sender_ok s → sender_ok s'.
Proof.
  intros (Ep&Eb&Ee&Em) Hs.
  destruct (sender_ok_with_items _ s Ep Hs) as [Hwf Hp].
  destruct s' as [w' t']. cbn in *. destruct w' as [l m b e]. cbn in *. subst.
  split; [exact Hwf|exact Hp].
Qed.

Lemma do_send_ok s sh : sender_ok s → sender_ok (do_send_result s sh).1.
Proof. intros Hs. eapply sender_ok_same_packets; [apply do_send_frame|done]. Qed.

(** Without send errors: the first lost packet is sent, alone. *)
Definition reliable : Prop := ∀ l, send_error l = false.

Lemma attempt_reliable items i sh :
  reliable →
  attempt items i sh =
    match list_find (λ u, lost u = true) items with
    | Some (j, u) => (Some (i + j)%nat, after_send (wire_bytes (packet u)) sh)
    | None => (None, sh)
    end.
Proof.
  intros Hr. revert i. induction items as [|u items IH]; intros i; [done|].
  cbn [attempt list_find]. destruct (lost u) eqn:El.
  - rewrite Hr. rewrite decide_True by done. by rewrite Nat.add_0_r.
  - rewrite decide_False by done. rewrite IH.
    destruct (list_find _ items) as [[j u']|]; [|done]. cbn. do 2 f_equal. lia.
Qed.

Lemma mark_pass_frame h n items sh :
  (∀ n u sh, let r := (h n u sh).2 in
     sh_peer r = sh_peer sh ∧ sh_timer r = sh_timer sh ∧
     w_sent (sh_world r) = w_sent (sh_world sh) ∧
     (cc_inv (sh_cc sh) → cc_inv (sh_cc r))) →
  let r := (mark_pass h n items sh).2 in
  sh_peer r = sh_peer sh ∧ sh_timer r = sh_timer sh ∧
  w_sent (sh_world r) = w_sent (sh_world sh) ∧ (cc_inv (sh_cc sh) → cc_inv (sh_cc r)).
Proof.
  intros Hh. revert n sh. induction items as [|u items IH]; intros n sh; [done|].
  cbn [mark_pass]. specialize (Hh n u sh). destruct (h n u sh) as [b sh1]. cbn [snd] in Hh.
  specialize (IH (seq_add n 1) sh1). destruct (mark_pass h _ items sh1) as [l sh2].
  cbn [snd] in *. destruct Hh as (<-&<-&<-&?), IH as (<-&<-&<-&?). split_and!; auto.
Qed.

Lemma nack_hit_frame packet n u sh :
  let r := (nack_hit packet n u sh).2 in
  sh_peer r = sh_peer sh ∧ sh_timer r = sh_timer sh ∧
  w_sent (sh_world r) = w_sent (sh_world sh) ∧ (cc_inv (sh_cc sh) → cc_inv (sh_cc r)).
Proof. unfold nack_hit. by destruct (NegativeAckPacket.contains_from _ n). Qed.

Lemma timeout_hit_frame n u sh :
  let r := (timeout_hit n u sh).2 in
  sh_peer r = sh_peer sh ∧ sh_timer r = sh_timer sh ∧
  w_sent (sh_world r) = w_sent (sh_world sh) ∧ (cc_inv (sh_cc sh) → cc_inv (sh_cc r)).
Proof. unfold timeout_hit. by destruct (ptime_ltb _ _). Qed.

(** ** Properties *)

(** An acknowledgement as decoding gives it. *)
Definition ack_fields_ok (p : AckPacket.t) : Prop :=
  0 ≤ AckPacket.PacketSequenceNumber p ∧ is_u32 (AckPacket.RoundTripTime p) ∧
  is_u32 (AckPacket.RoundTripTimeVariance p) ∧ is_u32 (AckPacket.AvailableBufferSize p).

Inductive sender_event :=
  | SAddData (data : list Z)
  | SAck (p : AckPacket.t)
  | SNegativeAck (p : NegativeAckPacket.t)
  | STick
  | SClose.

Definition sender_event_ok (e : sender_event) : Prop :=
  match e with SAddData data => bytes_ok data | SAck p => ack_fields_ok p | _ => True end.

Definition sender_step (e : sender_event) : M (Sender * Shared) unit :=
  match e with
  | SAddData data => AddData data;; mret tt
  | SAck p => HandleAck p
  | SNegativeAck p => HandleNegativeAck p
  | STick => HandleTick
  | SClose => NotifyClose
  end.

Fixpoint sender_run (es : list sender_event) : M (Sender * Shared) unit :=
  match es with [] => mret tt | e :: es => sender_step e;; sender_run es end.

Definition inv (st : Sender * Shared) : Prop := sender_ok st.1 ∧ shared_ok st.2.

Lemma inv_do_send s sh : sender_ok s → shared_ok sh → inv (do_send_result s sh).
Proof.
  intros Hs [Hc Hp]. destruct (do_send_frame s sh) as (_&E1&E2&_).
  split; [by apply do_send_ok|]. unfold shared_ok. by rewrite E1, E2.
Qed.

Lemma after_ack_ok p sh : ack_fields_ok p → shared_ok sh → shared_ok (after_ack p sh).
Proof.
  intros (_&?&?&?) [Hc Hp]. split; [|done]. cbn [after_ack after_send with_world sh_cc].
  destruct (AckPacket.HasOptionalFields p); [by apply OnAck_inv|done].
Qed.

Lemma wp_sender_step e st : inv st → sender_event_ok e → wp (sender_step e) st (λ _ st', inv st').
Proof.
  destruct st as [s sh]. intros [Hs Hsh] He. cbn [fst snd] in *.
  destruct e as [data|p|p| |]; cbn [sender_step].
  - apply wp_bind, wp_AddData; [done..|]. apply wp_ret.
    apply inv_do_send; [by apply sender_ok_added|done].
  - apply wp_HandleAck; [done|apply He|]. unfold handle_ack_result.
    destruct (acknowledges _ s) eqn:Ea.
    + apply inv_do_send; [|by apply after_ack_ok]. apply sender_ok_dropped; [|done].
      apply acknowledges_spec; [apply Hs|apply He|done].
    + split; [done|by apply after_ack_ok].
  - apply wp_HandleNegativeAck; [done|]. unfold handle_nack_result.
    destruct (mark_pass_frame (nack_hit p) (begin_ (unacked_packets_ s))
      (items_ (unacked_packets_ s)) sh (nack_hit_frame p)) as (E1&_&_&E2).
    apply inv_do_send; [apply sender_ok_with_items; [apply mark_pass_packets|done]|].
    destruct Hsh. split; [auto|by rewrite E1].
  - apply sender_wp_HandleTick; [done|]. unfold handle_tick_result.
    destruct (ptime_leb _ _); [|by apply inv_do_send].
    set (sh1 := with_world _ sh).
    destruct (mark_pass_frame timeout_hit (begin_ (unacked_packets_ s))
      (items_ (unacked_packets_ s)) sh1 timeout_hit_frame) as (E1&_&_&E2).
    apply inv_do_send; [apply sender_ok_with_items; [apply mark_pass_packets|done]|].
    destruct Hsh. split; [auto|by rewrite E1].
  - by apply wp_NotifyClose.
Qed.

(** The sender is safe whatever the application, the peer and the clock
    do: from a window with any initial sequence number, no sequence of
    writes, acknowledgements (of any number, with any contents),
    negative acknowledgements, ticks and closings fails an assertion, reads
    outside a container or loops forever, and afterwards the window still
    holds at most 512 non-empty packets of at most 25950 bytes, numbered
    consecutively around the 31-bit sequence space. *)
Theorem sender_never_faults (n : Z) (es : list sender_event) (sh : Shared) :
  is_seq n → shared_ok sh → Forall sender_event_ok es →
  ∃ s' sh', sender_run es (MkSender (new_window n) not_a_date_time, sh) = Ok (tt, (s', sh')) ∧
    Size (unacked_packets_ s') ≤ 512 ∧
    ∀ i u, items_ (unacked_packets_ s') !! i = Some u →
      DataPacket.PacketSequenceNumber (packet u) =
        (begin_ (unacked_packets_ s') + Z.of_nat i) `mod` 2147483648 ∧
      1 ≤ Z.of_nat (length (DataPacket.Data (packet u))) ≤ 25950.
Proof.
  intros Hn Hsh Hes.
  assert (∀ st, inv st → wp (sender_run es) st (λ _ st', inv st')) as Hrun.
  { induction Hes as [|e es He _ IH]; intros st Hst; [by apply wp_ret|].
    cbn [sender_run]. apply wp_bind. eapply wp_mono; [by apply wp_sender_step|].
    intros [] st' Hst'. by apply IH. }
  specialize (Hrun (MkSender (new_window n) not_a_date_time, sh)).
  apply wp_Ok in Hrun as ([]&[s' sh']&E&[Hwf Hp]&_);
    [|split; [split; [by apply wf_new_window|done]|done]].
  exists s', sh'. split; [exact E|]. cbn [fst] in *.
  split; [apply (wf_size _ Hwf)|]. intros i u (_&E1&Hl)%Hp.
  split; [exact E1|]. unfold RudpParameters.max_data_size in Hl. lia.
Qed.

(** C5: [AddData] accepts exactly as many bytes as fit: with [f] free slots and
    data packets of [size] bytes it takes the first [min (f * size) length]
    bytes, cut in order into new packets that follow the ones already in the window
    with consecutive numbers; the [i]-th holds the [size] bytes from [i * size] on, or
    the rest if there are fewer, and none is empty; nothing already accepted is
    touched. *)
Theorem add_data_accepts_prefix (s : Sender) (sh : Shared) (data : list Z) :
  sender_ok s → shared_ok sh → bytes_ok data →
  let free := (Z.to_nat (SendWindowSize (sh_cc sh) - Size (unacked_packets_ s))) in
  let size := Z.to_nat (SendDataSize (sh_cc sh)) in
  ∃ k s' sh' chunks, AddData data (s, sh) = Ok (k, (s', sh')) ∧
    k = ((free * size) `min` length data)%nat ∧
    concat chunks = take k data ∧ (length chunks ≤ free)%nat ∧
    (∀ i d, chunks !! i = Some d → d = take size (drop (i * size) data) ∧ (0 < length d ≤ size)%nat) ∧
    packet <$> items_ (unacked_packets_ s') =
      (packet <$> items_ (unacked_packets_ s)) ++
      (packet <$> new_packets (GetNextPacketSequenceNumber s) (peer_id (sh_peer sh)) chunks) ∧
    GetNextPacketSequenceNumber s' =
      seq_add (GetNextPacketSequenceNumber s) (Z.of_nat (length chunks)) ∧
    begin_ (unacked_packets_ s') = begin_ (unacked_packets_ s).
Proof.
  intros Hs Hsh Hb free size.
  assert (wp (AddData data) (s, sh) (λ k st, k = length (concat (add_data_chunks s sh data)) ∧
    st = do_send_result (added s sh data) sh)) as Hw by (by apply wp_AddData).
  apply wp_Ok in Hw as (k&[s' sh']&E&Ek&Est).
  destruct (add_data_chunks_ok s sh data Hsh Hb) as (_&Hlen&Hcat). fold free size in Hlen, Hcat.
  assert (k = ((free * size) `min` length data)%nat) as Hk by (by rewrite Ek, Hcat, length_take).
  exists k, s', sh', (add_data_chunks s sh data). split; [done|]. split; [done|].
  destruct (do_send_frame (added s sh data) sh) as ((Ep&Eb&Ee&_)&_).
  rewrite <-Est in Ep, Eb, Ee. cbn [fst] in *. split_and!.
  - rewrite Hcat, Hk. by rewrite <-take_take, firstn_all.
  - done.
  - intros i d. apply split_data_lookup. destruct Hsh as [((Hd&_)&_) _].
    unfold SendDataSize, RudpParameters.default_data_size in *. lia.
  - rewrite Ep. cbn [added appended with_maximum set_window unacked_packets_ items_ SetMaximumSize end_].
    by rewrite fmap_app.
  - unfold GetNextPacketSequenceNumber, End. by rewrite Ee.
  - by rewrite Eb.
Qed.

(** C6: An acknowledgement of number [n] removes exactly the packets before
    [n]: if [n] is [i] steps after the first number of the window and the
    window has at least [i] packets, the first [i] packets go and the others
    keep their numbers; any other acknowledgement (stale, or not yet sent)
    leaves the window alone.  The acknowledgement is answered in every
    case. *)
Theorem handle_ack_removes_acknowledged (s : Sender) (sh : Shared) (p : AckPacket.t) :
  sender_ok s → ack_fields_ok p →
  let n := AckPacket.PacketSequenceNumber p in
  let i := Z.to_nat (seq_sub n (begin_ (unacked_packets_ s))) in
  ∃ s' sh', HandleAck p (s, sh) = Ok (tt, (s', sh')) ∧
    (if bool_decide (n < 2147483648 ∧ (i ≤ length (items_ (unacked_packets_ s)))%nat) then
       packet <$> items_ (unacked_packets_ s') = drop i (packet <$> items_ (unacked_packets_ s)) ∧
       begin_ (unacked_packets_ s') = n ∧
       end_ (unacked_packets_ s') = end_ (unacked_packets_ s)
     else s' = s) ∧
    ∃ later, w_sent (sh_world sh') = later ++
      Datagram _ (peer_endpoint (sh_peer sh)) (wire_bytes (ack_of_ack_for p sh)) ::
      w_sent (sh_world sh).
Proof.
  intros Hs (Hn&_) n i.
  assert (wp (HandleAck p) (s, sh) (λ _ st, st = handle_ack_result p s sh)) as Hw
    by (by apply wp_HandleAck).
  apply wp_Ok in Hw as ([]&[s' sh']&E&Est). exists s', sh'. split; [done|].
  pose proof (proj1 Hs) as Hwf. unfold handle_ack_result in Est. fold n in Est.
  assert (acknowledges n s =
    bool_decide (n < 2147483648 ∧ (i ≤ length (items_ (unacked_packets_ s)))%nat)) as Ea.
  { destruct (acknowledges n s) eqn:Ea.
    - destruct (acknowledges_spec n s Hwf Hn Ea) as [Hi En]. symmetry.
      apply bool_decide_true. split; [|exact Hi].
      rewrite En. apply seq_add_is_seq.
    - symmetry. apply bool_decide_false. intros [Hlt Hi].
      assert (is_seq n) as Hsn by done. apply orb_false_iff in Ea as [Ea1 Ea2].
      rewrite Contains_spec in Ea1 by done. apply Z.eqb_neq in Ea2. apply Ea2.
      unfold End. rewrite (length_items_End _ Hwf).
      rewrite <-(seq_add_sub n (begin_ (unacked_packets_ s)) Hsn).
      pose proof (seq_sub_is_seq n (begin_ (unacked_packets_ s))) as [? _].
      f_equal. unfold Size, i in *. lia. }
  rewrite <-Ea. destruct (acknowledges n s) eqn:Eack.
  - destruct (acknowledges_spec n s Hwf Hn Eack) as [Hi En].
    destruct (do_send_frame (dropped (acked_count n s) s) (after_ack p sh))
      as ((Ep&Eb&Ee&_)&_&_&new&Enew&_). rewrite <-Est in *. cbn [fst snd] in *. split.
    + rewrite Ep, Eb, Ee. cbn [dropped set_window unacked_packets_ items_ begin_ end_].
      split_and!; [|by rewrite <-En|done]. by rewrite fmap_drop.
    + exists new. by rewrite Enew.
  - injection Est as -> ->. split; [done|]. by exists [].
Qed.

Lemma mark_pass_nack p n items sh :
  (mark_pass (nack_hit p) n items sh).1 =
  imap (λ i u, if NegativeAckPacket.contains_from (NegativeAckPacket.sequence_numbers_ p)
                   (seq_add n (Z.of_nat i)) then mark_lost u else u) items
  ∨ ¬ is_seq n.
Proof.
  destruct (decide (is_seq n)) as [Hn|]; [left|by right].
  revert n sh Hn. induction items as [|u items IH]; intros n sh Hn; [done|].
  cbn [mark_pass imap]. rewrite seq_add_0 by done.
  assert ((nack_hit p n u sh).1 =
    NegativeAckPacket.contains_from (NegativeAckPacket.sequence_numbers_ p) n) as Eh
    by (unfold nack_hit; by destruct (NegativeAckPacket.contains_from _ n)).
  destruct (nack_hit p n u sh) as [b sh1]. cbn [fst] in Eh. subst b.
  specialize (IH (seq_add n 1) sh1 (seq_add_is_seq _ _)).
  destruct (mark_pass _ _ items sh1) as [l sh2]. cbn [fst] in *. f_equal. rewrite IH.
  apply imap_ext. intros i u' _. unfold compose.
  rewrite seq_add_add. by replace (1 + Z.of_nat i) with (Z.of_nat (S i)) by lia.
Qed.

(** A negative acknowledgement makes the sender retransmit: on a network
    that takes datagrams, the first packet that was marked lost before or is
    reported by the negative acknowledgement is sent again at once, byte for
    byte as it was, and no other datagram is. *)
Theorem negative_ack_retransmits (s : Sender) (sh : Shared) (p : NegativeAckPacket.t)
    (i : nat) (u : UnackedPacket) :
  reliable → sender_ok s →
  let w := unacked_packets_ s in
  let reported j := NegativeAckPacket.contains_from (NegativeAckPacket.sequence_numbers_ p)
                      (seq_add (begin_ w) (Z.of_nat j)) in
  items_ w !! i = Some u → lost u || reported i = true →
  (∀ j u', (j < i)%nat → items_ w !! j = Some u' → lost u' || reported j = false) →
  ∃ s' sh', HandleNegativeAck p (s, sh) = Ok (tt, (s', sh')) ∧
    w_sent (sh_world sh') =
      Datagram _ (peer_endpoint (sh_peer sh)) (wire_bytes (packet u)) :: w_sent (sh_world sh) ∧
    ∃ u', items_ (unacked_packets_ s') !! i = Some u' ∧ lost u' = false ∧ packet u' = packet u.
Proof.
  intros Hr Hs w reported Hu Hlost Hfirst.
  assert (wp (HandleNegativeAck p) (s, sh) (λ _ st, st = handle_nack_result p s sh)) as Hw
    by (by apply wp_HandleNegativeAck).
  apply wp_Ok in Hw as ([]&[s' sh']&E&Est). exists s', sh'. split; [done|].
  unfold handle_nack_result in Est. fold w in Est.
  destruct (mark_pass_frame (nack_hit p) (begin_ w) (items_ w) sh (nack_hit_frame p))
    as (Epeer&_&Esent&_).
  destruct (mark_pass_nack p (begin_ w) (items_ w) sh) as [El|Hbad];
    [|by destruct Hbad; apply (proj1 Hs)].
  destruct (mark_pass _ _ _ sh) as [l sh1]. cbn [fst snd] in *. unfold do_send_result in Est.
  rewrite attempt_reliable in Est by done.
  cbn [with_items set_window unacked_packets_ items_] in Est.
  set (u1 := if reported i then mark_lost u else u).
  assert (list_find (λ u, lost u = true) l = Some (i, u1)) as Hfind.
  { apply list_find_Some. rewrite El. split_and!.
    - rewrite list_lookup_imap, Hu. done.
    - unfold u1. fold (reported i). destruct (reported i); [done|]. by rewrite orb_false_r in Hlost.
    - intros j u' Hj Hlt. rewrite list_lookup_imap in Hj. apply fmap_Some_1 in Hj as (u0&Hu0&->).
      specialize (Hfirst j u0 Hlt Hu0). apply orb_false_iff in Hfirst as [Hf1 Hf2].
      unfold reported in Hf2. rewrite Hf2. by rewrite Hf1. }
  rewrite Hfind in Est. injection Est as -> ->. cbn [Nat.add].
  assert (packet u1 = packet u) as Epk by (unfold u1; by destruct (reported i)).
  split.
  - unfold after_send, with_world, sent_from, tick. cbn [sh_world w_sent sh_peer].
    by rewrite Epk, Epeer, Esent.
  - exists (mark_sent (clock (w_clock (sh_world sh1))) u1). split; [|done].
    cbn [alter_item set_window unacked_packets_ items_ with_items].
    rewrite list_lookup_alter, decide_True by done.
    apply list_find_Some in Hfind as (Hl&_). by rewrite Hl.
Qed.

(** C11: Retransmission on timeout: when the send timeout has passed, the oldest
    unacknowledged packet was sent longer ago than the timeout (by the reading of the
    clock made for it), and the network takes what is sent, a tick sends that packet
    again, unchanged, and nothing else (not the whole buffer, as a comment in DoSend has
    it), and arms the tick timer for the next send. *)
Theorem tick_retransmits_oldest (s : Sender) (sh : Shared) (u : UnackedPacket)
    (rest : list UnackedPacket) :
  reliable → sender_ok s → items_ (unacked_packets_ s) = u :: rest →
  ptime_leb (send_timeout_ s) (clock (w_clock (sh_world sh))) = true →
  ptime_ltb (ptime_add (last_send_time u) (SendTimeout (sh_cc sh)))
    (clock (S (w_clock (sh_world sh)))) = true →
  ∃ s' sh' now, HandleTick (s, sh) = Ok (tt, (s', sh')) ∧
    w_sent (sh_world sh') =
      Datagram _ (peer_endpoint (sh_peer sh)) (wire_bytes (packet u)) :: w_sent (sh_world sh) ∧
    sh_timer sh' = timer_TickAt (ptime_add now (SendDelay (sh_cc sh'))) (sh_timer sh) ∧
    (∃ u' rest', items_ (unacked_packets_ s') = u' :: rest' ∧ packet u' = packet u ∧
       lost u' = false ∧ last_send_time u' = now).
Proof.
  intros Hr Hs Hi Ht Hu.
  assert (wp HandleTick (s, sh) (λ _ st, st = handle_tick_result s sh)) as Hw
    by (by apply sender_wp_HandleTick).
  apply wp_Ok in Hw as ([]&[s' sh']&E&Est).
  unfold handle_tick_result in Est. rewrite Ht in Est.
  set (sh1 := with_world _ sh) in Est.
  destruct (mark_pass_frame timeout_hit (begin_ (unacked_packets_ s))
    (items_ (unacked_packets_ s)) sh1 timeout_hit_frame) as (Epeer&Etimer&Esent&_).
  rewrite Hi in Est, Epeer, Etimer, Esent. cbn [mark_pass] in *.
  assert ((timeout_hit (begin_ (unacked_packets_ s)) u sh1).1 = true) as Eh.
  { unfold timeout_hit. cbn [sh1 sh_cc with_world sh_world tick w_clock]. by rewrite Hu. }
  destruct (timeout_hit _ u sh1) as [b sh2]. cbn [fst] in Eh. subst b.
  destruct (mark_pass _ _ rest sh2) as [l sh3]. cbn [fst snd] in *.
  unfold do_send_result in Est. rewrite attempt_reliable in Est by done.
  cbn [with_items set_window unacked_packets_ items_ list_find mark_lost lost decide] in Est.
  rewrite decide_True in Est by done. injection Est as -> ->.
  eexists _, _, (clock (w_clock (sh_world sh3))). split; [exact E|]. split_and!.
  - unfold after_send, with_world, sent_from, tick. cbn [sh_world w_sent sh_peer].
    by rewrite Epeer, Esent.
  - unfold after_send, with_world. cbn [sh_timer sh_cc]. by rewrite Etimer.
  - by eexists _, _.
Qed.

Lemma attempt_nothing_lost items i sh :
  Forall (λ u, lost u = false) items → attempt items i sh = (None, sh).
Proof.
  intros Hl. revert i. induction Hl as [|u l Hu _ IH]; intros i; [done|].
  cbn [attempt]. by rewrite Hu.
Qed.

(** A tick that finds nothing lost and the send timeout still ahead sends
    nothing and leaves the tick timer as it is.  [RudpTickOp] resets the timer
    to infinity before the tick, so although unacknowledged packets wait and
    their timeout is recorded, no tick is scheduled that could notice it. *)
Theorem quiet_tick_arms_no_timer (s : Sender) (sh : Shared) :
  sender_ok s → Forall (λ u, lost u = false) (items_ (unacked_packets_ s)) →
  ptime_ltb (clock (w_clock (sh_world sh))) (send_timeout_ s) = true →
  ∃ s' sh', HandleTick (s, sh) = Ok (tt, (s', sh')) ∧
    unacked_packets_ s' = unacked_packets_ s ∧
    w_sent (sh_world sh') = w_sent (sh_world sh) ∧ sh_timer sh' = sh_timer sh.
Proof.
  intros Hs Hl Ht.
  assert (wp HandleTick (s, sh) (λ _ st, st = handle_tick_result s sh)) as Hw
    by (by apply sender_wp_HandleTick).
  apply wp_Ok in Hw as ([]&[s' sh']&E&Est). exists s', sh'. split; [done|].
  unfold handle_tick_result, ptime_leb in Est. rewrite Ht in Est. cbn [negb] in Est.
  unfold do_send_result in Est. set (sh1 := with_world _ (with_world _ sh)) in Est.
  rewrite attempt_nothing_lost in Est by done. injection Est as -> ->. split_and!; try done. by destruct (items_ _).
Qed.
End theory.

(** ** Examples *)
Module SenderExamples.
Import Demo.

Definition start : Sender * Shared :=
  (MkSender (new_window 0x7fffffff) not_a_date_time, shared_at 2 9).

Lemma sender_start_ok : sender_ok start.1 ∧ shared_ok start.2.
Proof.
  split.
  - split; [by apply wf_new_window|]. intros i u Hu. done.
  - split; [apply new_congestion_control_inv|by vm_compute].
Qed.

Definition ack (n : Z) : AckPacket.t := AckPacket.SetPacketSequenceNumber n AckPacket.init.

Definition traffic : list sender_event :=
  [SAddData (replicate 1460 7); SAck (ack 0); STick;
   SNegativeAck (NegativeAckPacket.Mk (ControlPacket.Mk 3 0 0 0) [0]); SAck (ack 5); SClose].

Lemma sender_never_faults_witness :
  ∃ s' sh', sender_run traffic start = Ok (tt, (s', sh')) ∧
    Size (unacked_packets_ s') ≤ 512 ∧
    ∀ i u, items_ (unacked_packets_ s') !! i = Some u →
      DataPacket.PacketSequenceNumber (packet u) =
        (begin_ (unacked_packets_ s') + Z.of_nat i) `mod` 2147483648 ∧
      1 ≤ Z.of_nat (length (DataPacket.Data (packet u))) ≤ 25950.
Proof.
  apply (sender_never_faults 0x7fffffff traffic (shared_at 2 9)).
  - by vm_compute.
  - apply sender_start_ok.
  - unfold traffic. constructor; [apply Forall_replicate; by vm_compute|].
    repeat constructor; by vm_compute.
Defined.

(** Two packets of 1450 and 10 bytes; the numbers wrap around. *)
Lemma add_data_accepts_prefix_witness :
  ∃ k s' sh' chunks, AddData (replicate 1460 7) start = Ok (k, (s', sh')) ∧ k = 1460%nat ∧
    concat chunks = replicate 1460 7 ∧
    packet <$> items_ (unacked_packets_ s') = packet <$> new_packets 0x7fffffff 9 chunks.
Proof.
  destruct (add_data_accepts_prefix start.1 start.2 (replicate 1460 7))
    as (k&s'&sh'&chunks&E&Hk&Hc&_&_&Hi&_); [apply sender_start_ok..| |].
  { apply Forall_replicate. by vm_compute. }
  exists k, s', sh', chunks.
  assert (k = 1460%nat) as -> by (rewrite Hk; by vm_compute).
  split_and!; [exact E|done| |exact Hi]. rewrite Hc. by vm_compute.
Defined.

Definition at_us (t : Z) : @ptime (@env_time sim) := Sim.At t.
Definition sent (d : Z) (n : Z) (t : Z) (b : bool) : UnackedPacket :=
  MkUnacked (chunk_packet n 9 [d]) b (at_us t).
(** Two packets in flight, numbered 2147483647 and 0. *)
Definition two (b : bool) (timeout : ptime) : Sender :=
  MkSender (MkWindow [sent 1 0x7fffffff 0 b; sent 2 0 0 false] 16 0x7fffffff 1) timeout.

Lemma sent_ok d n t b : is_u8 d → 0 ≤ n ≤ 0x7fffffff → packet_ok n (sent d n t b).
Proof.
  intros Hd Hn. unfold packet_ok, DataPacket.wf, sent, RudpParameters.max_data_size, is_u32.
  cbn. split_and!; try done; try lia. by constructor.
Qed.

Lemma two_ok b timeout : sender_ok (two b timeout).
Proof.
  split; [by vm_compute|]. intros [|[|i]] u Hu; simpl in Hu; simplify_eq; by apply sent_ok.
Qed.

Lemma handle_ack_removes_acknowledged_witness :
  ∃ s' sh', HandleAck (ack 0) (two false not_a_date_time, shared_at 2 9) = Ok (tt, (s', sh')) ∧
    (packet <$> items_ (unacked_packets_ s')) = [chunk_packet 0 9 [2]].
Proof.
  destruct (handle_ack_removes_acknowledged (two false not_a_date_time) (shared_at 2 9) (ack 0))
    as (s'&sh'&E&Hi&_).
  - apply two_ok.
  - by vm_compute.
  - exists s', sh'. split; [exact E|]. rewrite bool_decide_true in Hi.
    + destruct Hi as (->&_). reflexivity.
    + split; [done|]. vm_compute. lia.
Defined.

Lemma negative_ack_retransmits_witness :
  ∃ s' sh', HandleNegativeAck (NegativeAckPacket.Mk (ControlPacket.Mk 3 0 0 0) [0])
      (two false not_a_date_time, shared_at 2 9) = Ok (tt, (s', sh')) ∧
    w_sent (sh_world sh') = [Datagram _ (remote 2) (wire_bytes (chunk_packet 0 9 [2]))].
Proof.
  destruct (negative_ack_retransmits (two false not_a_date_time) (shared_at 2 9)
    (NegativeAckPacket.Mk (ControlPacket.Mk 3 0 0 0) [0]) 1 (sent 2 0 0 false))
    as (s'&sh'&E&Hsent&_).
  - intros l. reflexivity.
  - apply two_ok.
  - reflexivity.
  - by vm_compute.
  - intros [|j] u' Hj Hu'; [|lia]. simpl in Hu'. simplify_eq. by vm_compute.
  - exists s', sh'. split; [exact E|exact Hsent].
Defined.

Definition later : Shared := with_world (MkWorld _ 1500 0 []) (shared_at 2 9).

Lemma tick_retransmits_oldest_witness :
  ∃ s' sh', HandleTick (two false (at_us 1000000), later) = Ok (tt, (s', sh')) ∧
    w_sent (sh_world sh') = [Datagram _ (remote 2) (wire_bytes (chunk_packet 0x7fffffff 9 [1]))].
Proof.
  destruct (tick_retransmits_oldest (two false (at_us 1000000)) later
    (sent 1 0x7fffffff 0 false) [sent 2 0 0 false]) as (s'&sh'&now&E&Hsent&_).
  - intros l. reflexivity.
  - apply two_ok.
  - reflexivity.
  - by vm_compute.
  - by vm_compute.
  - exists s', sh'. split; [exact E|exact Hsent].
Defined.

Lemma quiet_tick_arms_no_timer_witness :
  ∃ s' sh', HandleTick (two false pos_infin, later) = Ok (tt, (s', sh')) ∧
    w_sent (sh_world sh') = [] ∧ expires_at (sh_timer sh') = pos_infin.
Proof.
  destruct (quiet_tick_arms_no_timer (two false pos_infin) later) as (s'&sh'&E&_&Hsent&Ht).
  - apply two_ok.
  - repeat constructor.
  - by vm_compute.
  - exists s', sh'. split; [exact E|]. by rewrite Hsent, Ht.
Defined.

(** The tick operation at millisecond [ms]: if the timer has expired, it is
    reset and the sender gets its tick. *)
Definition ring (ms : nat) : M (Sender * Shared) unit :=
  shared (modify (λ sh, with_world
    (MkWorld _ ms (w_random (sh_world sh)) (w_sent (sh_world sh))) sh));;
  b ← shared Expired;
  if b : bool then shared ResetTimer;; HandleTick else throw AssertionFailed.

(** A packet that is lost twice is never sent again: three bytes are
    written, neither the packet nor any acknowledgement arrives; the timer
    rings after one second (the packet is sent a second time) and after two
    (nothing is sent); then the tick timer stands at infinity although the
    packet is still unacknowledged. *)
Theorem lost_packet_sent_twice_only :
  match (AddData [1; 2; 3];; ring 1100;; ring 2200) start with
  | Ok (_, (s, sh)) =>
      Some (length (w_sent (sh_world sh)), Flushed s,
            ptime_eqb (expires_at (sh_timer sh)) pos_infin)
  | Fault _ => None
  end = Some (2%nat, false, true).
Proof. by vm_compute. Qed.
End SenderExamples.
