(* ===== verification/Receiver.v ===== *)
(** * The receiver

    Models src/maidsafe/transport/rudp_receiver.cc: the window of packets that
    arrived (or are awaited) and were not yet read by the application, and the
    window of acknowledgements that were sent and not yet answered.
    [HandleData] stores arriving packets, [ReadData] hands their bytes to the
    application in order, [HandleTick] sends acknowledgements and negative
    acknowledgements, [HandleAckOfAck] retires them. *)

From S2P Require Import Prelude Environment Packet ControlPackets Transport SlidingWindow.
From S2P Require Import CongestionControl Shared.
From S2P Require DataPacket NegativeAckPacket.

Record UnreadPacket `{Environment} := MkUnread {
  packet : DataPacket.t;
  lost : bool;
  bytes_read : nat;
  reserve_time : ptime;
}.
Arguments MkUnread {_}.

Record Ack `{Environment} := MkAck {
  ack_packet : AckPacket.t;
  send_time : ptime;
}.
Arguments MkAck {_}.

Record Receiver `{Environment} := MkReceiver {
  unread_packets_ : Window UnreadPacket;
  acks_ : Window Ack;
  last_ack_packet_sequence_number_ : Z;
  ack_sent_time_ : ptime;
}.
Arguments MkReceiver {_}.

Section receiver.
Context `{Environment}.

(** The constructors of window items read the clock. *)
Definition new_unread (t : ptime) : UnreadPacket := MkUnread DataPacket.new true 0 t.
Definition new_ack (p : AckPacket.t) (t : ptime) : Ack := MkAck p t.

Definition new_receiver (fuel : nat) : M World Receiver :=
  unread ← default_window fuel;
  acks ← default_window fuel;
  t ← Now;
  mret (MkReceiver unread acks 0 t).

Definition set_unread (w : Window UnreadPacket) (r : Receiver) : Receiver :=
  MkReceiver w (acks_ r) (last_ack_packet_sequence_number_ r) (ack_sent_time_ r).
Definition set_acks (w : Window Ack) (r : Receiver) : Receiver :=
  MkReceiver (unread_packets_ r) w (last_ack_packet_sequence_number_ r) (ack_sent_time_ r).
Definition set_last_ack (n : Z) (r : Receiver) : Receiver :=
  MkReceiver (unread_packets_ r) (acks_ r) n (ack_sent_time_ r).
Definition set_ack_sent_time (t : ptime) (r : Receiver) : Receiver :=
  MkReceiver (unread_packets_ r) (acks_ r) (last_ack_packet_sequence_number_ r) t.

(** [unread_packets_[n]] read, and assigned through a reference. *)
Definition unread (n : Z) : M (Receiver * Shared) UnreadPacket :=
  w ← self unread_packets_; liftR (at_ n w).
Definition upd_unread (n : Z) (f : UnreadPacket → UnreadPacket) : M (Receiver * Shared) unit :=
  w ← self unread_packets_;
  w ← liftR (update n f w);
  upd_self (set_unread w).
Definition remove_unread : M (Receiver * Shared) unit :=
  w ← self unread_packets_;
  w ← liftR (Remove w);
  upd_self (set_unread w).
Definition remove_ack : M (Receiver * Shared) unit :=
  w ← self acks_;
  w ← liftR (Remove w);
  upd_self (set_acks w).

Definition Reset (initial_sequence_number : Z) : M (Receiver * Shared) unit :=
  w ← self unread_packets_;
  w ← liftR (SlidingWindow.Reset initial_sequence_number w);
  upd_self (set_unread w);;
  upd_self (set_last_ack initial_sequence_number).

(** [while (n != End() && !unread_packets_[n].lost) n = Next(n);] *)
Fixpoint first_lost_from (fuel : nat) (n : Z) (w : Window UnreadPacket) : Res Z :=
  match fuel with
  | O => Fault OutOfFuel
  | S fuel' =>
      if n =? End w then Ok n
      else
        p ← at_ n w;
        if lost p then Ok n else first_lost_from fuel' (Next n) w
  end.

Definition AckPacketSequenceNumber (r : Receiver) : Res Z :=
  let w := unread_packets_ r in first_lost_from (S (length (items_ w))) (Begin w) w.

Definition AvailableBufferSize (r : Receiver) : Res Z :=
  let w := unread_packets_ r in
  let free_packets := if IsFull w then 0 else u64 (MaximumSize w - Size w) in
  if u64 (free_packets * RudpParameters.max_data_size) <? 2 ^ 32 - 1
  then Ok (u32 (u64 (free_packets * RudpParameters.max_data_size)))
  else Fault AssertionFailed.

Definition Flushed (r : Receiver) : Res bool :=
  ack_packet_seqnum ← AckPacketSequenceNumber r;
  Ok (IsEmpty (acks_ r) && (ack_packet_seqnum =? last_ack_packet_sequence_number_ r)).

Definition read_more (k : nat) (p : UnreadPacket) : UnreadPacket :=
  MkUnread (packet p) (lost p) (bytes_read p + k) (reserve_time p).

(** One test of the condition of [ReadData]'s loop and its body. *)
Definition read_step (size : nat) : Z * list Z → M (Receiver * Shared) (Z * list Z + list Z) :=
  λ '(n, out),
    w ← self unread_packets_;
    if negb (n =? End w) && (length out <? size)%nat then
      p ← unread n;
      if lost p then mret (inr out)
      else if (bytes_read p <? length (DataPacket.Data (packet p)))%nat then
        let k := ((size - length out) `min`
                  (length (DataPacket.Data (packet p)) - bytes_read p))%nat in
        let out := out ++ take k (drop (bytes_read p) (DataPacket.Data (packet p))) in
        upd_unread n (read_more k);;
        p ← unread n;
        when (length (DataPacket.Data (packet p)) =? bytes_read p)%nat remove_unread;;
        mret (inl (Next n, out))
      else
        remove_unread;;
        mret (inl (Next n, out))
    else mret (inr out).

(** Returns the bytes copied into a buffer of [size] bytes. *)
Definition ReadData (size : nat) : M (Receiver * Shared) (list Z) :=
  w ← self unread_packets_;
  loop (S (length (items_ w))) (read_step size) (Begin w, []).

Definition fill (p : DataPacket.t) (u : UnreadPacket) : UnreadPacket :=
  MkUnread p false 0 (reserve_time u).

Definition HandleData (p : DataPacket.t) : M (Receiver * Shared) unit :=
  size ← cc_get ReceiveWindowSize;
  w ← self unread_packets_;
  upd_self (set_unread (SetMaximumSize size w));;
  let seqnum := DataPacket.PacketSequenceNumber p in
  w ← self unread_packets_;
  while_ (S (Z.to_nat (MaximumSize w)))
    (w ← self unread_packets_; mret (IsComingSoon seqnum w && negb (IsFull w)))
    (t ← shared now;
     w ← self unread_packets_;
     r ← liftR (Append (new_unread t) w);
     upd_self (set_unread r.2));;
  w ← self unread_packets_;
  when (Contains seqnum w) (
    u ← unread seqnum;
    when (lost u) (
      shared (in_cc (OnDataPacketReceived seqnum));;
      upd_unread seqnum (fill p)));;
  expired ← shared Expired;
  when expired (delay ← cc_get ReceiveDelay; shared (TickAfter delay)).

Definition UINT32_MAX : Z := 4294967295.

Definition HandleAckOfAck (p : AckOfAckPacket.t) : M (Receiver * Shared) unit :=
  let ack_seqnum := AckOfAckPacket.AckSequenceNumber p in
  w ← self acks_;
  when (Contains ack_seqnum w) (
    a ← liftR (at_ ack_seqnum w);
    t ← shared now;
    let rtt_us := u64 (ptime_sub t (send_time a)) in
    when (rtt_us <? UINT32_MAX) (shared (upd_cc (OnAckOfAck (u32 rtt_us)))));;
  w ← self acks_;
  while_ (S (length (items_ w)))
    (w ← self acks_; mret (Contains ack_seqnum w))
    remove_ack.

Definition Missing (p : UnreadPacket) (time_out : Z) : M Shared bool :=
  t ← now; mret (lost p && ptime_ltb (ptime_add (reserve_time p) time_out) t).

Definition reserve (t : ptime) (p : UnreadPacket) : UnreadPacket :=
  MkUnread (packet p) (lost p) (bytes_read p) t.

(** The first part of [HandleTick]: an acknowledgement is due. *)
Definition send_ack (now : ptime) (ack_packet_seqnum : Z) : M (Receiver * Shared) unit :=
  acks ← self acks_;
  when (IsFull acks) remove_ack;;
  c ← cc_get id;
  c ← liftR (OnGenerateAck ack_packet_seqnum c);
  shared (upd_cc (λ _, c));;
  t ← shared Shared.now;
  p ← liftR AckPacket.new;
  acks ← self acks_;
  r ← liftR (Append (new_ack p t) acks);
  let n := r.1 in
  upd_self (set_acks r.2);;
  pid ← peer_get peer_id;
  let p := AckPacket.SetDestinationSocketId pid p in
  let p := AckPacket.SetAckSequenceNumber n p in
  let p := AckPacket.SetPacketSequenceNumber ack_packet_seqnum p in
  let p := AckPacket.SetHasOptionalFields true p in
  c ← cc_get id;
  let p := AckPacket.SetRoundTripTime (RoundTripTime c) p in
  let p := AckPacket.SetRoundTripTimeVariance (RoundTripTimeVariance c) p in
  this ← self id;
  available ← liftR (AvailableBufferSize this);
  let p := AckPacket.SetAvailableBufferSize available p in
  let p := AckPacket.SetPacketsReceivingRate (PacketsReceivingRate c) p in
  let p := AckPacket.SetEstimatedLinkCapacity (EstimatedLinkCapacity c) p in
  acks ← self acks_;
  acks ← liftR (update n (λ _, MkAck p now) acks);
  upd_self (set_acks acks);;
  shared (Send p);;
  upd_self (set_last_ack ack_packet_seqnum).

Definition tick_acks (now : ptime) : M (Receiver * Shared) unit :=
  r ← self id;
  when (ptime_ltb (ack_sent_time_ r) now) (
    interval ← cc_get AckInterval;
    upd_self (set_ack_sent_time (ptime_add now interval));;
    r ← self id;
    ack_packet_seqnum ← liftR (AckPacketSequenceNumber r);
    timeout ← cc_get AckTimeout;
    due ← (if negb (ack_packet_seqnum =? last_ack_packet_sequence_number_ r) then mret true
           else if negb (IsEmpty (acks_ r)) then
             a ← liftR (Back (acks_ r));
             mret (ptime_leb (ptime_add (send_time a) timeout) now)
           else mret false);
    when due (send_ack now ack_packet_seqnum)).

(** The [do ... while] loop over a run of missing packets: from the first one,
    returns the last one and the number after it. *)
Definition missing_run (fuel : nat) (now : ptime) (timeout : Z) (n : Z) :
    M (Receiver * Shared) (Z * Z) :=
  loop fuel (λ n,
    let end' := n in
    upd_unread n (reserve now);;
    let n := Next n in
    w ← self unread_packets_;
    if n =? End w then mret (inr (end', n))
    else
      p ← unread n;
      b ← shared (Missing p timeout);
      mret (if b : bool then inl n else inr (end', n))) n.

Definition missing_packets (fuel : nat) (now : ptime) (timeout : Z)
    (negative_ack : NegativeAckPacket.t) : M (Receiver * Shared) NegativeAckPacket.t :=
  w ← self unread_packets_;
  loop fuel (λ '(n, negative_ack),
    w ← self unread_packets_;
    if n =? End w then mret (inr negative_ack)
    else
      p ← unread n;
      b ← shared (Missing p timeout);
      if b : bool then
        let begin := n in
        r ← missing_run fuel now timeout n;
        negative_ack ← liftR (if begin =? r.1
          then NegativeAckPacket.AddSequenceNumber begin negative_ack
          else NegativeAckPacket.AddSequenceNumbers begin r.1 negative_ack);
        mret (inl (r.2, negative_ack))
      else mret (inl (Next n, negative_ack))) (Begin w, negative_ack).

Definition HandleTick : M (Receiver * Shared) unit :=
  now ← shared now;
  tick_acks now;;
  negative_ack ← liftR NegativeAckPacket.new;
  pid ← peer_get peer_id;
  let negative_ack := NegativeAckPacket.SetDestinationSocketId pid negative_ack in
  w ← self unread_packets_;
  timeout ← cc_get ReceiveTimeout;
  negative_ack ← missing_packets (S (length (items_ w))) now timeout negative_ack;
  when (NegativeAckPacket.HasSequenceNumbers negative_ack) (
    shared (Send negative_ack);; mret tt);;
  w ← self unread_packets_;
  when (negb (IsEmpty w)) (delay ← cc_get ReceiveDelay; shared (TickAfter delay)).
End receiver.


Section theory.
Context `{Environment}.
Implicit Types (r : Receiver) (sh : Shared).

(** ** Access to the windows *)

Definition items_with (l : list UnreadPacket) (b : Z) r : Receiver :=
  let w := unread_packets_ r in
  set_unread (MkWindow l (maximum_size_ w) b (end_ w)) r.

Lemma wp_unread r sh n i u (Q : UnreadPacket → Receiver * Shared → Prop) :
  wf (unread_packets_ r) → n = seq_add (begin_ (unread_packets_ r)) (Z.of_nat i) →
  items_ (unread_packets_ r) !! i = Some u → Q u (r, sh) → wp (unread n) (r, sh) Q.
Proof.
  intros Hwf -> Hu HQ. unfold unread. apply wp_bind, wp_self. cbn [fst].
  eapply wp_liftR; [by apply at_index|done].
Qed.

Lemma wp_upd_unread r sh n i f (Q : unit → Receiver * Shared → Prop) :
  wf (unread_packets_ r) → n = seq_add (begin_ (unread_packets_ r)) (Z.of_nat i) →
  (i < length (items_ (unread_packets_ r)))%nat →
  Q tt (items_with (alter f i (items_ (unread_packets_ r))) (begin_ (unread_packets_ r)) r, sh) →
  wp (upd_unread n f) (r, sh) Q.
Proof.
  intros Hwf -> Hi HQ. unfold upd_unread. apply wp_bind, wp_self. cbn [fst].
  apply wp_bind. eapply wp_liftR; [by apply update_index|]. by apply wp_upd_self.
Qed.

Lemma wp_remove_unread r sh u l (Q : unit → Receiver * Shared → Prop) :
  wf (unread_packets_ r) → items_ (unread_packets_ r) = u :: l →
  Q tt (items_with l (seq_add (begin_ (unread_packets_ r)) 1) r, sh) →
  wp remove_unread (r, sh) Q.
Proof.
  intros Hwf Hi HQ. unfold remove_unread. apply wp_bind, wp_self. cbn [fst].
  unfold Remove. rewrite Hi. apply wp_bind. eapply wp_liftR; [reflexivity|].
  apply wp_upd_self. rewrite Next_spec by apply Hwf. exact HQ.
Qed.

Lemma wf_items_with_alter f i r :
  wf (unread_packets_ r) →
  wf (unread_packets_ (items_with (alter f i (items_ (unread_packets_ r)))
    (begin_ (unread_packets_ r)) r)).
Proof. apply wf_alter. Qed.

Lemma wf_items_with_tail u l r :
  wf (unread_packets_ r) → items_ (unread_packets_ r) = u :: l →
  wf (unread_packets_ (items_with l (seq_add (begin_ (unread_packets_ r)) 1) r)).
Proof.
  intros (Hb&He&Hs&Hm) Hi. unfold wf, Size in *. cbn. rewrite Hi in *. cbn [length] in *.
  split_and!; try done; try lia; [apply seq_add_is_seq|].
  rewrite He, seq_add_add. f_equal. lia.
Qed.

(** ** ReadData *)

(** The bytes of an item the application has not got yet. *)
Definition unread_bytes (u : UnreadPacket) : list Z :=
  drop (bytes_read u) (DataPacket.Data (packet u)).

(** What the application may read: the arrived items before the first gap. *)
Fixpoint arrived (items : list UnreadPacket) : list UnreadPacket :=
  match items with
  | [] => []
  | u :: items' => if lost u then [] else u :: arrived items'
  end.
Definition readable r : list Z := concat (unread_bytes <$> arrived (items_ (unread_packets_ r))).

(** [ReadData] on the items: the bytes and the items left. *)
Fixpoint read_items (size : nat) (items : list UnreadPacket) : list Z * list UnreadPacket :=
  match items with
  | [] => ([], [])
  | u :: items' =>
      if (size =? 0)%nat || lost u then ([], items)
      else if (length (unread_bytes u) <=? size)%nat then
        let r := read_items (size - length (unread_bytes u)) items' in
        (unread_bytes u ++ r.1, r.2)
      else (take size (unread_bytes u), read_more size u :: items')
  end.

Lemma read_items_0 items : read_items 0 items = ([], items).
Proof. by destruct items. Qed.

(** The items left are the last ones, so the new first number is known. *)
Definition read_result (size : nat) r : list Z * Receiver :=
  let w := unread_packets_ r in
  let res := read_items size (items_ w) in
  (res.1, items_with res.2 (seq_add (begin_ w) (Z.of_nat (length (items_ w) - length res.2))) r).

Lemma read_items_length size items : (length (read_items size items).2 ≤ length items)%nat.
Proof.
  revert size. induction items as [|u items IH]; intros size; [done|]. cbn [read_items].
  destruct (_ || _); [done|]. destruct (_ <=? _)%nat; [|done].
  cbn [snd]. specialize (IH (size - length (unread_bytes u))%nat). cbn [length]. lia.
Qed.

Lemma items_with_same r : items_with (items_ (unread_packets_ r)) (begin_ (unread_packets_ r)) r = r.
Proof. by destruct r as [[] ? ? ?]. Qed.

Lemma length_unread_bytes u :
  length (unread_bytes u) = (length (DataPacket.Data (packet u)) - bytes_read u)%nat.
Proof. apply length_drop. Qed.

Lemma begin_neq_end r u l :
  wf (unread_packets_ r) → items_ (unread_packets_ r) = u :: l →
  (begin_ (unread_packets_ r) =? End (unread_packets_ r)) = false.
Proof.
  intros Hwf Hi. pose proof (index_End (unread_packets_ r) 0 Hwf ltac:(lia)) as E.
  rewrite <-Begin_index in E by done. unfold End. rewrite E, Hi. done.
Qed.

Lemma begin_end_nil r :
  wf (unread_packets_ r) → items_ (unread_packets_ r) = [] →
  (begin_ (unread_packets_ r) =? End (unread_packets_ r)) = true.
Proof.
  intros Hwf Hi. pose proof (index_End (unread_packets_ r) 0 Hwf ltac:(lia)) as E.
  rewrite <-Begin_index in E by done. unfold End. rewrite E, Hi. done.
Qed.

(** One round of the loop at the first item of the window, when it arrived and
    there is room: its bytes are copied, and it is removed if none is left. *)
Lemma wp_read_step size n out r sh u l (Q : Z * list Z + list Z → Receiver * Shared → Prop) :
  wf (unread_packets_ r) → items_ (unread_packets_ r) = u :: l →
  n = begin_ (unread_packets_ r) → lost u = false → (length out < size)%nat →
  (let k := ((size - length out) `min` length (unread_bytes u))%nat in
   Q (inl (seq_add n 1, out ++ take k (unread_bytes u)))
     (if (k =? length (unread_bytes u))%nat then items_with l (seq_add n 1) r
      else items_with (read_more k u :: l) n r, sh)) →
  wp (read_step size (n, out)) (r, sh) Q.
Proof.
  intros Hwf Hi -> Hl Hsize HQ. unfold read_step. apply wp_bind, wp_self. cbn [fst].
  rewrite (begin_neq_end r u l) by done. rewrite (proj2 (Nat.ltb_lt _ _)) by done. cbn [negb andb].
  set (b := begin_ (unread_packets_ r)) in *.
  assert (b = seq_add b (Z.of_nat 0)) as Eb by by apply Begin_index.
  apply wp_bind. eapply wp_unread; [done|exact Eb|by rewrite Hi|]. rewrite Hl.
  rewrite length_unread_bytes in HQ. cbv zeta in HQ.
  rewrite Next_spec by apply Hwf. fold (unread_bytes u).
  destruct (_ <? _)%nat eqn:Eread.
  - set (k := ((size - length out) `min` (_ - _))%nat) in *.
    apply wp_bind. eapply wp_upd_unread; [done|exact Eb|rewrite Hi; cbn; lia|].
    rewrite Hi. change (alter (read_more k) 0 (u :: l)) with (read_more k u :: l).
    set (r1 := items_with _ _ r).
    assert (wf (unread_packets_ r1)) as Hwf1.
    { pose proof (wf_items_with_alter (read_more k) 0 r Hwf) as Hw. by rewrite Hi in Hw. }
    apply wp_bind. eapply (wp_unread r1); [done|exact Eb|reflexivity|].
    cbn [packet read_more bytes_read].
    replace (length (DataPacket.Data (packet u)) =? bytes_read u + k)%nat
      with (k =? length (DataPacket.Data (packet u)) - bytes_read u)%nat by lia.
    destruct (k =? _)%nat; cbn [when].
    + apply wp_bind. eapply (wp_remove_unread r1); [done|reflexivity|]. by apply wp_ret.
    + apply wp_bind. apply wp_ret. by apply wp_ret.
  - replace (length (DataPacket.Data (packet u)) - bytes_read u)%nat with 0%nat in HQ by lia.
    rewrite Nat.min_0_r in HQ. cbn [Nat.eqb take] in HQ. rewrite app_nil_r in HQ.
    apply wp_bind. eapply wp_remove_unread; [done|exact Hi|]. by apply wp_ret.
Qed.

Lemma wp_read_step_stop size n out r sh (Q : Z * list Z + list Z → Receiver * Shared → Prop) :
  wf (unread_packets_ r) →
  (size ≤ length out)%nat ∨
    n = begin_ (unread_packets_ r) ∧ arrived (items_ (unread_packets_ r)) = [] →
  Q (inr out) (r, sh) → wp (read_step size (n, out)) (r, sh) Q.
Proof.
  intros Hwf Hst HQ. unfold read_step. apply wp_bind, wp_self. cbn [fst].
  destruct Hst as [Hst|[-> Hst]].
  { rewrite (proj2 (Nat.ltb_ge _ _)), andb_false_r by done. by apply wp_ret. }
  destruct (items_ (unread_packets_ r)) as [|u l] eqn:Hi.
  - rewrite begin_end_nil by done. by apply wp_ret.
  - destruct (_ && _); [|by apply wp_ret].
    apply wp_bind. eapply wp_unread; [done|by apply Begin_index|by rewrite Hi|].
    cbn [arrived] in Hst. destruct (lost u); [by apply wp_ret|done].
Qed.

(** What remains to be done when [out] was copied and [l] is left. *)
Definition reading (size : nat) (res : list Z * list UnreadPacket) (r : Receiver) (sh : Shared)
    (no : Z * list Z) (st : Receiver * Shared) : Prop :=
  let w := unread_packets_ r in
  ∃ l, let b := seq_add (begin_ w) (Z.of_nat (length (items_ w) - length l)) in
    st = (items_with l b r, sh) ∧ (length l ≤ length (items_ w))%nat ∧
    wf (unread_packets_ (items_with l b r)) ∧ (length no.2 ≤ size)%nat ∧
    res = (no.2 ++ (read_items (size - length no.2) l).1, (read_items (size - length no.2) l).2) ∧
    (no.1 = b ∨ length no.2 = size).

Lemma reading_round size res r sh n out st :
  reading size res r sh (n, out) st →
  wp (read_step size (n, out)) st (λ x st',
    match x with
    | inl no => reading size res r sh no st' ∧
        ((if (length no.2 <? size)%nat then length (items_ (unread_packets_ st'.1)) else 0) <
         (if (length out <? size)%nat then length (items_ (unread_packets_ st.1)) else 0))%nat
    | inr out' => ∃ l, st' = (items_with l (seq_add (begin_ (unread_packets_ r))
          (Z.of_nat (length (items_ (unread_packets_ r)) - length l))) r, sh) ∧ res = (out', l)
    end).
Proof.
  intros (l&->&Hl&Hwf&Hout&Hres&Hn). cbn [fst snd] in *.
  set (w := unread_packets_ r) in *. set (b := seq_add _ _) in *. set (r' := items_with l b r) in *.
  destruct (decide ((size ≤ length out)%nat ∨ arrived l = [])) as [Hstop|Hgo].
  - apply wp_read_step_stop; [done|destruct Hstop, Hn; [by left|by left|by right|left; lia]|].
    exists l. split; [done|]. rewrite Hres. destruct Hstop as [Hs|Hs].
    + replace (size - length out)%nat with 0%nat by lia.
      by rewrite read_items_0, app_nil_r.
    + destruct l as [|u l']; cbn [read_items fst snd]; [by rewrite app_nil_r|].
      cbn [arrived] in Hs. destruct (lost u); [|done]. rewrite orb_true_r. cbn. by rewrite app_nil_r.
  - assert (length out < size)%nat as Hsize by lia.
    assert (arrived l ≠ []) as Harr by tauto. clear Hgo.
    destruct l as [|u l']; [done|]. cbn [arrived] in Harr. destruct (lost u) eqn:El; [done|].
    destruct Hn as [Hn|?]; [|lia].
    eapply (wp_read_step _ _ _ r' sh u l'); [done|done|done|done|lia|]. cbv zeta. cbn [fst snd].
    rewrite Hn. set (k := ((size - length out) `min` length (unread_bytes u))%nat).
    cbn [read_items] in Hres. rewrite El, orb_false_r in Hres.
    replace (size - length out =? 0)%nat with false in Hres by lia.
    replace (length (unread_bytes u) <=? size - length out)%nat
      with (k =? length (unread_bytes u))%nat in Hres by lia.
    assert (seq_add b 1 = seq_add (begin_ w) (Z.of_nat (length (items_ w) - length l'))) as Eb.
    { unfold b. rewrite seq_add_add. f_equal. cbn [length] in *. lia. }
    rewrite length_app, length_take. replace (k `min` length (unread_bytes u))%nat with k by lia.
    rewrite (proj2 (Nat.ltb_lt (length out) size)) by lia.
    destruct (k =? length (unread_bytes u))%nat eqn:Ek.
    + apply Nat.eqb_eq in Ek. rewrite Ek, firstn_all. split.
      * exists l'. fold w. cbv zeta. rewrite <-Eb. cbn [fst snd length] in *. rewrite length_app.
        split_and!; [done|lia|by apply (wf_items_with_tail u l' r')|lia| |by left].
        rewrite Hres, <-app_assoc, Nat.sub_add_distr. done.
      * cbn [fst snd items_with set_unread unread_packets_ items_ r' length].
        destruct (_ <? size)%nat; lia.
    + split.
      * exists (read_more k u :: l'). cbn [fst snd length] in *. rewrite length_app, length_take.
        replace (k `min` length (unread_bytes u))%nat with k by lia.
        split_and!; [done|done|exact Hwf|lia| |right; lia].
        replace (size - (length out + k))%nat with 0%nat by lia.
        rewrite read_items_0, app_nil_r, Hres. cbn [fst snd]. do 3 f_equal; lia.
      * cbn [fst snd]. rewrite (proj2 (Nat.ltb_ge _ size)) by lia. cbn. lia.
Qed.

Lemma wp_ReadData size r sh (Q : list Z → Receiver * Shared → Prop) :
  wf (unread_packets_ r) → Q (read_result size r).1 ((read_result size r).2, sh) →
  wp (ReadData size) (r, sh) Q.
Proof.
  intros Hwf HQ. unfold ReadData. apply wp_bind, wp_self. cbn [fst].
  unfold read_result in HQ. set (w := unread_packets_ r) in *.
  set (res := read_items size (items_ w)) in *.
  apply (wp_loop (reading size res r sh) (λ no st, if (length no.2 <? size)%nat
           then length (items_ (unread_packets_ st.1)) else 0%nat)).
  - exists (items_ w). fold w. rewrite Nat.sub_diag, seq_add_0 by apply Hwf.
    unfold w. rewrite items_with_same. fold w. cbn [fst snd length app].
    split_and!; try done; [lia| |by left]. rewrite Nat.sub_0_r. unfold res. by destruct (read_items _ _).
  - cbn [fst snd]. fold w. destruct (_ <? _)%nat; lia.
  - intros [n out] st Hst. eapply wp_mono; [by apply reading_round|].
    intros [no|out'] st' Hx; [done|]. destruct Hx as (l&->&Hres).
    fold w. rewrite Hres in HQ. exact HQ.
Qed.

(** [ReadData] hands over the readable bytes in order, and keeps the others. *)
Lemma read_items_readable size items :
  let res := read_items size items in
  res.1 = take size (concat (unread_bytes <$> arrived items)) ∧
  concat (unread_bytes <$> arrived res.2) = drop size (concat (unread_bytes <$> arrived items)).
Proof.
  revert size. induction items as [|u items IH]; intros size; cbn [read_items].
  { simpl. by rewrite take_nil, drop_nil. }
  destruct (size =? 0)%nat eqn:E0; cbn [orb].
  { apply Nat.eqb_eq in E0 as ->. by rewrite take_0, drop_0. }
  cbn [arrived]. destruct (lost u) eqn:El.
  { cbn [fst snd arrived]. rewrite El. cbn. by rewrite take_nil, drop_nil. }
  cbn [fmap list_fmap concat].
  destruct (length (unread_bytes u) <=? size)%nat eqn:E; cbn [fst snd].
  - apply Nat.leb_le in E. destruct (IH (size - length (unread_bytes u))%nat) as [-> ->].
    by rewrite take_app, drop_app, (take_ge (unread_bytes u)), (drop_ge (unread_bytes u)) by done.
  - apply Nat.leb_gt in E. cbn [arrived]. cbn [lost read_more]. rewrite El.
    cbn [fmap list_fmap concat]. rewrite take_app_le, drop_app_le by lia. split; [done|].
    f_equal. unfold unread_bytes. cbn. by rewrite drop_drop.
Qed.

(** What it leaves: the items from the [k]-th on, the first of them read [j]
    bytes further. *)
Definition rest_of (k j : nat) (items : list UnreadPacket) : list UnreadPacket :=
  alter (read_more j) 0%nat (drop k items).

Lemma read_more_0 u : read_more 0 u = u.
Proof. unfold read_more. rewrite Nat.add_0_r. by destruct u. Qed.

Lemma alter_read_more_0 (l : list UnreadPacket) : alter (read_more 0) 0%nat l = l.
Proof. destruct l as [|u l]; [done|]. cbn. by rewrite read_more_0. Qed.

Lemma read_items_shape size items :
  ∃ k j, (k ≤ length items)%nat ∧ (read_items size items).2 = rest_of k j items ∧
    Forall (λ u, lost u = false) (take k items) ∧
    (read_items size items).1 =
      concat (unread_bytes <$> take k items) ++
      take j (from_option unread_bytes [] (items !! k)) ∧
    (j ≠ 0%nat → ∃ u, items !! k = Some u ∧ lost u = false ∧ (j < length (unread_bytes u))%nat).
Proof.
  revert size. induction items as [|u items IH]; intros size; cbn [read_items].
  { exists 0%nat, 0%nat. by split_and!. }
  destruct ((size =? 0)%nat || lost u) eqn:E0.
  { exists 0%nat, 0%nat. split_and!; try done; [lia|]. cbn. by rewrite read_more_0. }
  apply orb_false_iff in E0 as [_ El].
  destruct (length (unread_bytes u) <=? size)%nat eqn:E.
  - destruct (IH (size - length (unread_bytes u))%nat) as (k&j&Hk&E1&E2&E3&E4).
    exists (S k), j. cbn [length take drop fst snd lookup list_lookup fmap list_fmap concat].
    split_and!; [lia|exact E1|by constructor|by rewrite E3, app_assoc|exact E4].
  - apply Nat.leb_gt in E. exists 0%nat, size. split_and!; try done; [cbn; lia|].
    intros _. by exists u.
Qed.

Lemma length_rest_of k j items : length (rest_of k j items) = (length items - k)%nat.
Proof. unfold rest_of. by rewrite length_alter, length_drop. Qed.

(** ** Receiving a data packet *)

Definition fresh (c0 n : nat) : list UnreadPacket := (λ i, new_unread (clock (c0 + i))) <$> seq 0 n.

(** [n] slots reserved at the end of the window, by clock readings from the
    next one on. *)
Definition reserved (n : nat) (st : Receiver * Shared) : Receiver * Shared :=
  let w := unread_packets_ st.1 in
  let c0 := w_clock (sh_world st.2) in
  (set_unread (MkWindow (items_ w ++ fresh c0 n) (maximum_size_ w) (begin_ w)
     (seq_add (end_ w) (Z.of_nat n))) st.1,
   with_world (MkWorld _ (c0 + n) (w_random (sh_world st.2)) (w_sent (sh_world st.2))) st.2).

Lemma fresh_S c0 n : fresh c0 (S n) = fresh c0 n ++ [new_unread (clock (c0 + n))].
Proof. unfold fresh. rewrite seq_S, fmap_app. done. Qed.

Lemma length_fresh c0 n : length (fresh c0 n) = n.
Proof. unfold fresh. by rewrite length_fmap, length_seq. Qed.

(** How many slots [HandleData] reserves for number [n]. *)
Definition reserve_count (n : Z) (w : Window UnreadPacket) : nat :=
  if IsComingSoon n w
  then Z.to_nat (seq_sub n (end_ w) + 1) `min` Z.to_nat (maximum_size_ w - Size w)
  else 0.

Lemma wf_reserved n st :
  wf (unread_packets_ st.1) → Z.of_nat n + Size (unread_packets_ st.1) ≤ 512 →
  wf (unread_packets_ (reserved n st).1).
Proof.
  intros (Hb&He&_&Hm) Hn. unfold wf, reserved, Size, RudpParameters.maximum_window_size in *.
  cbn [fst set_unread unread_packets_ items_ begin_ end_ maximum_size_].
  rewrite length_app, length_fresh. split_and!; try done; try lia.
  rewrite He, seq_add_add. f_equal. lia.
Qed.

Lemma wp_reserve_step n r sh (Q : unit → Receiver * Shared → Prop) :
  wf (unread_packets_ (reserved n (r, sh)).1) →
  IsFull (unread_packets_ (reserved n (r, sh)).1) = false →
  Q tt (reserved (S n) (r, sh)) →
  wp (t ← shared now;
      w ← self unread_packets_;
      x ← liftR (Append (new_unread t) w);
      upd_self (set_unread x.2)) (reserved n (r, sh)) Q.
Proof.
  intros Hwf HF HQ. apply wp_bind, wp_shared, wp_now. apply wp_bind, wp_self.
  apply wp_bind. cbn [fst snd] in *. unfold Append. rewrite HF. cbn [negb].
  eapply wp_liftR; [reflexivity|]. apply wp_upd_self.
  eapply eq_rect; [exact HQ|]. unfold reserved. cbn [fst snd unread_packets_ set_unread items_
    begin_ end_ maximum_size_ sh_world with_world w_clock w_random w_sent tick].
  rewrite Next_spec by apply seq_add_is_seq. rewrite seq_add_add, fresh_S, app_assoc.
  replace (Z.of_nat n + 1) with (Z.of_nat (S n)) by lia.
  replace (w_clock (sh_world sh) + S n)%nat with (S (w_clock (sh_world sh) + n)) by lia.
  reflexivity.
Qed.

Lemma IsComingSoon_reserved n k (w w' : Window UnreadPacket) :
  wf w → is_seq n → wf w' → end_ w' = seq_add (end_ w) (Z.of_nat k) →
  IsComingSoon n w = true → (Z.of_nat k ≤ seq_sub n (end_ w) + 1) →
  IsComingSoon n w' = (Z.of_nat k <=? seq_sub n (end_ w)).
Proof.
  intros Hwf Hn Hwf' He Hcs Hk. rewrite IsComingSoon_spec in Hcs |- * by done. rewrite He.
  pose proof (wf_end w Hwf) as Hend.
  unfold RudpParameters.maximum_window_size, seq_sub, seq_add, is_seq, modulus in *. mod_lia.
Qed.

Lemma reserve_count_bound n w :
  wf w → Z.of_nat (reserve_count n w) + Size w ≤ 512.
Proof.
  intros (_&_&Hs&Hm). unfold RudpParameters.maximum_window_size in *. unfold reserve_count.
  destruct (IsComingSoon n w); lia.
Qed.

(** The condition of the reserving loop after [k] rounds. *)
Lemma reserve_cond n k r sh :
  wf (unread_packets_ r) → 0 ≤ n → (k ≤ reserve_count n (unread_packets_ r))%nat →
  let w' := unread_packets_ (reserved k (r, sh)).1 in
  IsComingSoon n w' && negb (IsFull w') = (k <? reserve_count n (unread_packets_ r))%nat.
Proof.
  intros Hwf Hn Hk w'. pose proof (reserve_count_bound n _ Hwf) as Hb.
  assert (wf w') as Hwf' by (apply wf_reserved; cbn [fst]; [done|lia]).
  set (w := unread_packets_ r) in *.
  assert (IsFull w' = (maximum_size_ w <=? Size w + Z.of_nat k)) as HF.
  { unfold IsFull, w', reserved, Size. cbn. rewrite length_app, length_fresh. fold w.
    f_equal. lia. }
  rewrite HF. unfold reserve_count in *. destruct (IsComingSoon n w) eqn:Hcs.
  - pose proof (IsComingSoon_is_seq n w Hwf Hn Hcs) as Hsn.
    pose proof (seq_sub_is_seq n (end_ w)) as [Hd _].
    rewrite (IsComingSoon_reserved n k w w'); [lia|done|done|done|reflexivity|done|lia].
  - assert (k = 0)%nat as -> by lia. 
    assert (IsComingSoon n w' = IsComingSoon n w) as ->.
    { unfold IsComingSoon, w', reserved. cbn. rewrite seq_add_0 by by apply wf_end. done. }
    by rewrite Hcs.
Qed.

Lemma reserved_0 r sh : wf (unread_packets_ r) → reserved 0 (r, sh) = (r, sh).
Proof.
  intros Hwf. unfold reserved. cbn [fst snd fresh seq fmap list_fmap].
  rewrite app_nil_r, seq_add_0, Nat.add_0_r by by apply wf_end.
  by destruct r as [[] ? ? ?], sh as [? ? ? []].
Qed.

Lemma wp_reserve_loop n r sh (Q : unit → Receiver * Shared → Prop) :
  wf (unread_packets_ r) → 0 ≤ n →
  Q tt (reserved (reserve_count n (unread_packets_ r)) (r, sh)) →
  wp (while_ (S (Z.to_nat (MaximumSize (unread_packets_ r))))
    (w ← self unread_packets_; mret (IsComingSoon n w && negb (IsFull w)))
    (t ← shared now;
     w ← self unread_packets_;
     x ← liftR (Append (new_unread t) w);
     upd_self (set_unread x.2))) (r, sh) Q.
Proof.
  intros Hwf Hn HQ. set (count := reserve_count n (unread_packets_ r)) in *.
  pose proof (reserve_count_bound n _ Hwf) as Hb. fold count in Hb.
  assert (count ≤ Z.to_nat (MaximumSize (unread_packets_ r)))%nat as Hc.
  { unfold count, reserve_count, MaximumSize. pose proof (wf_size _ Hwf).
    destruct (IsComingSoon n _); lia. }
  apply (wp_while (λ st, ∃ k, (k ≤ count)%nat ∧ st = reserved k (r, sh))
    (λ st, count - (length (items_ (unread_packets_ st.1)) - length (items_ (unread_packets_ r))))%nat).
  - exists 0%nat. split; [lia|]. by rewrite reserved_0.
  - cbn [fst]. lia.
  - intros st (k&Hk&->). apply wp_bind, wp_self, wp_ret.
    rewrite (reserve_cond n k r sh Hwf Hn Hk). fold count.
    destruct (k <? count)%nat eqn:Ek.
    + pose proof (reserve_cond n k r sh Hwf Hn Hk) as Hcond. cbv zeta in Hcond. fold count in Hcond.
      rewrite Ek in Hcond. apply andb_prop in Hcond as [_ HF%negb_true_iff].
      apply wp_reserve_step; [apply wf_reserved; cbn [fst]; [done|lia]|done|].
      split; [exists (S k); split; [lia|done]|].
      cbn [fst reserved set_unread unread_packets_ items_]. rewrite !length_app, !length_fresh. lia.
    + by replace k with count by lia.
Qed.

(** The packet [p] put into its slot, if it has one and did not arrive yet. *)
Definition stored (p : DataPacket.t) r : Receiver :=
  let w := unread_packets_ r in
  let n := DataPacket.PacketSequenceNumber p in
  let i := Z.to_nat (seq_sub n (begin_ w)) in
  if Contains n w then
    match items_ w !! i with
    | Some u => if lost u then items_with (alter (fill p) i (items_ w)) (begin_ w) r else r
    | None => r
    end
  else r.

Definition with_maximum (size : Z) r : Receiver :=
  set_unread (SetMaximumSize size (unread_packets_ r)) r.

Definition handle_data_result (p : DataPacket.t) r sh : Receiver :=
  let r0 := with_maximum (ReceiveWindowSize (sh_cc sh)) r in
  stored p (reserved (reserve_count (DataPacket.PacketSequenceNumber p) (unread_packets_ r0))
              (r0, sh)).1.

(** What receiving leaves alone of the shared objects. *)
Definition frame sh sh' : Prop :=
  sh_peer sh' = sh_peer sh ∧ w_sent (sh_world sh') = w_sent (sh_world sh) ∧
  (cc_inv (sh_cc sh) → cc_inv (sh_cc sh')).

Lemma frame_trans sh1 sh2 sh3 : frame sh1 sh2 → frame sh2 sh3 → frame sh1 sh3.
Proof. intros (?&?&?) (?&?&?). unfold frame. split_and!; [congruence..|auto]. Qed.

Lemma wp_in_cc_received n sh (Q : unit → Shared → Prop) :
  cc_inv (sh_cc sh) → (∀ sh', frame sh sh' → Q tt sh') →
  wp (in_cc (OnDataPacketReceived n)) sh Q.
Proof.
  intros Hcc HQ. unfold in_cc. apply wp_zoom. unfold wp.
  destruct (OnDataPacketReceived_ok n (sh_cc sh) (sh_world sh) Hcc) as (c'&w'&->&Hc'&Hw').
  apply HQ. split_and!; [done|exact Hw'|done].
Qed.

Lemma wp_expired_tick r sh (Q : unit → Receiver * Shared → Prop) :
  (∀ sh', frame sh sh' → Q tt (r, sh')) →
  wp (expired ← shared Expired;
      when expired (delay ← cc_get ReceiveDelay; shared (TickAfter delay))) (r, sh) Q.
Proof.
  intros HQ. apply wp_bind, wp_shared, wp_Expired. intros b w Hw. cbn [fst snd].
  assert (w_sent w = w_sent (sh_world sh)) as Esent by by destruct Hw as [->| ->].
  destruct b; cbn [when].
  - apply wp_bind, wp_cc_get, wp_shared, wp_TickAfter. apply HQ. by split_and!.
  - apply wp_ret, HQ. by split_and!.
Qed.

Lemma wp_store p r sh (Q : unit → Receiver * Shared → Prop) :
  wf (unread_packets_ r) → 0 ≤ DataPacket.PacketSequenceNumber p → cc_inv (sh_cc sh) →
  (∀ sh', frame sh sh' → Q tt (stored p r, sh')) →
  wp (when (Contains (DataPacket.PacketSequenceNumber p) (unread_packets_ r)) (
        u ← unread (DataPacket.PacketSequenceNumber p);
        when (lost u) (
          shared (in_cc (OnDataPacketReceived (DataPacket.PacketSequenceNumber p)));;
          upd_unread (DataPacket.PacketSequenceNumber p) (fill p)))) (r, sh) Q.
Proof.
  intros Hwf Hn Hcc HQ. set (n := DataPacket.PacketSequenceNumber p) in *.
  unfold stored in HQ. fold n in HQ.
  assert (frame sh sh) as Hframe by by split_and!.
  destruct (Contains n (unread_packets_ r)) eqn:HC; cbn [when]; [|by apply wp_ret, HQ].
  pose proof (Contains_is_seq n _ Hwf Hn HC) as Hsn.
  pose proof (seq_sub_is_seq n (begin_ (unread_packets_ r))) as [Hi0 _].
  set (i := Z.to_nat (seq_sub n (begin_ (unread_packets_ r)))) in *.
  assert (n = seq_add (begin_ (unread_packets_ r)) (Z.of_nat i)) as En.
  { unfold i. rewrite Z2Nat.id by done. symmetry. by apply seq_add_sub. }
  assert (i < length (items_ (unread_packets_ r)))%nat as Hi.
  { rewrite Contains_spec in HC by done. unfold Size in HC. lia. }
  destruct (lookup_lt_is_Some_2 _ _ Hi) as [u Hu]. rewrite Hu in HQ.
  apply wp_bind. eapply wp_unread; [done|exact En|exact Hu|].
  destruct (lost u); cbn [when]; [|by apply wp_ret, HQ].
  apply wp_bind, wp_shared, wp_in_cc_received; [done|]. intros sh' Hsh'. cbn [fst].
  eapply wp_upd_unread; [done|exact En|done|]. by apply HQ.
Qed.

Lemma wp_HandleData p r sh (Q : unit → Receiver * Shared → Prop) :
  wf (unread_packets_ r) → 0 ≤ DataPacket.PacketSequenceNumber p → cc_inv (sh_cc sh) →
  (∀ sh', frame sh sh' → Q tt (handle_data_result p r sh, sh')) →
  wp (HandleData p) (r, sh) Q.
Proof.
  intros Hwf Hn Hcc HQ. unfold HandleData. apply wp_bind, wp_cc_get, wp_bind, wp_self.
  cbn [fst snd]. apply wp_bind, wp_upd_self. cbn [fst snd].
  change (set_unread _ r) with (with_maximum (ReceiveWindowSize (sh_cc sh)) r).
  unfold handle_data_result in HQ. set (r0 := with_maximum _ r) in *.
  assert (wf (unread_packets_ r0)) as Hwf0.
  { destruct Hcc as ((_&_&Hr)&_). apply wf_SetMaximumSize; [|done].
    unfold ReceiveWindowSize, RudpParameters.default_window_size in *. lia. }
  apply wp_bind, wp_self. cbn [fst]. apply wp_bind, wp_reserve_loop; [done|done|].
  set (n := reserve_count _ _) in *. 
  destruct (reserved n (r0, sh)) as [r1 sh1] eqn:E1.
  assert (wf (unread_packets_ r1)) as Hwf1.
  { replace r1 with (reserved n (r0, sh)).1 by by rewrite E1.
    apply wf_reserved; [done|]. by apply reserve_count_bound. }
  assert (frame sh sh1) as Hf1.
  { replace sh1 with (reserved n (r0, sh)).2 by by rewrite E1. by split_and!. }
  assert (cc_inv (sh_cc sh1)) as Hcc1 by by apply Hf1.
  apply wp_bind, wp_self. cbn [fst]. apply wp_bind, wp_store; [done..|].
  intros sh2 Hf2. apply wp_expired_tick. intros sh3 Hf3. apply HQ. eauto using frame_trans.
Qed.

(** ** What to acknowledge *)

Lemma arrived_lookup_end items :
  items !! length (arrived items) = None ∨
  ∃ u, items !! length (arrived items) = Some u ∧ lost u = true.
Proof.
  induction items as [|u items IH]; [by left|]. cbn [arrived].
  destruct (lost u) eqn:E; [right; by exists u|exact IH].
Qed.

Lemma length_arrived items : (length (arrived items) ≤ length items)%nat.
Proof. induction items as [|u l IH]; [done|]. cbn. destruct (lost u); cbn; lia. Qed.

Lemma first_lost_from_ok (w : Window UnreadPacket) fuel i :
  wf w → (i ≤ length (items_ w))%nat → (length (items_ w) - i < fuel)%nat →
  first_lost_from fuel (seq_add (begin_ w) (Z.of_nat i)) w =
    Ok (seq_add (begin_ w) (Z.of_nat (i + length (arrived (drop i (items_ w)))))).
Proof.
  intros Hwf. revert i. induction fuel as [|fuel IH]; intros i Hi Hf; [lia|].
  cbn [first_lost_from]. unfold End. rewrite index_End by done. case_bool_decide as E.
  - subst i. by rewrite drop_all, Nat.add_0_r.
  - destruct (lookup_lt_is_Some_2 (items_ w) i) as [u Hu]; [lia|].
    rewrite (at_index w i u), Res_bind_ok by done. rewrite (drop_S _ _ _ Hu). cbn [arrived].
    destruct (lost u); [by rewrite Nat.add_0_r|].
    rewrite Next_index, IH by (done || lia). f_equal. f_equal. cbn [length]. lia.
Qed.

Lemma AckPacketSequenceNumber_eq r :
  wf (unread_packets_ r) →
  AckPacketSequenceNumber r =
    Ok (seq_add (begin_ (unread_packets_ r))
          (Z.of_nat (length (arrived (items_ (unread_packets_ r)))))).
Proof.
  intros Hwf. unfold AckPacketSequenceNumber, Begin.
  rewrite (Begin_index (unread_packets_ r)) at 1 by done.
  by rewrite first_lost_from_ok by (done || lia).
Qed.

Lemma AvailableBufferSize_eq r :
  wf (unread_packets_ r) →
  AvailableBufferSize r =
    Ok (Z.max 0 (MaximumSize (unread_packets_ r) - Size (unread_packets_ r)) * 25950).
Proof.
  intros Hwf. pose proof (wf_size _ Hwf). destruct Hwf as (_&_&_&Hm).
  unfold AvailableBufferSize, IsFull, MaximumSize, Size, RudpParameters.max_data_size,
    RudpParameters.maximum_window_size in *.
  set (w := unread_packets_ r) in *.
  destruct (maximum_size_ w <=? Z.of_nat (length (items_ w))) eqn:E.
  - rewrite Z.max_l by lia. done.
  - rewrite Z.max_r by lia. rewrite (u64_small (maximum_size_ w - _)) by lia.
    rewrite !(u64_small (_ * 25950)) by lia.
    rewrite (proj2 (Z.ltb_lt _ _)) by lia. unfold u32. by rewrite Z.mod_small by lia.
Qed.

(** ** Sending acknowledgements *)

Definition acks_ok (w : Window Ack) : Prop := wf w ∧ 1 ≤ maximum_size_ w ∧ Size w ≤ maximum_size_ w.

Definition receiver_ok r : Prop := wf (unread_packets_ r) ∧ acks_ok (acks_ r).

Definition shared_ok sh : Prop := cc_inv (sh_cc sh) ∧ is_u32 (peer_id (sh_peer sh)).

Lemma wp_remove_ack_if_full r sh (Q : unit → Receiver * Shared → Prop) :
  acks_ok (acks_ r) →
  (∀ w, acks_ok w → IsFull w = false → Q tt (set_acks w r, sh)) →
  wp (when (IsFull (acks_ r)) remove_ack) (r, sh) Q.
Proof.
  intros (Hwf&Hm&Hs) HQ. destruct (IsFull (acks_ r)) eqn:EF; cbn [when].
  - unfold IsFull in EF. destruct (items_ (acks_ r)) as [|a l] eqn:Ei; [simpl in EF; lia|].
    destruct (Remove_ok _ a l Hwf Ei) as (w'&E&Hwf'&Ei'&_&_&Em).
    unfold Size in *. rewrite Ei in Hs. cbn [length] in *.
    unfold remove_ack. apply wp_bind, wp_self. apply wp_bind. eapply wp_liftR; [exact E|].
    apply wp_upd_self. apply HQ; unfold acks_ok, IsFull, Size in *; rewrite Ei', Em; [|lia].
    split_and!; [done|lia|lia].
  - apply wp_ret. destruct r as [u a n t]. by apply HQ.
Qed.

(** The acknowledgement up to [n], numbered [k]. *)
Definition ack_for (k n : Z) r sh : AckPacket.t :=
  let c := sh_cc sh in
  AckPacket.Mk (ControlPacket.Mk AckPacket.kPacketType k 0 (peer_id (sh_peer sh))) n true
    (RoundTripTime c) (RoundTripTimeVariance c)
    (Z.max 0 (MaximumSize (unread_packets_ r) - Size (unread_packets_ r)) * 25950)
    (PacketsReceivingRate c) (EstimatedLinkCapacity c).

Lemma ack_for_wf k n r sh :
  is_seq k → is_seq n → shared_ok sh → wf (unread_packets_ r) → AckPacket.wf (ack_for k n r sh).
Proof.
  intros Hk Hn [(_&_&He) Hp] Hwf. pose proof (wf_size _ Hwf). destruct Hwf as (_&_&_&Hm).
  destruct He as (?&?&?&?&_).
  unfold AckPacket.wf, ControlPacket.wf, ack_for, is_seq, modulus, MaximumSize,
    RoundTripTime, RoundTripTimeVariance, PacketsReceivingRate, EstimatedLinkCapacity,
    RudpParameters.maximum_window_size in *.
  cbn. unfold is_u32 in *. unfold AckPacket.kPacketType. split_and!; try done; lia.
Qed.

Definition ack_sent (t : ptime) (n : Z) r sh (st : Receiver * Shared) : Prop :=
  ∃ acks k sh1, st.1 = set_last_ack n (set_acks acks r) ∧ acks_ok acks ∧ is_seq k ∧
    shared_ok sh1 ∧ sh_peer sh1 = sh_peer sh ∧
    receive_window_size_ (sh_cc sh1) = receive_window_size_ (sh_cc st.2) ∧
    shared_ok st.2 ∧ sh_peer st.2 = sh_peer sh ∧
    w_sent (sh_world st.2) =
      Datagram _ (peer_endpoint (sh_peer sh)) (wire_bytes (ack_for k n r sh1)) ::
      w_sent (sh_world sh).

Lemma wp_send_ack t n r sh :
  receiver_ok r → shared_ok sh → is_seq n → wp (send_ack t n) (r, sh) (λ _, ack_sent t n r sh).
Proof.
  intros [Hwf Hacks] [Hcc Hp] Hn. unfold send_ack. apply wp_bind, wp_self. cbn [fst].
  apply wp_bind, wp_remove_ack_if_full; [done|]. intros acks (Hwfa&Hm&Hs) HF.
  apply wp_bind, wp_cc_get. unfold id. cbn [fst snd].
  destruct (OnGenerateAck_ok n (sh_cc sh) Hcc) as (c&Ec&Hc&_).
  apply wp_bind. eapply wp_liftR; [exact Ec|].
  apply wp_bind, wp_shared, wp_upd_cc, wp_bind, wp_shared, wp_now. cbn [fst snd].
  apply wp_bind. eapply wp_liftR; [reflexivity|]. apply wp_bind, wp_self. cbn [fst set_acks acks_].
  set (a := new_ack _ _).
  destruct (Append_ok acks a Hwfa HF) as (acks'&Ea&Hwfa'&Ei&Eb&Em&Eend).
  apply wp_bind. eapply wp_liftR; [exact Ea|]. cbn [fst snd].
  apply wp_bind, wp_upd_self. cbn [fst snd]. apply wp_bind, wp_peer_get. cbn [fst snd].
  apply wp_bind, wp_cc_get. cbn [fst snd]. apply wp_bind, wp_self. cbn [fst snd].
  apply wp_bind. eapply wp_liftR.
  { by apply AvailableBufferSize_eq. }
  cbv zeta. apply wp_bind, wp_self. cbn [fst set_acks acks_]. apply wp_bind.
  eapply wp_liftR.
  { rewrite Eend, <-Eb. apply update_index; [done|]. rewrite Ei, length_app. simpl. lia. }
  apply wp_bind, wp_upd_self. cbn [fst snd]. apply wp_bind, wp_shared.
  set (sh1 := with_world _ _).
  assert (shared_ok sh1) as Hsh1 by done.
  apply wp_Send; [done| |].
  { unfold RudpParameters.max_size. cbn [wire_size ack_wire]. unfold AckPacket.size. case_match; lia. }
  cbn [fst snd]. apply wp_upd_self. eexists _, (end_ acks), sh1. cbn [fst snd].
  split; [reflexivity|].
  split; [|split; [by apply wf_end|]; split_and!;
    [exact Hsh1|reflexivity|reflexivity|exact Hsh1|reflexivity|reflexivity]].
  unfold acks_ok. split; [by apply wf_alter|]. unfold Size, IsFull in *. cbn [items_ maximum_size_].
  rewrite length_alter, Ei, Em, length_app. split; [done|]. cbn [length]. lia.
Qed.

(** The acknowledging part of a tick: nothing is sent, or one acknowledgement
    of everything before the first gap. *)
Definition next_expected r : Z :=
  seq_add (begin_ (unread_packets_ r)) (Z.of_nat (length (arrived (items_ (unread_packets_ r))))).

Definition acks_ticked r sh (st : Receiver * Shared) : Prop :=
  receiver_ok st.1 ∧ shared_ok st.2 ∧ unread_packets_ st.1 = unread_packets_ r ∧
  sh_peer st.2 = sh_peer sh ∧
  (w_sent (sh_world st.2) = w_sent (sh_world sh) ∨
   ∃ p, AckPacket.wf p ∧ AckPacket.PacketSequenceNumber p = next_expected r ∧
     AckPacket.HasOptionalFields p = true ∧
     w_sent (sh_world st.2) =
       Datagram _ (peer_endpoint (sh_peer sh)) (wire_bytes p) :: w_sent (sh_world sh)).

Lemma acks_ticked_sent t r sh st :
  receiver_ok r → (∃ r1, unread_packets_ r1 = unread_packets_ r ∧ ack_sent t (next_expected r) r1 sh st) →
  acks_ticked r sh st.
Proof.
  intros Hr (r1&Eu&acks&k&sh1&E1&Ha&Hk&Hsh1&Ep1&_&Hst&Ep&Ew).
  unfold acks_ticked, receiver_ok. rewrite E1. cbn [set_last_ack set_acks unread_packets_ acks_]. rewrite Eu. destruct Hr as [Hwf _].
  split; [by split|]. split; [exact Hst|]. split; [done|]. split; [exact Ep|].
  right. exists (ack_for k (next_expected r) r1 sh1).
  split_and!; [|reflexivity|reflexivity|exact Ew].
  apply ack_for_wf; [done|apply seq_add_is_seq|done|by rewrite Eu].
Qed.

Lemma wp_tick_acks t r sh :
  receiver_ok r → shared_ok sh → wp (tick_acks t) (r, sh) (λ _, acks_ticked r sh).
Proof.
  intros Hr Hsh. pose proof Hr as [Hwf Hacks].
  assert (∀ r1, unread_packets_ r1 = unread_packets_ r → acks_ r1 = acks_ r →
    acks_ticked r sh (r1, sh)) as Hnothing.
  { intros r1 Eu Ea. unfold acks_ticked, receiver_ok. cbn [fst snd]. rewrite Eu, Ea.
    split; [done|]. split; [done|]. split; [done|]. split; [done|]. by left. }
  unfold tick_acks. apply wp_bind, wp_self. unfold id. cbn [fst].
  destruct (ptime_ltb _ _); cbn [when]; [|by apply wp_ret, Hnothing].
  apply wp_bind, wp_cc_get, wp_bind, wp_upd_self. cbn [fst snd]. set (r1 := set_ack_sent_time _ r).
  apply wp_bind, wp_self. cbn [fst]. apply wp_bind.
  eapply wp_liftR; [by apply AckPacketSequenceNumber_eq|].
  change (seq_add _ _) with (next_expected r). apply wp_bind, wp_cc_get. cbn [fst snd].
  assert (∀ b : bool, wp (when b (send_ack t (next_expected r))) (r1, sh)
    (λ _, acks_ticked r sh)) as Hdue.
  { intros [|]; cbn [when]; [|by apply wp_ret, Hnothing].
    eapply wp_mono; [apply wp_send_ack; [done|done|apply seq_add_is_seq]|].
    intros [] st Hst. eapply acks_ticked_sent; [done|]. by exists r1. }
  apply wp_bind. destruct (negb _); [by apply wp_ret|].
  destruct (negb (IsEmpty _)) eqn:E; [|by apply wp_ret].
  unfold Back. rewrite E. unfold IsEmpty in E.
  destruct (items_ (acks_ r1)) as [|a l]; [done|].
  apply wp_bind. eapply wp_liftR; [reflexivity|]. by apply wp_ret.
Qed.

(** ** Reporting missing packets *)

(** The clock and nothing else moved. *)
Definition clocked sh sh' : Prop :=
  sh_peer sh' = sh_peer sh ∧ sh_timer sh' = sh_timer sh ∧ sh_cc sh' = sh_cc sh ∧
  w_sent (sh_world sh') = w_sent (sh_world sh).

Lemma clocked_refl sh : clocked sh sh.
Proof. by split_and!. Qed.
Lemma clocked_tick sh sh' : clocked sh sh' → clocked sh (with_world (tick (sh_world sh')) sh').
Proof. done. Qed.

(** What [reserve] does not touch. *)
Definition strip (u : UnreadPacket) : DataPacket.t * bool * nat := (packet u, lost u, bytes_read u).

Definition lost_at (items : list UnreadPacket) (i : nat) : Prop :=
  ∃ u, items !! i = Some u ∧ lost u = true.

Lemma strip_lookup (l items : list UnreadPacket) i u :
  strip <$> l = strip <$> items → l !! i = Some u →
  ∃ u', items !! i = Some u' ∧ strip u' = strip u.
Proof.
  intros E Hu. assert ((strip <$> items) !! i = Some (strip u)) as Hi
    by (by rewrite <-E, list_lookup_fmap, Hu).
  rewrite list_lookup_fmap in Hi. apply fmap_Some_1 in Hi as (u'&?&?). by exists u'.
Qed.

Lemma strip_length (l items : list UnreadPacket) : strip <$> l = strip <$> items → length l = length items.
Proof. intros E%(f_equal length). by rewrite !length_fmap in E. Qed.

Lemma strip_lost_at (l items : list UnreadPacket) i : strip <$> l = strip <$> items → lost_at l i → lost_at items i.
Proof.
  intros E (u&Hu&Hl). destruct (strip_lookup _ _ _ _ E Hu) as (u'&Hu'&Es).
  exists u'. split; [done|]. injection Es as _ -> _. done.
Qed.

Lemma strip_alter_reserve t i (l : list UnreadPacket) : strip <$> alter (reserve t) i l = strip <$> l.
Proof.
  revert i. induction l as [|u l IH]; intros [|i]; [done..|].
  change (alter (reserve t) (S i) (u :: l)) with (u :: alter (reserve t) i l). cbn.
  by rewrite <-(IH i).
Qed.

(** A state of the reporting loops: reservation times and the clock changed. *)
Definition rescheduled r sh (st : Receiver * Shared) : Prop :=
  ∃ l, st.1 = items_with l (begin_ (unread_packets_ r)) r ∧
    strip <$> l = strip <$> items_ (unread_packets_ r) ∧ clocked sh st.2.

Lemma rescheduled_wf r sh st :
  wf (unread_packets_ r) → rescheduled r sh st →
  wf (unread_packets_ st.1) ∧ begin_ (unread_packets_ st.1) = begin_ (unread_packets_ r) ∧
  length (items_ (unread_packets_ st.1)) = length (items_ (unread_packets_ r)).
Proof.
  intros Hwf (l&E&Hl%strip_length&_). rewrite E. split_and!; [|done|exact Hl].
  unfold wf, Size in *. cbn [items_with set_unread unread_packets_ items_ begin_ end_ maximum_size_].
  by rewrite Hl.
Qed.

Lemma rescheduled_reserve t i r sh st :
  rescheduled r sh st →
  rescheduled r sh (items_with (alter (reserve t) i (items_ (unread_packets_ st.1)))
    (begin_ (unread_packets_ st.1)) st.1, st.2).
Proof.
  intros (l&E&Hl&Hc). exists (alter (reserve t) i l). cbn [fst snd]. rewrite E.
  split_and!; [done| |done]. by rewrite strip_alter_reserve.
Qed.

Lemma wp_Missing u timeout r sh0 sh (Q : bool → Shared → Prop) :
  clocked sh0 sh →
  (∀ b sh', clocked sh0 sh' → (b = true → lost u = true) → Q b sh') →
  wp (Missing u timeout) sh Q.
Proof.
  intros Hc HQ. unfold Missing. apply wp_bind, wp_now, wp_ret. apply HQ; [by apply clocked_tick|].
  by intros [? _]%andb_prop.
Qed.

Section run.
Context (r : Receiver) (sh : Shared) (t : ptime) (timeout : Z).
Let w := unread_packets_ r.
Let len := length (items_ w).
Let num (i : nat) : Z := seq_add (begin_ w) (Z.of_nat i).
Hypothesis Hwf : wf w.

Lemma num_End i st : rescheduled r sh st → (i ≤ len)%nat →
  (num i =? End (unread_packets_ st.1)) = bool_decide (i = len).
Proof.
  intros Hst Hi. destruct (rescheduled_wf r sh st Hwf Hst) as (Hwf'&Hb&Hl).
  unfold End, num, w. rewrite <-Hb, index_End by (done || (rewrite Hl; done)). by rewrite Hl.
Qed.

Lemma num_sub i : (i ≤ len)%nat → seq_sub (num i) (begin_ w) = Z.of_nat i.
Proof.
  intros Hi. pose proof (wf_size _ Hwf) as Hs. unfold Size in Hs. fold len in Hs.
  apply seq_sub_add. unfold modulus. lia.
Qed.

Lemma num_Next i : Next (num i) = num (S i).
Proof. by apply Next_index. Qed.

(** Look at the item numbered [num i]. *)
Lemma wp_missing_at i st (Q : bool → Receiver * Shared → Prop) :
  rescheduled r sh st → (i < len)%nat →
  (∀ b st', rescheduled r sh st' → (b = true → lost_at (items_ w) i) → Q b st') →
  wp (p ← unread (num i); shared (Missing p timeout)) st Q.
Proof.
  intros Hst Hi HQ. destruct (rescheduled_wf r sh st Hwf Hst) as (Hwf'&Hb&Hl).
  destruct st as [r1 sh1], Hst as (l&E&El&Hc). cbn [fst snd] in *.
  destruct (lookup_lt_is_Some_2 (items_ (unread_packets_ r1)) i) as [u Hu];
    [by rewrite Hl|].
  apply wp_bind. eapply wp_unread; [done|unfold num, w; by rewrite Hb|exact Hu|].
  apply wp_shared. eapply wp_Missing; [done|exact Hc|]. intros b sh' Hc' Hlost. apply HQ.
  - by exists l.
  - intros Hbt. apply (strip_lost_at l); [done|]. exists u. split; [|by apply Hlost].
    rewrite E in Hu. exact Hu.
Qed.

Definition run_end (i : nat) (x : Z * Z) (st : Receiver * Shared) : Prop :=
  rescheduled r sh st ∧ ∃ j, (i ≤ j < len)%nat ∧ x = (num j, num (S j)) ∧
    ∀ k, (i ≤ k ≤ j)%nat → lost_at (items_ w) k.

Lemma wp_missing_run fuel i st :
  rescheduled r sh st → (i < len)%nat → lost_at (items_ w) i → (len ≤ i + fuel)%nat →
  (0 < fuel)%nat →
  wp (missing_run fuel t timeout (num i)) st (run_end i).
Proof.
  intros Hst Hi Hlost Hfuel Hpos. unfold missing_run.
  apply (wp_loop (λ n st, rescheduled r sh st ∧ ∃ j, n = num j ∧ (i ≤ j < len)%nat ∧
      ∀ k, (i ≤ k ≤ j)%nat → lost_at (items_ w) k)
    (λ n st, len - S (Z.to_nat (seq_sub n (begin_ w))))%nat).
  - split; [done|]. exists i. split_and!; [done|lia..|]. intros k Hk. by replace k with i by lia.
  - rewrite num_sub by lia. lia.
  - clear st Hst. intros n st (Hst&j&->&Hj&Hall).
    destruct (rescheduled_wf r sh st Hwf Hst) as (Hwf'&Hb&Hl).
    pose proof (rescheduled_reserve t j r sh st Hst) as Hst1. destruct st as [r1 sh1].
    cbn [fst snd] in *. apply wp_bind.
    eapply wp_upd_unread; [done|unfold num, w; by rewrite Hb|rewrite Hl; fold w; fold len; lia|].
    apply wp_bind, wp_self. rewrite num_Next, (num_End (S j)) by (done || lia).
    case_bool_decide as E.
    + apply wp_ret. split; [exact Hst1|]. exists j. by split_and!; [lia|lia|..].
    + apply wp_assoc, wp_missing_at; [exact Hst1|lia|].
      intros b st' Hst' Hb'. apply wp_ret. destruct b.
      * split.
        -- split; [done|]. exists (S j). split_and!; [done|lia|lia|].
           intros k Hk. destruct (decide (k = S j)) as [->|]; [by apply Hb'|apply Hall; lia].
        -- rewrite !num_sub by lia. lia.
      * split; [done|]. exists j. by split_and!; [lia|lia|..].
Qed.
End run.

(** The cyclic ranges of a negative acknowledgement, by index. *)
Lemma covers_single b i k :
  (i < 512)%nat → (k < 512)%nat →
  NegativeAckPacket.covers (seq_add b (Z.of_nat k))
    (NegativeAckPacket.Single (seq_add b (Z.of_nat i))) = true → k = i.
Proof.
  intros Hi Hk E. cbn [NegativeAckPacket.covers] in E. apply Z.eqb_eq, seq_add_inj in E;
    unfold modulus; lia.
Qed.

Lemma covers_range b i j k :
  (i ≤ j < 512)%nat → (k < 512)%nat →
  NegativeAckPacket.covers (seq_add b (Z.of_nat k))
    (NegativeAckPacket.Range (seq_add b (Z.of_nat i)) (seq_add b (Z.of_nat j))) = true →
  (i ≤ k ≤ j)%nat.
Proof.
  intros Hi Hk E. cbn [NegativeAckPacket.covers] in E. unfold seq_add, modulus in E.
  assert (∃ c, 0 ≤ c < 2147483648 ∧ ∀ x, (b + x) mod 2147483648 = (c + x) mod 2147483648)
    as (c&Hc&Hb).
  { exists (b mod 2147483648). split; [apply Z.mod_pos_bound; lia|].
    intros x. by rewrite Zplus_mod_idemp_l. }
  rewrite !Hb in E.
  assert (∀ x : nat, (x < 512)%nat → (c + Z.of_nat x) mod 2147483648 =
    if c + Z.of_nat x <? 2147483648 then c + Z.of_nat x else c + Z.of_nat x - 2147483648) as Hm.
  { intros x Hx. destruct (_ <? _) eqn:Ex; [apply Z.mod_small; lia|].
    symmetry. apply (Z.mod_unique _ _ 1); lia. }
  rewrite !Hm in E by lia.
  destruct (c + Z.of_nat i <? _) eqn:?, (c + Z.of_nat j <? _) eqn:?, (c + Z.of_nat k <? _) eqn:?;
    destruct (_ <=? _) eqn:? in E; lia.
Qed.

Section report.
Context (r : Receiver) (sh : Shared) (t : ptime) (timeout : Z) (dest : Z).
Let w := unread_packets_ r.
Let len := length (items_ w).
Let num (i : nat) : Z := seq_add (begin_ w) (Z.of_nat i).
Hypothesis Hwf : wf w.

Definition nack_base : ControlPacket.t := ControlPacket.Mk NegativeAckPacket.kPacketType 0 0 dest.

(** A negative acknowledgement of missing packets among the first [i]. *)
Definition reports (i : nat) (N : NegativeAckPacket.t) : Prop :=
  ∃ es, N = NegativeAckPacket.Mk nack_base (concat (NegativeAckPacket.entry_words <$> es)) ∧
    Forall NegativeAckPacket.entry_ok es ∧
    (length (NegativeAckPacket.sequence_numbers_ N) ≤ i)%nat ∧
    ∀ k, (k < len)%nat → existsb (NegativeAckPacket.covers (num k)) es = true →
      lost_at (items_ w) k.

Lemma len_512 : (len ≤ 512)%nat.
Proof. pose proof (wf_size _ Hwf) as Hs. unfold Size in Hs. fold w len in Hs. unfold len. lia. Qed.

Lemma num_seqnum i : NegativeAckPacket.is_seqnum (num i).
Proof.
  pose proof (seq_add_is_seq (begin_ w) (Z.of_nat i)) as [? Hlt].
  unfold NegativeAckPacket.is_seqnum, num, modulus in *. lia.
Qed.

Lemma reports_add i i' N e :
  reports i N → NegativeAckPacket.entry_ok e →
  (i + length (NegativeAckPacket.entry_words e) ≤ i')%nat →
  (∀ k, (k < len)%nat → NegativeAckPacket.covers (num k) e = true → lost_at (items_ w) k) →
  ∃ N', NegativeAckPacket.add_entry e N = Ok N' ∧ reports i' N'.
Proof.
  intros (es&->&Hes&Hl&Hcov) He Hi Hlost.
  pose proof (NegativeAckPacket.add_entries_words [e]
    (NegativeAckPacket.Mk nack_base (concat (NegativeAckPacket.entry_words <$> es)))
    ltac:(by constructor)) as Ha.
  cbn [NegativeAckPacket.add_entries] in Ha.
  destruct (NegativeAckPacket.add_entry e _) as [N'|] eqn:E; [|done].
  rewrite Res_bind_ok in Ha. injection Ha as ->. eexists. split; [done|].
  cbn [fmap list_fmap concat NegativeAckPacket.base NegativeAckPacket.sequence_numbers_] in *.
  rewrite app_nil_r. exists (es ++ [e]). split_and!.
  - rewrite fmap_app, concat_app. cbn. by rewrite app_nil_r.
  - by apply Forall_app_2; [|constructor].
  - cbn [NegativeAckPacket.sequence_numbers_]. rewrite length_app. lia.
  - intros k Hk. rewrite existsb_app. cbn [existsb]. rewrite orb_false_r.
    intros [?|?]%orb_prop; auto.
Qed.

Lemma reports_run i j N :
  reports i N → (i ≤ j < len)%nat → (∀ k, (i ≤ k ≤ j)%nat → lost_at (items_ w) k) →
  ∃ N', (if num i =? num j then NegativeAckPacket.AddSequenceNumber (num i) N
         else NegativeAckPacket.AddSequenceNumbers (num i) (num j) N) = Ok N' ∧
    reports (S j) N'.
Proof.
  intros HN Hij Hlost. pose proof len_512 as H512.
  destruct (num i =? num j) eqn:E.
  - apply Z.eqb_eq, seq_add_inj in E; [|unfold modulus; lia..].
    assert (i = j) as <- by lia.
    apply (reports_add i (S i) N (NegativeAckPacket.Single (num i))); [done|apply num_seqnum| |].
    + cbn. lia.
    + intros k Hk Hc. apply covers_single in Hc; [|lia..]. subst k. apply Hlost. lia.
  - assert (i ≠ j) by (intros ->; by rewrite Z.eqb_refl in E).
    apply (reports_add i (S j) N (NegativeAckPacket.Range (num i) (num j))); [done| | |].
    + split; apply num_seqnum.
    + cbn. lia.
    + intros k Hk Hc. apply covers_range in Hc; [|lia..]. by apply Hlost.
Qed.

Lemma reports_mono i i' N : reports i N → (i ≤ i')%nat → reports i' N.
Proof. intros (es&?&?&?&?) ?. exists es. split_and!; try done. lia. Qed.

Lemma wp_missing_packets fuel N st :
  rescheduled r sh st → reports 0 N → (len < fuel)%nat →
  wp (missing_packets fuel t timeout N) st
    (λ N' st', rescheduled r sh st' ∧ reports len N').
Proof.
  intros Hst HN Hfuel. unfold missing_packets. apply wp_bind, wp_self.
  destruct (rescheduled_wf r sh st Hwf Hst) as (_&Hb0&_).
  assert (∀ i, (i ≤ len)%nat → seq_sub (num i) (begin_ w) = Z.of_nat i) as Hsub
    by exact (num_sub r Hwf).
  apply (wp_loop (λ '(n, N) st, rescheduled r sh st ∧ ∃ i, n = num i ∧ (i ≤ len)%nat ∧ reports i N)
    (λ '(n, N) st, len - Z.to_nat (seq_sub n (begin_ w)))%nat).
  - split; [done|]. exists 0%nat. split_and!; [|lia|done].
    unfold Begin, num. rewrite Hb0. by apply Begin_index.
  - lia.
  - clear st Hst Hb0 N HN. intros [n N] st (Hst&i&->&Hi&HN).
    apply wp_bind, wp_self.
    assert ((num i =? End (unread_packets_ st.1)) = bool_decide (i = len)) as ->
      by (by apply (num_End r sh Hwf)).
    case_bool_decide as E; [apply wp_ret; by subst i|].
    apply (wp_assoc _ (λ p, shared (Missing p timeout))).
    apply (wp_missing_at r sh timeout Hwf); [done|fold w len; lia|].
    intros [|] st' Hst' Hb'; cbn [fst snd].
    + apply wp_bind. eapply wp_mono;
        [apply (wp_missing_run r sh t timeout Hwf); [done|fold w len; lia|by apply Hb'|fold w len; lia|lia]|].
      intros x st2 (Hst2&j&Hj&->&Hall). cbn [fst snd]. fold w len in Hj.
      destruct (reports_run i j N HN) as (N'&EN&HN'); [lia|done|].
      apply wp_bind. eapply wp_liftR; [exact EN|]. apply wp_ret.
      split; [split; [done|]; exists (S j); by split_and!; [|lia|]|].
      fold w. fold (num (S j)). rewrite !Hsub by lia. lia.
    + apply wp_ret. change (Next (num i)) with (Next (seq_add (begin_ w) (Z.of_nat i))).
      rewrite (num_Next r Hwf). split.
      * split; [done|]. exists (S i). split_and!; [done|lia|]. apply (reports_mono i); [done|lia].
      * fold w. fold (num (S i)). rewrite !Hsub by lia. lia.
Qed.
End report.

(** ** The whole tick *)

Definition nack_sent (N : NegativeAckPacket.t) sh : list datagram :=
  if NegativeAckPacket.HasSequenceNumbers N
  then [Datagram _ (peer_endpoint (sh_peer sh)) (wire_bytes N)] else [].

(** The state of the receiver is kept but for reservation times and the window
    of acknowledgements; at most one acknowledgement, of everything that
    arrived before the first gap, and then at most one negative
    acknowledgement, of packets that are missing, are sent. *)
Definition ticked r sh (st : Receiver * Shared) : Prop :=
  receiver_ok st.1 ∧ shared_ok st.2 ∧ sh_peer st.2 = sh_peer sh ∧
  (∃ l, unread_packets_ st.1 =
      MkWindow l (maximum_size_ (unread_packets_ r)) (begin_ (unread_packets_ r))
        (end_ (unread_packets_ r)) ∧ strip <$> l = strip <$> items_ (unread_packets_ r)) ∧
  ∃ N acks, reports r (peer_id (sh_peer sh)) (length (items_ (unread_packets_ r))) N ∧
    w_sent (sh_world st.2) = nack_sent N sh ++ acks ++ w_sent (sh_world sh) ∧
    (acks = [] ∨ ∃ p, AckPacket.wf p ∧ AckPacket.PacketSequenceNumber p = next_expected r ∧
       AckPacket.HasOptionalFields p = true ∧
       acks = [Datagram _ (peer_endpoint (sh_peer sh)) (wire_bytes p)]).

Lemma nack_fits r dest N :
  wf (unread_packets_ r) → reports r dest (length (items_ (unread_packets_ r))) N →
  (wire_size N ≤ Z.to_nat RudpParameters.max_size)%nat.
Proof.
  intros Hwf (es&_&_&Hl&_). pose proof (wf_size _ Hwf) as Hs. unfold Size in Hs.
  cbn [wire_size negative_ack_wire]. unfold NegativeAckPacket.size, RudpParameters.max_size. lia.
Qed.

Lemma ticked_same_net r sh r' sh1 sh2 :
  ticked r sh (r', sh1) → sh_peer sh2 = sh_peer sh1 → sh_cc sh2 = sh_cc sh1 →
  w_sent (sh_world sh2) = w_sent (sh_world sh1) → ticked r sh (r', sh2).
Proof.
  intros (?&Hs&?&?&N&acks&Hw) Ep Ec Ew. unfold ticked, shared_ok in *. cbn [fst snd] in *.
  rewrite Ep, Ec. split_and!; try done; [apply Hs..|]. exists N, acks. by rewrite Ew.
Qed.

(** The end of a tick: another one is scheduled while packets are unread. *)
Lemma wp_rearm r sh r' sh' :
  ticked r sh (r', sh') →
  wp (w ← self unread_packets_;
      when (negb (IsEmpty w)) (delay ← cc_get ReceiveDelay; shared (TickAfter delay)))
    (r', sh') (λ _, ticked r sh).
Proof.
  intros Ht. apply wp_bind, wp_self. destruct (negb _); cbn [when]; [|by apply wp_ret].
  apply wp_bind, wp_cc_get, wp_shared, wp_TickAfter. by eapply ticked_same_net.
Qed.

Lemma receiver_wp_HandleTick r sh :
  receiver_ok r → shared_ok sh → wp HandleTick (r, sh) (λ _, ticked r sh).
Proof.
  intros Hr Hsh. unfold HandleTick. apply wp_bind, wp_shared, wp_now. cbn [fst snd].
  set (t := clock _). set (sh0 := with_world _ sh).
  apply wp_bind. eapply wp_mono; [by apply (wp_tick_acks t r sh0)|].
  intros [] [r1 sh1] (Hr1&Hsh1&Eu&Ep&Hw). cbn [fst snd] in *.
  apply wp_bind. eapply wp_liftR; [reflexivity|]. apply wp_bind, wp_peer_get. cbn [fst snd]. cbv zeta.
  apply wp_bind, wp_self, wp_bind, wp_cc_get. cbn [fst snd]. rewrite Eu.
  apply wp_bind. eapply wp_mono; [apply (wp_missing_packets r1 sh1 t _ (peer_id (sh_peer sh1)))|].
  - apply Hr1.
  - exists (items_ (unread_packets_ r1)). by rewrite items_with_same.
  - exists []. split_and!; [done|constructor|done|done].
  - rewrite Eu. lia.
  - intros N st (Hst&HN). pose proof (rescheduled_wf r1 sh1 st (proj1 Hr1) Hst) as (Hwf2&_).
    destruct st as [r2 sh2], Hst as (l&E2&El&Hcl). cbn [fst snd] in *. subst r2.
    assert (ticked r sh (items_with l (begin_ (unread_packets_ r1)) r1,
      MkShared (sh_peer sh2) (sh_timer sh2) (sh_cc sh2) (MkWorld _ (w_clock (sh_world sh2))
        (w_random (sh_world sh2)) (nack_sent N sh2 ++ w_sent (sh_world sh2))))) as Hdone.
    { destruct Hcl as (E1&E2&E3&E4). unfold ticked. cbn [fst snd]. rewrite E1, E4. split_and!.
      - split; [exact Hwf2|apply Hr1].
      - unfold shared_ok in *. cbn. by rewrite E3.
      - exact Ep.
      - exists l. rewrite <-Eu. done.
      - exists N. unfold nack_sent. rewrite E1, Ep. cbn [sh_world w_sent].
        rewrite Ep in HN. unfold reports, next_expected in *. rewrite Eu in HN.
        destruct Hw as [Ew|(p&Hp1&Hp2&Hp3&Ew)]; rewrite Ew.
        + exists []. by split_and!; [exact HN| |left].
        + eexists [_]. split_and!; [exact HN|reflexivity|]. right. by exists p. }
    apply wp_bind. unfold nack_sent in Hdone.
    destruct (NegativeAckPacket.HasSequenceNumbers N); cbn [when].
    + apply wp_bind, wp_shared. apply wp_Send; [done|by eapply nack_fits; [apply Hr1|]|].
      cbn [fst snd]. apply wp_ret, wp_rearm. exact Hdone.
    + apply wp_ret, wp_rearm. eapply ticked_same_net; [exact Hdone|done..].
Qed.

(** ** Acknowledgements of acknowledgements, and starting *)

Lemma wp_remove_acks n r sh (Q : unit → Receiver * Shared → Prop) :
  receiver_ok r →
  (∀ w, acks_ok w → Contains n w = false → Q tt (set_acks w r, sh)) →
  wp (while_ (S (length (items_ (acks_ r)))) (w ← self acks_; mret (Contains n w)) remove_ack)
    (r, sh) Q.
Proof.
  intros [_ Hacks] HQ.
  apply (wp_while (λ st, ∃ w, acks_ok w ∧ st = (set_acks w r, sh))
    (λ st, length (items_ (acks_ st.1)))).
  - exists (acks_ r). split; [done|]. by destruct r.
  - cbn [fst]. lia.
  - intros st (w&Hw&->). apply wp_bind, wp_self, wp_ret. cbn [fst set_acks acks_].
    destruct (Contains n w) eqn:HC; [|by apply HQ].
    destruct Hw as (Hwf&Hm&Hs). destruct (items_ w) as [|a l] eqn:Ei.
    { exfalso. unfold Contains, IsInRange, kMaxSequenceNumber in HC.
      pose proof Hwf as (Hb&He&_). unfold Size in He. rewrite Ei, seq_add_0 in He by done.
      rewrite He, Z.leb_refl in HC. lia. }
    destruct (Remove_ok w a l Hwf Ei) as (w'&E&Hwf'&Ei'&_&_&Em).
    unfold remove_ack. apply wp_bind, wp_self, wp_bind. cbn [fst set_acks acks_].
    eapply wp_liftR; [exact E|]. apply wp_upd_self. cbn [fst snd set_acks acks_]. split.
    + exists w'. split; [|done]. unfold acks_ok, Size in *. rewrite Ei', Em.
      rewrite Ei in Hs. cbn [length] in Hs. split_and!; [done|lia|lia].
    + rewrite Ei'. apply Nat.lt_succ_diag_r.
Qed.

Lemma wp_HandleAckOfAck p r sh (Q : unit → Receiver * Shared → Prop) :
  receiver_ok r → cc_inv (sh_cc sh) → 0 ≤ AckOfAckPacket.AckSequenceNumber p →
  (∀ w sh', acks_ok w → frame sh sh' →
     Contains (AckOfAckPacket.AckSequenceNumber p) w = false → Q tt (set_acks w r, sh')) →
  wp (HandleAckOfAck p) (r, sh) Q.
Proof.
  intros Hr Hcc Hn HQ. unfold HandleAckOfAck. set (n := AckOfAckPacket.AckSequenceNumber p) in *.
  apply wp_bind, wp_self. cbn [fst]. apply wp_bind.
  eapply (wp_mono _ _ (λ _ st, st.1 = r ∧ frame sh st.2)).
  - apply wp_when; intros HC; [|by split_and!].
    assert (is_seq n) as Hsn by (eapply (Contains_is_seq n (acks_ r)); [apply Hr|done..]).
    pose proof (proj1 (proj2 Hr)) as Hwfa.
    assert (Z.to_nat (seq_sub n (begin_ (acks_ r))) < length (items_ (acks_ r)))%nat as Hi.
    { rewrite Contains_spec in HC by done. pose proof (seq_sub_is_seq n (begin_ (acks_ r))) as [? _].
      unfold Size in HC. lia. }
    destruct (lookup_lt_is_Some_2 _ _ Hi) as [a Ha]. apply wp_bind. eapply wp_liftR.
    { unfold at_. rewrite SequenceNumberToIndex_spec, Res_bind_ok, Ha by done. reflexivity. }
    apply wp_bind, wp_shared, wp_now. cbn [fst snd]. cbv zeta.
    apply wp_when; intros _; [|by split_and!]. apply wp_shared, wp_upd_cc.
    split; [reflexivity|]. split; [reflexivity|]. split; [reflexivity|].
    intros Hc. by apply OnAckOfAck_inv.
  - intros [] [r1 sh1] [E Hf]. cbn [fst snd] in *. subst r1.
    apply wp_bind, wp_self. cbn [fst]. apply wp_remove_acks; [done|].
    intros w Hw HC. by apply HQ.
Qed.

Lemma wp_Reset n r sh (Q : unit → Receiver * Shared → Prop) :
  n ≤ 0x7fffffff → Q tt (set_last_ack n (set_unread (new_window n) r), sh) →
  wp (Reset n) (r, sh) Q.
Proof.
  intros Hn HQ. unfold Reset. apply wp_bind, wp_self, wp_bind. eapply wp_liftR.
  { unfold SlidingWindow.Reset. by rewrite (proj2 (Z.leb_le _ _)) by done. }
  by apply wp_bind, wp_upd_self, wp_upd_self.
Qed.

(** ** Properties *)

(** What the socket asks of its receiver. *)
Inductive receiver_event :=
  | RReadData (size : nat)
  | RData (p : DataPacket.t)
  | RAckOfAck (p : AckOfAckPacket.t)
  | RTick.

Definition receiver_step (e : receiver_event) : M (Receiver * Shared) unit :=
  match e with
  | RReadData size => ReadData size;; mret tt
  | RData p => HandleData p
  | RAckOfAck p => HandleAckOfAck p
  | RTick => HandleTick
  end.

Fixpoint receiver_run (es : list receiver_event) : M (Receiver * Shared) unit :=
  match es with [] => mret tt | e :: es' => receiver_step e;; receiver_run es' end.

(** Sequence numbers come from decoded 32-bit fields. *)
Definition receiver_event_ok (e : receiver_event) : Prop :=
  match e with
  | RData p => is_u32 (DataPacket.PacketSequenceNumber p)
  | RAckOfAck p => is_u32 (AckOfAckPacket.AckSequenceNumber p)
  | _ => True
  end.

Lemma read_result_wf size r :
  wf (unread_packets_ r) → wf (unread_packets_ (read_result size r).2).
Proof.
  intros (Hb&He&Hs&Hm). pose proof (read_items_length size (items_ (unread_packets_ r))) as Hl.
  unfold read_result, wf, Size in *. cbn -[Z.of_nat seq_add read_items].
  split; [apply seq_add_is_seq|]. split; [|split; [lia|done]].
  rewrite He, seq_add_add. f_equal. lia.
Qed.

Lemma stored_wf p r : wf (unread_packets_ r) → wf (unread_packets_ (stored p r)).
Proof.
  intros Hwf. unfold stored. repeat case_match; try done. by apply wf_items_with_alter.
Qed.

Lemma stored_acks p r : acks_ (stored p r) = acks_ r.
Proof. unfold stored. by repeat case_match. Qed.

Lemma with_maximum_wf r sh :
  wf (unread_packets_ r) → cc_inv (sh_cc sh) →
  wf (unread_packets_ (with_maximum (ReceiveWindowSize (sh_cc sh)) r)).
Proof.
  intros Hwf ((_&_&Hr)&_). apply wf_SetMaximumSize; [|done].
  unfold ReceiveWindowSize, RudpParameters.default_window_size in *. lia.
Qed.

Lemma handle_data_result_ok p r sh :
  receiver_ok r → cc_inv (sh_cc sh) → 0 ≤ DataPacket.PacketSequenceNumber p →
  receiver_ok (handle_data_result p r sh).
Proof.
  intros [Hwf Ha] Hcc Hn. unfold handle_data_result. cbv zeta.
  pose proof (with_maximum_wf r sh Hwf Hcc) as Hwf0.
  set (r0 := with_maximum _ r) in *. split; [|by rewrite stored_acks].
  apply stored_wf, wf_reserved; [done|]. by apply reserve_count_bound.
Qed.

Lemma frame_shared_ok sh sh' : frame sh sh' → shared_ok sh → shared_ok sh'.
Proof. intros (E&_&Hc) [? ?]. unfold shared_ok. rewrite E. auto. Qed.

Definition state_ok (st : Receiver * Shared) : Prop := receiver_ok st.1 ∧ shared_ok st.2.

Lemma wp_receiver_step e st :
  state_ok st → receiver_event_ok e → wp (receiver_step e) st (λ _, state_ok).
Proof.
  destruct st as [r sh]. intros [Hr Hsh] He. cbn [fst snd] in *.
  destruct e as [size|p|p|]; cbn [receiver_step receiver_event_ok] in *.
  - apply wp_bind, wp_ReadData; [apply Hr|]. apply wp_ret. split; [|done].
    split; [by apply read_result_wf, Hr|apply Hr].
  - apply wp_HandleData; [apply Hr|apply He|apply Hsh|]. intros sh' Hf. split.
    + apply handle_data_result_ok; [done|apply Hsh|apply He].
    + by apply (frame_shared_ok sh).
  - apply wp_HandleAckOfAck; [done|apply Hsh|apply He|]. intros w sh' Hw Hf _. split.
    + split; [apply Hr|done].
    + by apply (frame_shared_ok sh).
  - eapply wp_mono; [by apply receiver_wp_HandleTick|]. intros [] st (?&?&_). by split.
Qed.

Lemma wp_receiver_run es st :
  state_ok st → Forall receiver_event_ok es → wp (receiver_run es) st (λ _, state_ok).
Proof.
  intros Hst Hes. revert st Hst. induction Hes as [|e es He _ IH]; intros st Hst; [done|].
  cbn [receiver_run]. apply wp_bind. eapply wp_mono; [by apply wp_receiver_step|].
  intros [] st' Hst'. by apply IH.
Qed.

(** A receiver whose windows are fresh never fails an assertion, never
    reads outside a window and finishes every loop, whatever sequence of
    reads, data packets, acknowledgements of acknowledgements and ticks it is
    given, and its window of unread packets never exceeds 512 slots. *)
Theorem receiver_never_faults (n k : Z) (t : ptime) (es : list receiver_event) (sh : Shared) :
  is_seq n → is_seq k → shared_ok sh → Forall receiver_event_ok es →
  ∃ r' sh', receiver_run es (MkReceiver (new_window n) (new_window k) n t, sh) =
      Ok (tt, (r', sh')) ∧
    Size (unread_packets_ r') ≤ 512 ∧ Size (acks_ r') ≤ maximum_size_ (acks_ r') ≤ 512 ∧
    is_seq (begin_ (unread_packets_ r')).
Proof.
  intros Hn Hk Hsh Hes.
  assert (state_ok (MkReceiver (new_window n) (new_window k) n t, sh)) as Hst.
  { split; [|done]. split; [by apply wf_new_window|]. split; [by apply wf_new_window|].
    by split; apply Z.leb_le. }
  pose proof (wp_receiver_run es _ Hst Hes) as Hw.
  apply wp_Ok in Hw as ([]&[r' sh']&E&[Hwf (Hwa&Hm&Hs)]&_). cbn [fst] in *.
  exists r', sh'. split_and!; [exact E|by apply wf_size|done|apply Hwa|apply Hwf..].
Qed.

(** C3: Reading delivers in order and exactly once: [ReadData] with a buffer
    of [size] bytes returns the first [size] readable bytes (those of the
    packets before the first gap, less what was read), and what is readable
    afterwards is precisely the rest. *)
Theorem read_data_delivers_in_order (size : nat) (r : Receiver) (sh : Shared) :
  wf (unread_packets_ r) →
  ∃ r', ReadData size (r, sh) = Ok (take size (readable r), (r', sh)) ∧
    readable r' = drop size (readable r) ∧
    wf (unread_packets_ r') ∧ end_ (unread_packets_ r') = end_ (unread_packets_ r).
Proof.
  intros Hwf. assert (wp (ReadData size) (r, sh)
    (λ out st, out = (read_result size r).1 ∧ st = ((read_result size r).2, sh))) as Hw
    by (by apply wp_ReadData).
  apply wp_Ok in Hw as (out&st&E&->& ->). exists (read_result size r).2.
  destruct (read_items_readable size (items_ (unread_packets_ r))) as [E1 E2].
  split_and!; [|exact E2|by apply read_result_wf|done].
  rewrite E. unfold readable. by rewrite <-E1.
Qed.

Lemma items_reserved k st :
  items_ (unread_packets_ (reserved k st).1) =
    items_ (unread_packets_ st.1) ++ fresh (w_clock (sh_world st.2)) k.
Proof. done. Qed.

Lemma fresh_lookup c0 k i u : fresh c0 k !! i = Some u → lost u = true ∧ bytes_read u = 0%nat.
Proof. unfold fresh. rewrite list_lookup_fmap. intros (j&_&->)%fmap_Some_1. done. Qed.

(** The slots after a data packet, index by index. *)
Lemma handle_data_lookup p r sh i u :
  let old := items_ (unread_packets_ r) in
  let new := items_ (unread_packets_ (handle_data_result p r sh)) in
  new !! i = Some u → lost u = false →
  old !! i = Some u ∨
  (u = fill p u ∧ Z.of_nat i = seq_sub (DataPacket.PacketSequenceNumber p) (begin_ (unread_packets_ r)) ∧
   ∀ v, old !! i = Some v → lost v = true).
Proof.
  intros old new Hu Hl. unfold new, handle_data_result in Hu. cbv zeta in Hu.
  set (r0 := with_maximum _ r) in *. set (k := reserve_count _ _) in *.
  assert (items_ (unread_packets_ (reserved k (r0, sh)).1) = old ++ fresh (w_clock (sh_world sh)) k)
    as Eitems by done.
  assert (∀ v, (old ++ fresh (w_clock (sh_world sh)) k) !! i = Some v → lost v = false →
    old !! i = Some v) as Hold.
  { intros v Hv Hlv. apply lookup_app_Some in Hv as [Hv|[_ Hv]]; [done|].
    apply fresh_lookup in Hv as [? _]. congruence. }
  unfold stored in Hu. set (n := DataPacket.PacketSequenceNumber p) in *.
  rewrite Eitems in Hu. change (begin_ (unread_packets_ (reserved k (r0, sh)).1))
    with (begin_ (unread_packets_ r)) in Hu.
  set (j := Z.to_nat (seq_sub n (begin_ (unread_packets_ r)))) in *.
  destruct (Contains _ _); [|rewrite Eitems in Hu; left; by apply Hold].
  destruct ((old ++ _) !! j) as [v|] eqn:Hj; [|rewrite Eitems in Hu; left; by apply Hold].
  destruct (lost v) eqn:Elv; [|rewrite Eitems in Hu; left; by apply Hold].
  cbn [items_with set_unread unread_packets_ items_] in Hu.
  destruct (decide (i = j)) as [->|Hij].
  - rewrite list_lookup_alter, decide_True, Hj in Hu by done. injection Hu as <-. right.
    split; [done|]. split.
    + unfold j. rewrite Z2Nat.id; [done|]. apply seq_sub_is_seq.
    + intros v' Hv'. rewrite (lookup_app_l_Some _ _ _ _ Hv') in Hj. by injection Hj as ->.
  - rewrite list_lookup_alter_ne in Hu by done. left. by apply Hold.
Qed.

Lemma reserve_reaches p r i :
  wf (unread_packets_ r) → is_seq p →
  i = Z.to_nat (seq_sub p (begin_ (unread_packets_ r))) →
  Z.of_nat i < maximum_size_ (unread_packets_ r) →
  (i < length (items_ (unread_packets_ r)) + reserve_count p (unread_packets_ r))%nat.
Proof.
  intros Hwf Hp -> Hi. set (w := unread_packets_ r) in *.
  pose proof (seq_sub_is_seq p (begin_ w)) as [Hd _].
  destruct (decide (Z.to_nat (seq_sub p (begin_ w)) < length (items_ w))%nat) as [|Hge]; [lia|].
  pose proof (wf_size w Hwf) as Hs. pose proof (proj2 (proj2 (proj2 Hwf))) as Hm.
  unfold Size, RudpParameters.maximum_window_size in *.
  assert (seq_sub p (end_ w) = seq_sub p (begin_ w) - Z.of_nat (length (items_ w))) as Esub.
  { rewrite (length_items_End w Hwf). destruct Hwf as (Hb&_).
    unfold seq_sub, seq_add, is_seq, modulus in *. mod_lia. }
  unfold reserve_count. rewrite IsComingSoon_spec by done. rewrite Esub.
  unfold Size, RudpParameters.maximum_window_size. rewrite (proj2 (Z.ltb_lt _ _)) by lia. lia.
Qed.

(** After a packet whose slot fits the window, its slot has arrived. *)
Lemma handle_data_stored p r sh i :
  receiver_ok r → cc_inv (sh_cc sh) → is_seq (DataPacket.PacketSequenceNumber p) →
  i = Z.to_nat (seq_sub (DataPacket.PacketSequenceNumber p) (begin_ (unread_packets_ r))) →
  Z.of_nat i < ReceiveWindowSize (sh_cc sh) `min` 512 →
  ∃ u, items_ (unread_packets_ (handle_data_result p r sh)) !! i = Some u ∧ lost u = false.
Proof.
  intros [Hwf _] Hcc Hn Hi Hlt. unfold handle_data_result. cbv zeta.
  pose proof (with_maximum_wf r sh Hwf Hcc) as Hwf0.
  set (r0 := with_maximum _ r) in *. set (n := DataPacket.PacketSequenceNumber p) in *.
  assert (maximum_size_ (unread_packets_ r0) = ReceiveWindowSize (sh_cc sh) `min` 512) as Hm.
  { unfold r0, with_maximum, SetMaximumSize. cbn. unfold RudpParameters.maximum_window_size.
    destruct (_ <? _) eqn:E; lia. }
  pose proof (reserve_reaches n r0 i Hwf0 Hn Hi ltac:(lia)) as Hreach.
  set (k := reserve_count n (unread_packets_ r0)) in *.
  assert (wf (unread_packets_ (reserved k (r0, sh)).1)) as Hwf1
    by (apply wf_reserved; [done|by apply reserve_count_bound]).
  destruct (reserved k (r0, sh)) as [r1 sh1] eqn:Er. cbn [fst] in *.
  assert (items_ (unread_packets_ r1) = items_ (unread_packets_ r0) ++ fresh (w_clock (sh_world sh)) k)
    as Eitems by (change r1 with (r1, sh1).1; by rewrite <-Er).
  assert (begin_ (unread_packets_ r1) = begin_ (unread_packets_ r)) as Eb
    by (change r1 with (r1, sh1).1; by rewrite <-Er).
  assert (i < length (items_ (unread_packets_ r1)))%nat as Hi1
    by (rewrite Eitems, length_app, length_fresh; done).
  destruct (lookup_lt_is_Some_2 _ _ Hi1) as [u Hu].
  unfold stored. fold n. rewrite Eb, <-Hi, Contains_spec, Eb, Hu by done.
  rewrite (proj2 (Z.ltb_lt _ _)) by (unfold Size; lia).
  destruct (lost u) eqn:El; [|by exists u].
  exists (fill p u). split; [|done]. cbn [items_with set_unread unread_packets_ items_].
  by rewrite list_lookup_alter, decide_True, Hu by done.
Qed.

Lemma handle_data_keeps p r sh i u :
  items_ (unread_packets_ r) !! i = Some u → lost u = false →
  items_ (unread_packets_ (handle_data_result p r sh)) !! i = Some u.
Proof.
  intros Hu Hl. unfold handle_data_result. cbv zeta. set (r0 := with_maximum _ r).
  set (k := reserve_count _ _).
  assert (items_ (unread_packets_ (reserved k (r0, sh)).1) !! i = Some u) as Hu1.
  { rewrite items_reserved. by apply lookup_app_l_Some. }
  unfold stored. destruct (Contains _ _); [|done].
  destruct (_ !! Z.to_nat _) as [v|] eqn:Hj; [|done]. destruct (lost v) eqn:Elv; [|done].
  cbn [items_with set_unread unread_packets_ items_].
  rewrite list_lookup_alter. case_decide as E; [|done]. subst i.
  rewrite Hj in Hu1. injection Hu1 as ->. congruence.
Qed.

Lemma handle_data_begin p r sh :
  begin_ (unread_packets_ (handle_data_result p r sh)) = begin_ (unread_packets_ r).
Proof. unfold handle_data_result, stored. cbv zeta. by repeat case_match. Qed.

(** C4: A data packet is stored once, in its slot and nowhere else.  Slots
    that arrived before keep their packet and read position, so a duplicate is
    ignored; a slot that has newly arrived is the packet's own and holds
    it; and if the packet's number is inside the receive window, its slot has
    arrived afterwards.  Nothing is sent. *)
Theorem handle_data_stores_once (p : DataPacket.t) (r : Receiver) (sh : Shared) :
  receiver_ok r → shared_ok sh → is_u32 (DataPacket.PacketSequenceNumber p) →
  let n := DataPacket.PacketSequenceNumber p in
  let b := begin_ (unread_packets_ r) in
  ∃ r' sh', HandleData p (r, sh) = Ok (tt, (r', sh')) ∧
    begin_ (unread_packets_ r') = b ∧ w_sent (sh_world sh') = w_sent (sh_world sh) ∧
    (∀ i u, items_ (unread_packets_ r) !! i = Some u → lost u = false →
       items_ (unread_packets_ r') !! i = Some u) ∧
    (∀ i u, items_ (unread_packets_ r') !! i = Some u → lost u = false →
       items_ (unread_packets_ r) !! i = Some u ∨
       packet u = p ∧ bytes_read u = 0%nat ∧ Z.of_nat i = seq_sub n b) ∧
    (n < 2147483648 → seq_sub n b < ReceiveWindowSize (sh_cc sh) `min` 512 →
       ∃ u, items_ (unread_packets_ r') !! Z.to_nat (seq_sub n b) = Some u ∧ lost u = false).
Proof.
  intros Hr Hsh Hn n b. assert (wp (HandleData p) (r, sh)
    (λ _ st, st.1 = handle_data_result p r sh ∧ frame sh st.2)) as Hw.
  { apply wp_HandleData; [apply Hr|apply Hn|apply Hsh|]. by intros sh' Hf. }
  apply wp_Ok in Hw as ([]&[r' sh']&E&E1&Hf). cbn [fst snd] in *. exists r', sh'. subst r'.
  split; [exact E|]. split; [apply handle_data_begin|]. split; [apply Hf|]. split_and!.
  - intros i u. apply handle_data_keeps.
  - intros i u Hu Hl. destruct (handle_data_lookup p r sh i u Hu Hl) as [?|(->&Hi&_)]; auto.
  - intros Hlt Hi. pose proof (seq_sub_is_seq n b) as [? _].
    eapply (handle_data_stored p r sh); [done|apply Hsh|split; [apply Hn|done]|reflexivity|].
    fold n b. by rewrite Z2Nat.id.
Qed.

(** C10: What a tick reports is true.  It sends at most one acknowledgement and
    then at most one negative acknowledgement.  The acknowledgement carries
    the number of the first packet that has not arrived; every number of the
    window that the negative acknowledgement contains is of a packet that has
    not arrived; and the receive window is untouched: its bounds, and of each slot the
    packet, whether it has arrived, and the read position. *)
Theorem tick_reports_truthfully (r : Receiver) (sh : Shared) :
  receiver_ok r → shared_ok sh →
  ∃ r' sh' N acks, HandleTick (r, sh) = Ok (tt, (r', sh')) ∧
    let w := unread_packets_ r in let w' := unread_packets_ r' in
    begin_ w' = begin_ w ∧ end_ w' = end_ w ∧ maximum_size_ w' = maximum_size_ w ∧
    (λ u, (packet u, lost u, bytes_read u)) <$> items_ w' = (λ u, (packet u, lost u, bytes_read u)) <$> items_ w ∧
    readable r' = readable r ∧ next_expected r' = next_expected r ∧
    w_sent (sh_world sh') = nack_sent N sh ++ acks ++ w_sent (sh_world sh) ∧
    (acks = [] ∨ ∃ p, AckPacket.PacketSequenceNumber p = next_expected r ∧
       acks = [Datagram _ (peer_endpoint (sh_peer sh)) (wire_bytes p)]) ∧
    (∀ i u, items_ (unread_packets_ r) !! i = Some u →
       NegativeAckPacket.ContainsSequenceNumber
         (seq_add (begin_ (unread_packets_ r)) (Z.of_nat i)) N = Ok true →
       lost u = true).
Proof.
  intros Hr Hsh. pose proof (receiver_wp_HandleTick r sh Hr Hsh) as Hw.
  apply wp_Ok in Hw as ([]&[r' sh']&E&_&_&_&(l&Eu&El)&N&acks&HN&Es&Hacks).
  cbn [fst snd] in *. exists r', sh', N, acks.
  assert (Forall2 (λ u v, packet u = packet v ∧ lost u = lost v ∧ bytes_read u = bytes_read v)
    l (items_ (unread_packets_ r))) as Hl.
  { clear -El. revert El. generalize (items_ (unread_packets_ r)). intros items El.
    revert items El. induction l as [|u l IH]; intros [|v items] El; try done.
    cbn [fmap list_fmap] in El. injection El as E1 E2 E3 E4. constructor; [done|]. by apply IH. }
  assert (unread_bytes <$> arrived l = unread_bytes <$> arrived (items_ (unread_packets_ r))) as Ea.
  { clear -Hl. induction Hl as [|u v ?? (Ep&Elo&Eb) _ IH]; [done|]. cbn [arrived]. rewrite Elo.
    destruct (lost v); [done|]. cbn [fmap list_fmap]. f_equal; [|exact IH].
    unfold unread_bytes. by rewrite Ep, Eb. }
  cbv zeta. rewrite Eu at 1 2 3 4. split_and!; [exact E|done|done|done|exact El| | |exact Es| |].
  - unfold readable. rewrite Eu. cbn [items_]. by rewrite Ea.
  - unfold next_expected. rewrite Eu. cbn [items_ begin_]. do 2 f_equal.
    pose proof (f_equal length Ea) as Hlen. by rewrite !length_fmap in Hlen.
  - destruct Hacks as [->|(p&_&?&_&->)]; [by left|]. right. by exists p.
  - intros i u Hu HC. destruct HN as (es&->&Hes&_&Hcov).
    assert (i < length (items_ (unread_packets_ r)))%nat as Hi by by eapply lookup_lt_Some.
    pose proof (num_seqnum r i) as Hn. unfold NegativeAckPacket.ContainsSequenceNumber in HC.
    rewrite (proj2 (Z.leb_le _ _)) in HC by apply Hn.
    injection HC as HC. cbn [NegativeAckPacket.sequence_numbers_] in HC.
    rewrite NegativeAckPacket.contains_entries in HC by done.
    destruct (Hcov i Hi HC) as (v&Hv&Hlv). congruence.
Qed.
End theory.

(** ** Examples *)
Module ReceiverExamples.
Import Demo.

Definition at_us (t : Z) : @ptime (@env_time sim) := Sim.At t.
Definition start : Receiver :=
  MkReceiver (new_window 0x7fffffff) (new_window 5) 0x7fffffff (at_us 0).
Definition sh0 : Shared := shared_at 2 9.

Lemma sh0_ok : shared_ok sh0.
Proof. split; [apply new_congestion_control_inv|by vm_compute]. Qed.

Lemma receiver_start_ok : receiver_ok start.
Proof. split; [by apply wf_new_window|]. split; [by apply wf_new_window|]. by split; vm_compute. Qed.

(** The packet number [n] with the bytes [d], [d]. *)
Definition chunk (n d : Z) : DataPacket.t := DataPacket.Mk n true true true 0 0 9 [d; d].

Definition arrivals : list receiver_event :=
  [RData (chunk 0 2); RTick; RReadData 3; RData (chunk 0x7fffffff 1); RReadData 3; RTick;
   RAckOfAck (AckOfAckPacket.Mk (ControlPacket.Mk 6 5 0 0)); RData (chunk 4294967295 0)].

Lemma receiver_never_faults_witness :
  ∃ r' sh', receiver_run arrivals (start, sh0) = Ok (tt, (r', sh')) ∧
    Size (unread_packets_ r') ≤ 512.
Proof.
  destruct (receiver_never_faults 0x7fffffff 5 (at_us 0) arrivals sh0) as (r'&sh'&E&Hs&_).
  - by vm_compute.
  - by vm_compute.
  - apply sh0_ok.
  - unfold arrivals. repeat constructor; by vm_compute.
  - exists r', sh'. split; [exact E|exact Hs].
Defined.

Definition arrived_at (n d : Z) (k : nat) : UnreadPacket := MkUnread (chunk n d) false k (at_us 0).
Definition missing : UnreadPacket := MkUnread DataPacket.new true 0 (at_us 0).

(** Two packets arrived, a third is missing, a fourth arrived; a byte of the
    first was read. *)
Definition gap : Receiver :=
  MkReceiver (MkWindow [arrived_at 0x7fffffff 1 1; arrived_at 0 2 0; missing; arrived_at 2 4 0]
                16 0x7fffffff 3)
    (new_window 5) 0 (at_us 0).

Lemma gap_ok : receiver_ok gap.
Proof. split; [by vm_compute|]. apply receiver_start_ok. Qed.

Lemma read_data_delivers_in_order_witness :
  ∃ r', ReadData 2 (gap, sh0) = Ok ([1; 2], (r', sh0)) ∧ readable r' = [2].
Proof.
  destruct (read_data_delivers_in_order 2 gap sh0 (proj1 gap_ok)) as (r'&E&Hr&_).
  exists r'. split; [exact E|exact Hr].
Defined.

Lemma handle_data_stores_once_witness :
  ∃ r' sh', HandleData (chunk 1 3) (gap, sh0) = Ok (tt, (r', sh')) ∧
    ∃ u, items_ (unread_packets_ r') !! 2%nat = Some u ∧ lost u = false.
Proof.
  destruct (handle_data_stores_once (chunk 1 3) gap sh0) as (r'&sh'&E&_&_&_&_&Hu).
  - apply gap_ok.
  - apply sh0_ok.
  - by vm_compute.
  - exists r', sh'. split; [exact E|]. apply Hu; by vm_compute.
Defined.

Lemma tick_reports_truthfully_witness :
  ∃ r' sh' N acks, HandleTick (gap, sh0) = Ok (tt, (r', sh')) ∧ readable r' = [1; 2; 2] ∧
    w_sent (sh_world sh') = nack_sent N sh0 ++ acks ++ [] ∧
    ∀ i u, items_ (unread_packets_ gap) !! i = Some u →
      NegativeAckPacket.ContainsSequenceNumber
        (seq_add (begin_ (unread_packets_ gap)) (Z.of_nat i)) N = Ok true → lost u = true.
Proof.
  destruct (tick_reports_truthfully gap sh0 gap_ok sh0_ok) as (r'&sh'&N&acks&E&_&_&_&_&Hr&_&Hs&_&HN).
  exists r', sh', N, acks. split_and!; [exact E|exact Hr|exact Hs|exact HN].
Defined.

(** The age of the oldest acknowledgement decides on sending another one,
    where that of the latest is meant ([acks_.Back()]): with everything
    acknowledged, an acknowledgement of ten seconds ago and one of a
    millisecond ago not answered, a tick sends a third, while with the latter
    alone it sends none. *)
Theorem recent_ack_repeated :
  let ack t := MkAck AckPacket.init (at_us t) in
  let old := ack 0 in let recent := ack 9999000 in
  let acked acks := MkReceiver (new_window 7) (MkWindow acks 16 5 (5 + Z.of_nat (length acks))) 7
                      (at_us 9000000) in
  let sh := with_world (MkWorld _ (Z.to_nat 10000) 0 []) sh0 in
  let sent acks := match HandleTick (acked acks, sh) with
                   | Ok (_, (_, sh')) => Some (length (w_sent (sh_world sh')))
                   | Fault _ => None end in
  sent [old; recent] = Some 1%nat ∧ sent [recent] = Some 0%nat.
Proof. by split; vm_compute. Qed.
End ReceiverExamples.
