(* ===== verification/Socket.v ===== *)
(** * The socket

    Models src/maidsafe/transport/rudp_socket.cc (with the tick operation of
    rudp_tick_op.h): the socket owns the peer, the tick timer, the congestion
    control, the session, the sender and the receiver, passes packets, ticks and
    requests on to them, and keeps the one pending operation of each kind.

    A pending operation is an [async_wait] on a timer that expires at infinity;
    cancelling the timer completes it.  The timers belong to asio, so the model
    records the calls made on each; the completion handlers read the members
    that are in the state.  The socket acts on the dispatcher that registers it
    and on the outside world. *)

From S2P Require Import Prelude Environment Packet ControlPackets Transport SlidingWindow CongestionControl.
From S2P Require Import Shared Decoded Dispatcher.
From S2P Require DataPacket HandshakePacket NegativeAckPacket Session Sender Receiver.

Inductive error_code := no_error | operation_aborted.

(** What is called on the timer of a pending operation, latest first. *)
Inductive timer_call := async_wait | cancel.
Definition deadline : Type := list timer_call.

Record WaitingOp := MkWaitingOp {         (* connect, flush *)
  op_timer : deadline;
  op_ec : error_code;
}.

Record WriteOp := MkWriteOp {
  write_timer : deadline;
  write_buffer : list Z;                  (* what [waiting_write_buffer_] points at *)
  write_ec : error_code;
  write_bytes_transferred : Z;
}.

Record ReadOp := MkReadOp {
  read_timer : deadline;
  read_buffer : nat;                      (* the room left in [waiting_read_buffer_] *)
  read_into : list Z;                     (* what was written to it since [StartRead] *)
  read_transfer_at_least : Z;
  read_ec : error_code;
  read_bytes_transferred : Z;
}.

Record Socket `{Environment} := MkSocket {
  peer_ : Peer;
  tick_timer_ : TickTimer;
  congestion_control_ : CC;
  session_ : Session.Session;
  sender_ : Sender.Sender;
  receiver_ : Receiver.Receiver;
  waiting_connect_ : WaitingOp;
  waiting_write_ : WriteOp;
  waiting_read_ : ReadOp;
  waiting_flush_ : WaitingOp;
  sent_length_ : Z;
}.
Arguments MkSocket {_}.

Section socket.
Context `{Environment}.

(** The constructor; the windows draw their first numbers. *)
Definition new_socket (fuel : nat) : M World Socket :=
  unacked ← default_window fuel;
  receiver ← Receiver.new_receiver fuel;
  mret (MkSocket new_peer (MkTickTimer _ pos_infin) new_congestion_control Session.new_session
    (Sender.MkSender unacked not_a_date_time) receiver
    (MkWaitingOp [] no_error) (MkWriteOp [] [] no_error 0) (MkReadOp [] 0 [] 0 no_error 0)
    (MkWaitingOp [] no_error) 0).

Definition set_shared (p : Peer) (t : TickTimer) (c : CC) (s : Socket) : Socket :=
  MkSocket p t c (session_ s) (sender_ s) (receiver_ s) (waiting_connect_ s)
    (waiting_write_ s) (waiting_read_ s) (waiting_flush_ s) (sent_length_ s).
Definition set_session (v : Session.Session) (s : Socket) : Socket :=
  MkSocket (peer_ s) (tick_timer_ s) (congestion_control_ s) v (sender_ s) (receiver_ s)
    (waiting_connect_ s) (waiting_write_ s) (waiting_read_ s) (waiting_flush_ s) (sent_length_ s).
Definition set_sender (v : Sender.Sender) (s : Socket) : Socket :=
  MkSocket (peer_ s) (tick_timer_ s) (congestion_control_ s) (session_ s) v (receiver_ s)
    (waiting_connect_ s) (waiting_write_ s) (waiting_read_ s) (waiting_flush_ s) (sent_length_ s).
Definition set_receiver (v : Receiver.Receiver) (s : Socket) : Socket :=
  MkSocket (peer_ s) (tick_timer_ s) (congestion_control_ s) (session_ s) (sender_ s) v
    (waiting_connect_ s) (waiting_write_ s) (waiting_read_ s) (waiting_flush_ s) (sent_length_ s).
Definition set_connect (v : WaitingOp) (s : Socket) : Socket :=
  MkSocket (peer_ s) (tick_timer_ s) (congestion_control_ s) (session_ s) (sender_ s)
    (receiver_ s) v (waiting_write_ s) (waiting_read_ s) (waiting_flush_ s) (sent_length_ s).
Definition set_write (v : WriteOp) (s : Socket) : Socket :=
  MkSocket (peer_ s) (tick_timer_ s) (congestion_control_ s) (session_ s) (sender_ s)
    (receiver_ s) (waiting_connect_ s) v (waiting_read_ s) (waiting_flush_ s) (sent_length_ s).
Definition set_read (v : ReadOp) (s : Socket) : Socket :=
  MkSocket (peer_ s) (tick_timer_ s) (congestion_control_ s) (session_ s) (sender_ s)
    (receiver_ s) (waiting_connect_ s) (waiting_write_ s) v (waiting_flush_ s) (sent_length_ s).
Definition set_flush (v : WaitingOp) (s : Socket) : Socket :=
  MkSocket (peer_ s) (tick_timer_ s) (congestion_control_ s) (session_ s) (sender_ s)
    (receiver_ s) (waiting_connect_ s) (waiting_write_ s) (waiting_read_ s) v (sent_length_ s).
Definition set_sent_length (v : Z) (s : Socket) : Socket :=
  MkSocket (peer_ s) (tick_timer_ s) (congestion_control_ s) (session_ s) (sender_ s)
    (receiver_ s) (waiting_connect_ s) (waiting_write_ s) (waiting_read_ s) (waiting_flush_ s) v.

(** ** The state a socket's member functions act on *)

Definition Net : Type := Dispatcher * World.
Definition State : Type := Socket * Net.

Definition shared_of (s : State) : Shared :=
  MkShared (peer_ s.1) (tick_timer_ s.1) (congestion_control_ s.1) s.2.2.
Definition with_shared (sh : Shared) (s : State) : State :=
  (set_shared (sh_peer sh) (sh_timer sh) (sh_cc sh) s.1, (s.2.1, sh_world sh)).

Definition me {A} (f : Socket → A) : M State A := gets (λ s, f s.1).
Definition upd (f : Socket → Socket) : M State unit := modify (λ s, (f s.1, s.2)).
Definition in_shared {A} : M Shared A → M State A := zoom shared_of with_shared.
Definition in_session {A} : M (Session.Session * Shared) A → M State A :=
  zoom (λ s, (session_ s.1, shared_of s))
    (λ x s, with_shared x.2 (set_session x.1 s.1, s.2)).
Definition in_sender {A} : M (Sender.Sender * Shared) A → M State A :=
  zoom (λ s, (sender_ s.1, shared_of s))
    (λ x s, with_shared x.2 (set_sender x.1 s.1, s.2)).
Definition in_receiver {A} : M (Receiver.Receiver * Shared) A → M State A :=
  zoom (λ s, (receiver_ s.1, shared_of s))
    (λ x s, with_shared x.2 (set_receiver x.1 s.1, s.2)).
Definition in_dispatcher (f : Dispatcher → Dispatcher) : M State unit :=
  modify (λ s, (s.1, (f s.2.1, s.2.2))).

(** ** The timers of the pending operations: an error code and a call *)

Definition op_call (c : timer_call) (o : WaitingOp) : WaitingOp :=
  MkWaitingOp (c :: op_timer o) (op_ec o).
Definition op_set_ec (e : error_code) (o : WaitingOp) : WaitingOp := MkWaitingOp (op_timer o) e.
Definition write_call (c : timer_call) (o : WriteOp) : WriteOp :=
  MkWriteOp (c :: write_timer o) (write_buffer o) (write_ec o) (write_bytes_transferred o).
Definition write_set_ec (e : error_code) (o : WriteOp) : WriteOp :=
  MkWriteOp (write_timer o) (write_buffer o) e (write_bytes_transferred o).
Definition write_set_bytes (n : Z) (o : WriteOp) : WriteOp :=
  MkWriteOp (write_timer o) (write_buffer o) (write_ec o) n.
Definition write_set_buffer (b : list Z) (o : WriteOp) : WriteOp :=
  MkWriteOp (write_timer o) b (write_ec o) (write_bytes_transferred o).
Definition read_call (c : timer_call) (o : ReadOp) : ReadOp :=
  MkReadOp (c :: read_timer o) (read_buffer o) (read_into o) (read_transfer_at_least o)
    (read_ec o) (read_bytes_transferred o).
Definition read_set_ec (e : error_code) (o : ReadOp) : ReadOp :=
  MkReadOp (read_timer o) (read_buffer o) (read_into o) (read_transfer_at_least o) e
    (read_bytes_transferred o).
Definition read_set_bytes (n : Z) (o : ReadOp) : ReadOp :=
  MkReadOp (read_timer o) (read_buffer o) (read_into o) (read_transfer_at_least o) (read_ec o) n.
Definition read_set_buffer (room : nat) (into : list Z) (o : ReadOp) : ReadOp :=
  MkReadOp (read_timer o) room into (read_transfer_at_least o) (read_ec o)
    (read_bytes_transferred o).
Definition read_set_at_least (n : Z) (o : ReadOp) : ReadOp :=
  MkReadOp (read_timer o) (read_buffer o) (read_into o) n (read_ec o) (read_bytes_transferred o).

Definition upd_connect (f : WaitingOp → WaitingOp) : M State unit :=
  upd (λ s, set_connect (f (waiting_connect_ s)) s).
Definition upd_write (f : WriteOp → WriteOp) : M State unit :=
  upd (λ s, set_write (f (waiting_write_ s)) s).
Definition upd_read (f : ReadOp → ReadOp) : M State unit :=
  upd (λ s, set_read (f (waiting_read_ s)) s).
Definition upd_flush (f : WaitingOp → WaitingOp) : M State unit :=
  upd (λ s, set_flush (f (waiting_flush_ s)) s).

(** [size_t] and [uint32_t] *)
Definition SIZE_MOD : Z := 18446744073709551616.

Definition Id (s : Socket) : Z := Session.Id (session_ s).
Definition RemoteEndpoint (s : Socket) : endpoint := peer_endpoint (peer_ s).
Definition RemoteId (s : Socket) : Z := peer_id (peer_ s).
Definition IsOpen (s : Socket) : bool := Session.IsOpen (session_ s).

Definition SentLength : M State Z :=
  s ← me id;
  let n := u64 (write_bytes_transferred (waiting_write_ s) - sent_length_ s) in
  assertb (n <=? 4294967295);;
  let sent_length := u32 n in
  upd (set_sent_length (write_bytes_transferred (waiting_write_ s)));;
  mret sent_length.

Definition BestReadBufferSize (s : Socket) : Res Z :=
  CongestionControl.BestReadBufferSize (congestion_control_ s).
Definition IsSlowTransmission (length : Z) : M State bool :=
  in_shared (in_cc (CongestionControl.IsSlowTransmission length)).

Definition Close : M State unit :=
  s ← me id;
  when (IsOpen s) (
    in_sender Sender.NotifyClose;;
    in_shared (upd_cc OnClose);;
    s ← me id;
    in_dispatcher (RemoveSocket (Id s)));;
  in_session (upd_self Session.Close);;
  in_shared (upd_peer (peer_SetEndpoint endpoint_none));;
  in_shared (upd_peer (peer_SetId 0));;
  in_shared CancelTimer;;
  upd_connect (op_call cancel ∘ op_set_ec operation_aborted);;
  upd_write (write_call cancel ∘ write_set_bytes 0 ∘ write_set_ec operation_aborted);;
  upd_read (read_call cancel ∘ read_set_bytes 0 ∘ read_set_ec operation_aborted);;
  upd_flush (op_call cancel ∘ op_set_ec operation_aborted).

(** Both [StartConnect] functions register the socket, here [this]. *)
Definition OpenSession (fuel : nat) (this : handle) (mode : Session.Mode) : M State unit :=
  id ← zoom snd (λ n s, (s.1, n)) (AddSocket fuel this);
  s ← me (λ s, s);
  in_session (Session.Open id (Sender.GetNextPacketSequenceNumber (sender_ s)) mode).

Definition StartConnect_to (fuel : nat) (this : handle) (remote : endpoint) : M State unit :=
  in_shared (upd_peer (peer_SetEndpoint remote));;
  in_shared (upd_peer (peer_SetId 0));;
  OpenSession fuel this Session.kClient.

Definition StartConnect (fuel : nat) (this : handle) : M State unit :=
  s ← me id;
  assertb (bool_decide (RemoteEndpoint s ≠ endpoint_none));;
  assertb (negb (RemoteId s =? 0));;
  OpenSession fuel this Session.kServer.

Definition ProcessWrite : M State unit :=
  s ← me id;
  when (negb (bool_decide (write_buffer (waiting_write_ s) = []))) (
    length ← in_sender (Sender.AddData (write_buffer (waiting_write_ s)));
    upd_write (λ o, write_set_buffer (drop length (write_buffer o)) o);;
    upd_write (λ o, write_set_bytes (u64 (write_bytes_transferred o + Z.of_nat length)) o);;
    s ← me id;
    when (bool_decide (write_buffer (waiting_write_ s) = [])) (
      upd (set_sent_length 0);;
      upd_write (write_call cancel ∘ write_set_ec no_error))).

Definition StartWrite (data : list Z) : M State unit :=
  if bool_decide (data = []) then
    upd_write (write_call cancel ∘ write_set_ec no_error)
  else
    upd_write (write_set_buffer data);;
    upd_write (write_set_bytes 0);;
    ProcessWrite.

Definition ProcessRead : M State unit :=
  s ← me id;
  when (negb (read_buffer (waiting_read_ s) =? 0)%nat) (
    out ← in_receiver (Receiver.ReadData (read_buffer (waiting_read_ s)));
    upd_read (λ o, read_set_buffer (read_buffer o - length out) (read_into o ++ out) o);;
    upd_read (λ o, read_set_bytes (u64 (read_bytes_transferred o + Z.of_nat (length out))) o);;
    s ← me id;
    let o := waiting_read_ s in
    when ((read_buffer o =? 0)%nat || (read_transfer_at_least o <=? read_bytes_transferred o)) (
      upd_read (read_call cancel ∘ read_set_ec no_error))).

(** Into a buffer of [size] bytes. *)
Definition StartRead (size : nat) (transfer_at_least : Z) : M State unit :=
  if (size =? 0)%nat then
    upd_read (read_call cancel ∘ read_set_ec no_error)
  else
    upd_read (read_set_buffer size []);;
    upd_read (read_set_at_least transfer_at_least);;
    upd_read (read_set_bytes 0);;
    ProcessRead.

Definition ProcessFlush : M State unit :=
  s ← me id;
  flushed ← (if Sender.Flushed (sender_ s)
             then liftR (Receiver.Flushed (receiver_ s)) else mret false);
  when flushed (upd_flush (op_call cancel ∘ op_set_ec no_error)).

Definition StartFlush : M State unit := ProcessFlush.

(** The asynchronous operations: the wait, and the start. *)
Definition AsyncConnect_to (fuel : nat) (this : handle) (remote : endpoint) : M State unit :=
  upd_connect (op_call async_wait);; StartConnect_to fuel this remote.
Definition AsyncConnect (fuel : nat) (this : handle) : M State unit :=
  upd_connect (op_call async_wait);; StartConnect fuel this.
Definition AsyncWrite (data : list Z) : M State unit :=
  upd_write (write_call async_wait);; StartWrite data.
Definition AsyncRead (size : nat) (transfer_at_least : Z) : M State unit :=
  upd_read (read_call async_wait);; StartRead size transfer_at_least.
Definition AsyncFlush : M State unit :=
  upd_flush (op_call async_wait);; StartFlush.

(** What their completion handlers are given (the [operator()] of
    rudp_connect_op.h, rudp_write_op.h, rudp_read_op.h, rudp_flush_op.h). *)
Definition connect_result (s : Socket) : error_code := op_ec (waiting_connect_ s).
Definition write_result (s : Socket) : error_code * Z :=
  (write_ec (waiting_write_ s), write_bytes_transferred (waiting_write_ s)).
Definition read_result (s : Socket) : error_code * Z :=
  (read_ec (waiting_read_ s), read_bytes_transferred (waiting_read_ s)).
Definition flush_result (s : Socket) : error_code := op_ec (waiting_flush_ s).

(** ** Packets *)

Definition HandleHandshake (packet : HandshakePacket.t) : M State unit :=
  s ← me id;
  let was_connected := Session.IsConnected (session_ s) in
  in_session (Session.HandleHandshake packet);;
  s ← me id;
  when (negb was_connected && Session.IsConnected (session_ s)) (
    in_shared (upd_cc (OnOpen (Sender.GetNextPacketSequenceNumber (sender_ s))
                              (Session.ReceivingSequenceNumber (session_ s))));;
    in_shared (upd_cc (SetPeerConnectionType (Session.PeerConnectionType (session_ s))));;
    in_receiver (Receiver.Reset (Session.ReceivingSequenceNumber (session_ s)));;
    upd_connect (op_call cancel ∘ op_set_ec no_error)).

(** [if (session_.IsConnected()) body] *)
Definition if_connected (body : M State unit) : M State unit :=
  s ← me id; when (Session.IsConnected (session_ s)) body.

Definition HandleData (packet : DataPacket.t) : M State unit :=
  if_connected (in_receiver (Receiver.HandleData packet);; ProcessRead;; ProcessWrite).

Definition HandleAck (packet : AckPacket.t) : M State unit :=
  if_connected (in_sender (Sender.HandleAck packet);; ProcessRead;; ProcessWrite;; ProcessFlush).

Definition HandleAckOfAck (packet : AckOfAckPacket.t) : M State unit :=
  if_connected (in_receiver (Receiver.HandleAckOfAck packet);;
    ProcessRead;; ProcessWrite;; ProcessFlush).

Definition HandleNegativeAck (packet : NegativeAckPacket.t) : M State unit :=
  if_connected (in_sender (Sender.HandleNegativeAck packet)).

Definition HandleTick : M State unit :=
  s ← me id;
  if Session.IsConnected (session_ s) then
    in_sender Sender.HandleTick;;
    in_receiver Receiver.HandleTick;;
    ProcessRead;; ProcessWrite;; ProcessFlush
  else in_session Session.HandleTick.

(** The chain of [Decode] calls, each on a packet of its own. *)
Definition HandleReceiveFrom (data : list Z) (ep : endpoint) : M State unit :=
  s ← me id;
  when (bool_decide (ep = RemoteEndpoint s)) (
    data_packet ← liftR (DataPacket.Decode data DataPacket.new);
    if (data_packet : bool * DataPacket.t).1 then HandleData data_packet.2 else
    new ← liftR AckPacket.new; ack ← liftR (AckPacket.Decode data new);
    if (ack : bool * AckPacket.t).1 then HandleAck ack.2 else
    new ← liftR AckOfAckPacket.new; ack_of_ack ← liftR (AckOfAckPacket.Decode data new);
    if (ack_of_ack : bool * AckOfAckPacket.t).1 then HandleAckOfAck ack_of_ack.2 else
    new ← liftR NegativeAckPacket.new; negative_ack ← liftR (NegativeAckPacket.Decode data new);
    if (negative_ack : bool * NegativeAckPacket.t).1 then HandleNegativeAck negative_ack.2 else
    new ← liftR HandshakePacket.new; handshake ← liftR (HandshakePacket.Decode data new);
    if (handshake : bool * HandshakePacket.t).1 then HandleHandshake handshake.2 else
    new ← liftR ShutdownPacket.new; shutdown ← liftR (ShutdownPacket.Decode data new);
    when (shutdown : bool * ShutdownPacket.t).1 Close).

(** [RudpTickOp::operator()]: runs when the tick timer goes off; returns the
    error its handler gets. *)
Definition TickOp : M State error_code :=
  s ← me id;
  if IsOpen s then
    expired ← in_shared Expired;
    when expired (in_shared ResetTimer;; HandleTick);;
    mret no_error
  else mret operation_aborted.
End socket.

Section theory.
Context `{Environment} `{!IpAddressLaws}.

(** ** The invariant *)

Definition session_fields_ok (s : Session.Session) : Prop :=
  is_u32 (Session.id_ s) ∧ is_u32 (Session.sending_sequence_number_ s) ∧
  (Session.mode_ s = Session.kServer → Session.state_ s ≠ Session.kProbing).

Definition socket_ok (s : Socket) : Prop :=
  session_fields_ok (session_ s) ∧ Sender.sender_ok (sender_ s) ∧
  Receiver.receiver_ok (receiver_ s) ∧ bytes_ok (write_buffer (waiting_write_ s)) ∧
  cc_inv (congestion_control_ s) ∧ is_u32 (peer_id (peer_ s)).

Definition state_ok (s : State) : Prop := socket_ok s.1.

Lemma state_ok_shared s : state_ok s → Sender.shared_ok (shared_of s).
Proof. intros (_&_&_&_&?&?). by split. Qed.

Lemma ok_sender s x sh :
  state_ok s → Sender.sender_ok x → Sender.shared_ok sh →
  state_ok (with_shared sh (set_sender x s.1, s.2)).
Proof. intros (?&_&?&?&_&_) ? [? ?]. by split_and!. Qed.

Lemma ok_receiver s x sh :
  state_ok s → Receiver.receiver_ok x → Receiver.shared_ok sh →
  state_ok (with_shared sh (set_receiver x s.1, s.2)).
Proof. intros (?&?&_&?&_&_) ? [? ?]. by split_and!. Qed.

Lemma ok_session s x sh :
  state_ok s → Session.session_inv x (sh_peer sh) → cc_inv (sh_cc sh) →
  state_ok (with_shared sh (set_session x s.1, s.2)).
Proof. intros (_&?&?&?&_&_) [(?&?&?) ?] ?. by split_and!. Qed.

Lemma session_ok_inv s : state_ok s → Session.session_inv (session_ s.1) (peer_ s.1).
Proof. intros ((?&?&?)&_&_&_&_&?). by split_and!. Qed.

(** ** Running a part of the socket *)

Lemma wp_me {A} (f : Socket → A) (s : State) (Q : A → State → Prop) :
  Q (f s.1) s → wp (me f) s Q.
Proof. done. Qed.

Lemma wp_upd (f : Socket → Socket) (s : State) (Q : unit → State → Prop) :
  Q tt (f s.1, s.2) → wp (upd f) s Q.
Proof. done. Qed.

Lemma wp_in_sender {A} (m : M (Sender.Sender * Shared) A) (s : State) (Q : A → State → Prop) :
  wp m (sender_ s.1, shared_of s) (λ a x, Q a (with_shared x.2 (set_sender x.1 s.1, s.2))) →
  wp (in_sender m) s Q.
Proof. intros Hm. by apply wp_zoom. Qed.

Lemma wp_in_receiver {A} (m : M (Receiver.Receiver * Shared) A) (s : State) (Q : A → State → Prop) :
  wp m (receiver_ s.1, shared_of s) (λ a x, Q a (with_shared x.2 (set_receiver x.1 s.1, s.2))) →
  wp (in_receiver m) s Q.
Proof. intros Hm. by apply wp_zoom. Qed.

Lemma wp_in_session {A} (m : M (Session.Session * Shared) A) (s : State) (Q : A → State → Prop) :
  wp m (session_ s.1, shared_of s) (λ a x, Q a (with_shared x.2 (set_session x.1 s.1, s.2))) →
  wp (in_session m) s Q.
Proof. intros Hm. by apply wp_zoom. Qed.

Lemma wp_in_shared {A} (m : M Shared A) (s : State) (Q : A → State → Prop) :
  wp m (shared_of s) (λ a sh, Q a (with_shared sh s)) → wp (in_shared m) s Q.
Proof. intros Hm. by apply wp_zoom. Qed.

(** [m] returns and keeps the invariant. *)
Definition safe {A} (m : M State A) : Prop := ∀ s, state_ok s → wp m s (λ _, state_ok).

Lemma safe_bind {A B} (m : M State A) (k : A → M State B) :
  safe m → (∀ a, safe (k a)) → safe (m ≫= k).
Proof.
  intros Hm Hk s Hs. apply wp_bind. eapply wp_mono; [by apply Hm|]. intros a s' Hs'. by apply Hk.
Qed.

Lemma safe_ret {A} (a : A) : safe (mret a).
Proof. by intros s Hs. Qed.

Lemma safe_when b m : safe m → safe (when b m).
Proof. intros Hm. destruct b; [exact Hm|apply safe_ret]. Qed.

Lemma safe_me {A} (f : Socket → A) : safe (me f).
Proof. by intros s Hs. Qed.

Lemma safe_upd f : (∀ s, socket_ok s → socket_ok (f s)) → safe (upd f).
Proof. intros Hf s Hs. by apply Hf. Qed.

Lemma safe_upd_connect f : safe (upd_connect f).
Proof. by apply safe_upd. Qed.
Lemma safe_upd_read f : safe (upd_read f).
Proof. by apply safe_upd. Qed.
Lemma safe_upd_flush f : safe (upd_flush f).
Proof. by apply safe_upd. Qed.
Lemma safe_upd_write f :
  (∀ o, bytes_ok (write_buffer o) → bytes_ok (write_buffer (f o))) → safe (upd_write f).
Proof. intros Hf. apply safe_upd. intros s (?&?&?&?&?&?). split_and!; try done. by apply Hf. Qed.
Lemma safe_in_dispatcher f : safe (in_dispatcher f).
Proof. by intros s Hs. Qed.

Lemma safe_sender_event e :
  Sender.sender_event_ok e → safe (in_sender (Sender.sender_step e)).
Proof.
  intros He s Hs. apply wp_in_sender. eapply wp_mono.
  - apply Sender.wp_sender_step; [|done]. split; [apply Hs|by apply state_ok_shared].
  - intros [] [x sh] [??]. by apply ok_sender.
Qed.

Lemma safe_receiver_event e :
  Receiver.receiver_event_ok e → safe (in_receiver (Receiver.receiver_step e)).
Proof.
  intros He s Hs. apply wp_in_receiver. eapply wp_mono.
  - apply Receiver.wp_receiver_step; [|done]. split; [apply Hs|by apply state_ok_shared].
  - intros [] [x sh] [??]. by apply ok_receiver.
Qed.

Lemma safe_upd_cc f : (∀ c, cc_inv c → cc_inv (f c)) → safe (in_shared (upd_cc f)).
Proof. intros Hf s (?&?&?&?&?&?). split_and!; try done. by apply Hf. Qed.

Lemma safe_upd_peer f : (∀ p, is_u32 (peer_id p) → is_u32 (peer_id (f p))) → safe (in_shared (upd_peer f)).
Proof. intros Hf s (?&?&?&?&?&?). split_and!; try done. by apply Hf. Qed.

#[local] Hint Resolve safe_bind safe_ret safe_when safe_me safe_upd_connect safe_upd_read
  safe_upd_flush safe_in_dispatcher : core.

Lemma safe_AddData data : bytes_ok data → safe (in_sender (Sender.AddData data)).
Proof.
  intros Hb s Hs. apply wp_in_sender.
  apply Sender.wp_AddData; [apply Hs|by apply state_ok_shared|done|].
  destruct (Sender.inv_do_send (Sender.added (sender_ s.1) (shared_of s) data) (shared_of s)).
  - apply Sender.sender_ok_added; [apply Hs|by apply state_ok_shared|done].
  - by apply state_ok_shared.
  - by apply ok_sender.
Qed.

Lemma safe_ReadData size : safe (in_receiver (Receiver.ReadData size)).
Proof.
  intros s Hs. apply wp_in_receiver, Receiver.wp_ReadData; [apply Hs|].
  apply ok_receiver; [done| |by apply state_ok_shared].
  split; [apply Receiver.read_result_wf|]; apply Hs.
Qed.

(** The rest of an operation that began by looking at the socket. *)
Lemma safe_looking {A} (k : Socket → M State A) :
  (∀ s, socket_ok s → safe (k s)) → safe (s ← me id; k s).
Proof. intros Hk s Hs. apply wp_bind, wp_me. by apply Hk. Qed.

Lemma safe_ProcessWrite : safe ProcessWrite.
Proof.
  apply safe_looking. intros s Hs. apply safe_when, safe_bind; [apply safe_AddData, Hs|]. intros n.
  apply safe_bind; [apply safe_upd_write; intros o Ho; by apply Forall_drop|]. intros _.
  apply safe_bind; [by apply safe_upd_write|]. intros _. apply safe_bind; [done|]. intros s'.
  apply safe_when, safe_bind; [by apply safe_upd|]. intros _. by apply safe_upd_write.
Qed.

Lemma safe_ProcessRead : safe ProcessRead.
Proof.
  apply safe_looking. intros s Hs. apply safe_when, safe_bind; [apply safe_ReadData|]. intros out.
  repeat first [apply safe_bind; [done|intros ?]|apply safe_when, safe_upd_read].
Qed.

Lemma safe_ProcessFlush : safe ProcessFlush.
Proof.
  apply safe_looking. intros s Hs. apply safe_bind; [|intros b; apply safe_when, safe_upd_flush].
  destruct (Sender.Flushed _); [|apply safe_ret]. unfold Receiver.Flushed.
  rewrite Receiver.AckPacketSequenceNumber_eq by apply Hs.
  intros s' Hs'. eapply wp_liftR; [reflexivity|exact Hs'].
Qed.

Lemma safe_if_connected body : safe body → safe (if_connected body).
Proof. intros Hb. apply safe_looking. intros s Hs. by apply safe_when. Qed.

#[local] Hint Resolve safe_ProcessWrite safe_ProcessRead safe_ProcessFlush : core.

Lemma safe_HandleData p :
  is_u32 (DataPacket.PacketSequenceNumber p) → safe (HandleData p).
Proof.
  intros Hp. apply safe_if_connected, safe_bind; [|auto].
  by apply (safe_receiver_event (Receiver.RData p)).
Qed.

Lemma safe_HandleAck p : Sender.ack_fields_ok p → safe (HandleAck p).
Proof.
  intros Hp. apply safe_if_connected, safe_bind; [|auto].
  by apply (safe_sender_event (Sender.SAck p)).
Qed.

Lemma safe_HandleAckOfAck p :
  is_u32 (AckOfAckPacket.AckSequenceNumber p) → safe (HandleAckOfAck p).
Proof.
  intros Hp. apply safe_if_connected, safe_bind; [|auto].
  by apply (safe_receiver_event (Receiver.RAckOfAck p)).
Qed.

Lemma safe_HandleNegativeAck p : safe (HandleNegativeAck p).
Proof. apply safe_if_connected. by apply (safe_sender_event (Sender.SNegativeAck p)). Qed.

Lemma safe_in_session_step e :
  Session.event_ok e → Session.EvClose ≠ e → safe (in_session (Session.session_step e)).
Proof.
  intros He Hne s Hs. apply wp_in_session. eapply wp_mono.
  - apply Session.wp_session_step; [by apply session_ok_inv|done|done].
  - intros [] [x sh] (Hx&_&Ecc). apply ok_session; [done..|]. cbn [fst snd] in *.
    rewrite Ecc. apply Hs.
Qed.

Lemma SetPeerConnectionType_inv t c : cc_inv c → cc_inv (SetPeerConnectionType t c).
Proof. intros Hc. unfold SetPeerConnectionType. repeat case_match; exact Hc. Qed.

Lemma safe_HandleHandshake p :
  is_u32 (HandshakePacket.SocketId p) → is_seq (HandshakePacket.InitialPacketSequenceNumber p) →
  safe (HandleHandshake p).
Proof.
  intros Hid Hseq s Hs. unfold HandleHandshake. apply wp_bind, wp_me. unfold id. cbv zeta.
  apply wp_bind, wp_in_session. eapply wp_mono.
  { apply Session.wp_HandleHandshake; [by apply session_ok_inv|done]. }
  intros [] [x sh] (Hx&_&Ecc&Hrec). cbn [fst snd] in *.
  assert (state_ok (with_shared sh (set_session x s.1, s.2))) as Hs'.
  { apply ok_session; [done..|]. rewrite Ecc. apply Hs. }
  apply wp_bind, wp_me. cbn [fst snd with_shared set_shared session_ set_session sender_].
  destruct (negb (Session.IsConnected (session_ s.1)) && Session.IsConnected x) eqn:E; [|done].
  cbn [when]. apply andb_true_iff in E as [E1 E2].
  assert (is_seq (Session.ReceivingSequenceNumber x)) as Hle.
  { unfold Session.ReceivingSequenceNumber. destruct Hrec as [Hc|Hc].
    - unfold Session.IsConnected, Session.is_state in E2. by destruct (Session.state_ x).
    - unfold Session.IsConnected, Session.is_state in E1. by rewrite Hc in E1.
    - by rewrite Hc. }
  revert Hs'. generalize (with_shared sh (set_session x s.1, s.2)). 
  change (safe (
    in_shared (upd_cc (OnOpen (Sender.GetNextPacketSequenceNumber (sender_ s.1))
                              (Session.ReceivingSequenceNumber x)));;
    in_shared (upd_cc (SetPeerConnectionType (Session.PeerConnectionType x)));;
    in_receiver (Receiver.Reset (Session.ReceivingSequenceNumber x));;
    upd_connect (op_call cancel ∘ op_set_ec no_error))).
  apply safe_bind; [apply safe_upd_cc; intros c; apply transmitted_bits_0_inv|intros _].
  apply safe_bind; [apply safe_upd_cc; intros c; apply SetPeerConnectionType_inv|intros _].
  apply safe_bind; [|by intros _].
  intros s1 Hs1. apply wp_in_receiver, Receiver.wp_Reset; [by apply Z.lt_succ_r, Hle|].
  apply ok_receiver; [done| |by apply state_ok_shared].
  split; [by apply wf_new_window|apply Hs1].
Qed.

Lemma safe_HandleTick : safe HandleTick.
Proof.
  apply safe_looking. intros s Hs. destruct (Session.IsConnected _).
  - apply safe_bind; [by apply (safe_sender_event Sender.STick)|intros _].
    apply safe_bind; [by apply (safe_receiver_event Receiver.RTick)|auto].
  - by apply (safe_in_session_step Session.EvTick).
Qed.

Lemma safe_Close : safe Close.
Proof.
  apply safe_looking. intros s Hs. apply safe_bind; [apply safe_when|intros _].
  { apply safe_bind; [by apply (safe_sender_event Sender.SClose)|intros _].
    apply safe_bind; [apply safe_upd_cc; intros c; apply transmitted_bits_0_inv|auto]. }
  apply safe_bind; [|intros _].
  { intros s1 Hs1. apply wp_in_session, wp_upd_self. cbn [fst snd].
    apply ok_session; [done| |apply Hs1]. destruct (session_ok_inv s1 Hs1) as [(?&?&?) ?]. by split. }
  apply safe_bind; [by apply safe_upd_peer|intros _].
  apply safe_bind; [by apply safe_upd_peer|intros _].
  apply safe_bind; [by intros s1 Hs1|intros _]. apply safe_bind; [done|intros _].
  apply safe_bind; [by apply safe_upd_write|auto].
Qed.

Lemma safe_AsyncWrite data : bytes_ok data → safe (AsyncWrite data).
Proof.
  intros Hd. apply safe_bind; [by apply safe_upd_write|intros _]. unfold StartWrite.
  destruct (bool_decide _); [by apply safe_upd_write|].
  apply safe_bind; [by apply safe_upd_write|intros _].
  apply safe_bind; [by apply safe_upd_write|auto].
Qed.

Lemma safe_AsyncRead size n : safe (AsyncRead size n).
Proof. apply safe_bind; [done|intros _]. unfold StartRead. destruct (_ =? _)%nat; auto. Qed.

Lemma safe_AsyncFlush : safe AsyncFlush.
Proof. apply safe_bind; auto. Qed.

Lemma safe_Expired : safe (in_shared Expired).
Proof.
  intros s Hs. apply wp_in_shared, wp_Expired. intros b w _.
  destruct Hs as (?&?&?&?&?&?). by split_and!.
Qed.

Lemma safe_ResetTimer : safe (in_shared ResetTimer).
Proof. intros s (?&?&?&?&?&?). by split_and!. Qed.

Lemma safe_TickOp : safe TickOp.
Proof.
  apply safe_looking. intros s Hs. destruct (IsOpen s); [|apply safe_ret].
  apply safe_bind; [apply safe_Expired|intros b; apply safe_bind; [|auto]].
  apply safe_when, safe_bind; [apply safe_ResetTimer|intros _; apply safe_HandleTick].
Qed.

(** ** Datagrams *)

(** The bytes are no handshake packet with an initial sequence number that
    does not fit 31 bits. *)
Definition initial_number_ok (data : list Z) : Prop :=
  ∀ new p, HandshakePacket.new = Ok new → HandshakePacket.Decode data new = Ok (true, p) →
    HandshakePacket.InitialPacketSequenceNumber p ≤ 0x7fffffff.

Lemma safe_decoded {P} (decode : P → Res (bool * P)) (new : P) (k : bool * P → M State unit) :
  (∃ b p, decode new = Ok (b, p)) →
  (∀ b p, decode new = Ok (b, p) → safe (k (b, p))) → safe (r ← liftR (decode new); k r).
Proof.
  intros (b&p&E) Hk s Hs. apply wp_bind. eapply wp_liftR; [exact E|]. by apply (Hk b p).
Qed.

Lemma safe_new {P} (r : Res P) new (k : P → M State unit) :
  r = Ok new → safe (k new) → safe (p ← liftR r; k p).
Proof. intros -> Hk s Hs. apply wp_bind. eapply wp_liftR; [reflexivity|]. by apply Hk. Qed.

Lemma safe_HandleReceiveFrom data ep :
  bytes_ok data → initial_number_ok data → safe (HandleReceiveFrom data ep).
Proof.
  intros Hb Hinit. apply safe_looking. intros s Hs. apply safe_when.
  apply safe_decoded.
  { destruct (DataPacket.data_Decode_total data DataPacket.new) as (b&p&_&E&_). by exists b, p. }
  intros [|] p E; cbn [fst snd].
  { apply data_ranges in E as [[? ?] _]; [|done]. apply safe_HandleData. split; [done|lia]. }
  eapply safe_new; [reflexivity|]. apply safe_decoded.
  { edestruct (AckPacket.ack_Decode_total data) as (b&q&_&E1&_). by exists b, q. }
  intros [|] q E1; cbn [fst snd].
  { apply ack_ranges in E1 as ([? ?]&?&?&?); [|done|repeat split; by vm_compute].
    apply safe_HandleAck. by split_and!. }
  eapply safe_new; [reflexivity|]. apply safe_decoded.
  { edestruct (AckOfAckPacket.ack_of_ack_Decode_total data) as (b&q'&_&E2&_). by exists b, q'. }
  intros [|] q' E2; cbn [fst snd].
  { apply safe_HandleAckOfAck. eapply ack_of_ack_ranges; [done| |exact E2].
    split; by vm_compute. }
  eapply safe_new; [reflexivity|]. apply safe_decoded.
  { edestruct (NegativeAckPacket.nack_Decode_total data) as (b&n&_&E3&_). by exists b, n. }
  intros [|] n E3; cbn [fst snd]; [by apply safe_HandleNegativeAck|].
  eapply safe_new; [reflexivity|]. apply safe_decoded.
  { edestruct (HandshakePacket.handshake_Decode_total data) as (b&h&_&E4&_). by exists b, h. }
  intros [|] h E4; cbn [fst snd].
  { pose proof (Hinit _ h eq_refl E4) as Hle.
    apply handshake_ranges in E4 as (?&?&[? ?]); [|done|repeat split; by vm_compute].
    apply safe_HandleHandshake; [done|]. unfold is_seq, modulus. lia. }
  eapply safe_new; [reflexivity|]. apply safe_decoded.
  { edestruct (ShutdownPacket.shutdown_Decode_total data) as (b&x&_&E5&_). by exists b, x. }
  intros b x _. apply safe_when, safe_Close.
Qed.


(** ** Opening *)

(** The socket is open under an identifier that was free, and registered. *)
Definition opened_as (this : handle) (s s' : State) : Prop :=
  IsOpen s'.1 = true ∧ Id s'.1 ≠ 0 ∧ sockets_ s.2.1 !! Id s'.1 = None ∧
  s'.2.1 = MkDispatcher (acceptor_ s.2.1) (<[Id s'.1 := this]> (sockets_ s.2.1)).

Lemma wp_OpenSession fuel this mode s k :
  state_ok s → (∀ i, is_u32 (random_uint32 i)) → (S k < fuel)%nat →
  taken (random_uint32 (w_random s.2.2 + k)) s.2.1 = false →
  wp (OpenSession fuel this mode) s (λ _ s', state_ok s' ∧ opened_as this s s').
Proof.
  intros Hs Hr Hk Hfree.
  destruct (first_free 0 s.2.2 s.2.1 (S k) Hfree) as (n&Hn&Hfn&Hall).
  destruct s as [s [d w]]. cbn [fst snd] in *.
  unfold OpenSession. apply wp_bind, wp_zoom. cbn [fst snd].
  eapply (wp_AddSocket fuel this n); [lia|done|done|]. cbv zeta.
  set (id := candidate 0 w n) in *. apply orb_false_iff in Hfn as [Hid0 Hnone].
  apply Z.eqb_neq in Hid0. apply bool_decide_eq_false in Hnone. rewrite <-eq_None_not_Some in Hnone.
  assert (is_u32 id) as Hid by (unfold id; destruct n; [done|apply Hr]).
  apply wp_bind, wp_me. cbn [fst snd].
  assert (is_u32 (Sender.GetNextPacketSequenceNumber (sender_ s))) as Hseq.
  { pose proof (wf_end _ (proj1 (proj1 (proj2 Hs)))) as [? Hlt].
    unfold modulus in Hlt. unfold Sender.GetNextPacketSequenceNumber, End. split; [done|]. cbn [fst] in *. lia. }
  apply wp_in_session, Session.wp_Open; [done|done|done|apply Hs|]. cbv zeta.
  destruct mode; (split; [|by split_and!]);
    (apply ok_session; [exact Hs| |apply Hs]); (split; [|by intros]);
    (split; [done|split; [done|apply Hs]]).
Qed.

Lemma wp_AsyncConnect_to fuel this remote s k :
  state_ok s → (∀ i, is_u32 (random_uint32 i)) → (S k < fuel)%nat →
  taken (random_uint32 (w_random s.2.2 + k)) s.2.1 = false →
  wp (AsyncConnect_to fuel this remote) s (λ _ s', state_ok s' ∧ opened_as this s s').
Proof.
  intros (?&?&?&?&?&?) Hr Hk Hfree. destruct s as [s [d w]]. unfold AsyncConnect_to, StartConnect_to.
  apply wp_bind, wp_upd, wp_bind, wp_in_shared, wp_upd_peer, wp_bind, wp_in_shared, wp_upd_peer.
  eapply wp_mono; [eapply wp_OpenSession; [|exact Hr|exact Hk|exact Hfree]; by split_and!|].
  intros [] s' Hs'. exact Hs'.
Qed.

Lemma wp_AsyncConnect fuel this s k :
  state_ok s → (∀ i, is_u32 (random_uint32 i)) → (S k < fuel)%nat →
  taken (random_uint32 (w_random s.2.2 + k)) s.2.1 = false →
  RemoteEndpoint s.1 ≠ endpoint_none → RemoteId s.1 ≠ 0 →
  wp (AsyncConnect fuel this) s (λ _ s', state_ok s' ∧ opened_as this s s').
Proof.
  intros Hs Hr Hk Hfree Hep Hid. destruct s as [s [d w]]. unfold AsyncConnect, StartConnect.
  apply wp_bind, wp_upd, wp_bind, wp_me. unfold id. cbn [fst snd] in *.
  apply wp_bind, wp_assertb; [by apply bool_decide_true|].
  apply wp_bind, wp_assertb; [by apply negb_true_iff, Z.eqb_neq|].
  eapply wp_mono; [eapply wp_OpenSession; [exact Hs|exact Hr|exact Hk|exact Hfree]|].
  intros [] s' Hs'. exact Hs'.
Qed.

(** ** Properties *)

(** What happens to a socket that was opened. *)
Inductive event :=
  | EvDatagram (data : list Z) (ep : endpoint)
  | EvTimer                                   (* the tick timer goes off *)
  | EvWrite (data : list Z)
  | EvRead (size : nat) (transfer_at_least : Z)
  | EvFlush
  | EvClose.

Definition step (e : event) : M State unit :=
  match e with
  | EvDatagram data ep => HandleReceiveFrom data ep
  | EvTimer => TickOp;; mret tt
  | EvWrite data => AsyncWrite data
  | EvRead size n => AsyncRead size n
  | EvFlush => AsyncFlush
  | EvClose => Close
  end.

Fixpoint run (es : list event) : M State unit :=
  match es with [] => mret tt | e :: es' => step e;; run es' end.

Definition event_ok (e : event) : Prop :=
  match e with
  | EvDatagram data _ => bytes_ok data ∧ initial_number_ok data
  | EvWrite data => bytes_ok data
  | _ => True
  end.

Lemma safe_step e : event_ok e → safe (step e).
Proof.
  destruct e; cbn [event_ok step]; intros He.
  - apply safe_HandleReceiveFrom; apply He.
  - apply safe_bind; [apply safe_TickOp|auto].
  - by apply safe_AsyncWrite.
  - apply safe_AsyncRead.
  - apply safe_AsyncFlush.
  - apply safe_Close.
Qed.

Lemma safe_run es : Forall event_ok es → safe (run es).
Proof.
  induction 1 as [|e es He _ IH]; [apply safe_ret|].
  apply safe_bind; [by apply safe_step|auto].
Qed.

(** C2: A connection survives any traffic.  A socket that is opened towards a
    remote endpoint, as a client or as the server side of an accepted request,
    never fails an assertion, never reads outside a buffer or a window and
    never loops forever, for any sequence of datagrams (any bytes, from
    anywhere), timer expiries, writes, reads, flushes and closings, as long as
    no handshake packet announces an initial sequence number above
    0x7fffffff; and its windows stay within 512 packets. *)
Theorem socket_never_faults (fuel : nat) (this : handle) (mode : Session.Mode)
    (remote : endpoint) (es : list event) (s : Socket) (d : Dispatcher) (w : World) (k : nat) :
  socket_ok s → (∀ i, is_u32 (random_uint32 i)) → (S k < fuel)%nat →
  taken (random_uint32 (w_random w + k)) d = false →
  (mode = Session.kServer → RemoteEndpoint s ≠ endpoint_none ∧ RemoteId s ≠ 0) →
  Forall event_ok es →
  ∃ s' d' w',
    ((match mode with
      | Session.kClient => AsyncConnect_to fuel this remote
      | Session.kServer => AsyncConnect fuel this
      end);; run es) (s, (d, w)) = Ok (tt, (s', (d', w'))) ∧
    Size (Sender.unacked_packets_ (sender_ s')) ≤ 512 ∧
    Size (Receiver.unread_packets_ (receiver_ s')) ≤ 512.
Proof.
  intros Hs Hr Hk Hfree Hmode Hes.
  set (open := match mode with Session.kClient => _ | _ => _ end).
  assert (wp (open;; run es) (s, (d, w)) (λ _, state_ok)) as Hw.
  { apply wp_bind. eapply (wp_mono _ _ (λ _, state_ok)); [|intros [] s' Hs'; by apply safe_run].
    unfold open. destruct mode.
    - eapply wp_mono; [by eapply wp_AsyncConnect_to|]. by intros [] s' [? _].
    - destruct (Hmode eq_refl) as [Hep Hid].
      eapply wp_mono; [by eapply wp_AsyncConnect|]. by intros [] s' [? _]. }
  apply wp_Ok in Hw as ([]&[s' [d' w']]&E&(_&Hsnd&[Hrcv _]&_)). exists s', d', w'.
  split_and!; [exact E|apply wf_size, Hsnd|by apply wf_size].
Qed.

(** Reading: on a socket with nothing outstanding, [AsyncRead] puts the
    first [size] readable bytes into the buffer, reports how many there
    were, and completes at once exactly if the buffer is full or the minimum
    is reached; otherwise the read waits, with the rest of the buffer. *)
Theorem async_read_delivers (size : nat) (at_least : Z) (s : Socket) (n : Net) :
  socket_ok s → (0 < size)%nat → Z.of_nat size < 18446744073709551616 →
  let out := take size (Receiver.readable (receiver_ s)) in
  ∃ s', AsyncRead size at_least (s, n) = Ok (tt, (s', n)) ∧
    Receiver.readable (receiver_ s') = drop size (Receiver.readable (receiver_ s)) ∧
    read_into (waiting_read_ s') = out ∧
    read_buffer (waiting_read_ s') = (size - length out)%nat ∧
    read_bytes_transferred (waiting_read_ s') = Z.of_nat (length out) ∧
    (if bool_decide (length out = size ∨ at_least ≤ Z.of_nat (length out))
     then read_timer (waiting_read_ s') = cancel :: async_wait :: read_timer (waiting_read_ s) ∧
          read_ec (waiting_read_ s') = no_error
     else read_timer (waiting_read_ s') = async_wait :: read_timer (waiting_read_ s)).
Proof.
  intros Hs Hpos Hsize out. destruct n as [d w].
  assert (wp (AsyncRead size at_least) (s, (d, w)) (λ _ st, ∃ s', st = (s', (d, w)) ∧
    Receiver.readable (receiver_ s') = drop size (Receiver.readable (receiver_ s)) ∧
    read_into (waiting_read_ s') = out ∧
    read_buffer (waiting_read_ s') = (size - length out)%nat ∧
    read_bytes_transferred (waiting_read_ s') = Z.of_nat (length out) ∧
    (if bool_decide (length out = size ∨ at_least ≤ Z.of_nat (length out))
     then read_timer (waiting_read_ s') = cancel :: async_wait :: read_timer (waiting_read_ s) ∧
          read_ec (waiting_read_ s') = no_error
     else read_timer (waiting_read_ s') = async_wait :: read_timer (waiting_read_ s)))) as Hw;
    [|by apply wp_Ok in Hw as ([]&st&E&s'&->&Hrest); exists s'].
  unfold AsyncRead, StartRead. apply wp_bind, wp_upd.
  rewrite (proj2 (Nat.eqb_neq size 0)) by lia.
  do 3 apply wp_bind, wp_upd. unfold ProcessRead. apply wp_bind, wp_me. unfold id.
  cbn [fst snd set_read waiting_read_ read_set_bytes read_set_at_least read_set_buffer read_buffer
    read_call].
  rewrite (proj2 (Nat.eqb_neq size 0)) by lia. cbn [negb when].
  apply wp_bind, wp_in_receiver, Receiver.wp_ReadData; [apply Hs|].
  cbn [fst snd receiver_ set_read].
  destruct (Receiver.read_items_readable size (items_ (Receiver.unread_packets_ (receiver_ s))))
    as [E1 E2].
  set (r := Receiver.read_result size (receiver_ s)).
  assert (r.1 = out) as Eout by exact E1. rewrite Eout.
  assert (length out ≤ size)%nat as Hlen by (unfold out; rewrite length_take; lia).
  do 2 apply wp_bind, wp_upd. apply wp_bind, wp_me. 
  cbn [fst snd set_read waiting_read_ read_set_bytes read_set_at_least read_set_buffer read_buffer
    read_transfer_at_least read_bytes_transferred with_shared set_shared set_receiver read_into
    read_call read_timer receiver_ app].
  rewrite Z.add_0_l, u64_small by lia.
  match goal with |- wp (when ?b _) _ _ => replace b with
    (bool_decide (length out = size ∨ at_least ≤ Z.of_nat (length out))) end.
  - case_bool_decide; cbn [when]; [apply wp_upd|apply wp_ret]; eexists; split_and!;
      first [reflexivity|exact E2].
  - symmetry. case_bool_decide as Hd; [apply orb_true_iff|apply orb_false_iff].
    + destruct Hd; [left; apply Nat.eqb_eq; lia|right; by apply Z.leb_le].
    + split; [apply Nat.eqb_neq; lia|apply Z.leb_gt; lia].
Qed.

(** Symbolic execution on a socket whose members are named. *)
Ltac so_cbn :=
  cbn [fst snd with_shared shared_of set_shared set_session set_sender set_receiver set_connect
    set_write set_read set_flush set_sent_length peer_ tick_timer_ congestion_control_ session_
    sender_ receiver_ waiting_connect_ waiting_write_ waiting_read_ waiting_flush_ sent_length_
    sh_peer sh_timer sh_cc sh_world after_send with_world compose op_call op_set_ec write_call
    write_set_bytes write_set_ec read_call read_set_bytes read_set_ec].
Ltac so_close :=
  apply wp_bind, wp_in_session, wp_upd_self; so_cbn;
  apply wp_bind, wp_in_shared, wp_upd_peer; so_cbn;
  apply wp_bind, wp_in_shared, wp_upd_peer; so_cbn;
  apply wp_bind, wp_in_shared, wp_modify; so_cbn;
  do 3 (apply wp_bind, wp_upd; so_cbn); apply wp_upd; so_cbn; split_and!; reflexivity.

(** Closing releases everything.  The socket is no longer open or
    registered, the peer was sent one shutdown packet if the socket was open,
    every pending operation is cancelled with [operation_aborted], and
    from then on datagrams from any real endpoint and the tick timer change
    nothing. *)
Theorem close_releases (s : Socket) (d : Dispatcher) (w : World) :
  ∃ s' d' w', Close (s, (d, w)) = Ok (tt, (s', (d', w'))) ∧
    IsOpen s' = false ∧
    d' = (if IsOpen s then RemoveSocket (Id s) d else d) ∧
    w_sent w' = (if IsOpen s
                 then [Datagram _ (RemoteEndpoint s) (wire_bytes (Sender.shutdown_for (shared_of (s, (d, w)))))]
                 else []) ++ w_sent w ∧
    waiting_connect_ s' = MkWaitingOp (cancel :: op_timer (waiting_connect_ s)) operation_aborted ∧
    waiting_flush_ s' = MkWaitingOp (cancel :: op_timer (waiting_flush_ s)) operation_aborted ∧
    write_timer (waiting_write_ s') = cancel :: write_timer (waiting_write_ s) ∧
    write_result s' = (operation_aborted, 0) ∧
    read_timer (waiting_read_ s') = cancel :: read_timer (waiting_read_ s) ∧
    read_result s' = (operation_aborted, 0) ∧
    (∀ data ep n, ep ≠ endpoint_none → HandleReceiveFrom data ep (s', n) = Ok (tt, (s', n))) ∧
    (∀ n, TickOp (s', n) = Ok (operation_aborted, (s', n))).
Proof.
  assert (wp Close (s, (d, w)) (λ _ st,
    IsOpen st.1 = false ∧ RemoteEndpoint st.1 = endpoint_none ∧
    st.2.1 = (if IsOpen s then RemoveSocket (Id s) d else d) ∧
    w_sent st.2.2 = (if IsOpen s
       then [Datagram _ (RemoteEndpoint s) (wire_bytes (Sender.shutdown_for (shared_of (s, (d, w)))))]
       else []) ++ w_sent w ∧
    waiting_connect_ st.1 = MkWaitingOp (cancel :: op_timer (waiting_connect_ s)) operation_aborted ∧
    waiting_flush_ st.1 = MkWaitingOp (cancel :: op_timer (waiting_flush_ s)) operation_aborted ∧
    waiting_write_ st.1 = MkWriteOp (cancel :: write_timer (waiting_write_ s))
      (write_buffer (waiting_write_ s)) operation_aborted 0 ∧
    waiting_read_ st.1 = MkReadOp (cancel :: read_timer (waiting_read_ s))
      (read_buffer (waiting_read_ s)) (read_into (waiting_read_ s))
      (read_transfer_at_least (waiting_read_ s)) operation_aborted 0)) as Hw.
  { destruct s as [p t c se sn r [tc ec] [tw bw ew nw] [tr br ir ar er nr] [tf ef] sl].
    unfold Close. apply wp_bind, wp_me. unfold id. cbn [fst].
    destruct (IsOpen _) eqn:Eo; cbn [when]; apply wp_bind.
    - apply wp_bind, wp_in_sender, Sender.wp_NotifyClose. so_cbn.
      apply wp_bind, wp_in_shared, wp_upd_cc. so_cbn. apply wp_bind, wp_me, wp_modify. so_cbn.
      so_close.
    - apply wp_ret. so_close. }
  apply wp_Ok in Hw as ([]&[s' [d' w']]&E&Ho&Hep&Ed&Ew&Ec&Ef&Ewr&Er). cbn [fst snd] in *.
  exists s', d', w'. unfold write_result, read_result. rewrite Ewr, Er.
  split; [exact E|]. split_and!; try done.
  - intros data ep n Hn. unfold HandleReceiveFrom. unfold mbind, M_bind, me, gets. cbn [fst].
    unfold id. rewrite Hep. by rewrite bool_decide_false.
  - intros n. unfold TickOp. unfold mbind at 1, M_bind at 1, me, gets. cbn [fst].
    unfold id. by rewrite Ho.
Qed.

End theory.

(** ** Examples *)
Module SocketExamples.
Import Demo.

(** A socket between whose windows and the network nothing happened yet. *)
Definition fresh_socket (ep : endpoint) (pid : Z) : Socket :=
  MkSocket (MkPeer _ ep pid) (MkTickTimer _ pos_infin) new_congestion_control Session.new_session
    (Sender.MkSender (new_window 0x7fffffff) not_a_date_time)
    (Receiver.MkReceiver (new_window 11) (new_window 5) 0 not_a_date_time)
    (MkWaitingOp [] no_error) (MkWriteOp [] [] no_error 0) (MkReadOp [] 0 [] 0 no_error 0)
    (MkWaitingOp [] no_error) 0.

Lemma fresh_socket_ok ep pid : is_u32 pid → socket_ok (fresh_socket ep pid).
Proof.
  intros Hp. split; [by repeat split|]. split.
  { split; [by apply wf_new_window|by intros i u Hu]. }
  split; [split; [by apply wf_new_window|split; [by apply wf_new_window|by split; vm_compute]]|].
  split; [constructor|]. split; [apply new_congestion_control_inv|exact Hp].
Qed.

Definition net0 : Net := (new_dispatcher, MkWorld _ 0 0 []).

(** The server's acceptance, with initial sequence number [n]; its challenge. *)
Definition accepted (n : Z) : HandshakePacket.t :=
  HandshakePacket.Mk (ControlPacket.Mk HandshakePacket.kPacketType 0 0 1) 4
    HandshakePacket.kStreamSocketType n 25980 512 0xffffffff 77 0 (replicate 16 0).

Definition garbage : list Z := [128; 0; 0; 0; 1].
Definition traffic : list event :=
  [EvWrite [1; 2; 3]; EvDatagram garbage (remote 3); EvDatagram garbage (remote 2); EvTimer;
   EvRead 10 1; EvFlush; EvClose].

Lemma garbage_ok : bytes_ok garbage ∧ initial_number_ok garbage.
Proof.
  split; [unfold garbage; repeat (constructor; [by split; vm_compute|]); constructor|].
  intros new p E1 E2. injection E1 as <-. vm_compute in E2. discriminate E2.
Qed.

Lemma socket_never_faults_witness :
  ∃ s' d' w', (AsyncConnect_to 4 1%positive (remote 2);; run traffic)
      (fresh_socket endpoint_none 0, net0) = Ok (tt, (s', (d', w'))) ∧
    Size (Sender.unacked_packets_ (sender_ s')) ≤ 512.
Proof.
  destruct (socket_never_faults 4 1%positive Session.kClient (remote 2) traffic
    (fresh_socket endpoint_none 0) new_dispatcher (MkWorld _ 0 0 []) 0) as (s'&d'&w'&E&Hs&_).
  - by apply fresh_socket_ok.
  - apply Sim.sim_random_u32.
  - lia.
  - by vm_compute.
  - done.
  - unfold traffic. constructor; [repeat (constructor; [by split; vm_compute|]); constructor|].
    do 2 (constructor; [exact garbage_ok|]). repeat (constructor; [exact I|]). constructor.
  - exists s', d', w'. split; [exact E|exact Hs].
Defined.

(** Three bytes arrived in two packets. *)
Definition with_data : Socket :=
  set_receiver (Receiver.MkReceiver (MkWindow
      [Receiver.MkUnread (DataPacket.Mk 11 true true true 0 0 1 [7; 8]) false 0 not_a_date_time;
       Receiver.MkUnread (DataPacket.Mk 12 true true true 0 0 1 [9]) false 0 not_a_date_time] 16 11 13)
    (new_window 5) 0 not_a_date_time) (fresh_socket (remote 2) 77).

Lemma async_read_delivers_witness :
  ∃ s', AsyncRead 2 1 (with_data, net0) = Ok (tt, (s', net0)) ∧
    read_into (waiting_read_ s') = [7; 8] ∧
    read_timer (waiting_read_ s') = [cancel; async_wait].
Proof.
  destruct (async_read_delivers 2 1 with_data net0) as (s'&E&_&Hinto&_&_&Ht).
  - destruct (fresh_socket_ok (remote 2) 77) as (?&?&[_ ?]&?&?&?); [done|].
    split_and!; done.
  - lia.
  - lia.
  - exists s'. split; [exact E|]. split; [exact Hinto|].
    rewrite bool_decide_true in Ht; [apply Ht|by left].
Defined.

(** The client socket of a session that was opened. *)
Definition probing : Res (unit * State) :=
  AsyncConnect_to 4 1%positive (remote 2) (fresh_socket endpoint_none 0, net0).

Definition receive (p : HandshakePacket.t) : Res (unit * State) :=
  match probing with
  | Ok (_, s) => HandleReceiveFrom (wire_bytes p) (remote 2) s
  | Fault f => Fault f
  end.

Definition fault_of {A} (r : Res A) : option fault :=
  match r with Ok _ => None | Fault f => Some f end.

(** A peer can stop the program: while a client is connecting, a
    handshake packet that accepts the connection with an initial
    sequence number of 2{^31} fails the assertion in the window's [Reset]
    (the number is taken from the packet unchecked); with 2{^31}-1 it
    connects. *)
Theorem handshake_number_aborts :
  fault_of (receive (accepted 0x80000000)) = Some AssertionFailed ∧
  fault_of (receive (accepted 0x7fffffff)) = None.
Proof. by split; vm_compute. Qed.

(** Connected, without a handshake. *)
Definition connected : Socket :=
  set_session (Session.MkSession 1 0x7fffffff 11 0 Session.kClient Session.kConnected)
    (fresh_socket (remote 2) 77).

Fixpoint write_bytes (n : nat) : M State unit :=
  match n with O => mret tt | S n' => AsyncWrite [0];; write_bytes n' end.

(** [SentLength] can fail its assertion between two writes: after fifteen
    writes of one byte and one of ten have filled the window, a tick asks for
    the length that was sent; the next write, of one byte, waits with nothing
    transferred, so at the next tick the unsigned difference wraps around. *)
Theorem sent_length_wraps :
  fault_of ((write_bytes 15;; AsyncWrite (replicate 10 0);; SentLength) (connected, net0)) = None ∧
  fault_of ((write_bytes 15;; AsyncWrite (replicate 10 0);; n ← SentLength;
             AsyncWrite [0];; SentLength) (connected, net0)) = Some AssertionFailed.
Proof. by split; vm_compute. Qed.
End SocketExamples.
