(* ===== verification/Stream.v ===== *)
(** * A stream of bytes over a network that loses, repeats and reorders

    The sender of one node ([Sender]) and the receiver of the other
    ([Receiver]) with a network between them that may deliver each datagram
    that was ever sent any number of times, in any order, or never.  [stream] is
    the invariant that ties the two windows together; the theorem is that the
    bytes the application reads are the bytes that were accepted, in order,
    and that every accepted byte is read, waiting to be read, or still in the
    sender's window. *)

From S2P Require Import Prelude Environment Packet ControlPackets Transport SlidingWindow.
From S2P Require Import CongestionControl Shared Decoded Codecs.
From S2P Require DataPacket NegativeAckPacket Sender Receiver.

(** ** Counting on beyond the sequence numbers *)

Section numbers.
Context (base : Z).

(** The sequence number of the [j]-th packet of the stream. *)
Definition num (j : nat) : Z := seq_add base (Z.of_nat j).

(** So few packets that no number is met again within a window. *)
Definition few (made : nat) : Prop := Z.of_nat made < modulus - 512.

Lemma num_S j : num (S j) = seq_add (num j) 1.
Proof. unfold num. rewrite seq_add_add. f_equal. lia. Qed.
Lemma num_add j k : seq_add (num j) (Z.of_nat k) = num (j + k).
Proof. unfold num. rewrite seq_add_add. f_equal. lia. Qed.

Lemma num_ahead made i j k :
  few made → (i ≤ made)%nat → (j ≤ made)%nat → (k ≤ 512)%nat →
  num i = seq_add (num j) (Z.of_nat k) → i = (j + k)%nat.
Proof.
  unfold few, num, seq_add, modulus. intros Hm Hi Hj Hk E.
  rewrite Zplus_mod_idemp_l in E. apply (f_equal (λ x, (x - base) `mod` 2147483648)) in E.
  rewrite !Zminus_mod_idemp_l in E.
  replace (base + Z.of_nat i - base) with (Z.of_nat i) in E by lia.
  replace (base + Z.of_nat j + Z.of_nat k - base) with (Z.of_nat (j + k)) in E by lia.
  mod_lia.
Qed.
End numbers.

(** ** What arrived *)

Section arrived.
Context `{Environment}.
Implicit Types (l items : list Receiver.UnreadPacket).

Lemma arrived_take items : Receiver.arrived items = take (length (Receiver.arrived items)) items.
Proof.
  induction items as [|u l IH]; [done|]. cbn [Receiver.arrived]. destruct (Receiver.lost u); [done|].
  cbn [length take]. by rewrite <-IH.
Qed.

Lemma arrived_lookup items i u :
  (i < length (Receiver.arrived items))%nat → items !! i = Some u → Receiver.lost u = false.
Proof.
  revert i. induction items as [|v l IH]; intros i Hi E; [done|]. cbn [Receiver.arrived] in Hi.
  destruct (Receiver.lost v) eqn:Ev; [cbn in Hi; lia|]. destruct i as [|i]; [by injection E as <-|].
  cbn [length] in Hi. by apply (IH i); [lia|].
Qed.

(** The first ones that are there come before the first one that is missing. *)
Lemma arrived_at_least items n :
  (n ≤ length items)%nat → (∀ i u, (i < n)%nat → items !! i = Some u → Receiver.lost u = false) →
  (n ≤ length (Receiver.arrived items))%nat.
Proof.
  revert n. induction items as [|v l IH]; intros n Hn Hl; [done|]. destruct n as [|n]; [lia|].
  cbn [Receiver.arrived]. rewrite (Hl 0%nat v) by (done || lia). cbn [length] in *.
  apply le_n_S, IH; [lia|]. intros i u Hi E. by apply (Hl (S i)); [lia|].
Qed.

Lemma arrived_drop items k :
  (k ≤ length items)%nat → Forall (λ u, Receiver.lost u = false) (take k items) →
  length (Receiver.arrived items) = (k + length (Receiver.arrived (drop k items)))%nat.
Proof.
  revert items. induction k as [|k IH]; intros items Hk Hf; [done|].
  destruct items as [|u l]; [cbn in Hk; lia|]. apply Forall_cons in Hf as [Hu Hf].
  cbn [Receiver.arrived drop]. rewrite Hu. cbn [length] in *. rewrite (IH l) by (done || lia). lia.
Qed.

(** Only what arrived, and how far it was read, matters. *)
Lemma arrived_strip l items :
  Receiver.strip <$> l = Receiver.strip <$> items →
  length (Receiver.arrived l) = length (Receiver.arrived items) ∧
  concat (Receiver.unread_bytes <$> Receiver.arrived l) =
    concat (Receiver.unread_bytes <$> Receiver.arrived items).
Proof.
  revert items. induction l as [|u l IH]; intros [|v items] E; try done.
  cbn [fmap list_fmap] in E. injection E as Ep El Eb E. destruct (IH _ E) as [IH1 IH2].
  cbn [Receiver.arrived]. rewrite El.
  destruct (Receiver.lost v); [done|]. cbn [length fmap list_fmap concat].
  unfold Receiver.unread_bytes at 1 3. by rewrite IH1, IH2, Ep, Eb.
Qed.
End arrived.

(** ** The two ends *)

Section stream.
Context `{Environment} `{!IpAddressLaws} (base : Z).
Implicit Types (s : Sender.Sender) (r : Receiver.Receiver) (chunks : list (list Z)).

#[local] Abbreviation num := (num base).

(** The sender's window holds the packets from the [acked]-th on. *)
Record sending chunks (acked : nat) s : Prop := {
  sending_ok : Sender.sender_ok s;
  sending_begin : begin_ (Sender.unacked_packets_ s) = num acked;
  sending_acked : (acked ≤ length chunks)%nat;
  sending_data : (DataPacket.Data ∘ Sender.packet) <$> items_ (Sender.unacked_packets_ s) =
    drop acked chunks;
}.

(** [expected] packets arrived without a gap, of which [delivered] was read. *)
Record receiving chunks (expected : nat) (delivered : list Z) r : Prop := {
  receiving_ok : Receiver.receiver_ok r;
  receiving_expected : (expected ≤ length chunks)%nat;
  receiving_bytes : delivered ++ Receiver.readable r = concat (take expected chunks);
  receiving_window : let items := items_ (Receiver.unread_packets_ r) in
    ∃ first, begin_ (Receiver.unread_packets_ r) = num first ∧
      expected = (first + length (Receiver.arrived items))%nat ∧
      ∀ i u, (length (Receiver.arrived items) ≤ i)%nat → items !! i = Some u →
        Receiver.lost u = false →
        Receiver.bytes_read u = 0%nat ∧ chunks !! (first + i)%nat = Some (DataPacket.Data (Receiver.packet u));
}.

(** What is on its way: packets of the stream, acknowledgements of packets that arrived. *)
Definition carries chunks (sent : list datagram) : Prop :=
  ∀ d p, d ∈ sent → DataPacket.Decode (dg_bytes d) DataPacket.new = Ok (true, p) →
    ∃ j, DataPacket.PacketSequenceNumber p = num j ∧ chunks !! j = Some (DataPacket.Data p).
Definition decoded_ack (bytes : list Z) : Res (bool * AckPacket.t) :=
  p ← AckPacket.new; AckPacket.Decode bytes p.
Definition acknowledged (expected : nat) (sent : list datagram) : Prop :=
  ∀ d a, d ∈ sent → decoded_ack (dg_bytes d) = Ok (true, a) →
    ∃ j, (j ≤ expected)%nat ∧ AckPacket.PacketSequenceNumber a = num j ∧ AckPacket.wf a.

Lemma num_is_seq j : is_seq (num j).
Proof. apply seq_add_is_seq. Qed.

(** *** The receiver *)

Lemma receiving_HandleData chunks expected delivered r sh p j :
  receiving chunks expected delivered r → few (length chunks) → cc_inv (sh_cc sh) →
  DataPacket.PacketSequenceNumber p = num j → chunks !! j = Some (DataPacket.Data p) →
  ∃ expected', (expected ≤ expected')%nat ∧
    receiving chunks expected' delivered (Receiver.handle_data_result p r sh) ∧
    (j = expected →
     Z.of_nat (length (Receiver.arrived (items_ (Receiver.unread_packets_ r)))) <
       ReceiveWindowSize (sh_cc sh) `min` 512 → (expected < expected')%nat).
Proof.
  intros [Hok Hexp Hbytes (first&Eb&Ee&Hgap)] Hfew Hcc Ep Ej.
  set (items := items_ (Receiver.unread_packets_ r)) in *.
  set (r' := Receiver.handle_data_result p r sh).
  set (items' := items_ (Receiver.unread_packets_ r')).
  set (a := length (Receiver.arrived items)) in *. set (a' := length (Receiver.arrived items')).
  pose proof (num_is_seq j) as Hseq. rewrite <-Ep in Hseq.
  assert (Receiver.receiver_ok r') as Hok'.
  { apply Receiver.handle_data_result_ok; [done|done|apply Hseq]. }
  assert (begin_ (Receiver.unread_packets_ r') = num first) as Eb'.
  { unfold r'. rewrite Receiver.handle_data_begin. exact Eb. }
  assert (a ≤ length items)%nat as Ha by apply Receiver.length_arrived.
  assert (∀ i, (i < a)%nat → items' !! i = items !! i) as Hkeep.
  { intros i Hi. destruct (lookup_lt_is_Some_2 items i) as [u Eu]; [lia|]. rewrite Eu.
    apply Receiver.handle_data_keeps; [done|]. by eapply arrived_lookup. }
  assert (∀ i u, (a ≤ i)%nat → items' !! i = Some u → Receiver.lost u = false →
    Receiver.bytes_read u = 0%nat ∧ chunks !! (first + i)%nat = Some (DataPacket.Data (Receiver.packet u))) as Hnew.
  { intros i u Hi Eu El. destruct (Receiver.handle_data_lookup p r sh i u Eu El) as [Eo|(Ef&En&_)]; [by eapply Hgap|].
    rewrite Ef. split; [done|]. cbn [Receiver.fill Receiver.packet]. rewrite <-Ej. f_equal.
    symmetry. assert (i < 512)%nat as Hi512.
    { apply lookup_lt_Some in Eu. destruct Hok' as [Hwf _]. pose proof (wf_size _ Hwf) as Hs.
      unfold Size in Hs. fold items' in Hs. lia. }
    apply (num_ahead base (length chunks)); [done|by apply lookup_lt_Some in Ej; lia|lia|lia|].
    rewrite En, Ep, Eb. symmetry. apply seq_add_sub, num_is_seq. }
  assert (a ≤ a')%nat as Haa.
  { destruct (decide (a = 0%nat)) as [->|Ha0]; [lia|]. apply arrived_at_least.
    - destruct (lookup_lt_is_Some_2 items (a - 1)) as [u Eu]; [lia|]. rewrite <-Hkeep in Eu by lia.
      apply lookup_lt_Some in Eu. fold items' in Eu. lia.
    - intros i u Hi Eu. rewrite Hkeep in Eu by done. by eapply arrived_lookup. }
  assert (a' ≤ length items')%nat as Ha' by apply Receiver.length_arrived.
  set (fresh := take (a' - a) (drop a items')).
  assert (Receiver.arrived items' = Receiver.arrived items ++ fresh) as Earr.
  { rewrite (arrived_take items'), (arrived_take items). fold a a'. unfold fresh.
    replace a' with (a + (a' - a))%nat at 1 by lia. rewrite <-take_take_drop. f_equal.
    apply list_eq_same_length with a; [rewrite length_take; lia|rewrite length_take; lia|].
    intros i x y Hi Ex Ey. rewrite lookup_take_lt in Ex, Ey by done. rewrite Hkeep in Ex by done. congruence. }
  assert (Receiver.unread_bytes <$> fresh = take (a' - a) (drop expected chunks)) as Efresh.
  { apply list_eq. intros i. rewrite list_lookup_fmap. unfold fresh.
    destruct (decide (i < a' - a)%nat) as [Hi|Hi].
    - rewrite !lookup_take_lt, !lookup_drop by done.
      destruct (lookup_lt_is_Some_2 items' (a + i)) as [u Eu]; [lia|]. rewrite Eu. cbn [fmap option_fmap option_map].
      destruct (Hnew (a + i)%nat u) as [Hz Hc]; [lia|done|by eapply arrived_lookup; [|exact Eu]; fold a'; lia|].
      rewrite Ee, <-Nat.add_assoc, Hc. unfold Receiver.unread_bytes. by rewrite Hz, drop_0.
    - rewrite !lookup_take_ge by lia. done. }
  exists (first + a')%nat. split; [lia|]. split; [split|].
  - exact Hok'.
  - apply (f_equal length) in Efresh. rewrite length_fmap in Efresh. unfold fresh in Efresh.
    rewrite !length_take, !length_drop in Efresh. lia.
  - unfold Receiver.readable in *. fold items' items in Hbytes |- *. rewrite Earr, fmap_app, concat_app, app_assoc, Hbytes, Efresh.
    rewrite <-concat_app, take_take_drop. do 2 f_equal. lia.
  - exists first. split; [exact Eb'|]. split; [done|]. fold items' a'. intros i u Hi. apply Hnew. lia.
  - intros -> Hroom. fold items a in Hroom.
    destruct (Receiver.handle_data_stored p r sh a Hok Hcc Hseq) as (u&Eu&El); [|exact Hroom|].
    { rewrite Ep, Eb, Ee, <-num_add, seq_sub_add, Nat2Z.id; [done|]. unfold modulus. lia. }
    fold r' items' in Eu. assert (a + 1 ≤ a')%nat; [|lia]. apply arrived_at_least.
    + apply lookup_lt_Some in Eu. lia.
    + intros i v Hi Ev. destruct (decide (i = a)) as [->|]; [congruence|].
      rewrite Hkeep in Ev by lia. eapply arrived_lookup; [|exact Ev]. lia.
Qed.

(** Reading: what was readable is delivered. *)
Lemma receiving_ReadData chunks expected delivered r size :
  receiving chunks expected delivered r →
  let res := Receiver.read_result size r in
  receiving chunks expected (delivered ++ res.1) res.2.
Proof.
  intros [Hok Hexp Hbytes (first&Eb&Ee&Hgap)] res.
  set (items := items_ (Receiver.unread_packets_ r)) in *.
  destruct (Receiver.read_items_readable size items) as [Eout Eleft].
  destruct (Receiver.read_items_shape size items) as (k&j&Hk&Eshape&Hall&_&Hj).
  unfold res, Receiver.read_result. fold items. cbn [fst snd].
  set (items' := (Receiver.read_items size items).2) in *.
  assert (length items' = (length items - k)%nat) as Elen by by rewrite Eshape, Receiver.length_rest_of.
  pose proof (arrived_drop items k Hk Hall) as Harr.
  assert (length (Receiver.arrived items') = length (Receiver.arrived (drop k items))) as Earr'.
  { rewrite Eshape. unfold Receiver.rest_of. destruct (drop k items) as [|u l]; [done|].
    cbn. by destruct (Receiver.lost u). }
  split.
  - split; [by apply Receiver.read_result_wf, Hok|apply Hok].
  - exact Hexp.
  - unfold Receiver.readable in *. cbn [Receiver.items_with Receiver.set_unread Receiver.unread_packets_ items_].
    fold items in Hbytes. rewrite Eout, Eleft, <-app_assoc, take_drop. exact Hbytes.
  - exists (first + k)%nat.
    cbn [Receiver.items_with Receiver.set_unread Receiver.unread_packets_ items_ begin_]. split; [|split].
    + rewrite Eb, Elen. replace (length items - (length items - k))%nat with k by lia. apply num_add.
    + lia.
    + intros i u Hi Eu El. rewrite Eshape in Eu. unfold Receiver.rest_of in Eu.
      rewrite <-Nat.add_assoc. apply Hgap; [lia| |done]. rewrite <-lookup_drop.
      destruct i as [|i]; [|by rewrite list_lookup_alter_ne in Eu].
      destruct (decide (j = 0%nat)) as [->|Hj0]; [by rewrite Receiver.alter_read_more_0 in Eu|].
      exfalso. destruct (Hj Hj0) as (v&Ev&Elv&_). rewrite Earr' in Hi.
      rewrite (drop_S items v k Ev) in Hi. cbn [Receiver.arrived] in Hi. rewrite Elv in Hi. cbn in Hi. lia.
Qed.

(** Ticks and acknowledgements of acknowledgements leave the window as it was. *)
Lemma receiving_same chunks expected delivered r r' l :
  receiving chunks expected delivered r → Receiver.receiver_ok r' →
  Receiver.unread_packets_ r' = MkWindow l (maximum_size_ (Receiver.unread_packets_ r'))
    (begin_ (Receiver.unread_packets_ r)) (end_ (Receiver.unread_packets_ r')) →
  Receiver.strip <$> l = Receiver.strip <$> items_ (Receiver.unread_packets_ r) →
  receiving chunks expected delivered r'.
Proof.
  intros [_ Hexp Hbytes (first&Eb&Ee&Hgap)] Hok' Ew Es.
  destruct (arrived_strip _ _ Es) as [El Ec].
  assert (items_ (Receiver.unread_packets_ r') = l) as Ei by by rewrite Ew.
  split; [done|done| |].
  - unfold Receiver.readable in *. by rewrite Ei, Ec.
  - exists first. cbv zeta. rewrite Ei, El. split; [by rewrite Ew|]. split; [done|].
    intros i u Hi Eu Elu. destruct (Receiver.strip_lookup _ _ _ _ Es Eu) as (v&Ev&Euv).
    unfold Receiver.strip in Euv. injection Euv as Ep Elv Ebr. rewrite <-Ep, <-Ebr. apply Hgap; [done|done|congruence].
Qed.

Lemma receiving_next chunks expected delivered r :
  receiving chunks expected delivered r → Receiver.next_expected r = num expected.
Proof.
  intros [_ _ _ (first&Eb&->&_)]. unfold Receiver.next_expected. by rewrite Eb, num_add.
Qed.

(** More of the stream. *)
Lemma receiving_more chunks expected delivered r more :
  receiving chunks expected delivered r → receiving (chunks ++ more) expected delivered r.
Proof.
  intros [Hok Hexp Hbytes (first&Eb&Ee&Hgap)]. split; [done|rewrite length_app; lia| |].
  - by rewrite take_app_le.
  - exists first. split; [done|]. split; [done|]. intros i u Hi Eu El. destruct (Hgap i u Hi Eu El) as [? Hc].
    split; [done|]. by apply lookup_app_l_Some.
Qed.

Lemma carries_more chunks more sent : carries chunks sent → carries (chunks ++ more) sent.
Proof. intros Hc d p Hd E. destruct (Hc d p Hd E) as (j&Ej&Ec). exists j. split; [done|]. by apply lookup_app_l_Some. Qed.

Lemma acknowledged_more expected expected' sent :
  (expected ≤ expected')%nat → acknowledged expected sent → acknowledged expected' sent.
Proof. intros Hle Ha d a Hd E. destruct (Ha d a Hd E) as (j&Hj&Ej). exists j. split; [lia|exact Ej]. Qed.

(** *** The sender *)

Lemma sending_packets chunks acked s s' :
  sending chunks acked s → Sender.sender_ok s' → Sender.same_packets s s' → sending chunks acked s'.
Proof.
  intros [Hok Eb Ha Ed] Hok' (Ep&Eb'&_). split; [done|congruence|done|].
  rewrite !list_fmap_compose in *. congruence.
Qed.

(** A packet of the window is decoded to what it is. *)
Lemma packet_arrives n u :
  Sender.packet_ok n u →
  DataPacket.Decode (wire_bytes (Sender.packet u)) DataPacket.new = Ok (true, Sender.packet u).
Proof.
  intros (Hwf&_&Hlen). apply DataPacket.data_Decode_put; [done|]. apply send_buffer_fits.
  unfold DataPacket.size, DataPacket.Data, RudpParameters.max_data_size in *. lia.
Qed.

(** What it sends is of the stream. *)
Lemma sending_carries chunks acked s sent :
  sending chunks acked s →
  Forall (λ dg, ∃ u, u ∈ items_ (Sender.unacked_packets_ s) ∧ dg_bytes dg = wire_bytes (Sender.packet u)) sent →
  carries chunks sent.
Proof.
  intros [[Hwf Hok] Eb Ha Ed] Hsent d p Hd E.
  rewrite Forall_forall in Hsent. destruct (Hsent d Hd) as (u&Hu&Edg).
  apply list_elem_of_lookup in Hu as [i Hi]. pose proof (Hok i u Hi) as Hu.
  rewrite Edg, (packet_arrives _ u Hu) in E. destruct Hu as (_&En&_).
  injection E as <-. exists (acked + i)%nat. rewrite Eb, num_add in En. split; [done|].
  rewrite <-lookup_drop, <-Ed, list_lookup_fmap, Hi. done.
Qed.

Lemma carries_app chunks sent sent' : carries chunks sent → carries chunks sent' → carries chunks (sent ++ sent').
Proof. intros H1 H2 d p [Hd|Hd]%elem_of_app; [by apply H1|by apply H2]. Qed.

(** The common end of its operations. *)
Lemma sending_DoSend chunks acked s sh :
  sending chunks acked s → carries chunks (w_sent (sh_world sh)) →
  let st := Sender.do_send_result s sh in
  sending chunks acked st.1 ∧ carries chunks (w_sent (sh_world st.2)) ∧
  sh_cc st.2 = sh_cc sh ∧ sh_peer st.2 = sh_peer sh.
Proof.
  intros Hs Hc st. destruct (Sender.do_send_frame s sh) as (Hsame&Ecc&Ep&new&Esent&Hnew).
  fold st in Hsame, Ecc, Ep, Esent. split; [|split; [|done]].
  - eapply sending_packets; [done| |exact Hsame]. apply Sender.do_send_ok, Hs.
  - rewrite Esent. apply carries_app; [|done]. eapply sending_carries; [done|].
    eapply Forall_impl; [exact Hnew|]. intros dg (_&u&Hu&E). by exists u.
Qed.

Lemma sending_AddData chunks acked s sh data :
  sending chunks acked s → Sender.shared_ok sh → bytes_ok data → carries chunks (w_sent (sh_world sh)) →
  let more := Sender.add_data_chunks s sh data in
  let st := Sender.do_send_result (Sender.added s sh data) sh in
  sending (chunks ++ more) acked st.1 ∧ carries (chunks ++ more) (w_sent (sh_world st.2)) ∧
  sh_cc st.2 = sh_cc sh ∧ sh_peer st.2 = sh_peer sh.
Proof.
  intros [Hok Eb Ha Ed] Hsh Hdata Hc more st. apply sending_DoSend; [|by apply carries_more].
  split; [by apply Sender.sender_ok_added|exact Eb|rewrite length_app; lia|].
  unfold Sender.added, Sender.appended.
  cbn [Sender.set_window Sender.with_maximum SetMaximumSize Sender.unacked_packets_ items_ end_].
  fold more. rewrite fmap_app, Ed, drop_app_le by done. f_equal.
  assert (∀ n, (DataPacket.Data ∘ Sender.packet) <$> Sender.new_packets n (peer_id (sh_peer sh)) more = more) as Hnew.
  { intros n. generalize more. clear. intros l. revert n. induction l as [|d l IH]; intros n; [done|].
    cbn [Sender.new_packets fmap list_fmap]. by rewrite IH. }
  apply Hnew.
Qed.

Lemma sending_HandleAck chunks acked s sh p j :
  sending chunks acked s → few (length chunks) → carries chunks (w_sent (sh_world (Sender.after_ack p sh))) →
  AckPacket.PacketSequenceNumber p = num j → (j ≤ length chunks)%nat →
  let st := Sender.handle_ack_result p s sh in
  (∃ acked', (acked' = acked ∨ acked' = j) ∧ sending chunks acked' st.1) ∧
  carries chunks (w_sent (sh_world st.2)) ∧
  sh_cc st.2 = sh_cc (Sender.after_ack p sh) ∧ sh_peer st.2 = sh_peer sh.
Proof.
  intros Hs Hfew Hc Ep Hj st. pose proof Hs as [Hok Eb Ha Ed]. unfold st, Sender.handle_ack_result.
  set (n := AckPacket.PacketSequenceNumber p) in *.
  destruct (Sender.acknowledges n s) eqn:E; [|split; [exists acked; by split; [left|]|done]].
  destruct (Sender.acknowledges_spec n s) as [Hk En]; [apply Hok|rewrite Ep; apply num_is_seq|done|].
  set (k := Sender.acked_count n s) in *.
  pose proof (wf_size _ (proj1 Hok)) as Hsize. unfold Size in Hsize.
  assert (j = (acked + k)%nat) as ->.
  { apply (num_ahead base (length chunks)); [done|done|done|lia|]. by rewrite <-Ep, En, Eb. }
  assert (sending chunks (acked + k) (Sender.dropped k s)) as Hd.
  { split; [by apply Sender.sender_ok_dropped| |done|].
    - cbn [Sender.dropped Sender.set_window Sender.unacked_packets_ begin_]. by rewrite Eb, num_add.
    - cbn [Sender.dropped Sender.set_window Sender.unacked_packets_ items_].
      by rewrite fmap_drop, Ed, drop_drop. }
  destruct (sending_DoSend _ _ _ (Sender.after_ack p sh) Hd Hc) as (?&?&?&?).
  split; [exists (acked + k)%nat; split; [by right|done]|done].
Qed.

(** The passes over the window mark packets only. *)
Lemma sending_marked chunks acked s sh h :
  (∀ n u sh, let r := (h n u sh).2 in
     sh_peer r = sh_peer sh ∧ sh_timer r = sh_timer sh ∧
     w_sent (sh_world r) = w_sent (sh_world sh) ∧ (cc_inv (sh_cc sh) → cc_inv (sh_cc r))) →
  sending chunks acked s → carries chunks (w_sent (sh_world sh)) → Sender.shared_ok sh →
  let w := Sender.unacked_packets_ s in
  let r := Sender.mark_pass h (begin_ w) (items_ w) sh in
  let st := Sender.do_send_result (Sender.with_items r.1 s) r.2 in
  sending chunks acked st.1 ∧ carries chunks (w_sent (sh_world st.2)) ∧ Sender.shared_ok st.2.
Proof.
  intros Hh [Hok Eb Ha Ed] Hc [Hcc Hpeer] w r st.
  destruct (Sender.mark_pass_frame h (begin_ w) (items_ w) sh Hh) as (E1&_&E2&E3). fold r in E1, E2, E3.
  pose proof (Sender.mark_pass_packets h (begin_ w) (items_ w) sh) as Epk. fold r in Epk.
  assert (sending chunks acked (Sender.with_items r.1 s)) as Hs'.
  { split; [by apply Sender.sender_ok_with_items|exact Eb|done|].
    cbn [Sender.with_items Sender.set_window Sender.unacked_packets_ items_].
    rewrite list_fmap_compose in *. by rewrite Epk. }
  destruct (sending_DoSend _ _ _ r.2 Hs') as (?&?&Ecc&Ep); [by rewrite E2|].
  split; [done|]. split; [done|]. unfold Sender.shared_ok, st. rewrite Ecc, Ep, E1. auto.
Qed.

(** ** Which decoder takes what was sent *)

Lemma base_starts (b : ControlPacket.t) q :
  ControlPacket.wf b → ControlPacket.has_base b q → starts_as (Some (ControlPacket.type_ b)) q.
Proof.
  intros Hwf Hq. apply IsValidBase_starts. rewrite (ControlPacket.IsValidBase_put b) by (done || apply Hwf).
  by rewrite bool_decide_true.
Qed.

Lemma starts_control_not_data t q : starts_as (Some t) q → starts_as None q → False.
Proof. intros (b&E&Hb&_) (b'&E'&Hb'). rewrite E in E'. injection E' as <-. done. Qed.

Lemma starts_same t t' q : starts_as (Some t) q → starts_as (Some t') q → Z.land t 255 = Z.land t' 255.
Proof. intros (b&_&_&E) (b'&_&_&E'). rewrite E in E'. by injection E'. Qed.

Lemma data_starts q p : DataPacket.Decode q DataPacket.new = Ok (true, p) → starts_as None q.
Proof.
  intros E. apply (accept_starts KData). cbn [accept]. by rewrite E.
Qed.
Lemma ack_starts q a : decoded_ack q = Ok (true, a) → starts_as (Some AckPacket.kPacketType) q.
Proof.
  intros E. apply (accept_starts KAck). cbn [accept]. unfold decoded_ack in E.
  apply Res_bind_inv in E as (p&E1&E2). by rewrite E1, Res_bind_ok, E2.
Qed.

(** A control packet is no packet of the stream. *)
Lemma carries_control chunks b d :
  ControlPacket.wf b → ControlPacket.has_base b (dg_bytes d) → carries chunks [d].
Proof.
  intros Hwf Hb d' p ->%list_elem_of_singleton E%data_starts. exfalso.
  eapply starts_control_not_data; [by apply (base_starts b)|done].
Qed.

(** ** The two nodes and the network *)

Record Channel := MkChannel {
  tx : Sender.Sender * Shared;
  rx : Receiver.Receiver * Shared;
  accepted : list Z;                         (** by [AddData], so far *)
  delivered : list Z;                        (** by [ReadData], so far *)
  made : nat;                                (** packets, so far *)
}.

Definition on_wire (x : Shared) : list datagram := w_sent (sh_world x).
Definition pending_packets (s : Sender.Sender) : list (list Z) :=
  (DataPacket.Data ∘ Sender.packet) <$> items_ (Sender.unacked_packets_ s).
Definition no_data (sent : list datagram) : Prop :=
  ∀ d p, d ∈ sent → DataPacket.Decode (dg_bytes d) DataPacket.new ≠ Ok (true, p).
Definition no_acks (sent : list datagram) : Prop :=
  ∀ d a, d ∈ sent → decoded_ack (dg_bytes d) ≠ Ok (true, a).

(** One step of either node.  What one receives is a datagram that the other sent
    at any time before, except that negative acknowledgements and
    acknowledgements of acknowledgements may hold anything.  The other parts of a
    node use the network and the shared objects, too. *)
Inductive flow : Channel → Channel → Prop :=
  | flow_write c data n tx' :
      bytes_ok data → Sender.AddData data (tx c) = Ok (n, tx') →
      flow c (MkChannel tx' (rx c) (accepted c ++ take n data) (delivered c)
        (made c + (length (pending_packets tx'.1) - length (pending_packets (tx c).1))))
  | flow_ack c d a tx' :
      d ∈ on_wire (rx c).2 → decoded_ack (dg_bytes d) = Ok (true, a) →
      Sender.HandleAck a (tx c) = Ok (tt, tx') →
      flow c (MkChannel tx' (rx c) (accepted c) (delivered c) (made c))
  | flow_negative_ack c n tx' :
      Sender.HandleNegativeAck n (tx c) = Ok (tt, tx') →
      flow c (MkChannel tx' (rx c) (accepted c) (delivered c) (made c))
  | flow_sender_tick c tx' :
      Sender.HandleTick (tx c) = Ok (tt, tx') →
      flow c (MkChannel tx' (rx c) (accepted c) (delivered c) (made c))
  | flow_data c d p rx' :
      d ∈ on_wire (tx c).2 → DataPacket.Decode (dg_bytes d) DataPacket.new = Ok (true, p) →
      Receiver.HandleData p (rx c) = Ok (tt, rx') →
      flow c (MkChannel (tx c) rx' (accepted c) (delivered c) (made c))
  | flow_read c size bytes rx' :
      Receiver.ReadData size (rx c) = Ok (bytes, rx') →
      flow c (MkChannel (tx c) rx' (accepted c) (delivered c ++ bytes) (made c))
  | flow_ack_of_ack c p rx' :
      is_u32 (AckOfAckPacket.AckSequenceNumber p) →
      Receiver.HandleAckOfAck p (rx c) = Ok (tt, rx') →
      flow c (MkChannel (tx c) rx' (accepted c) (delivered c) (made c))
  | flow_receiver_tick c rx' :
      Receiver.HandleTick (rx c) = Ok (tt, rx') →
      flow c (MkChannel (tx c) rx' (accepted c) (delivered c) (made c))
  | flow_sender_node c sh' new :
      Sender.shared_ok sh' → on_wire sh' = new ++ on_wire (tx c).2 → no_data new →
      flow c (MkChannel ((tx c).1, sh') (rx c) (accepted c) (delivered c) (made c))
  | flow_receiver_node c sh' new :
      Receiver.shared_ok sh' → on_wire sh' = new ++ on_wire (rx c).2 → no_acks new →
      flow c (MkChannel (tx c) ((rx c).1, sh') (accepted c) (delivered c) (made c)).

(** The windows agree on the first number, as after a handshake. *)
Definition connected (c : Channel) : Prop :=
  Sender.unacked_packets_ (tx c).1 = new_window base ∧
  Receiver.unread_packets_ (rx c).1 = new_window base ∧ Receiver.acks_ok (Receiver.acks_ (rx c).1) ∧
  Sender.shared_ok (tx c).2 ∧ Receiver.shared_ok (rx c).2 ∧
  no_data (on_wire (tx c).2) ∧ no_acks (on_wire (rx c).2) ∧
  accepted c = [] ∧ delivered c = [] ∧ made c = 0%nat.

Inductive flows : Channel → Prop :=
  | flows_start c : connected c → flows c
  | flows_step c c' : flows c → flow c c' → flows c'.

(** The invariant, for some way of cutting the bytes into packets. *)
Definition stream (c : Channel) : Prop :=
  ∃ chunks acked expected,
    sending chunks acked (tx c).1 ∧ receiving chunks expected (delivered c) (rx c).1 ∧
    (acked ≤ expected)%nat ∧ carries chunks (on_wire (tx c).2) ∧
    acknowledged expected (on_wire (rx c).2) ∧ Sender.shared_ok (tx c).2 ∧ Receiver.shared_ok (rx c).2 ∧
    accepted c = concat chunks ∧ made c = length chunks.

Lemma no_data_carries chunks sent : no_data sent → carries chunks sent.
Proof. intros Hn d p Hd E. by destruct (Hn d p). Qed.
Lemma no_acks_acknowledged expected sent : no_acks sent → acknowledged expected sent.
Proof. intros Hn d a Hd E. by destruct (Hn d a). Qed.
Lemma acknowledged_app expected sent sent' :
  acknowledged expected sent → acknowledged expected sent' → acknowledged expected (sent ++ sent').
Proof. intros H1 H2 d a [Hd|Hd]%elem_of_app; [by apply H1|by apply H2]. Qed.

Lemma stream_connected c : is_seq base → connected c → stream c.
Proof.
  intros Hb (Etx&Erx&Hacks&Hsh&Hsh'&Hd&Ha&Eacc&Edel&Em). exists [], 0%nat, 0%nat.
  assert (num 0 = base) as E0 by by apply seq_add_0.
  split; [|split; [|split; [done|split; [by apply no_data_carries|split; [by apply no_acks_acknowledged|]]]]].
  - split; [|by rewrite Etx|done|by rewrite Etx]. split; [rewrite Etx; by apply wf_new_window|].
    intros i u. by rewrite Etx.
  - split; [|done| |].
    + split; [rewrite Erx; by apply wf_new_window|done].
    + unfold Receiver.readable. by rewrite Erx, Edel.
    + exists 0%nat. rewrite Erx. cbn [new_window begin_ items_]. split; [done|]. by split.
  - by rewrite Em, Eacc.
Qed.

Lemma acknowledged_ack expected ep a :
  AckPacket.wf a → AckPacket.HasOptionalFields a = true → AckPacket.PacketSequenceNumber a = num expected →
  acknowledged expected [Datagram _ ep (wire_bytes a)].
Proof.
  intros Hwf Hopt En d a' ->%list_elem_of_singleton E. exists expected. split; [done|].
  unfold decoded_ack in E. change AckPacket.new with (Ok AckPacket.init) in E. rewrite Res_bind_ok in E.
  cbn [dg_bytes] in E. unfold wire_bytes in E. cbn [wire_size wire_put ack_wire] in E.
  rewrite AckPacket.ack_Decode_put in E; [by injection E as <-|done| |].
  - intros Hno. unfold AckPacket.HasOptionalFields in Hopt. congruence.
  - apply send_buffer_fits. unfold AckPacket.size. case_match; lia.
Qed.

Lemma after_ack_carries chunks a sh :
  AckPacket.wf a → is_u32 (peer_id (sh_peer sh)) → carries chunks (on_wire sh) →
  carries chunks (on_wire (Sender.after_ack a sh)).
Proof.
  intros (Hb&_) Hp Hc.
  change (on_wire (Sender.after_ack a sh)) with
    ([Datagram _ (peer_endpoint (sh_peer sh)) (wire_bytes (Sender.ack_of_ack_for a sh))] ++ on_wire sh).
  apply carries_app; [|done].
  eapply (carries_control _ (AckOfAckPacket.base (Sender.ack_of_ack_for a sh))).
  - destruct Hb as (_&Ha&_). split; [by split|]. split; [exact Ha|]. split; [by split|exact Hp].
  - cbn [dg_bytes]. unfold wire_bytes. cbn [wire_size wire_put ack_of_ack_wire].
    apply AckOfAckPacket.ack_of_ack_has_base_put. unfold send_buffer, RudpParameters.max_size. rewrite length_replicate. lia.
Qed.

Lemma ack_fields a : AckPacket.wf a → Sender.ack_fields_ok a.
Proof. by intros (_&_&[? _]&?&?&?&_). Qed.

(** *** The sender's steps *)

Lemma stream_sender c acked' chunks expected s' sh' :
  sending chunks acked' s' → receiving chunks expected (delivered c) (rx c).1 → (acked' ≤ expected)%nat →
  carries chunks (on_wire sh') → acknowledged expected (on_wire (rx c).2) →
  Sender.shared_ok sh' → Receiver.shared_ok (rx c).2 → 
  ∀ acc m, acc = concat chunks → m = length chunks →
  stream (MkChannel (s', sh') (rx c) acc (delivered c) m).
Proof. intros. by exists chunks, acked', expected. Qed.

Lemma stream_write c data n tx' :
  stream c → bytes_ok data → Sender.AddData data (tx c) = Ok (n, tx') →
  stream (MkChannel tx' (rx c) (accepted c ++ take n data) (delivered c)
    (made c + (length (pending_packets tx'.1) - length (pending_packets (tx c).1)))).
Proof.
  intros (chunks&acked&expected&Hs&Hr&Hle&Hc&Ha&Hsh&Hsh'&Eacc&Em) Hdata E.
  destruct (tx c) as [s sh] eqn:Etx. cbn [fst snd] in *.
  assert (wp (Sender.AddData data) (s, sh) (λ n st, n = length (concat (Sender.add_data_chunks s sh data)) ∧
    st = Sender.do_send_result (Sender.added s sh data) sh)) as Hw by by apply Sender.wp_AddData; [apply Hs|..].
  apply (wp_det _ _ _ _ _ E) in Hw as [-> ->].
  destruct (sending_AddData chunks acked s sh data Hs Hsh Hdata Hc) as (Hs'&Hc'&Ecc&Ep).
  destruct (Sender.add_data_chunks_ok s sh data Hsh Hdata) as (_&_&Ecat).
  set (more := Sender.add_data_chunks s sh data) in *. set (st := Sender.do_send_result _ _) in *.
  rewrite (surjective_pairing st). eapply stream_sender; [exact Hs'|by apply receiving_more|done|done|done| |done|..].
  - unfold Sender.shared_ok. rewrite Ecc, Ep. exact Hsh.
  - rewrite concat_app, Eacc. f_equal. rewrite Ecat, length_take.
    destruct (Nat.min_spec (Z.to_nat (SendWindowSize (sh_cc sh) - Size (Sender.unacked_packets_ s)) *
      Z.to_nat (SendDataSize (sh_cc sh))) (length data)) as [[_ ->]|[Hl ->]]; [done|].
    by rewrite !take_ge by lia.
  - unfold pending_packets. cbn [fst]. rewrite (sending_data _ _ _ Hs'), (sending_data _ _ _ Hs), !length_drop.
    rewrite length_app, Em. pose proof (sending_acked _ _ _ Hs). lia.
Qed.

Lemma stream_ack c d a tx' :
  stream c → few (made c) → d ∈ on_wire (rx c).2 → decoded_ack (dg_bytes d) = Ok (true, a) →
  Sender.HandleAck a (tx c) = Ok (tt, tx') →
  stream (MkChannel tx' (rx c) (accepted c) (delivered c) (made c)).
Proof.
  intros (chunks&acked&expected&Hs&Hr&Hle&Hc&Ha&Hsh&Hsh'&Eacc&Em) Hfew Hd Ed E.
  destruct (tx c) as [s sh] eqn:Etx. cbn [fst snd] in *.
  destruct (Ha d a Hd Ed) as (j&Hj&Ej&Hwf). pose proof (receiving_expected _ _ _ _ Hr).
  assert (wp (Sender.HandleAck a) (s, sh) (λ _ st, st = Sender.handle_ack_result a s sh)) as Hw.
  { apply Sender.wp_HandleAck; [apply Hs|rewrite Ej; apply num_is_seq|done]. }
  apply (wp_det _ _ _ _ _ E) in Hw as ->.
  destruct (sending_HandleAck chunks acked s sh a j Hs) as ((acked'&Hacked&Hs')&Hc'&Ecc&Ep);
    [by rewrite <-Em|apply after_ack_carries; [done|apply Hsh|done]|done|lia|].
  rewrite (surjective_pairing (Sender.handle_ack_result a s sh)).
  eapply stream_sender; [exact Hs'|exact Hr|destruct Hacked; lia|done|done| |done..].
  unfold Sender.shared_ok. rewrite Ecc, Ep.
  pose proof (Sender.after_ack_ok a sh (ack_fields a Hwf) Hsh) as [? ?]. by split.
Qed.

Lemma stream_negative_ack c n tx' :
  stream c → Sender.HandleNegativeAck n (tx c) = Ok (tt, tx') →
  stream (MkChannel tx' (rx c) (accepted c) (delivered c) (made c)).
Proof.
  intros (chunks&acked&expected&Hs&Hr&Hle&Hc&Ha&Hsh&Hsh'&Eacc&Em) E.
  destruct (tx c) as [s sh] eqn:Etx. cbn [fst snd] in *.
  assert (wp (Sender.HandleNegativeAck n) (s, sh) (λ _ st, st = Sender.handle_nack_result n s sh)) as Hw.
  { apply Sender.wp_HandleNegativeAck; [apply Hs|done]. }
  apply (wp_det _ _ _ _ _ E) in Hw as ->.
  destruct (sending_marked chunks acked s sh _ (Sender.nack_hit_frame n) Hs Hc Hsh) as (?&?&?).
  unfold Sender.handle_nack_result. cbv zeta. rewrite (surjective_pairing (Sender.do_send_result _ _)).
  by eapply stream_sender.
Qed.

Lemma stream_sender_tick c tx' :
  stream c → Sender.HandleTick (tx c) = Ok (tt, tx') →
  stream (MkChannel tx' (rx c) (accepted c) (delivered c) (made c)).
Proof.
  intros (chunks&acked&expected&Hs&Hr&Hle&Hc&Ha&Hsh&Hsh'&Eacc&Em) E.
  destruct (tx c) as [s sh] eqn:Etx. cbn [fst snd] in *.
  assert (wp Sender.HandleTick (s, sh) (λ _ st, st = Sender.handle_tick_result s sh)) as Hw.
  { apply Sender.sender_wp_HandleTick; [apply Hs|done]. }
  apply (wp_det _ _ _ _ _ E) in Hw as ->. unfold Sender.handle_tick_result. cbv zeta.
  destruct (ptime_leb _ _).
  - assert (sending chunks acked (Sender.set_send_timeout pos_infin s)) as Hs1 by (by destruct Hs; split).
    destruct (sending_marked chunks acked _ (with_world (tick (sh_world sh)) sh) _ Sender.timeout_hit_frame Hs1 Hc Hsh) as (?&?&?).
    rewrite (surjective_pairing (Sender.do_send_result _ _)). by eapply stream_sender.
  - destruct (sending_DoSend chunks acked s (with_world (tick (sh_world sh)) sh) Hs Hc) as (?&?&Ecc&Ep).
    rewrite (surjective_pairing (Sender.do_send_result _ _)). eapply stream_sender; try done.
    unfold Sender.shared_ok. by rewrite Ecc, Ep.
Qed.

(** *** The receiver's steps *)

Lemma stream_receiver c chunks acked expected' r' sh' delivered' :
  sending chunks acked (tx c).1 → receiving chunks expected' delivered' r' → (acked ≤ expected')%nat →
  carries chunks (on_wire (tx c).2) → acknowledged expected' (on_wire sh') →
  Sender.shared_ok (tx c).2 → Receiver.shared_ok sh' →
  accepted c = concat chunks → made c = length chunks →
  stream (MkChannel (tx c) (r', sh') (accepted c) delivered' (made c)).
Proof. intros. by exists chunks, acked, expected'. Qed.

Lemma stream_data c d p rx' :
  stream c → few (made c) → d ∈ on_wire (tx c).2 →
  DataPacket.Decode (dg_bytes d) DataPacket.new = Ok (true, p) →
  Receiver.HandleData p (rx c) = Ok (tt, rx') →
  stream (MkChannel (tx c) rx' (accepted c) (delivered c) (made c)).
Proof.
  intros (chunks&acked&expected&Hs&Hr&Hle&Hc&Ha&Hsh&Hsh'&Eacc&Em) Hfew Hd Ed E.
  destruct (rx c) as [r sh] eqn:Erx. cbn [fst snd] in *. destruct (Hc d p Hd Ed) as (j&Ej&Ec).
  assert (wp (Receiver.HandleData p) (r, sh) (λ _ st, st.1 = Receiver.handle_data_result p r sh ∧
    Receiver.frame sh st.2)) as Hw.
  { apply Receiver.wp_HandleData; [apply Hr|rewrite Ej; apply num_is_seq|apply Hsh'|].
    intros sh' Hf. by split. }
  apply (wp_det _ _ _ _ _ E) in Hw as [Er Hf]. destruct rx' as [r' sh']. cbn [fst snd] in Er, Hf. subst r'.
  destruct (receiving_HandleData chunks expected (delivered c) r sh p j Hr) as (expected'&He&Hr'&_);
    [by rewrite <-Em|apply Hsh'|done|done|].
  eapply stream_receiver; [exact Hs|exact Hr'|lia|done| |done| |done|done].
  - unfold on_wire. rewrite (proj1 (proj2 Hf)). by eapply acknowledged_more.
  - by eapply Receiver.frame_shared_ok.
Qed.

Lemma stream_read c size bytes rx' :
  stream c → Receiver.ReadData size (rx c) = Ok (bytes, rx') →
  stream (MkChannel (tx c) rx' (accepted c) (delivered c ++ bytes) (made c)).
Proof.
  intros (chunks&acked&expected&Hs&Hr&Hle&Hc&Ha&Hsh&Hsh'&Eacc&Em) E.
  destruct (rx c) as [r sh] eqn:Erx. cbn [fst snd] in *.
  assert (wp (Receiver.ReadData size) (r, sh) (λ out st,
    out = (Receiver.read_result size r).1 ∧ st = ((Receiver.read_result size r).2, sh))) as Hw.
  { apply Receiver.wp_ReadData; [apply Hr|done]. }
  apply (wp_det _ _ _ _ _ E) in Hw as [-> ->].
  eapply stream_receiver; [exact Hs|by apply receiving_ReadData|exact Hle|done..].
Qed.

Lemma stream_ack_of_ack c p rx' :
  stream c → is_u32 (AckOfAckPacket.AckSequenceNumber p) →
  Receiver.HandleAckOfAck p (rx c) = Ok (tt, rx') →
  stream (MkChannel (tx c) rx' (accepted c) (delivered c) (made c)).
Proof.
  intros (chunks&acked&expected&Hs&Hr&Hle&Hc&Ha&Hsh&Hsh'&Eacc&Em) Hp E.
  destruct (rx c) as [r sh] eqn:Erx. cbn [fst snd] in *.
  assert (wp (Receiver.HandleAckOfAck p) (r, sh) (λ _ st, ∃ w, Receiver.acks_ok w ∧
    st.1 = Receiver.set_acks w r ∧ Receiver.frame sh st.2)) as Hw.
  { apply Receiver.wp_HandleAckOfAck; [apply Hr|apply Hsh'|apply Hp|]. intros w sh' Hw Hf _. by exists w. }
  apply (wp_det _ _ _ _ _ E) in Hw as (w&Hw&Er&Hf). destruct rx' as [r' sh']. cbn [fst snd] in Er, Hf. subst r'.
  eapply stream_receiver; [exact Hs| |exact Hle|done| |done| |done|done].
  - destruct Hr as [[Hwf _] H1 H2 H3]. split; [by split|exact H1|exact H2|exact H3].
  - unfold on_wire. by rewrite (proj1 (proj2 Hf)).
  - by eapply Receiver.frame_shared_ok.
Qed.

(** A negative acknowledgement is no acknowledgement. *)
Lemma nack_no_ack r sh N expected :
  wf (Receiver.unread_packets_ r) → is_u32 (peer_id (sh_peer sh)) →
  Receiver.reports r (peer_id (sh_peer sh)) (length (items_ (Receiver.unread_packets_ r))) N →
  acknowledged expected (Receiver.nack_sent N sh).
Proof.
  intros Hwf Hp Hrep. pose proof (Receiver.nack_fits _ _ _ Hwf Hrep) as Hfit.
  destruct Hrep as (es&EN&_). unfold Receiver.nack_sent.
  destruct (NegativeAckPacket.HasSequenceNumbers N); [|by intros d a ?%elem_of_nil].
  intros d a ->%list_elem_of_singleton E%ack_starts. exfalso.
  assert (starts_as (Some NegativeAckPacket.kPacketType) (wire_bytes N)) as Hn.
  { subst N. eapply (base_starts (Receiver.nack_base (peer_id (sh_peer sh)))).
    - split; [by split|]. split; [by split|]. split; [by split|exact Hp].
    - apply (NegativeAckPacket.nack_has_base_put (NegativeAckPacket.Mk _ _)). unfold send_buffer.
      rewrite length_replicate. exact Hfit. }
  pose proof (starts_same _ _ _ E Hn) as Ht. vm_compute in Ht. discriminate Ht.
Qed.

Lemma stream_receiver_tick c rx' :
  stream c → Receiver.HandleTick (rx c) = Ok (tt, rx') →
  stream (MkChannel (tx c) rx' (accepted c) (delivered c) (made c)).
Proof.
  intros (chunks&acked&expected&Hs&Hr&Hle&Hc&Ha&Hsh&Hsh'&Eacc&Em) E.
  destruct (rx c) as [r sh] eqn:Erx. cbn [fst snd] in *.
  pose proof (Receiver.receiver_wp_HandleTick r sh (receiving_ok _ _ _ _ Hr) Hsh') as Hw.
  apply (wp_det _ _ _ _ _ E) in Hw as (Hok'&Hshared&_&(l&Ew&Es)&N&acks&Hrep&Esent&Hacks).
  destruct rx' as [r' sh']. cbn [fst snd] in *.
  eapply stream_receiver; [exact Hs| |exact Hle|done| |done|exact Hshared|done|done].
  - eapply (receiving_same _ _ _ r r' l); [done|done| |done]. by rewrite Ew.
  - unfold on_wire. rewrite Esent. apply acknowledged_app.
    { eapply nack_no_ack; [apply Hr|apply Hsh'|exact Hrep]. }
    apply acknowledged_app; [|exact Ha]. destruct Hacks as [->|(p&Hwf&Ep&Hopt&->)].
    + by intros d a ?%elem_of_nil.
    + apply acknowledged_ack; [done|done|]. rewrite Ep. by eapply receiving_next.
Qed.

Lemma stream_flow c c' : stream c → few (made c) → flow c c' → stream c'.
Proof.
  intros Hst Hfew Hf. destruct Hf as [c data n tx' Hd E|c d a tx' Hd Ed E|c n tx' E|c tx' E
    |c d p rx' Hd Ed E|c size bytes rx' E|c p rx' Hp E|c rx' E|c sh' new Hsh Ew Hn|c sh' new Hsh Ew Hn].
  - by apply stream_write.
  - by eapply stream_ack.
  - by eapply stream_negative_ack.
  - by apply stream_sender_tick.
  - by eapply stream_data.
  - by eapply stream_read.
  - by eapply stream_ack_of_ack.
  - by apply stream_receiver_tick.
  - destruct Hst as (chunks&acked&expected&Hs&Hr&Hle&Hc&Ha&_&Hsh'&Eacc&Em).
    eapply stream_sender; [exact Hs|exact Hr|done| |done|done|done|done|done].
    rewrite Ew. apply carries_app; [by apply no_data_carries|done].
  - destruct Hst as (chunks&acked&expected&Hs&Hr&Hle&Hc&Ha&Hsh'&_&Eacc&Em).
    destruct (rx c) as [r sh0] eqn:Erx.
    eapply stream_receiver; [exact Hs|exact Hr|exact Hle|done| |done|done|done|done].
    rewrite Ew. apply acknowledged_app; [by apply no_acks_acknowledged|done].
Qed.

Lemma flow_made c c' : flow c c' → (made c ≤ made c')%nat.
Proof. destruct 1; cbn [made]; lia. Qed.

Lemma stream_flows c : is_seq base → flows c → few (made c) → stream c.
Proof.
  intros Hb. induction 1 as [c Hc|c c' _ IH Hf]; intros Hfew; [by apply stream_connected|].
  pose proof (flow_made _ _ Hf). assert (few (made c)) as Hfew' by (unfold few in *; lia).
  by eapply stream_flow; [apply IH| |].
Qed.

(** C1: A stream over an unreliable network, as long as fewer than 2{^31} - 512 packets
    were made (after that many a late datagram can be taken for a new packet of the same
    number): whatever the two applications write and read and in what pieces, and
    whichever datagrams the network loses, repeats or delivers late, in any interleaving
    with ticks and with whatever else the nodes do: the bytes accepted are exactly the
    bytes delivered, followed by those that are readable at the receiver, followed by
    those of the packets in the sender's window but its first [arrived] ones, which the
    receiver has. Nothing is lost, repeated or reordered; in particular what is
    delivered is a prefix of what was accepted. *)
Theorem stream_reliable (c : Channel) :
  is_seq base → flows c → few (made c) →
  ∃ arrived, (arrived ≤ length (pending_packets (tx c).1))%nat ∧
    accepted c = delivered c ++ Receiver.readable (rx c).1 ++
      concat (drop arrived (pending_packets (tx c).1)).
Proof.
  intros Hb Hf Hfew. destruct (stream_flows c Hb Hf Hfew) as
    (chunks&acked&expected&Hs&Hr&Hle&_&_&_&_&Eacc&_).
  pose proof (receiving_expected _ _ _ _ Hr). pose proof (sending_acked _ _ _ Hs).
  exists (expected - acked)%nat. unfold pending_packets. rewrite (sending_data _ _ _ Hs), length_drop.
  split; [lia|]. rewrite drop_drop. replace (acked + (expected - acked))%nat with expected by lia.
  by rewrite app_assoc, (receiving_bytes _ _ _ _ Hr), <-concat_app, take_drop.
Qed.

Lemma take_take_diff {A} (l : list A) n m : (n ≤ m)%nat → take m l = take n l ++ take (m - n) (drop n l).
Proof. intros. rewrite take_take_drop. f_equal. lia. Qed.

(** The packet that a receiver waits for is never given up: of a stream of fewer
    than 2{^31} - 512 packets, as long as not every accepted byte arrived and the
    receiver has room, the packet with the number that the receiver expects is in the
    sender's window, unchanged; its datagram decodes to it; and if a copy of it arrives,
    the receiver accepts it, and more of the accepted bytes, in their order, become
    readable. (Whether a copy arrives is up to the network and to the retransmissions of
    the sender, which is not sure to send a packet a third time, see
    [lost_packet_sent_twice_only].) *)
Theorem stream_progress (c : Channel) :
  is_seq base → flows c → few (made c) →
  accepted c ≠ delivered c ++ Receiver.readable (rx c).1 →
  Z.of_nat (length (Receiver.arrived (items_ (Receiver.unread_packets_ (rx c).1)))) <
    ReceiveWindowSize (sh_cc (rx c).2) `min` 512 →
  ∃ u, u ∈ items_ (Sender.unacked_packets_ (tx c).1) ∧
    DataPacket.PacketSequenceNumber (Sender.packet u) = Receiver.next_expected (rx c).1 ∧
    DataPacket.Decode (wire_bytes (Sender.packet u)) DataPacket.new = Ok (true, Sender.packet u) ∧
    ∃ r' sh' more, Receiver.HandleData (Sender.packet u) (rx c) = Ok (tt, (r', sh')) ∧
      more ≠ [] ∧ Receiver.readable r' = Receiver.readable (rx c).1 ++ more ∧
      (delivered c ++ Receiver.readable r') `prefix_of` accepted c.
Proof.
  intros Hb Hf Hfew Hmissing Hroom. destruct (stream_flows c Hb Hf Hfew) as
    (chunks&acked&expected&Hs&Hr&Hle&_&_&_&Hsh&Eacc&Em).
  destruct (rx c) as [r sh] eqn:Erx. cbn [fst snd] in *.
  pose proof (receiving_expected _ _ _ _ Hr) as Hexp. pose proof (receiving_bytes _ _ _ _ Hr) as Hbytes.
  rewrite Hbytes, Eacc in Hmissing.
  assert (expected < length chunks)%nat as Hlt.
  { destruct (decide (expected = length chunks)) as [->|]; [by rewrite firstn_all in Hmissing|lia]. }
  destruct (lookup_lt_is_Some_2 chunks expected Hlt) as [d Ed].
  assert (pending_packets (tx c).1 !! (expected - acked)%nat = Some d) as Eu.
  { unfold pending_packets. rewrite (sending_data _ _ _ Hs), lookup_drop, <-Ed. f_equal. lia. }
  unfold pending_packets in Eu. rewrite list_lookup_fmap in Eu.
  apply fmap_Some_1 in Eu as (u&Eu&->). exists u. split; [by eapply list_elem_of_lookup_2|].
  pose proof (proj2 (sending_ok _ _ _ Hs) _ _ Eu) as Hu.
  assert (DataPacket.PacketSequenceNumber (Sender.packet u) = num expected) as En.
  { destruct Hu as (_&->&_). rewrite (sending_begin _ _ _ Hs), num_add. f_equal. lia. }
  split; [rewrite En; symmetry; by eapply receiving_next|].
  split; [by eapply packet_arrives|].
  destruct (receiving_HandleData chunks expected (delivered c) r sh (Sender.packet u) expected Hr)
    as (expected'&Hle'&Hr'&Hmore); [by rewrite <-Em|apply Hsh|done|done|].
  specialize (Hmore eq_refl Hroom). pose proof (receiving_bytes _ _ _ _ Hr') as Hbytes'.
  assert (wp (Receiver.HandleData (Sender.packet u)) (r, sh)
    (λ _ st, st.1 = Receiver.handle_data_result (Sender.packet u) r sh)) as Hw.
  { apply Receiver.wp_HandleData; [apply Hr|rewrite En; apply num_is_seq|apply Hsh|]. by intros. }
  apply wp_Ok in Hw as ([]&[r' sh']&E&Er'). cbn [fst] in Er'. rewrite <-Er' in Hbytes'.
  exists r', sh', (concat (take (expected' - expected) (drop expected chunks))).
  split; [exact E|]. split; [|split].
  - rewrite (drop_S chunks _ _ Ed). destruct (expected' - expected)%nat as [|k] eqn:Ek; [lia|].
    cbn [take concat]. intros [En' _]%app_nil. destruct Hu as (_&_&Hlen). cbn in En'.
    rewrite En' in Hlen. cbn in Hlen. lia.
  - apply (app_inv_head (delivered c)). rewrite Hbytes', app_assoc, Hbytes, <-concat_app.
    f_equal. by apply take_take_diff.
  - rewrite Hbytes', Eacc. exists (concat (drop expected' chunks)).
    by rewrite <-concat_app, take_drop.
Qed.
End stream.

Module StreamExamples.
Import Demo.

Definition node : Shared := shared_at 2 9.
Definition begun : Channel :=
  MkChannel (Sender.MkSender (new_window 0x7fffffff) not_a_date_time, node)
    (Receiver.ReceiverExamples.start, node) [] [] 0.

Definition node_after {X A} (st : X * Shared) (r : Res (A * (X * Shared))) : X * Shared :=
  match r with Ok x => x.2 | Fault _ => st end.
Definition datagram_at (k : nat) (sh : Shared) : datagram :=
  from_option id (Datagram _ endpoint_none []) (on_wire sh !! k).

(** Two writes, the second packet comes first and twice. *)
Definition tx1 := node_after (tx begun) (Sender.AddData [1; 2; 3] (tx begun)).
Definition tx2 := node_after tx1 (Sender.AddData [4; 5] tx1).
Definition packet_of (k : nat) : DataPacket.t :=
  (from_ok (false, DataPacket.new) (DataPacket.Decode (dg_bytes (datagram_at k tx2.2)) DataPacket.new)).2.
Definition rx1 := node_after (rx begun) (Receiver.HandleData (packet_of 0) (rx begun)).
Definition rx2 := node_after rx1 (Receiver.HandleData (packet_of 0) rx1).
Definition rx3 := node_after rx2 (Receiver.HandleData (packet_of 1) rx2).
Definition rx4 := node_after rx3 (Receiver.ReadData 4 rx3).

Definition gap : Channel := MkChannel tx2 rx2 [1; 2; 3; 4; 5] [] 2.
Definition read_on : Channel := MkChannel tx2 rx4 [1; 2; 3; 4; 5] [1; 2; 3; 4] 2.

Lemma node_after_eq {X A} (st st' : X * Shared) (r : Res (A * (X * Shared))) a :
  st' = node_after st r → (match r with Ok x => Some x.1 | Fault _ => None end) = Some a → r = Ok (a, st').
Proof. intros ->. destruct r as [[b x]|]; [|done]. cbn. by intros [= ->]. Qed.

Lemma run_tx1 : Sender.AddData [1; 2; 3] (tx begun) = Ok (3%nat, tx1).
Proof. apply (node_after_eq (tx begun)); [unfold tx1; reflexivity|vm_compute; reflexivity]. Qed.
Lemma run_tx2 : Sender.AddData [4; 5] tx1 = Ok (2%nat, tx2).
Proof. apply (node_after_eq tx1); [unfold tx2; reflexivity|vm_compute; reflexivity]. Qed.
Lemma run_rx1 : Receiver.HandleData (packet_of 0) (rx begun) = Ok (tt, rx1).
Proof. apply (node_after_eq (rx begun)); [unfold rx1; reflexivity|vm_compute; reflexivity]. Qed.
Lemma run_rx2 : Receiver.HandleData (packet_of 0) rx1 = Ok (tt, rx2).
Proof. apply (node_after_eq rx1); [unfold rx2; reflexivity|vm_compute; reflexivity]. Qed.
Lemma run_rx3 : Receiver.HandleData (packet_of 1) rx2 = Ok (tt, rx3).
Proof. apply (node_after_eq rx2); [unfold rx3; reflexivity|vm_compute; reflexivity]. Qed.
Lemma run_rx4 : Receiver.ReadData 4 rx3 = Ok ([1; 2; 3; 4], rx4).
Proof. apply (node_after_eq rx3); [unfold rx4; reflexivity|vm_compute; reflexivity]. Qed.

(** The datagrams are on the wire, and hold these packets. *)
Lemma on_the_wire k : (k < 2)%nat →
  datagram_at k tx2.2 ∈ on_wire tx2.2 ∧
  DataPacket.Decode (dg_bytes (datagram_at k tx2.2)) DataPacket.new = Ok (true, packet_of k).
Proof.
  intros Hk. split.
  - apply list_elem_of_lookup. exists k. destruct k as [|[|k]]; [vm_compute; reflexivity|vm_compute; reflexivity|lia].
  - destruct k as [|[|k]]; [vm_compute; reflexivity|vm_compute; reflexivity|lia].
Qed.

Lemma begun_connected : connected 0x7fffffff begun.
Proof.
  split; [reflexivity|]. split; [reflexivity|].
  split; [exact (proj2 Receiver.ReceiverExamples.receiver_start_ok)|].
  split; [exact Receiver.ReceiverExamples.sh0_ok|]. split; [exact Receiver.ReceiverExamples.sh0_ok|].
  split; [by intros d p ?%elem_of_nil|]. split; [by intros d p ?%elem_of_nil|]. done.
Qed.

(** Steps, with the state spelt out. *)
Lemma flows_written base t t' r acc del m m' data n :
  flows base (MkChannel t r acc del m) → bytes_ok data → Sender.AddData data t = Ok (n, t') →
  (m + (length (pending_packets t'.1) - length (pending_packets t.1)))%nat = m' →
  flows base (MkChannel t' r (acc ++ take n data) del m').
Proof. intros Hf Hd E <-. exact (flows_step _ _ _ Hf (flow_write (MkChannel t r acc del m) data n t' Hd E)). Qed.
Lemma flows_arrived base t r r' acc del m d p :
  flows base (MkChannel t r acc del m) → d ∈ on_wire t.2 →
  DataPacket.Decode (dg_bytes d) DataPacket.new = Ok (true, p) →
  Receiver.HandleData p r = Ok (tt, r') → flows base (MkChannel t r' acc del m).
Proof. intros Hf Hd Ed E. exact (flows_step _ _ _ Hf (flow_data (MkChannel t r acc del m) d p r' Hd Ed E)). Qed.
Lemma flows_read base t r r' acc del m size bytes :
  flows base (MkChannel t r acc del m) → Receiver.ReadData size r = Ok (bytes, r') →
  flows base (MkChannel t r' acc (del ++ bytes) m).
Proof. intros Hf E. exact (flows_step _ _ _ Hf (flow_read (MkChannel t r acc del m) size bytes r' E)). Qed.

Lemma gap_flows : flows 0x7fffffff gap.
Proof.
  assert (bytes_ok [1; 2; 3] ∧ bytes_ok [4; 5]) as [B1 B2]
    by (split; repeat (constructor; [by split; vm_compute|]); constructor).
  destruct (on_the_wire 0 ltac:(lia)) as [D0 P0].
  apply (flows_arrived _ tx2 rx1 rx2 [1; 2; 3; 4; 5] [] 2 (datagram_at 0 tx2.2) (packet_of 0)); [|exact D0|exact P0|exact run_rx2].
  apply (flows_arrived _ tx2 (rx begun) rx1 [1; 2; 3; 4; 5] [] 2 (datagram_at 0 tx2.2) (packet_of 0)); [|exact D0|exact P0|exact run_rx1].
  apply (flows_written _ tx1 tx2 (rx begun) [1; 2; 3] [] 1 2 [4; 5] 2); [|exact B2|exact run_tx2|vm_compute; reflexivity].
  apply (flows_written _ (tx begun) tx1 (rx begun) [] [] 0 1 [1; 2; 3] 3); [|exact B1|exact run_tx1|vm_compute; reflexivity].
  exact (flows_start _ _ begun_connected).
Qed.

Lemma read_on_flows : flows 0x7fffffff read_on.
Proof.
  destruct (on_the_wire 1 ltac:(lia)) as [D1 P1].
  apply (flows_read _ tx2 rx3 rx4 [1; 2; 3; 4; 5] [] 2 4 [1; 2; 3; 4]); [|exact run_rx4].
  exact (flows_arrived _ tx2 rx2 rx3 [1; 2; 3; 4; 5] [] 2 _ _ gap_flows D1 P1 run_rx3).
Qed.

Lemma stream_reliable_witness :
  flows 0x7fffffff read_on ∧ Receiver.readable (rx read_on).1 = [5] ∧
  ∃ arrived, (arrived ≤ 2)%nat ∧
    accepted read_on = delivered read_on ++ Receiver.readable (rx read_on).1 ++
      concat (drop arrived (pending_packets (tx read_on).1)).
Proof.
  split; [exact read_on_flows|]. split; [vm_compute; reflexivity|].
  destruct (stream_reliable 0x7fffffff read_on) as (k&Hk&E);
    [by split; vm_compute|exact read_on_flows|by vm_compute|].
  exists k. split; [|exact E].
  replace (length (pending_packets (tx read_on).1)) with 2%nat in Hk by (vm_compute; reflexivity). exact Hk.
Defined.

Lemma stream_progress_witness :
  Receiver.readable (rx gap).1 = [] ∧
  ∃ u, u ∈ items_ (Sender.unacked_packets_ (tx gap).1) ∧
    ∃ r' sh' more, Receiver.HandleData (Sender.packet u) (rx gap) = Ok (tt, (r', sh')) ∧
      more ≠ [] ∧ Receiver.readable r' = Receiver.readable (rx gap).1 ++ more.
Proof.
  split; [vm_compute; reflexivity|].
  destruct (stream_progress 0x7fffffff gap) as (u&Hu&_&_&r'&sh'&more&E&Hm&Er&_).
  - by split; vm_compute.
  - exact gap_flows.
  - by vm_compute.
  - vm_compute. discriminate.
  - vm_compute. reflexivity.
  - exists u. split; [exact Hu|]. exists r', sh', more. exact (conj E (conj Hm Er)).
Defined.
End StreamExamples.
