(* ===== verification/Frames.v ===== *)
(** * What the operations of a socket leave alone

    A projection [f] of a socket's state that the components of the socket and
    the operations waiting on other timers do not reach ([Framed]) is the same
    after any operation made of them ([keeps]).  [Registration] and [Reading] are
    two such projections. *)

From S2P Require Import Prelude Environment Packet ControlPackets Transport SlidingWindow CongestionControl.
From S2P Require Import Shared Decoded Dispatcher Socket.
From S2P Require DataPacket HandshakePacket NegativeAckPacket Session Sender Receiver.

Section keeps.
Context `{Environment} {X : Type} (f : State → X).

Class Framed : Prop := {
  frame_shared sh s : f (with_shared sh s) = f s;
  frame_sender x (s : State) : f (set_sender x s.1, s.2) = f s;
  frame_receiver x (s : State) : f (set_receiver x s.1, s.2) = f s;
  frame_connect x (s : State) : f (set_connect x s.1, s.2) = f s;
  frame_write x (s : State) : f (set_write x s.1, s.2) = f s;
  frame_flush x (s : State) : f (set_flush x s.1, s.2) = f s;
  frame_sent_length x (s : State) : f (set_sent_length x s.1, s.2) = f s;
}.

Definition keeps {A} (m : M State A) : Prop := ∀ s a s', m s = Ok (a, s') → f s' = f s.

Lemma keeps_bind {A B} (m : M State A) (k : A → M State B) :
  keeps m → (∀ a, keeps (k a)) → keeps (m ≫= k).
Proof. intros Hm Hk s b s' (a&s1&E1%Hm&E2%Hk)%M_bind_inv. congruence. Qed.
Lemma keeps_ret {A} (a : A) : keeps (mret a).
Proof. by intros s b s' [= _ <-]. Qed.
Lemma keeps_when b m : keeps m → keeps (when b m).
Proof. destruct b; [done|intros _; apply keeps_ret]. Qed.
Lemma keeps_me {A} (g : Socket → A) : keeps (me g).
Proof. by intros s b s' [= _ <-]. Qed.
Lemma keeps_liftR {A} (r : Res A) : keeps (liftR r).
Proof. intros s b s'. unfold liftR. destruct r; [|done]. by intros [= _ <-]. Qed.

Context `{!Framed}.

Lemma keeps_upd_connect g : keeps (upd_connect g).
Proof. intros s a s' [= _ <-]. apply frame_connect. Qed.
Lemma keeps_upd_write g : keeps (upd_write g).
Proof. intros s a s' [= _ <-]. apply frame_write. Qed.
Lemma keeps_upd_flush g : keeps (upd_flush g).
Proof. intros s a s' [= _ <-]. apply frame_flush. Qed.
Lemma keeps_upd_sent n : keeps (upd (set_sent_length n)).
Proof. intros s a s' [= _ <-]. apply frame_sent_length. Qed.
Lemma keeps_in_shared {A} (m : M Shared A) : keeps (in_shared m).
Proof. intros s a s' (t&_&->)%zoom_inv. apply frame_shared. Qed.
Lemma keeps_in_sender {A} (m : M (Sender.Sender * Shared) A) : keeps (in_sender m).
Proof.
  intros s a s' (t&_&->)%zoom_inv. rewrite (frame_shared t.2 (set_sender t.1 s.1, s.2)).
  apply frame_sender.
Qed.
Lemma keeps_in_receiver {A} (m : M (Receiver.Receiver * Shared) A) : keeps (in_receiver m).
Proof.
  intros s a s' (t&_&->)%zoom_inv. rewrite (frame_shared t.2 (set_receiver t.1 s.1, s.2)).
  apply frame_receiver.
Qed.
End keeps.

Create HintDb frames.
#[export] Hint Extern 1 (Framed _) => typeclasses eauto : frames.
#[export] Hint Resolve keeps_bind keeps_ret keeps_when keeps_me keeps_liftR keeps_upd_connect
  keeps_upd_write keeps_upd_flush keeps_upd_sent keeps_in_shared keeps_in_sender
  keeps_in_receiver : frames.

Ltac keeps := repeat first
  [ solve [auto 2 with frames] | apply keeps_bind; [|intros ?] | apply keeps_when
  | match goal with |- keeps _ (let _ := _ in _) => cbv zeta end
  | match goal with |- keeps _ (if ?b then _ else _) => destruct b end ].

Section operations.
Context `{Environment} {X : Type} (f : State → X) `{!Framed f}.

Lemma keeps_ProcessWrite : keeps f ProcessWrite.
Proof. unfold ProcessWrite. keeps. Qed.
Lemma keeps_ProcessFlush : keeps f ProcessFlush.
Proof. unfold ProcessFlush. keeps. Qed.
#[local] Hint Resolve keeps_ProcessWrite keeps_ProcessFlush : frames.
Lemma keeps_AsyncWrite data : keeps f (AsyncWrite data).
Proof. unfold AsyncWrite, StartWrite. keeps. Qed.
Lemma keeps_AsyncFlush : keeps f AsyncFlush.
Proof. unfold AsyncFlush, StartFlush. keeps. Qed.
Lemma keeps_SentLength : keeps f SentLength.
Proof. unfold SentLength, assertb. keeps. all: by intros ???. Qed.
Lemma keeps_IsSlowTransmission n : keeps f (IsSlowTransmission n).
Proof. unfold IsSlowTransmission. keeps. Qed.
End operations.

#[export] Hint Resolve keeps_ProcessWrite keeps_ProcessFlush keeps_AsyncWrite keeps_AsyncFlush
  keeps_SentLength keeps_IsSlowTransmission : frames.

(** ** What a datagram can do *)

Section received.
Context `{Environment} `{!IpAddressLaws}.

(** The handler that took it, with what decoding guarantees. *)
Inductive received_as (s s' : State) : Prop :=
  | as_nothing : s' = s → received_as s s'
  | as_data p : is_u32 (DataPacket.PacketSequenceNumber p) →
      HandleData p s = Ok (tt, s') → received_as s s'
  | as_ack p : Sender.ack_fields_ok p → HandleAck p s = Ok (tt, s') → received_as s s'
  | as_ack_of_ack p : is_u32 (AckOfAckPacket.AckSequenceNumber p) →
      HandleAckOfAck p s = Ok (tt, s') → received_as s s'
  | as_negative_ack p : HandleNegativeAck p s = Ok (tt, s') → received_as s s'
  | as_handshake p : is_u32 (HandshakePacket.SocketId p) →
      HandleHandshake p s = Ok (tt, s') → received_as s s'
  | as_shutdown : Close s = Ok (tt, s') → received_as s s'.

Lemma HandleReceiveFrom_inv data ep s s' :
  bytes_ok data → HandleReceiveFrom data ep s = Ok (tt, s') → received_as s s'.
Proof.
  intros Hb E. apply M_bind_inv in E as (x&s1&[= <- <-]&E).
  destruct (bool_decide _); [|injection E as <-; by apply as_nothing]. cbn [when] in E.
  apply liftR_inv in E as ([[] p]&E1&E); cbn [fst snd] in E.
  { apply data_ranges in E1 as [[? ?] _]; [|done]. apply (as_data _ _ p); [split; [done|lia]|exact E]. }
  apply liftR_inv in E as (p1&[= <-]&E). apply liftR_inv in E as ([[] a1]&E2&E); cbn [fst snd] in E.
  { apply ack_ranges in E2 as ([? ?]&?&?&?); [|done|repeat split; by vm_compute].
    apply (as_ack _ _ a1); [by split_and!|exact E]. }
  apply liftR_inv in E as (p2&[= <-]&E). apply liftR_inv in E as ([[] a2]&E3&E); cbn [fst snd] in E.
  { apply (as_ack_of_ack _ _ a2); [|exact E].
    eapply ack_of_ack_ranges; [done| |exact E3]. split; by vm_compute. }
  apply liftR_inv in E as (p3&[= <-]&E). apply liftR_inv in E as ([[] a3]&E4&E); cbn [fst snd] in E;
    [by apply (as_negative_ack _ _ a3)|].
  apply liftR_inv in E as (p4&[= <-]&E). apply liftR_inv in E as ([[] h]&E5&E); cbn [fst snd] in E.
  { apply (as_handshake _ _ h); [|exact E].
    by eapply handshake_ranges in E5 as (?&?&?); [|done|repeat split; by vm_compute]. }
  apply liftR_inv in E as (p5&[= <-]&E). apply liftR_inv in E as ([[] a5]&E6&E);
    cbn [fst snd when] in E; [by apply as_shutdown|injection E as <-; by apply as_nothing].
Qed.

Lemma safe_ok {A} (m : M State A) s a s' : safe m → state_ok s → m s = Ok (a, s') → state_ok s'.
Proof. intros Hm Hs E. exact (wp_det _ _ _ _ (λ _, state_ok) E (Hm s Hs)). Qed.

Lemma Close_closes s a s' :
  Close s = Ok (a, s') → IsOpen s'.1 = false ∧
    s'.2.1 = (if IsOpen s.1 then RemoveSocket (Id s.1) s.2.1 else s.2.1).
Proof.
  destruct s as [s [d w]]. destruct (close_releases s d w) as (s1&d1&w1&E&Ho&Hd&_).
  intros E'. pose proof (eq_trans (eq_sym E) E') as E1. injection E1 as _ <-. by split.
Qed.

Lemma follows_open se se' :
  Session.follows se se' → Session.IsOpen se = true → Session.IsOpen se' = true.
Proof.
  intros (_&_&_&He&_). unfold Session.IsOpen, Session.is_state.
  by destruct (Session.mode_ se), (Session.state_ se), (Session.state_ se').
Qed.
End received.
