(* ===== verification/Registration.v ===== *)
(** * What the operations of a socket do to its registration

    Every operation of [Socket] but opening and closing leaves the socket's
    identifier, whether it is open, and the dispatcher alone ([same]); closing
    removes the socket from the dispatcher.  [Multiplexer] builds on this. *)

From S2P Require Import Prelude Environment Packet ControlPackets Transport SlidingWindow CongestionControl.
From S2P Require Import Shared Decoded Dispatcher Socket Frames.
From S2P Require DataPacket HandshakePacket NegativeAckPacket Session Sender Receiver.

Section registration.
Context `{Environment} `{!IpAddressLaws}.

Definition registration (s : State) : Z * bool * Dispatcher := (Id s.1, IsOpen s.1, s.2.1).

#[local] Instance registration_framed : Framed registration.
Proof. by split. Qed.

Definition same (s s' : State) : Prop :=
  Id s'.1 = Id s.1 ∧ IsOpen s'.1 = IsOpen s.1 ∧ s'.2.1 = s.2.1.

Lemma same_registration s s' : registration s' = registration s → same s s'.
Proof. unfold registration. by intros [= ?? ?]. Qed.

Definition closed_from (s s' : State) : Prop :=
  IsOpen s'.1 = false ∧
  s'.2.1 = (if IsOpen s.1 then RemoveSocket (Id s.1) s.2.1 else s.2.1).

Lemma same_trans s1 s2 s3 : same s1 s2 → same s2 s3 → same s1 s3.
Proof. intros (?&?&?) (?&?&?). split_and!; congruence. Qed.

(** [m] changes neither the identifier nor the dispatcher, and neither opens nor
    closes the socket. *)
Definition quiet {A} (m : M State A) : Prop := ∀ s a s', m s = Ok (a, s') → same s s'.

Lemma quiet_keeps {A} (m : M State A) : keeps registration m → quiet m.
Proof. intros Hm s a s' E%Hm. by apply same_registration. Qed.

Lemma keeps_upd_read g : keeps registration (upd_read g).
Proof. by intros s a s' [= _ <-]. Qed.
#[local] Hint Resolve keeps_upd_read : frames.

Lemma keeps_ProcessRead : keeps registration ProcessRead.
Proof. unfold ProcessRead. keeps. Qed.
#[local] Hint Resolve keeps_ProcessRead : frames.

Lemma quiet_in_shared {A} (m : M Shared A) : quiet (in_shared m).
Proof. apply quiet_keeps. keeps. Qed.
Lemma quiet_AsyncWrite data : quiet (AsyncWrite data).
Proof. apply quiet_keeps. keeps. Qed.
Lemma quiet_AsyncRead size n : quiet (AsyncRead size n).
Proof. apply quiet_keeps. unfold AsyncRead, StartRead. keeps. Qed.
Lemma quiet_AsyncFlush : quiet AsyncFlush.
Proof. apply quiet_keeps. keeps. Qed.
Lemma quiet_HandleData p : quiet (HandleData p).
Proof. apply quiet_keeps. unfold HandleData, if_connected. keeps. Qed.
Lemma quiet_HandleAck p : quiet (HandleAck p).
Proof. apply quiet_keeps. unfold HandleAck, if_connected. keeps. Qed.
Lemma quiet_HandleAckOfAck p : quiet (HandleAckOfAck p).
Proof. apply quiet_keeps. unfold HandleAckOfAck, if_connected. keeps. Qed.
Lemma quiet_HandleNegativeAck p : quiet (HandleNegativeAck p).
Proof. apply quiet_keeps. unfold HandleNegativeAck, if_connected. keeps. Qed.

(** The session's own steps need its invariant. *)
Lemma quiet_in_session e s a s' :
  state_ok s → IsOpen s.1 = true → Session.event_ok e → Session.EvClose ≠ e →
  in_session (Session.session_step e) s = Ok (a, s') → same s s'.
Proof.
  intros Hs Ho He Hne ([x sh]&E&->)%zoom_inv.
  pose proof (Session.wp_session_step e (session_ s.1) (shared_of s) (session_ok_inv s Hs) He Hne) as Hw.
  apply (wp_det _ _ _ _ _ E) in Hw as (_&Hf&_). cbn [fst snd] in Hf.
  unfold same, Id, IsOpen, Session.Id. cbn [fst snd with_shared set_shared session_ set_session].
  split_and!; [apply Hf| |done]. unfold IsOpen in Ho. rewrite Ho. by eapply follows_open.
Qed.

Lemma quiet_HandleHandshake p s s' :
  state_ok s → IsOpen s.1 = true → is_u32 (HandshakePacket.SocketId p) →
  HandleHandshake p s = Ok (tt, s') → same s s'.
Proof.
  intros Hs Ho Hp E. apply M_bind_inv in E as (x&s1&[= <- <-]&E). cbv zeta in E.
  apply M_bind_inv in E as ([]&s1&E1&E).
  apply (quiet_in_session (Session.EvHandshake p)) in E1; [|done..].
  eapply same_trans; [exact E1|]. revert E. apply quiet_keeps. keeps.
Qed.

Lemma quiet_HandleTick s s' :
  state_ok s → IsOpen s.1 = true → HandleTick s = Ok (tt, s') → same s s'.
Proof.
  intros Hs Ho E. apply M_bind_inv in E as (x&s1&[= <- <-]&E).
  unfold id in E. destruct (Session.IsConnected _).
  - revert E. apply quiet_keeps. keeps.
  - by apply (quiet_in_session Session.EvTick) in E.
Qed.

Lemma quiet_TickOp s a s' : state_ok s → TickOp s = Ok (a, s') → same s s'.
Proof.
  intros Hs E. apply M_bind_inv in E as (x&s1&[= <- <-]&E).
  unfold id in E. destruct (IsOpen s.1) eqn:Ho; [|by injection E as _ <-].
  apply M_bind_inv in E as (b&s1&E1&E).
  assert (state_ok s1) as Hs1 by (by eapply safe_ok; [apply safe_Expired|..]).
  apply quiet_in_shared in E1 as H1.
  apply M_bind_inv in E as ([]&s2&E2&E). injection E as _ <-.
  eapply same_trans; [exact H1|]. destruct b; [|by injection E2 as <-].
  cbn [when] in E2. apply M_bind_inv in E2 as ([]&s3&E3&E2).
  assert (same s1 s3) as H3 by (by apply quiet_in_shared in E3).
  eapply same_trans; [exact H3|]. eapply quiet_HandleTick; [| |exact E2].
  - by eapply safe_ok; [apply safe_ResetTimer|..].
  - destruct H1 as (_&H1&_), H3 as (_&H3&_). by rewrite H3, H1.
Qed.

Lemma received_registration data ep s s' :
  state_ok s → IsOpen s.1 = true → bytes_ok data →
  HandleReceiveFrom data ep s = Ok (tt, s') → same s s' ∨ closed_from s s'.
Proof.
  intros Hs Ho Hb [->|p ? E|p ? E|p ? E|p E|p ? E|E]%HandleReceiveFrom_inv; [..|done].
  - by left.
  - left. by eapply quiet_HandleData.
  - left. by eapply quiet_HandleAck.
  - left. by eapply quiet_HandleAckOfAck.
  - left. by eapply quiet_HandleNegativeAck.
  - left. by eapply quiet_HandleHandshake.
  - right. by eapply Close_closes.
Qed.

Lemma step_registration e s s' :
  state_ok s → (∀ data ep, e ≠ EvDatagram data ep) →
  step e s = Ok (tt, s') → same s s' ∨ closed_from s s'.
Proof.
  intros Hs He E. destruct e; cbn [step] in E.
  - by destruct (He data ep).
  - apply M_bind_inv in E as (x&s1&E1&[= <-]). left. by eapply quiet_TickOp.
  - left. by eapply quiet_AsyncWrite.
  - left. by eapply quiet_AsyncRead.
  - left. by eapply quiet_AsyncFlush.
  - right. by eapply Close_closes.
Qed.
End registration.
