(* ===== verification/Reading.v ===== *)
(** * What a socket does about an outstanding read

    Between the calls of [AsyncRead] and [Close], everything a socket does moves
    its outstanding read on ([progress]): bytes are appended to what was read
    and the room shrinks by as many; the read completes only without an error,
    and with the buffer full or the minimum reached.  [Connection] relies on
    this and on nothing else of the socket's read side. *)

From S2P Require Import Prelude Environment Packet ControlPackets Transport SlidingWindow CongestionControl.
From S2P Require Import Shared Decoded Dispatcher Socket Frames Registration.
From S2P Require HandshakePacket Session Sender Receiver.

Section reading.
Context `{Environment} `{!IpAddressLaws}.

Definition the_read (s : State) : ReadOp := waiting_read_ s.1.

#[local] Instance the_read_framed : Framed the_read.
Proof. by split. Qed.

(** The count agrees with the bytes, and the buffer is of a size that fits. *)
Definition fine (o : ReadOp) : Prop :=
  read_bytes_transferred o = Z.of_nat (length (read_into o)) ∧
  Z.of_nat (length (read_into o)) + Z.of_nat (read_buffer o) < 18446744073709551616.

(** The read may complete. *)
Definition satisfied (o : ReadOp) : Prop :=
  read_buffer o = 0%nat ∨ read_transfer_at_least o ≤ Z.of_nat (length (read_into o)).

Record progress (o o' : ReadOp) : Prop := {
  progress_fine : fine o';
  progress_bytes : ∃ bytes, read_into o' = read_into o ++ bytes ∧
    read_buffer o = (read_buffer o' + length bytes)%nat;
  progress_at_least : read_transfer_at_least o' = read_transfer_at_least o;
  progress_calls : ∃ k, read_timer o' = replicate k cancel ++ read_timer o ∧
    (k = 0%nat → read_ec o' = read_ec o ∧ (satisfied o' → read_into o' = read_into o)) ∧
    (k ≠ 0%nat → read_ec o' = no_error ∧ satisfied o');
}.

Lemma progress_refl o : fine o → progress o o.
Proof.
  intros Ho. split; [done| |done|].
  - exists []. rewrite app_nil_r. cbn. split; [done|lia].
  - by exists 0%nat.
Qed.

Lemma progress_satisfied o o' : progress o o' → satisfied o → satisfied o'.
Proof.
  intros [_ (bytes&Eb&Er) Ea _] [Hs|Hs]; [left; lia|right]. rewrite Ea, Eb, length_app. lia.
Qed.

Lemma progress_trans o1 o2 o3 : progress o1 o2 → progress o2 o3 → progress o1 o3.
Proof.
  intros H12 H23. pose proof (progress_satisfied o2 o3 H23) as Hsat.
  destruct H12 as [_ (b1&E1&R1) A1 (k1&T1&Z1&S1)], H23 as [F3 (b2&E2&R2) A2 (k2&T2&Z2&S2)].
  split; [done| |congruence|].
  - exists (b1 ++ b2). rewrite E2, E1, app_assoc, length_app. split; [done|lia].
  - exists (k2 + k1)%nat. rewrite T2, T1, app_assoc, replicate_add. split; [done|]. split.
    + intros Hk. destruct Z2 as [Z2 I2]; [lia|]. destruct Z1 as [Z1 I1]; [lia|].
      split; [congruence|]. intros Hs. pose proof (I2 Hs) as E. rewrite E. apply I1.
      rewrite E in E2. apply (f_equal length) in E2 as L. rewrite length_app in L.
      destruct Hs as [Hs|Hs]; [left; lia|right]. by rewrite <-E, <-A2.
    + intros Hk. destruct (decide (k2 = 0%nat)) as [Hk2'|Hk2]; [|by apply S2].
      rewrite (proj1 (Z2 Hk2')). destruct S1 as [-> Hs]; [lia|]. split; [done|]. by apply Hsat.
Qed.

(** [m] moves the outstanding read on. *)
Definition advances {A} (m : M State A) : Prop :=
  ∀ s a s', state_ok s → fine (the_read s) → m s = Ok (a, s') → progress (the_read s) (the_read s').

Lemma advances_bind {A B} (m : M State A) (k : A → M State B) :
  safe m → advances m → (∀ a, advances (k a)) → advances (m ≫= k).
Proof.
  intros Hsafe Hm Hk s b s' Hs Hf (a&s1&E1&E2)%M_bind_inv.
  pose proof (Hm _ _ _ Hs Hf E1) as H1. eapply progress_trans; [exact H1|].
  eapply Hk; [by eapply safe_ok|apply H1|exact E2].
Qed.

Lemma advances_keeps {A} (m : M State A) : keeps the_read m → advances m.
Proof. intros Hm s a s' _ Hf E%Hm. rewrite E. by apply progress_refl. Qed.

Lemma read_result_length size r : (length (Receiver.read_result size r).1 ≤ size)%nat.
Proof.
  unfold Receiver.read_result. cbn [fst].
  rewrite (proj1 (Receiver.read_items_readable size _)), length_take. lia.
Qed.

Lemma advances_ProcessRead : advances ProcessRead.
Proof.
  intros s a s' Hs Hf E. apply M_bind_inv in E as (x&s1&[= <- <-]&E). unfold id in E.
  destruct (negb _) eqn:Eroom; cbn [when] in E; [|injection E as _ <-; by apply progress_refl].
  apply M_bind_inv in E as (out&s2&E2&E).
  assert ((length out ≤ read_buffer (the_read s))%nat ∧ the_read s2 = the_read s) as [Hout E2r].
  { split; [|by apply (keeps_in_receiver the_read) in E2].
    apply zoom_inv in E2 as (t&E2&_). cbn [fst snd] in E2.
    refine (wp_det _ _ _ _ (λ out _, (length out ≤ _)%nat) E2 _).
    apply Receiver.wp_ReadData; [apply Hs|]. apply read_result_length. }
  apply M_bind_inv in E as (?&s3&[= _ <-]&E). apply M_bind_inv in E as (?&s4&[= _ <-]&E).
  apply M_bind_inv in E as (y&s5&[= <- <-]&E). revert E2r Hout Hf. destruct s2 as [so n]. cbn [fst snd] in E.
  unfold the_read at 1. cbn [fst]. intros E2r Hout [Htr Hsize].
  unfold upd_read, upd, modify in E. cbn [fst snd set_read waiting_read_ read_set_bytes read_set_buffer
    read_buffer read_transfer_at_least read_bytes_transferred] in E.
  rewrite E2r in E. set (o := the_read s) in *.
  set (o2 := MkReadOp (read_timer o) (read_buffer o - length out) (read_into o ++ out)
    (read_transfer_at_least o) (read_ec o) (u64 (read_bytes_transferred o + Z.of_nat (length out)))).
  assert (u64 (read_bytes_transferred o + Z.of_nat (length out)) =
    Z.of_nat (length (read_into o ++ out))) as Etr.
  { rewrite length_app, u64_small; lia. }
  assert (fine o2) as Hf2.
  { split; [exact Etr|]. unfold o2. cbn [read_into read_buffer]. rewrite length_app. lia. }
  assert (∃ bytes, read_into o2 = read_into o ++ bytes ∧ read_buffer o = (read_buffer o2 + length bytes)%nat)
    as Hbytes by (exists out; split; [done|unfold o2; cbn [read_buffer]; lia]).
  unfold when in E. destruct (_ || _) eqn:Edone; injection E as _ <-; unfold the_read; cbn [fst].
  - assert (satisfied o2) as Hsat.
    { apply orb_true_iff in Edone as [Hd|Hd]; [left|right]; unfold o2; cbn [read_buffer read_into read_transfer_at_least].
      - by apply Nat.eqb_eq.
      - rewrite <-Etr. by apply Z.leb_le. }
    split; [exact Hf2|exact Hbytes|done|]. exists 1%nat. split; [done|]. split; [done|]. by split.
  - apply orb_false_iff in Edone as [Hd1 Hd2]. apply Nat.eqb_neq in Hd1. apply Z.leb_gt in Hd2.
    rewrite Etr in Hd2. split; [exact Hf2|exact Hbytes|done|]. exists 0%nat. split; [done|]. split; [|done].
    intros _. split; [done|]. intros [Hs'|Hs'].
    + by destruct Hd1.
    + exfalso. exact (Zlt_not_le _ _ Hd2 Hs').
Qed.

Lemma keeps_upd_session {A} (m : M (Session.Session * Shared) A) : keeps the_read (in_session m).
Proof. by intros s a s' (t&_&->)%zoom_inv. Qed.

#[local] Hint Resolve safe_bind safe_ret safe_when safe_me safe_upd_connect safe_upd_read
  safe_upd_flush safe_in_dispatcher safe_ProcessWrite safe_ProcessRead safe_ProcessFlush : core.

(** The operations end with the three [Process] functions. *)
Lemma advances_process (m rest : M State unit) :
  safe m → keeps the_read m → keeps the_read rest → advances (m;; ProcessRead;; rest).
Proof.
  intros Hs Hm Hr. apply advances_bind; [done|by apply advances_keeps|intros _].
  apply advances_bind; [auto|apply advances_ProcessRead|intros _]. by apply advances_keeps.
Qed.

Lemma advances_if_connected m : advances m → advances (if_connected m).
Proof.
  intros Hm s a s' Hs Hf E. apply M_bind_inv in E as (x&s1&[= <- <-]&E).
  destruct (Session.IsConnected _); cbn [when] in E; [by eapply Hm|].
  injection E as _ <-. by apply progress_refl.
Qed.

Lemma advances_HandleData p : is_u32 (DataPacket.PacketSequenceNumber p) → advances (HandleData p).
Proof.
  intros Hp. apply advances_if_connected, advances_process; [|keeps..].
  by apply (safe_receiver_event (Receiver.RData p)).
Qed.
Lemma advances_HandleAck p : Sender.ack_fields_ok p → advances (HandleAck p).
Proof.
  intros Hp. apply advances_if_connected, advances_process; [|keeps..].
  by apply (safe_sender_event (Sender.SAck p)).
Qed.
Lemma advances_HandleAckOfAck p :
  is_u32 (AckOfAckPacket.AckSequenceNumber p) → advances (HandleAckOfAck p).
Proof.
  intros Hp. apply advances_if_connected, advances_process; [|keeps..].
  by apply (safe_receiver_event (Receiver.RAckOfAck p)).
Qed.
Lemma advances_HandleNegativeAck p : advances (HandleNegativeAck p).
Proof. apply advances_if_connected, advances_keeps. keeps. Qed.

Lemma keeps_HandleHandshake p : keeps the_read (HandleHandshake p).
Proof.
  unfold HandleHandshake. cbv zeta. apply keeps_bind; [apply keeps_me|intros x].
  apply keeps_bind; [apply keeps_upd_session|intros _]. keeps.
Qed.

Lemma advances_when b m : advances m → advances (when b m).
Proof.
  destruct b; [done|]. intros _ s a s' _ Hf E. injection E as _ <-. by apply progress_refl.
Qed.

Lemma advances_if {A} (b : Socket → bool) (m1 m2 : Socket → M State A) :
  (∀ x, advances (m1 x)) → (∀ x, advances (m2 x)) → advances (x ← me id; if b x then m1 x else m2 x).
Proof.
  intros H1 H2. apply advances_bind; [auto|apply advances_keeps, keeps_me|intros x].
  destruct (b x); auto.
Qed.

Lemma advances_HandleTick : advances HandleTick.
Proof.
  apply (advances_if (λ x, Session.IsConnected (session_ x))); intros _.
  - apply advances_bind; [by apply (safe_sender_event Sender.STick)|apply advances_keeps; keeps|intros _].
    apply advances_process; [|keeps..]. by apply (safe_receiver_event Receiver.RTick).
  - apply advances_keeps, keeps_upd_session.
Qed.

Lemma advances_TickOp : advances TickOp.
Proof.
  apply (advances_if IsOpen); intros _; [|apply advances_keeps; keeps].
  apply advances_bind; [apply safe_Expired|apply advances_keeps; keeps|intros b].
  apply advances_bind; [|apply advances_when|intros _; apply advances_keeps; keeps].
  - apply safe_when, safe_bind; [apply safe_ResetTimer|intros _; apply safe_HandleTick].
  - apply advances_bind; [apply safe_ResetTimer|apply advances_keeps; keeps|intros _].
    apply advances_HandleTick.
Qed.

(** What happens to a socket by itself moves the read on, or closes the socket. *)
Theorem socket_serves_read e s s' :
  state_ok s → fine (the_read s) → event_ok e →
  match e with EvDatagram _ _ | EvTimer | EvWrite _ | EvFlush => True | EvRead _ _ | EvClose => False end →
  step e s = Ok (tt, s') → progress (the_read s) (the_read s') ∨ IsOpen s'.1 = false.
Proof.
  intros Hs Hf He Hkind E. destruct e as [data ep| |data| | |]; cbn [step] in E; try done.
  - destruct He as [Hb _]. apply HandleReceiveFrom_inv in E as [->|p ? E|p ? E|p ? E|p E|p ? E|E]; [..|done].
    + left. by apply progress_refl.
    + left. by eapply advances_HandleData.
    + left. by eapply advances_HandleAck.
    + left. by eapply advances_HandleAckOfAck.
    + left. by eapply advances_HandleNegativeAck.
    + left. apply keeps_HandleHandshake in E. rewrite E. by apply progress_refl.
    + right. by apply Close_closes in E as [? _].
  - apply M_bind_inv in E as (x&s1&E1&[= <-]). left. by eapply advances_TickOp.
  - left. eapply advances_keeps; [|done..|exact E]. keeps.
  - left. eapply advances_keeps; [|done..|exact E]. keeps.
Qed.

(** ** Starting a read *)

(** The operation that [AsyncRead] of a non-empty buffer starts from. *)
Definition started (size : nat) (transfer_at_least : Z) (o : ReadOp) : ReadOp :=
  MkReadOp (async_wait :: read_timer o) size [] transfer_at_least (read_ec o) 0.

Lemma AsyncRead_starts size n s s' :
  state_ok s → (0 < size)%nat → Z.of_nat size < 18446744073709551616 →
  AsyncRead size n s = Ok (tt, s') → progress (started size n (the_read s)) (the_read s').
Proof.
  intros Hs Hpos Hsize E. apply M_bind_inv in E as (x&s1&[= <- <-]&E). unfold StartRead in E.
  rewrite (proj2 (Nat.eqb_neq size 0)) in E by lia.
  apply M_bind_inv in E as (x&s1&[= <- <-]&E). apply M_bind_inv in E as (x&s1&[= <- <-]&E).
  apply M_bind_inv in E as (x&s1&[= <- <-]&E).
  apply advances_ProcessRead in E; [exact E|exact Hs|]. split; [done|]. cbn. lia.
Qed.
End reading.
