(* ===== verification/Multiplexer.v ===== *)
(** * The multiplexer: sockets and acceptors behind one UDP socket

    Models src/maidsafe/transport/rudp_acceptor.cc, rudp_multiplexer.cc, the
    [operator()] of rudp_dispatch_op.h and rudp_accept_op.h,
    [RudpDispatcher::HandleReceiveFrom], and the life of the socket objects.

    The objects that point at each other (the dispatcher at sockets and at the
    acceptor, the acceptor at the socket that waits for it) live in a store,
    [Node]: a [handle] is an address, and using one behind which there is no
    object faults. *)

From S2P Require Import Prelude Environment Packet ControlPackets Transport SlidingWindow CongestionControl.
From S2P Require Import Shared Decoded Dispatcher Frames Registration.
From S2P Require DataPacket HandshakePacket NegativeAckPacket Session Sender Receiver Socket.

Record PendingRequest `{Environment} := MkPendingRequest {
  remote_id : Z;
  remote_endpoint : endpoint;
}.
Arguments MkPendingRequest {_}.

Record Acceptor `{Environment} := MkAcceptor {
  waiting_accept_ : Socket.deadline;
  waiting_accept_socket_ : option handle;
  pending_requests_ : list PendingRequest;
}.
Arguments MkAcceptor {_}.

Record Node `{Environment} := MkNode {
  socket_is_open : bool;                 (** the multiplexer's UDP socket *)
  net : Socket.Net;                      (** its dispatcher, and the world *)
  sockets : gmap handle Socket.Socket;
  acceptors : gmap handle Acceptor;
}.
Arguments MkNode {_}.

Section multiplexer.
Context `{Environment}.

Definition new_node (w : World) : Node := MkNode false (new_dispatcher, w) ∅ ∅.

Definition set_socket_open (b : bool) (n : Node) : Node := MkNode b (net n) (sockets n) (acceptors n).
Definition set_net (v : Socket.Net) (n : Node) : Node :=
  MkNode (socket_is_open n) v (sockets n) (acceptors n).
Definition set_sockets (v : gmap handle Socket.Socket) (n : Node) : Node :=
  MkNode (socket_is_open n) (net n) v (acceptors n).
Definition set_acceptors (v : gmap handle Acceptor) (n : Node) : Node :=
  MkNode (socket_is_open n) (net n) (sockets n) v.

Definition dispatcher_ (n : Node) : Dispatcher := (net n).1.

(** Run a member function of the socket at [h]. *)
Definition on_socket {A} (h : handle) (m : M Socket.State A) : M Node A := λ n,
  match sockets n !! h with
  | None => Fault OutOfBounds
  | Some s =>
      match m (s, net n) with
      | Ok (a, (s', net')) => Ok (a, set_net net' (set_sockets (<[h := s']> (sockets n)) n))
      | Fault f => Fault f
      end
  end.

Definition acceptor (h : handle) : M Node Acceptor := λ n,
  match acceptors n !! h with Some a => Ok (a, n) | None => Fault OutOfBounds end.
Definition upd_acceptor (h : handle) (f : Acceptor → Acceptor) : M Node unit :=
  modify (λ n, set_acceptors (alter f h (acceptors n)) n).

Definition accept_call (c : Socket.timer_call) (a : Acceptor) : Acceptor :=
  MkAcceptor (c :: waiting_accept_ a) (waiting_accept_socket_ a) (pending_requests_ a).
Definition set_waiting (h : option handle) (a : Acceptor) : Acceptor :=
  MkAcceptor (waiting_accept_ a) h (pending_requests_ a).
Definition set_pending (l : list PendingRequest) (a : Acceptor) : Acceptor :=
  MkAcceptor (waiting_accept_ a) (waiting_accept_socket_ a) l.

Definition SetDispatcherAcceptor (h : option handle) : M Node unit :=
  n ← get; d ← liftR (SetAcceptor h (dispatcher_ n)); modify (set_net (d, (net n).2)).

(** ** RudpAcceptor *)

(** The constructor, of the object at [this]. *)
Definition new_acceptor (this : handle) : M Node unit :=
  modify (λ n, set_acceptors (<[this := MkAcceptor [] None []]> (acceptors n)) n);;
  SetDispatcherAcceptor (Some this).

Definition IsOpen (this : handle) (n : Node) : bool :=
  bool_decide (GetAcceptor (dispatcher_ n) = Some this).

(** The destructor. *)
Definition delete_acceptor (this : handle) : M Node unit :=
  open ← gets (IsOpen this);
  when open (SetDispatcherAcceptor None);;
  modify (λ n, set_acceptors (delete this (acceptors n)) n).

Definition Close (this : handle) : M Node unit :=
  upd_acceptor this (set_pending []);;
  upd_acceptor this (accept_call Socket.cancel);;
  open ← gets (IsOpen this);
  when open (SetDispatcherAcceptor None).

(** [socket.peer_.SetEndpoint(..); socket.peer_.SetId(..)] *)
Definition SetPeer (socket : handle) (ep : endpoint) (id : Z) : M Node unit :=
  on_socket socket (Socket.in_shared (upd_peer (peer_SetEndpoint ep)));;
  on_socket socket (Socket.in_shared (upd_peer (peer_SetId id))).

Definition StartAccept (this socket : handle) : M Node unit :=
  a ← acceptor this;
  assertb (bool_decide (waiting_accept_socket_ a = None));;
  match pending_requests_ a with
  | request :: rest =>
      SetPeer socket (remote_endpoint request) (remote_id request);;
      upd_acceptor this (set_pending rest);;
      upd_acceptor this (accept_call Socket.cancel)
  | [] => upd_acceptor this (set_waiting (Some socket))
  end.

Definition AsyncAccept (this socket : handle) : M Node unit :=
  upd_acceptor this (accept_call Socket.async_wait);; StartAccept this socket.

(** What the handler of the accept operation is given ([RudpAcceptOp]). *)
Definition AcceptOp (socket : handle) : M Node Socket.error_code :=
  on_socket socket (s ← Socket.me id;
    mret (if Socket.RemoteId s =? 0 then Socket.operation_aborted else Socket.no_error)).

Definition HandleReceiveFrom (this : handle) (data : list Z) (ep : endpoint) : M Node unit :=
  new ← liftR HandshakePacket.new; packet ← liftR (HandshakePacket.Decode data new);
  when (packet : bool * HandshakePacket.t).1 (
    a ← acceptor this;
    match waiting_accept_socket_ a with
    | Some socket =>
        SetPeer socket ep (HandshakePacket.SocketId packet.2);;
        upd_acceptor this (set_waiting None);;
        upd_acceptor this (accept_call Socket.cancel)
    | None =>
        upd_acceptor this (set_pending (pending_requests_ a ++
          [MkPendingRequest (HandshakePacket.SocketId packet.2) ep]))
    end).

(** ** RudpDispatcher::HandleReceiveFrom *)
Definition DispatchFrom (data : list Z) (ep : endpoint) : M Node unit :=
  n ← get;
  t ← liftR (route data (dispatcher_ n));
  match t with
  | ToAcceptor h => HandleReceiveFrom h data ep
  | ToSocket h => on_socket h (Socket.HandleReceiveFrom data ep)
  | NoAcceptor | UnknownSocket _ | Unaddressed => mret tt
  end.

(** ** RudpMultiplexer

    [Open] gets what the operating system says to opening the socket, to making it
    non-blocking and to binding it. *)
Definition Open_as_client (open_ec io_control_ec : bool) : M Node TransportCondition :=
  open ← gets socket_is_open;
  if open : bool then mret kAlreadyStarted
  else if open_ec then mret kInvalidAddress
  else
    modify (set_socket_open true);;
    if io_control_ec then mret kSetOptionFailure else mret kSuccess.

Definition Open_on (ep : endpoint) (open_ec io_control_ec bind_ec : bool) :
    M Node TransportCondition :=
  open ← gets socket_is_open;
  if open : bool then mret kAlreadyStarted
  else if ep_port ep =? 0 then mret kInvalidPort
  else if open_ec then mret kInvalidAddress
  else
    modify (set_socket_open true);;
    if io_control_ec then mret kSetOptionFailure
    else if bind_ec then mret kBindError
    else mret kSuccess.

Definition CloseMultiplexer : M Node unit := modify (set_socket_open false).

(** What is left of a datagram in a buffer of [max_size] bytes. *)
Definition received (data : list Z) : list Z := take (Z.to_nat RudpParameters.max_size) data.

(** [RudpDispatchOp::operator()]: [queue] holds the datagram that was received
    and the ones [receive_from] goes on to return before it fails; with an
    error code there is none. *)
Fixpoint DispatchOp (queue : list (list Z * endpoint)) : M Node unit :=
  match queue with
  | [] => mret tt
  | (data, ep) :: queue' => DispatchFrom (received data) ep;; DispatchOp queue'
  end.

(** ** Socket objects *)

Definition new_socket_at (fuel : nat) (h : handle) : M Node unit :=
  s ← zoom (λ n, (net n).2) (λ w n, set_net ((net n).1, w) n) (Socket.new_socket fuel);
  modify (λ n, set_sockets (<[h := s]> (sockets n)) n).

(** The destructor and the end of the object. *)
Definition delete_socket (h : handle) : M Node unit :=
  on_socket h (s ← Socket.me id;
    when (Socket.IsOpen s) (Socket.in_dispatcher (RemoveSocket (Socket.Id s))));;
  modify (λ n, set_sockets (delete h (sockets n)) n).
End multiplexer.

(** ** The store *)

Section node.
Context `{Environment} `{!IpAddressLaws}.

Definition put (h : handle) (st : Socket.State) (n : Node) : Node :=
  set_net st.2 (set_sockets (<[h := st.1]> (sockets n)) n).

Lemma wp_on_socket {A} h (m : M Socket.State A) n s (Q : A → Node → Prop) :
  sockets n !! h = Some s → wp m (s, net n) (λ a st, Q a (put h st n)) → wp (on_socket h m) n Q.
Proof.
  intros E. unfold wp, on_socket. rewrite E. by destruct (m (s, net n)) as [[a [s' net']]|f].
Qed.

Lemma wp_acceptor h n a (Q : Acceptor → Node → Prop) :
  acceptors n !! h = Some a → Q a n → wp (acceptor h) n Q.
Proof. intros E. unfold wp, acceptor. by rewrite E. Qed.

(** The socket at [h] is the one registered under [id]. *)
Definition has_id (n : Node) (h : handle) (id : Z) : Prop :=
  ∃ s, sockets n !! h = Some s ∧ Socket.IsOpen s = true ∧ Socket.Id s = id.

Definition acceptor_ok (n : Node) (acc : Acceptor) : Prop :=
  Forall (λ r, is_u32 (remote_id r)) (pending_requests_ acc) ∧
  ∀ h, waiting_accept_socket_ acc = Some h → is_Some (sockets n !! h).

(** No pointer dangles, and the dispatcher's table is exactly the open sockets
    by their identifiers. *)
Record node_ok (n : Node) : Prop := {
  sockets_fine h s : sockets n !! h = Some s → Socket.socket_ok s;
  registered id h : sockets_ (dispatcher_ n) !! id = Some h ↔ has_id n h id;
  id_nonzero h id : has_id n h id → id ≠ 0;
  acceptor_fine a : acceptor_ (dispatcher_ n) = Some a →
    ∃ acc, acceptors n !! a = Some acc ∧ acceptor_ok n acc;
}.

Lemma has_id_inj n h1 h2 id : node_ok n → has_id n h1 id → has_id n h2 id → h1 = h2.
Proof. intros Hn H1%(registered _ Hn) H2%(registered _ Hn). congruence. Qed.

Lemma has_id_put n h s st h' id :
  sockets n !! h = Some s → h' ≠ h → has_id (put h st n) h' id ↔ has_id n h' id.
Proof.
  intros Hh Hne. unfold has_id, put. cbn [sockets set_net set_sockets].
  by rewrite lookup_insert_ne by congruence.
Qed.

Lemma has_id_put_eq n h st id :
  has_id (put h st n) h id ↔ Socket.IsOpen st.1 = true ∧ Socket.Id st.1 = id.
Proof.
  unfold has_id, put. cbn [sockets set_net set_sockets]. rewrite lookup_insert_eq.
  split; [by intros (s&[= <-]&?&?)|by intros [? ?]; exists st.1].
Qed.

Lemma acceptor_ok_sockets n n' acc :
  acceptor_ok n acc → (∀ h, is_Some (sockets n !! h) → is_Some (sockets n' !! h)) →
  acceptor_ok n' acc.
Proof. intros [? Hw] Hs. split; [done|]. intros h ?. by apply Hs, Hw. Qed.

Lemma put_keeps n h st h' : is_Some (sockets n !! h') → is_Some (sockets (put h st n) !! h').
Proof.
  unfold put. cbn [sockets set_net set_sockets].
  intros. destruct (decide (h' = h)) as [->|]; [by rewrite lookup_insert_eq|].
  by rewrite lookup_insert_ne by congruence.
Qed.

Lemma acceptor_RemoveSocket id d : acceptor_ (RemoveSocket id d) = acceptor_ d.
Proof. unfold RemoveSocket. by case_match. Qed.

(** An operation of one socket. *)
Lemma node_ok_put n h s st :
  node_ok n → sockets n !! h = Some s → Socket.socket_ok st.1 →
  same (s, net n) st ∨ closed_from (s, net n) st → node_ok (put h st n).
Proof.
  intros Hn Hh Hst Hreg. cbn [fst snd] in Hreg.
  assert (acceptor_ st.2.1 = acceptor_ (dispatcher_ n)) as Hacc.
  { destruct Hreg as [(_&_&->)|[_ ->]]; [done|]. cbn [fst snd].
    case_match; [by rewrite acceptor_RemoveSocket|done]. }
  split.
  - intros h' s'. unfold put. cbn [sockets set_net set_sockets].
    destruct (decide (h' = h)) as [->|]; [rewrite lookup_insert_eq; by intros [= <-]|].
    rewrite lookup_insert_ne by congruence. by apply (sockets_fine _ Hn).
  - intros id h'. change (dispatcher_ (put h st n)) with st.2.1.
    destruct (decide (h' = h)) as [->|Hne].
    + rewrite has_id_put_eq. destruct Hreg as [(Ei&Eo&->)|[Eo ->]]; cbn [fst snd] in *.
      * rewrite Ei, Eo. change (net n).1 with (dispatcher_ n). rewrite (registered _ Hn).
        split; [by intros (s'&?&?&?); simplify_eq|by intros [? ?]; exists s].
      * rewrite Eo. split; [|by intros []]. intros Hl. exfalso.
        destruct (Socket.IsOpen s) eqn:Es.
        -- assert (Socket.Id s ≠ 0) as Hnz by (apply (id_nonzero _ Hn h); by exists s).
           unfold RemoveSocket in Hl. rewrite (proj2 (Z.eqb_neq _ _) Hnz) in Hl. cbn [sockets_] in Hl.
           apply lookup_delete_Some in Hl as [Hne Hl].
           apply (registered _ Hn) in Hl as (s'&El&Eo'&Ei'). rewrite Hh in El. injection El as <-. congruence.
        -- apply (registered _ Hn) in Hl as (s'&El&Eo'&Ei'). rewrite Hh in El. injection El as <-. congruence.
    + rewrite has_id_put by done. rewrite <-(registered _ Hn). destruct Hreg as [(_&_&->)|[_ ->]]; [done|].
      cbn [fst snd]. destruct (Socket.IsOpen s) eqn:Es; [|done].
      assert (has_id n h (Socket.Id s)) as Hs by by exists s.
      assert (Socket.Id s ≠ 0) as Hnz by by apply (id_nonzero _ Hn h).
      unfold RemoveSocket. rewrite (proj2 (Z.eqb_neq _ _) Hnz). cbn [sockets_].
      change (net n).1 with (dispatcher_ n).
      rewrite lookup_delete_Some. split; [by intros []|]. intros Hl. split; [|done].
      intros <-. apply (registered _ Hn) in Hs. congruence.
  - intros h' id. destruct (decide (h' = h)) as [->|].
    + rewrite has_id_put_eq. intros [Ho <-]. destruct Hreg as [(Ei&Eo&_)|[Eo _]]; [|congruence].
      cbn [fst snd] in *. rewrite Ei. apply (id_nonzero _ Hn h). exists s. split_and!; [done|congruence|done].
    + rewrite has_id_put by done. by apply (id_nonzero _ Hn).
  - change (dispatcher_ (put h st n)) with st.2.1. rewrite Hacc. intros a (acc&Ha&Hok)%(acceptor_fine _ Hn).
    exists acc. split; [done|]. eapply acceptor_ok_sockets; [done|]. intros. by apply put_keeps.
Qed.

(** An operation of one socket that is [safe] and treats its registration properly. *)
Lemma wp_on_socket_ok {A} h s (m : M Socket.State A) n :
  node_ok n → sockets n !! h = Some s → Socket.safe m →
  (∀ a st, m (s, net n) = Ok (a, st) → same (s, net n) st ∨ closed_from (s, net n) st) →
  wp (on_socket h m) n (λ _ n', node_ok n' ∧ ∀ h', is_Some (sockets n !! h') → is_Some (sockets n' !! h')).
Proof.
  intros Hn Hh Hm Hreg. eapply wp_on_socket; [done|].
  pose proof (Hm (s, net n) (sockets_fine _ Hn _ _ Hh)) as Hw. apply wp_Ok in Hw as (a&st&E&Hst).
  apply wp_Ok. exists a, st. split; [done|]. split; [|intros h'; apply put_keeps].
  eapply node_ok_put; [done|done|done|by eapply Hreg].
Qed.

(** Changes to the acceptors only. *)
Lemma node_ok_acceptors n f a :
  node_ok n → (∀ acc, acceptors n !! a = Some acc → acceptor_ok n acc → acceptor_ok n (f acc)) →
  node_ok (set_acceptors (alter f a (acceptors n)) n).
Proof.
  intros [H1 H2 H3 H4] Hf. split; [done..|]. intros b Hb. cbn [dispatcher_ set_acceptors net] in Hb.
  apply H4 in Hb as (acc&Hl&Hok). cbn [acceptors set_acceptors].
  destruct (decide (a = b)) as [->|].
  - rewrite lookup_alter_eq, Hl. exists (f acc). split; [done|]. by apply Hf.
  - rewrite lookup_alter_ne by done. by exists acc.
Qed.

Lemma safe_set_peer ep : Socket.safe (Socket.in_shared (upd_peer (peer_SetEndpoint ep))).
Proof. by apply Socket.safe_upd_peer. Qed.
Lemma safe_set_peer_id id : is_u32 id → Socket.safe (Socket.in_shared (upd_peer (peer_SetId id))).
Proof. intros. by apply Socket.safe_upd_peer. Qed.

Lemma wp_SetPeer h ep id n :
  node_ok n → is_Some (sockets n !! h) → is_u32 id →
  wp (SetPeer h ep id) n (λ _ n', node_ok n' ∧ acceptors n' = acceptors n ∧ net n' = net n ∧
    ∀ h', is_Some (sockets n !! h') → is_Some (sockets n' !! h')).
Proof.
  intros Hn [s Hs] Hid.
  assert (∀ m n s, node_ok n → sockets n !! h = Some s → Socket.safe (Socket.in_shared (upd_peer m)) →
    wp (on_socket h (Socket.in_shared (upd_peer m))) n (λ _ n', node_ok n' ∧ acceptors n' = acceptors n ∧
      net n' = net n ∧ ∀ h', is_Some (sockets n !! h') → is_Some (sockets n' !! h'))) as Hone.
  { intros m n0 s0 Hn0 Hs0 Hm. eapply wp_mono.
    - apply wp_conj; [apply (wp_on_socket_ok h s0 _ n0 Hn0 Hs0 Hm)|].
      + intros a st E. left. by eapply quiet_in_shared.
      + eapply (wp_on_socket _ _ _ _ (λ _ n', acceptors n' = acceptors n0 ∧ net n' = net n0)); [done|].
        apply Socket.wp_in_shared, wp_upd_peer. split; [done|]. by destruct n0 as [? [] ? ?].
    - by intros [] n' [[? ?] [? ?]]. }
  apply wp_bind. eapply wp_mono; [by eapply Hone, safe_set_peer|].
  intros [] n1 (Hn1&Ha1&He1&Hk1). destruct (Hk1 h) as [s1 Hs1]; [by rewrite Hs|].
  eapply wp_mono; [by eapply Hone, safe_set_peer_id|].
  intros [] n2 (Hn2&Ha2&He2&Hk2). split_and!; [done|congruence|congruence|auto].
Qed.
End node.

(** ** What can happen to a node *)

Section reachable.
Context `{Environment} `{!IpAddressLaws}.

Inductive event :=
  | EvOpenAsClient (open_ec io_control_ec : bool)
  | EvOpenOn (ep : endpoint) (open_ec io_control_ec bind_ec : bool)
  | EvCloseMultiplexer
  | EvNewSocket (fuel : nat) (h : handle)
  | EvDeleteSocket (h : handle)
  | EvNewAcceptor (a : handle)
  | EvCloseAcceptor (a : handle)
  | EvDeleteAcceptor (a : handle)
  | EvAccept (a h : handle)
  | EvConnectTo (fuel : nat) (h : handle) (remote : endpoint)
  | EvConnect (fuel : nat) (h : handle)
  | EvSocket (h : handle) (e : Socket.event)
  | EvDispatch (queue : list (list Z * endpoint)).

Definition step (e : event) : M Node unit :=
  match e with
  | EvOpenAsClient e1 e2 => Open_as_client e1 e2;; mret tt
  | EvOpenOn ep e1 e2 e3 => Open_on ep e1 e2 e3;; mret tt
  | EvCloseMultiplexer => CloseMultiplexer
  | EvNewSocket fuel h => new_socket_at fuel h
  | EvDeleteSocket h => delete_socket h
  | EvNewAcceptor a => new_acceptor a
  | EvCloseAcceptor a => Close a
  | EvDeleteAcceptor a => delete_acceptor a
  | EvAccept a h => AsyncAccept a h
  | EvConnectTo fuel h remote => on_socket h (Socket.AsyncConnect_to fuel h remote)
  | EvConnect fuel h => on_socket h (Socket.AsyncConnect fuel h)
  | EvSocket h e => on_socket h (Socket.step e)
  | EvDispatch queue => DispatchOp queue
  end.

Definition datagram_ok (d : list Z * endpoint) : Prop :=
  bytes_ok d.1 ∧ Socket.initial_number_ok (received d.1).

(** A free identifier is among the first [fuel - 1] that would be drawn. *)
Definition can_draw (fuel : nat) (n : Node) : Prop :=
  ∃ k, (S k < fuel)%nat ∧ taken (random_uint32 (w_random (net n).2 + k)) (dispatcher_ n) = false.

(** What the callers see to: objects are constructed at free addresses and used
    while they exist, there is one acceptor and one accept operation at a time,
    a socket that an open acceptor will write to is not destroyed, only closed
    sockets connect, and a server socket only after it was accepted. *)
Definition event_ok (e : event) (n : Node) : Prop :=
  match e with
  | EvNewSocket fuel h => sockets n !! h = None ∧ is_ok (Socket.new_socket fuel (net n).2) = true
  | EvDeleteSocket h => is_Some (sockets n !! h) ∧
      ∀ a acc, acceptor_ (dispatcher_ n) = Some a → acceptors n !! a = Some acc →
        waiting_accept_socket_ acc ≠ Some h
  | EvNewAcceptor a => acceptors n !! a = None ∧ acceptor_ (dispatcher_ n) = None
  | EvAccept a h => is_Some (sockets n !! h) ∧
      ∃ acc, acceptors n !! a = Some acc ∧ waiting_accept_socket_ acc = None ∧
        acceptor_ (dispatcher_ n) = Some a
  | EvConnectTo fuel h remote => can_draw fuel n ∧
      ∃ s, sockets n !! h = Some s ∧ Socket.IsOpen s = false
  | EvConnect fuel h => can_draw fuel n ∧
      ∃ s, sockets n !! h = Some s ∧ Socket.IsOpen s = false ∧
        Socket.RemoteEndpoint s ≠ endpoint_none ∧ Socket.RemoteId s ≠ 0
  | EvSocket h e => is_Some (sockets n !! h) ∧ Socket.event_ok e ∧ ∀ data ep, e ≠ Socket.EvDatagram data ep
  | EvDispatch queue => Forall datagram_ok queue
  | _ => True
  end.

Inductive reachable : Node → Prop :=
  | reachable_new w : reachable (new_node w)
  | reachable_step n e n' :
      reachable n → event_ok e n → step e n = Ok (tt, n') → reachable n'.

Lemma node_ok_new w : node_ok (new_node w).
Proof.
  split; unfold new_node; cbn [sockets dispatcher_ net fst new_dispatcher sockets_ acceptor_].
  - intros h s. by rewrite lookup_empty.
  - intros id h. rewrite lookup_empty. split; [done|]. intros (s&E&_). cbn [sockets] in E.
    by rewrite lookup_empty in E.
  - intros h id (s&E&_). cbn [sockets] in E. by rewrite lookup_empty in E.
  - done.
Qed.

Lemma node_ok_flag b n : node_ok n → node_ok (set_socket_open b n).
Proof. by intros []. Qed.

Lemma GenerateSequenceNumber_is_seq fuel w n w' :
  GenerateSequenceNumber fuel w = Ok (n, w') → is_seq n.
Proof.
  unfold GenerateSequenceNumber. set (draw := λ _, _). generalize 0. revert w.
  induction fuel as [|fuel IH]; [done|].
  intros w l E. cbn [loop] in E. apply M_bind_inv in E as (r&w1&E1&E2).
  apply M_bind_inv in E1 as (x&w2&_&[= <- <-]). destruct (_ =? 0); [by eapply IH|].
  injection E2 as <- _. change 0x7fffffff with (Z.ones 31). rewrite Z.land_ones by done.
  by apply Z.mod_pos_bound.
Qed.

Lemma default_window_wf {T} fuel w (v : Window T) w' :
  default_window fuel w = Ok (v, w') → ∃ n, is_seq n ∧ v = new_window n.
Proof.
  intros (n&w1&E1%GenerateSequenceNumber_is_seq&E2)%M_bind_inv. exists n. split; [done|].
  unfold liftR, Reset in E2. destruct (_ <=? _); [|done]. by injection E2 as <- _.
Qed.

Lemma new_socket_ok fuel w s w' :
  Socket.new_socket fuel w = Ok (s, w') → Socket.socket_ok s ∧ Socket.IsOpen s = false.
Proof.
  intros (u&w1&E1&E)%M_bind_inv. apply default_window_wf in E1 as (n&Hn&->).
  apply M_bind_inv in E as (r&w2&E2&[= <- _]).
  apply M_bind_inv in E2 as (u&w3&E3&E2). apply default_window_wf in E3 as (m&Hm&->).
  apply M_bind_inv in E2 as (v&w4&E4&E2). apply default_window_wf in E4 as (o&Ho&->).
  apply M_bind_inv in E2 as (t&w5&_&[= <- _]).
  split; [|done]. split; [by repeat split|]. split.
  { split; [by apply wf_new_window|by intros i x Hx]. }
  split; [split; [by apply wf_new_window|split; [by apply wf_new_window|by split; vm_compute]]|].
  split; [constructor|]. split; [apply new_congestion_control_inv|by split; vm_compute].
Qed.

(** A closed socket comes to be. *)
Lemma node_ok_add n h s w :
  node_ok n → sockets n !! h = None → Socket.socket_ok s → Socket.IsOpen s = false →
  node_ok (set_sockets (<[h := s]> (sockets n)) (set_net ((net n).1, w) n)).
Proof.
  intros Hn Hh Hs Ho. set (n' := set_sockets _ _).
  assert (∀ h' id, has_id n' h' id ↔ has_id n h' id) as Hid.
  { intros h' id. unfold has_id, n'. cbn [sockets set_sockets].
    destruct (decide (h' = h)) as [->|]; [|by rewrite lookup_insert_ne by congruence].
    rewrite lookup_insert_eq, Hh. split; [by intros (?&[= <-]&?&?); congruence|by intros (?&?&_)]. }
  split.
  - intros h' s'. unfold n'. cbn [sockets set_sockets].
    destruct (decide (h' = h)) as [->|]; [rewrite lookup_insert_eq; by intros [= <-]|].
    rewrite lookup_insert_ne by congruence. by apply (sockets_fine _ Hn).
  - intros id h'. rewrite Hid. apply (registered _ Hn).
  - intros h' id. rewrite Hid. apply (id_nonzero _ Hn).
  - intros a (acc&Ha&Hok)%(acceptor_fine _ Hn). exists acc. split; [done|].
    eapply acceptor_ok_sockets; [done|]. intros h' ?. unfold n'. cbn [sockets set_sockets].
    destruct (decide (h' = h)) as [->|]; [by rewrite lookup_insert_eq|by rewrite lookup_insert_ne by congruence].
Qed.

(** A closed socket goes away. *)
Lemma node_ok_delete n h :
  node_ok n → (∀ id, ¬ has_id n h id) →
  (∀ a acc, acceptor_ (dispatcher_ n) = Some a → acceptors n !! a = Some acc →
     waiting_accept_socket_ acc ≠ Some h) →
  node_ok (set_sockets (delete h (sockets n)) n).
Proof.
  intros Hn Hh Hw. set (n' := set_sockets _ _).
  assert (∀ h' id, has_id n' h' id ↔ has_id n h' id) as Hid.
  { intros h' id. destruct (decide (h' = h)) as [->|].
    - split; [|by intros ?%Hh]. intros (s&E&_). unfold n' in E. cbn [sockets set_sockets] in E.
      by rewrite lookup_delete_eq in E.
    - unfold has_id, n'. cbn [sockets set_sockets]. by rewrite lookup_delete_ne by congruence. }
  split.
  - intros h' s' E. unfold n' in E. cbn [sockets set_sockets] in E.
    apply lookup_delete_Some in E as [_ E]. by apply (sockets_fine _ Hn h').
  - intros id h'. rewrite Hid. apply (registered _ Hn).
  - intros h' id. rewrite Hid. apply (id_nonzero _ Hn).
  - intros a Ha. destruct (acceptor_fine _ Hn a Ha) as (acc&Hl&[? Hok]). exists acc.
    split; [done|]. split; [done|]. intros h' Hh'. unfold n'. cbn [sockets set_sockets].
    rewrite lookup_delete_ne; [by apply Hok|]. intros <-. by eapply Hw.
Qed.

(** A closed socket opens. *)
Lemma node_ok_opened n h s st :
  node_ok n → sockets n !! h = Some s → Socket.IsOpen s = false → Socket.socket_ok st.1 →
  Socket.opened_as h (s, net n) st → node_ok (put h st n).
Proof.
  intros Hn Hh Ho Hst (Ho'&Hid&Hfree&Hd). cbn [fst snd] in Hfree, Hd.
  split.
  - intros h' s'. unfold put. cbn [sockets set_net set_sockets].
    destruct (decide (h' = h)) as [->|]; [rewrite lookup_insert_eq; by intros [= <-]|].
    rewrite lookup_insert_ne by congruence. by apply (sockets_fine _ Hn).
  - intros id h'. change (dispatcher_ (put h st n)) with st.2.1. rewrite Hd. cbn [sockets_].
    change (net n).1 with (dispatcher_ n) in *.
    rewrite lookup_insert_Some. destruct (decide (h' = h)) as [->|Hne].
    + rewrite has_id_put_eq. split; [|by intros [_ ->]; left].
      intros [[<- _]|[_ (s'&E&?&?)%(registered _ Hn)]]; [done|]. congruence.
    + rewrite has_id_put by done. rewrite <-(registered _ Hn). split; [by intros [[_ ?]|[_ ?]]|].
      intros E. right. split; [|done]. intros <-. congruence.
  - intros h' id. destruct (decide (h' = h)) as [->|].
    + rewrite has_id_put_eq. by intros [_ <-].
    + rewrite has_id_put by done. by apply (id_nonzero _ Hn).
  - change (dispatcher_ (put h st n)) with st.2.1. rewrite Hd. cbn [acceptor_].
    intros a (acc&Ha&Hok)%(acceptor_fine _ Hn). exists acc. split; [done|].
    eapply acceptor_ok_sockets; [done|]. intros. by apply put_keeps.
Qed.

(** What one step may assume and has to give: the invariant. *)
Definition node_safe {A} (m : M Node A) : Prop := ∀ n, node_ok n → wp m n (λ _, node_ok).

Lemma wp_upd_acceptor a f n (Q : unit → Node → Prop) :
  Q tt (set_acceptors (alter f a (acceptors n)) n) → wp (upd_acceptor a f) n Q.
Proof. done. Qed.

Lemma handshake_id data new p :
  bytes_ok data → HandshakePacket.new = Ok new → HandshakePacket.Decode data new = Ok (true, p) →
  is_u32 (HandshakePacket.SocketId p).
Proof.
  intros Hb [= <-] E. by eapply handshake_ranges in E as (?&?&?);
    [|done|repeat split; by vm_compute].
Qed.

Lemma safe_acceptor_receives a data ep n :
  node_ok n → acceptor_ (dispatcher_ n) = Some a → bytes_ok data →
  wp (HandleReceiveFrom a data ep) n (λ _, node_ok).
Proof.
  intros Hn Ha Hb. unfold HandleReceiveFrom. apply wp_bind. eapply wp_liftR; [reflexivity|].
  edestruct (HandshakePacket.handshake_Decode_total data) as (b&p&_&E&_).
  apply wp_bind. eapply wp_liftR; [exact E|]. cbn [fst snd]. destruct b; [|done]. cbn [when].
  eapply handshake_id in E; [|done|reflexivity].
  destruct (acceptor_fine _ Hn a Ha) as (acc&Hl&Hok). apply wp_bind. eapply wp_acceptor; [done|].
  destruct (waiting_accept_socket_ acc) as [h|] eqn:Ew.
  - apply wp_bind. eapply wp_mono; [apply wp_SetPeer; [done|by apply Hok|done]|].
    intros [] n1 (Hn1&Ea&En&Hk). apply wp_bind, wp_upd_acceptor, wp_upd_acceptor.
    rewrite <-Ea in Hl.
    apply node_ok_acceptors; [apply node_ok_acceptors; [done|]|].
    + intros acc' _ [? _]. by split.
    + intros acc' _ [? ?]. by split.
  - apply wp_upd_acceptor, node_ok_acceptors; [done|]. intros acc' E' [Hp ?]. rewrite Hl in E'.
    injection E' as <-. split; [|intros h' Hh'; cbn in Hh'; congruence]. apply Forall_app. split; [done|]. by constructor.
Qed.

Lemma route_total data d : ∃ t, route data d = Ok t.
Proof.
  unfold route. destruct (DecodeDestinationSocketId_total data) as [id ->]. rewrite Res_bind_ok.
  repeat case_match; eauto.
Qed.

Lemma route_socket data d h :
  route data d = Ok (ToSocket h) → ∃ id, DecodeDestinationSocketId data = Ok (true, id) ∧
    id ≠ 0 ∧ sockets_ d !! id = Some h.
Proof.
  unfold route. destruct (DecodeDestinationSocketId_total data) as [id ->]. rewrite Res_bind_ok.
  cbn [fst snd]. destruct (_ <=? _); cbn [negb]; [|done]. destruct (id =? 0) eqn:E; [by case_match|].
  destruct (sockets_ d !! id) eqn:El; [|done]. intros [= ->]. exists id. split_and!; [done|lia|done].
Qed.

Lemma route_acceptor data d a : route data d = Ok (ToAcceptor a) → acceptor_ d = Some a.
Proof.
  unfold route. destruct (DecodeDestinationSocketId_total data) as [id ->]. rewrite Res_bind_ok.
  cbn [fst snd]. destruct (_ <=? _); cbn [negb]; [|done]. destruct (id =? 0).
  - destruct (acceptor_ d); [|done]. by intros [= ->].
  - by destruct (sockets_ d !! id).
Qed.

(** A registered socket receives. *)
Lemma wp_socket_receives h s data ep n :
  node_ok n → sockets n !! h = Some s → Socket.IsOpen s = true → bytes_ok data →
  Socket.initial_number_ok data →
  wp (on_socket h (Socket.HandleReceiveFrom data ep)) n (λ _ n', node_ok n' ∧
    ∃ s' net', Socket.HandleReceiveFrom data ep (s, net n) = Ok (tt, (s', net')) ∧
      n' = put h (s', net') n).
Proof.
  intros Hn Hh Ho Hb Hi. eapply wp_on_socket; [done|].
  pose proof (Socket.safe_HandleReceiveFrom data ep Hb Hi (s, net n) (sockets_fine _ Hn _ _ Hh)) as Hw.
  apply wp_Ok in Hw as ([]&[s' net']&E&Hs'). apply wp_Ok. exists tt, (s', net').
  split; [exact E|]. split; [|by exists s', net'].
  eapply node_ok_put; [done|done|done|].
  eapply received_registration; [by eapply sockets_fine|done|done|exact E].
Qed.

Lemma safe_DispatchFrom data ep :
  bytes_ok data → Socket.initial_number_ok data → node_safe (DispatchFrom data ep).
Proof.
  intros Hb Hi n Hn. unfold DispatchFrom. apply wp_bind, wp_get.
  destruct (route_total data (dispatcher_ n)) as [t E]. apply wp_bind. eapply wp_liftR; [exact E|].
  destruct t as [a| |h|id|]; try done.
  - apply safe_acceptor_receives; [done|by eapply route_acceptor|done].
  - apply route_socket in E as (id&_&_&Hr). apply (registered _ Hn) in Hr as (s&Hs&Ho&_).
    eapply wp_mono; [by eapply wp_socket_receives|]. by intros [] n' [? _].
Qed.

Lemma safe_DispatchOp queue : Forall datagram_ok queue → node_safe (DispatchOp queue).
Proof.
  induction 1 as [|[data ep] queue [Hb Hi] _ IH]; intros n Hn; [done|].
  cbn [DispatchOp]. apply wp_bind. eapply wp_mono.
  - apply safe_DispatchFrom; [by apply Forall_take|exact Hi|done].
  - intros [] n1. apply IH.
Qed.

Lemma wp_SetDispatcherAcceptor a n (Q : unit → Node → Prop) :
  (a = None ∨ acceptor_ (dispatcher_ n) = None) →
  Q tt (set_net (MkDispatcher a (sockets_ (dispatcher_ n)), (net n).2) n) →
  wp (SetDispatcherAcceptor a) n Q.
Proof.
  intros Ha HQ. apply wp_bind, wp_get, wp_bind.
  eapply wp_liftR; [unfold SetAcceptor; by rewrite bool_decide_true|]. by apply wp_modify.
Qed.

Lemma node_ok_unset n :
  node_ok n → node_ok (set_net (MkDispatcher None (sockets_ (dispatcher_ n)), (net n).2) n).
Proof. intros [? Hr Hz ?]. by split. Qed.

Lemma safe_accept a h n :
  node_ok n → event_ok (EvAccept a h) n → wp (AsyncAccept a h) n (λ _, node_ok).
Proof.
  intros Hn (Hh&acc&Hl&Hw&Ha). apply wp_bind, wp_upd_acceptor. set (n1 := set_acceptors _ _).
  assert (node_ok n1) as Hn1 by (apply node_ok_acceptors; [done|]; by intros ? _ [? ?]).
  set (acc1 := accept_call Socket.async_wait acc).
  assert (acceptors n1 !! a = Some acc1) as Hl1.
  { unfold n1. cbn [acceptors set_acceptors]. by rewrite lookup_alter_eq, Hl. }
  destruct (acceptor_fine _ Hn1 a Ha) as (x&Hx&[Hp _]). rewrite Hl1 in Hx. injection Hx as <-.
  apply wp_bind. eapply wp_acceptor; [exact Hl1|]. apply wp_bind, wp_assertb.
  { apply bool_decide_eq_true. exact Hw. }
  destruct (pending_requests_ acc1) as [|r rest] eqn:Ep.
  - apply wp_upd_acceptor, node_ok_acceptors; [done|]. intros acc' E' _. rewrite Hl1 in E'.
    injection E' as <-. split; [|by intros h' [= <-]].
    change (Forall (λ r, is_u32 (remote_id r)) (pending_requests_ acc1)). by rewrite Ep.
  - apply Forall_cons in Hp as [Hr Hrest].
    apply wp_bind. eapply wp_mono; [by apply wp_SetPeer|].
    intros [] n2 (Hn2&Ea&En&Hk). apply wp_bind, wp_upd_acceptor, wp_upd_acceptor.
    apply node_ok_acceptors; [apply node_ok_acceptors; [done|]|].
    + intros acc' _ [_ ?]. by split.
    + intros acc' _ [? ?]. by split.
Qed.

Lemma safe_delete_socket h n :
  node_ok n → event_ok (EvDeleteSocket h) n → wp (delete_socket h) n (λ _, node_ok).
Proof.
  intros Hn ([s Hs]&Hw). apply wp_bind. eapply wp_on_socket; [done|].
  unfold Socket.me. apply wp_bind, wp_gets. unfold id. cbn [fst].
  set (n' := set_sockets (delete h (sockets n)) (set_net
    ((if Socket.IsOpen s then RemoveSocket (Socket.Id s) (net n).1 else (net n).1), (net n).2) n)).
  assert (node_ok n') as Hn'.
  { set (st := (Socket.set_session (Session.Close (Socket.session_ s)) s,
      ((if Socket.IsOpen s then RemoveSocket (Socket.Id s) (net n).1 else (net n).1), (net n).2))
      : Socket.State).
    assert (node_ok (put h st n)) as H1.
    { apply node_ok_put with (s := s); [done|done| |by right].
      destruct (sockets_fine _ Hn _ _ Hs) as ((?&?&?)&?&?&?&?&?). by split_and!. }
    replace n' with (set_sockets (delete h (sockets (put h st n))) (put h st n)).
    - apply node_ok_delete; [done| |].
      + intros id. rewrite has_id_put_eq. by intros [? _].
      + intros a acc. change (dispatcher_ (put h st n)) with st.2.1. intros Ea. apply Hw.
        unfold st in Ea. cbn [fst snd] in Ea.
        destruct (Socket.IsOpen s); [by rewrite acceptor_RemoveSocket in Ea|done].
    - unfold n', put. cbn [sockets set_sockets set_net]. by rewrite delete_insert_eq. }
  unfold n' in Hn'. clear n'. apply wp_when; intros Ho; rewrite Ho in Hn'.
  - apply wp_modify. apply wp_modify. unfold put.
    cbn [fst snd sockets set_sockets set_net] in *. by rewrite delete_insert_eq.
  - apply wp_modify. unfold put. cbn [fst snd sockets set_sockets set_net] in *.
    rewrite delete_insert_eq. by destruct n as [? [] ? ?].
Qed.

Lemma node_safe_step e n :
  (∀ i, is_u32 (random_uint32 i)) → node_ok n → event_ok e n → wp (step e) n (λ _, node_ok).
Proof.
  intros Hrand Hn He. destruct e as [e1 e2|ep e1 e2 e3| |fuel h|h|a|a|a|a h|fuel h remote|fuel h|h e|queue];
    cbn [step].
  - unfold Open_as_client. apply wp_bind, wp_bind, wp_gets. repeat wp_step; (by apply node_ok_flag) || done.
  - unfold Open_on. apply wp_bind, wp_bind, wp_gets. repeat wp_step; (by apply node_ok_flag) || done.
  - by apply wp_modify, node_ok_flag.
  - destruct He as [Hh He]. apply wp_bind, wp_zoom.
    destruct (Socket.new_socket fuel (net n).2) as [[s w]|] eqn:E; [|done].
    unfold wp at 1. rewrite E. apply wp_modify. apply new_socket_ok in E as [Hs Ho].
    exact (node_ok_add n h s w Hn Hh Hs Ho).
  - by apply safe_delete_socket.
  - destruct He as [Ha Hno]. apply wp_bind, wp_modify, wp_SetDispatcherAcceptor; [by right|].
    destruct Hn as [? Hr Hz ?]. split; [done..|]. intros b [= <-]. exists (MkAcceptor [] None []).
    cbn [acceptors set_net set_acceptors]. rewrite lookup_insert_eq. split; [done|]. by split.
  - apply wp_bind, wp_upd_acceptor, wp_bind, wp_upd_acceptor, wp_bind, wp_gets.
    set (n1 := set_acceptors _ _).
    assert (node_ok n1) as Hn1.
    { apply node_ok_acceptors; [apply node_ok_acceptors; [done|]|].
      - intros acc _ [_ ?]. by split.
      - by intros acc _ [? ?]. }
    apply wp_when; [|done]. intros _. apply wp_SetDispatcherAcceptor; [by left|].
    by apply node_ok_unset.
  - apply wp_bind, wp_gets, wp_bind, wp_when; intros Ho.
    + apply wp_SetDispatcherAcceptor; [by left|]. apply wp_modify.
      destruct Hn as [? Hr Hz ?]. by split.
    + apply wp_modify. destruct Hn as [? Hr Hz Hacc]. split; [done..|]. intros b Hb.
      destruct (Hacc b Hb) as (acc&Hl&Hok). exists acc. cbn [acceptors set_acceptors].
      rewrite lookup_delete_ne; [done|]. intros ->. unfold IsOpen, GetAcceptor in Ho.
      apply bool_decide_eq_false in Ho. by apply Ho.
  - by apply safe_accept.
  - destruct He as [(k&Hk&Hfree) (s&Hs&Ho)]. eapply wp_on_socket; [done|]. eapply wp_mono.
    + by eapply (Socket.wp_AsyncConnect_to fuel h remote (s, net n)); [eapply sockets_fine|..].
    + intros [] st [Hst Hop]. by eapply node_ok_opened.
  - destruct He as [(k&Hk&Hfree) (s&Hs&Ho&Hep&Hid)]. eapply wp_on_socket; [done|]. eapply wp_mono.
    + by eapply (Socket.wp_AsyncConnect fuel h (s, net n)); [eapply sockets_fine|..].
    + intros [] st [Hst Hop]. by eapply node_ok_opened.
  - destruct He as ([s Hs]&He&Hne). eapply wp_mono.
    + eapply wp_on_socket_ok; [done|done|by apply Socket.safe_step|].
      intros [] st E. by eapply step_registration; [eapply sockets_fine|..].
    + by intros [] n' [? _].
  - by apply safe_DispatchOp.
Qed.

Lemma reachable_ok n : (∀ i, is_u32 (random_uint32 i)) → reachable n → node_ok n.
Proof.
  intros Hrand. induction 1 as [w|n e n' _ IH He E]; [apply node_ok_new|].
  exact (wp_det _ _ _ _ (λ _, node_ok) E (node_safe_step e n Hrand IH He)).
Qed.

(** C12: The pointers of the multiplexer never dangle, as long as its callers construct
    objects at free addresses and use them while they exist, have one acceptor and one
    accept operation at a time, do not destroy a socket that is being accepted, and
    connect only sockets that are closed (a server socket only after it was accepted),
    no datagram is a handshake with an initial sequence number of more than 31 bits, and
    the random numbers include an identifier that is free: in every state that is
    reached so from an empty multiplexer, by opening and closing it, creating and
    destroying sockets and acceptors, accepting, connecting, operations on sockets and
    datagrams, the next such step runs without a failed assertion or a missing object,
    and leaves the dispatcher's table exactly the open sockets under their own
    identifiers. *)
Theorem multiplexer_never_faults (n : Node) (e : event) :
  (∀ i, is_u32 (random_uint32 i)) → reachable n → event_ok e n →
  ∃ n', step e n = Ok (tt, n') ∧
    ∀ id h, sockets_ (dispatcher_ n') !! id = Some h ↔
      ∃ s, sockets n' !! h = Some s ∧ Socket.IsOpen s = true ∧ Socket.Id s = id.
Proof.
  intros Hrand Hn%reachable_ok He; [|done].
  pose proof (node_safe_step e n Hrand Hn He) as Hw. apply wp_Ok in Hw as ([]&n'&E&Hn').
  exists n'. split; [exact E|]. intros id h. apply (registered _ Hn').
Qed.

(** A datagram reaches its socket and no other: one that carries a non-zero
    destination is handled by the open socket with that identifier, if there
    is one, exactly as if the socket had received it directly; every other
    socket, open or not, and the acceptors stay as they are. *)
Theorem dispatch_reaches_only_its_socket (n : Node) (data : list Z) (ep : endpoint) (id : Z) :
  (∀ i, is_u32 (random_uint32 i)) → reachable n → bytes_ok data → Socket.initial_number_ok data →
  DecodeDestinationSocketId data = Ok (true, id) → id ≠ 0 →
  ∃ n', DispatchFrom data ep n = Ok (tt, n') ∧ acceptors n' = acceptors n ∧
    (∀ h s, sockets n !! h = Some s →
       if bool_decide (Socket.IsOpen s = true ∧ Socket.Id s = id)
       then ∃ s', Socket.HandleReceiveFrom data ep (s, net n) = Ok (tt, (s', net n')) ∧
                  sockets n' !! h = Some s'
       else sockets n' !! h = Some s) ∧
    ((∀ h, ¬ has_id n h id) → n' = n).
Proof.
  intros Hrand Hn%reachable_ok Hb Hi E Hid; [|done].
  assert (route data (dispatcher_ n) = Ok (match sockets_ (dispatcher_ n) !! id with
    Some h => ToSocket h | None => UnknownSocket id end)) as Er.
  { unfold route. rewrite E, Res_bind_ok. cbn [fst snd negb]. by rewrite (proj2 (Z.eqb_neq _ _)). }
  assert (∀ m n', m n = Ok (tt, n') → (n0 ← get; t ← liftR (route data (dispatcher_ n0));
    match t with
    | ToAcceptor h => HandleReceiveFrom h data ep
    | ToSocket h => on_socket h (Socket.HandleReceiveFrom data ep)
    | NoAcceptor | UnknownSocket _ | Unaddressed => mret tt
    end) n = m n → DispatchFrom data ep n = Ok (tt, n')) as Hrun by by intros m n' <-.
  destruct (sockets_ (dispatcher_ n) !! id) as [h|] eqn:El.
  - pose proof (proj1 (registered _ Hn id h) El) as (s&Hs&Ho&Es).
    pose proof (wp_socket_receives h s data ep n Hn Hs Ho Hb Hi) as Hw.
    apply wp_Ok in Hw as ([]&n'&Em&_&s'&net'&E'&->). exists (put h (s', net') n).
    split; [eapply Hrun; [exact Em|unfold mbind, M_bind, get, liftR; by rewrite Er]|].
    split; [done|]. split.
    + intros h1 s1 Hs1. case_bool_decide as Hd.
      * assert (h1 = h) as -> by (eapply (has_id_inj n h1 h id); [done|by exists s1|by exists s]).
        assert (s1 = s) as -> by congruence. exists s'. split; [exact E'|].
        unfold put. cbn [sockets set_sockets set_net]. by rewrite lookup_insert_eq.
      * unfold put. cbn [sockets set_sockets set_net]. rewrite lookup_insert_ne; [done|].
        intros ->. apply Hd. simplify_eq. done.
    + intros Hno. exfalso. apply (Hno h). by exists s.
  - exists n. assert (∀ h, ¬ has_id n h id) as Hno.
    { intros h Hh%(registered _ Hn). congruence. }
    split; [apply (Hrun (λ n, Ok (tt, n))); [done|unfold mbind, M_bind, get, liftR; by rewrite Er]|].
    split; [done|]. split; [|done]. intros h s Hs. rewrite bool_decide_false; [done|].
    intros [Ho Es]. apply (Hno h). by exists s.
Qed.
End reachable.

(** ** Examples *)
Module MultiplexerExamples.
Import Demo.

Lemma sim_random i : is_u32 (random_uint32 i).
Proof. apply Sim.sim_random_u32. Qed.

Definition after (e : event) (n : Node) : Node := (from_ok (tt, n) (step e n)).2.

Lemma reachable_after e n :
  reachable n → event_ok e n → is_ok (step e n) = true → reachable (after e n).
Proof.
  intros Hn He E. eapply reachable_step; [exact Hn|exact He|].
  rewrite (from_ok_eq (tt, n) _ E). unfold after. by destruct (from_ok _ _) as [[] ?].
Qed.

Definition started : Node := new_node (MkWorld _ 0 0 []).
Definition created : Node := after (EvNewSocket 4 1%positive) started.
Definition connecting : Node := after (EvConnectTo 4 1%positive (remote 2)) created.

Lemma created_reachable : reachable created.
Proof.
  unfold created. apply reachable_after; [apply reachable_new| |].
  - split; [reflexivity|vm_compute; reflexivity].
  - vm_compute. reflexivity.
Qed.

Definition test {A} (p : A → bool) (x : option A) : bool :=
  match x with Some a => p a | None => false end.
Lemma test_Some {A} (p : A → bool) x : test p x = true → ∃ a, x = Some a ∧ p a = true.
Proof. destruct x; [eauto|done]. Qed.

Lemma connecting_reachable : reachable connecting.
Proof.
  unfold connecting. apply reachable_after; [exact created_reachable| |].
  - split.
    + exists 0%nat. split; [lia|]. vm_compute. reflexivity.
    + destruct (test_Some (λ s, negb (Socket.IsOpen s)) (sockets created !! 1%positive)) as (s&E&Hs).
      { vm_compute. reflexivity. }
      exists s. split; [exact E|by apply negb_true_iff].
  - vm_compute. reflexivity.
Qed.

(** A datagram to the socket that is connecting: its identifier is the fourth
    number that was drawn. *)
Definition keepalive : list Z := [0xc0; 1; 0; 0; 0; 0; 0; 0; 0; 0; 0; 0; 0xda; 0xa6; 0x6d; 0x14].

Lemma keepalive_ok : bytes_ok keepalive ∧ Socket.initial_number_ok keepalive.
Proof.
  split; [unfold keepalive; repeat (constructor; [by split; vm_compute|]); constructor|].
  intros new p E1 E2. injection E1 as <-. vm_compute in E2. discriminate E2.
Qed.

Lemma multiplexer_never_faults_witness :
  ∃ n', step (EvDispatch [(keepalive, remote 2); ([1; 2; 3], remote 3)]) connecting = Ok (tt, n') ∧
    ∀ id h, sockets_ (dispatcher_ n') !! id = Some h ↔
      ∃ s, sockets n' !! h = Some s ∧ Socket.IsOpen s = true ∧ Socket.Id s = id.
Proof.
  apply (multiplexer_never_faults connecting (EvDispatch [(keepalive, remote 2); ([1; 2; 3], remote 3)])).
  - exact sim_random.
  - exact connecting_reachable.
  - constructor; [exact keepalive_ok|]. constructor; [|constructor]. split.
    + repeat (constructor; [by split; vm_compute|]); constructor.
    + intros new p E1 E2. injection E1 as <-. vm_compute in E2. discriminate E2.
Defined.

Lemma dispatch_reaches_only_its_socket_witness :
  ∃ n', DispatchFrom keepalive (remote 2) connecting = Ok (tt, n') ∧
    acceptors n' = acceptors connecting.
Proof.
  destruct (dispatch_reaches_only_its_socket connecting keepalive (remote 2) 0xdaa66d14)
    as (n'&E&Ea&_).
  - exact sim_random.
  - exact connecting_reachable.
  - apply keepalive_ok.
  - apply keepalive_ok.
  - by vm_compute.
  - done.
  - exists n'. split; [exact E|exact Ea].
Defined.

End MultiplexerExamples.
