(* ===== verification/Accepting.v ===== *)
(** * Accepting connections

    The acceptor of [Multiplexer] as a queue: whatever the order in which
    requests arrive and sockets are offered, the [i]-th socket gets the [i]-th
    request. *)

From S2P Require Import Prelude Environment Packet ControlPackets Transport SlidingWindow CongestionControl.
From S2P Require Import Shared Decoded Dispatcher Multiplexer.
From S2P Require HandshakePacket Socket.

Section accept.
Context `{Environment} `{!IpAddressLaws}.

Inductive accept_event :=
  | Request (p : HandshakePacket.t) (ep : endpoint)   (** a handshake packet arrives *)
  | AcceptInto (h : handle).                           (** [AsyncAccept] of the socket at [h] *)

Definition accept_step (a : handle) (e : accept_event) : M Node unit :=
  match e with
  | Request p ep => HandleReceiveFrom a (wire_bytes p) ep
  | AcceptInto h => AsyncAccept a h
  end.

Fixpoint accept_run (a : handle) (es : list accept_event) : M Node unit :=
  match es with [] => mret tt | e :: es' => accept_step a e;; accept_run a es' end.

Definition requests (es : list accept_event) : list PendingRequest :=
  omap (λ e, match e with
             | Request p ep => Some (MkPendingRequest (HandshakePacket.SocketId p) ep)
             | AcceptInto _ => None end) es.
Definition accepted (es : list accept_event) : list handle :=
  omap (λ e, match e with Request _ _ => None | AcceptInto h => Some h end) es.

(** One accept operation at a time. *)
Definition one_at_a_time (es : list accept_event) : Prop :=
  ∀ es1 h es2, es = es1 ++ AcceptInto h :: es2 → (length (accepted es1) ≤ length (requests es1))%nat.

Definition with_peer (r : PendingRequest) (s : Socket.Socket) : Socket.Socket :=
  Socket.set_shared (MkPeer _ (remote_endpoint r) (remote_id r)) (Socket.tick_timer_ s)
    (Socket.congestion_control_ s) s.

Lemma SetPeer_eq h s r n (Q : unit → Node → Prop) :
  sockets n !! h = Some s →
  (∀ n', sockets n' = <[h := with_peer r s]> (sockets n) → acceptors n' = acceptors n → Q tt n') →
  wp (SetPeer h (remote_endpoint r) (remote_id r)) n Q.
Proof.
  intros Hs HQ. apply wp_bind. eapply wp_on_socket; [done|].
  apply Socket.wp_in_shared, wp_upd_peer. eapply wp_on_socket.
  { unfold put. cbn [sockets set_net set_sockets]. by rewrite lookup_insert_eq. }
  apply Socket.wp_in_shared, wp_upd_peer. apply HQ; [|done]. unfold put.
  cbn [sockets set_net set_sockets]. rewrite insert_insert_eq. destruct s. reflexivity.
Qed.

(** The acceptor after [es]: the requests that no socket took wait in order of
    arrival, or the last socket waits for one; the sockets have the peers. *)
Record accepting (a : handle) (es : list accept_event) (n : Node) : Prop := {
  accepting_acc : ∃ acc, acceptors n !! a = Some acc ∧
    pending_requests_ acc = drop (length (accepted es)) (requests es) ∧
    waiting_accept_socket_ acc =
      (if (length (requests es) <? length (accepted es))%nat then last (accepted es) else None);
  accepting_count : (length (accepted es) ≤ S (length (requests es)))%nat;
  accepting_peers i h r : accepted es !! i = Some h → requests es !! i = Some r →
    ∃ s, sockets n !! h = Some s ∧ Socket.RemoteEndpoint s = remote_endpoint r ∧
      Socket.RemoteId s = remote_id r;
}.

Lemma wp_accept_run_snoc a es e n (Q : unit → Node → Prop) :
  wp (accept_run a es) n (λ _ n', wp (accept_step a e) n' Q) → wp (accept_run a (es ++ [e])) n Q.
Proof.
  revert n. induction es as [|e' es IH]; intros n Hw; cbn [accept_run app] in *.
  - apply wp_bind. eapply wp_mono; [exact Hw|]. by intros [] n' ?.
  - apply wp_bind. unfold wp, mbind, M_bind in Hw. unfold wp at 1.
    destruct (accept_step a e' n) as [[[] n1]|]; [|done]. by apply IH.
Qed.

Lemma requests_app es1 es2 : requests (es1 ++ es2) = requests es1 ++ requests es2.
Proof. apply omap_app. Qed.
Lemma accepted_app es1 es2 : accepted (es1 ++ es2) = accepted es1 ++ accepted es2.
Proof. apply omap_app. Qed.

Definition exist (hs : list handle) (n : Node) : Prop := ∀ h, h ∈ hs → is_Some (sockets n !! h).

Lemma exist_insert hs h s n n' :
  exist hs n → sockets n' = <[h := s]> (sockets n) → exist hs n'.
Proof.
  intros He E h' Hh'. rewrite E. destruct (decide (h' = h)) as [->|].
  - by rewrite lookup_insert_eq.
  - rewrite lookup_insert_ne by congruence. by apply He.
Qed.

(** The [i]-th socket gets the [i]-th request; the earlier ones keep theirs. *)
Lemma peers_extended a es h s r n n' (hs : list handle) (rs : list PendingRequest) i :
  accepting a es n → NoDup hs → hs !! i = Some h → rs !! i = Some r →
  sockets n !! h = Some s → sockets n' = <[h := with_peer r s]> (sockets n) →
  (∀ j, (j < i)%nat → hs !! j = accepted es !! j ∧ rs !! j = requests es !! j) →
  (length hs = S i ∨ length rs = S i) →
  ∀ j h' r', hs !! j = Some h' → rs !! j = Some r' →
    ∃ s, sockets n' !! h' = Some s ∧ Socket.RemoteEndpoint s = remote_endpoint r' ∧
      Socket.RemoteId s = remote_id r'.
Proof.
  intros Ha Hnd Hh Hr Hs En Hbefore Hlen j h' r' Hh' Hr'. rewrite En.
  assert (j ≤ i)%nat as Hj by (apply lookup_lt_Some in Hh', Hr'; lia).
  destruct (decide (j = i)) as [->|].
  - simplify_eq. rewrite lookup_insert_eq. by eexists.
  - destruct (Hbefore j) as [Eh Er]; [lia|]. rewrite Eh in Hh'. rewrite Er in Hr'.
    rewrite lookup_insert_ne; [by eapply accepting_peers|].
    intros <-. rewrite <-Eh in Hh'. by pose proof (NoDup_lookup hs i j h Hnd Hh Hh').
Qed.

Lemma accepted_request es p ep : accepted (es ++ [Request p ep]) = accepted es.
Proof. rewrite accepted_app. apply app_nil_r. Qed.
Lemma requests_accept es h : requests (es ++ [AcceptInto h]) = requests es.
Proof. rewrite requests_app. apply app_nil_r. Qed.

Lemma accepting_request a es p ep n (all : list handle) :
  accepting a es n → exist all n → NoDup (accepted es) → (∀ h, h ∈ accepted es → h ∈ all) →
  HandshakePacket.wf p →
  wp (accept_step a (Request p ep)) n
    (λ _ n', accepting a (es ++ [Request p ep]) n' ∧ exist all n').
Proof.
  intros Ha He Hnd Hall Hp. destruct (accepting_acc _ _ _ Ha) as (acc&Hl&Epen&Ewait).
  cbn [accept_step]. unfold HandleReceiveFrom. apply wp_bind. eapply wp_liftR; [reflexivity|].
  apply wp_bind. eapply wp_liftR.
  { apply HandshakePacket.handshake_Decode_put; [done|]. unfold send_buffer, buffer_size.
    rewrite length_replicate. unfold RudpParameters.max_size. lia. }
  cbn [fst snd when]. apply wp_bind. eapply wp_acceptor; [done|].
  set (r := MkPendingRequest (HandshakePacket.SocketId p) ep).
  assert (requests (es ++ [Request p ep]) = requests es ++ [r]) as Ereq by apply requests_app.
  pose proof (accepting_count _ _ _ Ha) as Hcount.
  rewrite Ewait. destruct (_ <? _)%nat eqn:Elt.
  - apply Nat.ltb_lt in Elt.
    assert (∃ h, last (accepted es) = Some h) as [h Elast].
    { destruct (last (accepted es)) eqn:E; [eauto|]. apply last_None in E. rewrite E in Elt. cbn in Elt. lia. }
    rewrite Elast. rewrite last_lookup in Elast.
    assert (length (accepted es) = S (length (requests es))) as Elen by lia.
    rewrite Elen in Elast. cbn [pred] in Elast.
    destruct (He h) as [s Hs]; [by eapply Hall, list_elem_of_lookup_2|].
    apply wp_bind. change ep with (remote_endpoint r) at 1.
    change (HandshakePacket.SocketId p) with (remote_id r).
    eapply SetPeer_eq; [done|]. intros n' Es Ea. apply wp_bind, wp_upd_acceptor, wp_upd_acceptor.
    split; [|by eapply exist_insert].
    split.
    + eexists. cbn [acceptors set_acceptors]. rewrite lookup_alter_eq, lookup_alter_eq, Ea, Hl.
      split; [reflexivity|]. cbn [pending_requests_ waiting_accept_socket_ accept_call set_waiting].
      rewrite accepted_request, Ereq, Epen, length_app, Elen. cbn [length].
      rewrite !drop_ge by (rewrite ?length_app; cbn; lia). split; [done|].
      by rewrite (proj2 (Nat.ltb_ge _ _)) by lia.
    + rewrite accepted_request, Ereq, length_app. cbn [length]. lia.
    + rewrite accepted_request, Ereq. cbn [sockets set_acceptors].
      eapply (peers_extended _ _ h s r n n' _ _ (length (requests es))); [done|done|done| |done|done| |by left].
      * by rewrite lookup_app_r, Nat.sub_diag by lia.
      * intros j Hj. by rewrite lookup_app_l.
  - apply Nat.ltb_ge in Elt. apply wp_upd_acceptor. split; [|done].
    split.
    + eexists. cbn [acceptors set_acceptors]. rewrite lookup_alter_eq, Hl. split; [reflexivity|].
      cbn [pending_requests_ waiting_accept_socket_ set_pending].
      rewrite accepted_request, Ereq, Epen, length_app. cbn [length].
      rewrite drop_app_le by done. split; [done|].
      rewrite Ewait, !(proj2 (Nat.ltb_ge _ _)) by lia. done.
    + rewrite accepted_request, Ereq, length_app. cbn [length]. lia.
    + rewrite accepted_request, Ereq. intros i h' r' Hh' Hr'. cbn [sockets set_acceptors].
      eapply accepting_peers; [done|done|]. apply lookup_lt_Some in Hh' as Hi.
      rewrite lookup_app_l in Hr' by lia. done.
Qed.

Lemma accepting_accept a es h n (all : list handle) :
  accepting a es n → exist all n → NoDup (accepted es ++ [h]) → h ∈ all →
  (length (accepted es) ≤ length (requests es))%nat →
  wp (accept_step a (AcceptInto h)) n
    (λ _ n', accepting a (es ++ [AcceptInto h]) n' ∧ exist all n').
Proof.
  intros Ha He Hnd Hall Hle. destruct (accepting_acc _ _ _ Ha) as (acc&Hl&Epen&Ewait).
  cbn [accept_step]. apply wp_bind, wp_upd_acceptor, wp_bind. eapply wp_acceptor.
  { cbn [acceptors set_acceptors]. by rewrite lookup_alter_eq, Hl. }
  cbn [accept_call waiting_accept_socket_ pending_requests_].
  rewrite (proj2 (Nat.ltb_ge _ _)) in Ewait by done.
  apply wp_bind, wp_assertb; [by apply bool_decide_true|].
  assert (accepted (es ++ [AcceptInto h]) = accepted es ++ [h]) as Eacc by apply accepted_app.
  rewrite Epen. destruct (drop _ _) as [|r rest] eqn:Ed.
  - apply wp_upd_acceptor. split; [|done].
    assert (length (requests es) = length (accepted es)) as Elen.
    { apply (f_equal length) in Ed. rewrite length_drop in Ed. cbn in Ed. lia. }
    split.
    + eexists. cbn [acceptors set_acceptors]. rewrite lookup_alter_eq, lookup_alter_eq, Hl.
      split; [reflexivity|]. cbn [pending_requests_ waiting_accept_socket_ accept_call set_waiting].
      rewrite requests_accept, Eacc, last_snoc, length_app, Epen. cbn [length].
      rewrite drop_ge by lia. split; [done|]. by rewrite (proj2 (Nat.ltb_lt _ _)) by lia.
    + rewrite requests_accept, Eacc, length_app. cbn [length]. lia.
    + rewrite requests_accept, Eacc. intros i h' r' Hh' Hr'. cbn [sockets set_acceptors].
      eapply accepting_peers; [done| |done]. apply lookup_lt_Some in Hr' as Hi.
      rewrite lookup_app_l in Hh' by lia. done.
  - destruct (He h Hall) as [s Hs]. apply wp_bind. eapply SetPeer_eq; [done|].
    intros n' Es Ea. apply wp_bind, wp_upd_acceptor, wp_upd_acceptor.
    assert (requests es !! length (accepted es) = Some r) as Hr.
    { rewrite <-(Nat.add_0_r (length _)), <-lookup_drop, Ed. done. }
    apply lookup_lt_Some in Hr as Hlt.
    split; [|by eapply exist_insert]. split.
    + eexists. cbn [acceptors set_acceptors]. rewrite lookup_alter_eq, lookup_alter_eq, Ea.
      cbn [acceptors set_acceptors]. rewrite lookup_alter_eq, Hl. split; [reflexivity|].
      cbn [pending_requests_ waiting_accept_socket_ accept_call set_pending].
      rewrite requests_accept, Eacc, length_app. cbn [length].
      rewrite <-(drop_drop _ 1 (length (accepted es))), Ed. split; [done|].
      by rewrite (proj2 (Nat.ltb_ge _ _)) by lia.
    + rewrite requests_accept, Eacc, length_app. cbn [length]. lia.
    + rewrite requests_accept, Eacc. cbn [sockets set_acceptors].
      eapply (peers_extended _ _ h s r n n' _ _ (length (accepted es))); [done|done| |done|done|done| |].
      * by rewrite lookup_app_r, Nat.sub_diag by lia.
      * intros j Hj. by rewrite lookup_app_l.
      * left. rewrite length_app. cbn. lia.
Qed.

(** C13: Connections are accepted in the order of their requests: for any
    interleaving of handshake packets and accept operations (one at a time,
    into different sockets), no step fails, the [i]-th socket is connected to
    the peer of the [i]-th request, and the requests that no socket took yet
    wait in order of arrival. *)
Theorem accepts_in_order (a : handle) (es : list accept_event) (n : Node) :
  acceptors n !! a = Some (MkAcceptor [] None []) → one_at_a_time es → NoDup (accepted es) →
  (∀ h, h ∈ accepted es → is_Some (sockets n !! h)) →
  (∀ p ep, Request p ep ∈ es → HandshakePacket.wf p) →
  ∃ n' acc, accept_run a es n = Ok (tt, n') ∧ acceptors n' !! a = Some acc ∧
    pending_requests_ acc = drop (length (accepted es)) (requests es) ∧
    ∀ i h r, accepted es !! i = Some h → requests es !! i = Some r →
      ∃ s, sockets n' !! h = Some s ∧ Socket.RemoteEndpoint s = remote_endpoint r ∧
        Socket.RemoteId s = remote_id r.
Proof.
  intros Ha Hone Hnd Hex Hwf.
  assert (wp (accept_run a es) n (λ _ n', accepting a es n' ∧ exist (accepted es) n')) as Hw.
  { assert (∀ es', es' `prefix_of` es →
      wp (accept_run a es') n (λ _ n', accepting a es' n' ∧ exist (accepted es) n')) as Hpre;
      [|by apply Hpre].
    intros es'. induction es' as [|e es' IH] using rev_ind; intros [k Ek].
    - apply wp_ret. split; [|done]. split; [by eexists|cbn; lia|]. intros i h r Hh. done.
    - rewrite <-app_assoc in Ek. cbn [app] in Ek.
      apply wp_accept_run_snoc. eapply wp_mono; [apply IH; by exists (e :: k)|].
      intros [] n1 [Ha1 He1].
      assert (NoDup (accepted (es' ++ [e]))) as Hnd'.
      { rewrite Ek, cons_middle, app_assoc, accepted_app in Hnd. by apply NoDup_app in Hnd as (?&_). }
      assert (∀ h, h ∈ accepted (es' ++ [e]) → h ∈ accepted es) as Hsub.
      { intros h Hh. rewrite Ek, cons_middle, app_assoc, accepted_app. apply elem_of_app. by left. }
      rewrite accepted_app in Hnd', Hsub. destruct e as [p ep|h].
      + eapply accepting_request; [done|done|by apply NoDup_app in Hnd' as (?&_)| |].
        * intros h Hh. apply Hsub, elem_of_app. by left.
        * apply (Hwf p ep). rewrite Ek. apply elem_of_app. right. by left.
      + eapply accepting_accept; [done|done|done| |by eapply Hone].
        apply Hsub, elem_of_app. right. by left. }
  apply wp_Ok in Hw as ([]&n'&E&[(acc&Hl&Ep&_) _ Hpeers]&_).
  exists n', acc. by split_and!.
Qed.
End accept.

(** ** Examples *)
Module AcceptingExamples.
Import Demo MultiplexerExamples.

(** Two sockets, and an acceptor at address 9. *)
Definition listening : Node :=
  after (EvNewAcceptor 9%positive) (after (EvNewSocket 4 2%positive) created).
Definition request (id : Z) : HandshakePacket.t :=
  HandshakePacket.Mk (ControlPacket.Mk HandshakePacket.kPacketType 0 0 0) 4
    HandshakePacket.kStreamSocketType 0 0 0 1 id 0 (replicate 16 0).
Definition arrivals : list accept_event :=
  [Request (request 7) (remote 3); AcceptInto 2%positive; AcceptInto 1%positive;
   Request (request 8) (remote 4); Request (request 9) (remote 5)].

Lemma accepts_in_order_witness :
  ∃ n' acc, accept_run 9%positive arrivals listening = Ok (tt, n') ∧
    acceptors n' !! 9%positive = Some acc ∧
    pending_requests_ acc = [MkPendingRequest 9 (remote 5)].
Proof.
  destruct (accepts_in_order 9%positive arrivals listening) as (n'&acc&E&El&Ep&_).
  - destruct (test_Some (λ a, match a with MkAcceptor [] None [] => true | _ => false end)
      (acceptors listening !! 9%positive)) as ([[|] [|] [|]]&E&Hs); done.
  - intros es1 h es2 E. unfold arrivals in E.
    do 5 (destruct es1 as [|e es1]; [try discriminate E; apply Nat.leb_le; reflexivity|];
      injection E as <- E).
    by destruct es1.
  - repeat constructor; set_solver.
  - intros h Hh. unfold arrivals, accepted in Hh. cbn in Hh.
    assert (h = 2%positive ∨ h = 1%positive) as [->| ->] by set_solver.
    + destruct (test_Some (λ _, true) (sockets listening !! 2%positive)) as (s&E&_);
        [vm_compute; reflexivity|by exists s].
    + destruct (test_Some (λ _, true) (sockets listening !! 1%positive)) as (s&E&_);
        [vm_compute; reflexivity|by exists s].
  - intros p ep Hp. assert (p = request 7 ∨ p = request 8 ∨ p = request 9) as [->|[->| ->]] by set_solver;
      repeat constructor; by vm_compute.
  - exists n', acc. split; [exact E|]. split; [exact El|exact Ep].
Defined.
End AcceptingExamples.
