(* ===== verification/Connection.v ===== *)
(** * Messages over a socket

    Models src/maidsafe/transport/rudp_connection.cc: one conversation.  A
    connection sends a message as its length in four bytes followed by its
    bytes, and reads one the same way; a deadline timer watches its progress.

    The handlers that are bound to asynchronous operations are in the state
    ([handlers]) until the operation completes; [complete] runs one of them.
    They run one at a time, in a strand.  Tasks that are dispatched from within
    the strand run at once, as asio does; the ones posted from outside it
    wait among the handlers.  What the connection tells its transport, in
    [signals], newest first, are the calls of [on_error_], [RemoveConnection] and
    [on_message_received_], and of the functor of [Connect].  The reply of the
    application to a message is the parameter [respond]. *)

From S2P Require Import Prelude Environment ByteOrder Transport Shared Dispatcher Frames.
From S2P Require Socket.

Inductive TimeoutState := kNoTimeout | kSending | kReceiving.

Inductive handler :=
  | HServerConnect | HClientConnect | HSimpleClientConnect
  | HReadSize | HReadData | HWrite
  | HFlush                                  (** [DoClose], when flushed *)
  | HTick | HCheckTimeout
  | HDispatchMessage | HStartWrite | HClose. (** posted tasks *)

(** A handler and the number of calls made on its timer before it could complete. *)
Record pending := MkPending { p_handler : handler; p_since : nat }.

Inductive signal :=
  | SError (condition : TransportCondition)
  | SRemoveConnection
  | SMessageReceived (message : list Z)
  | SConnectResult (condition : TransportCondition).

#[export] Instance handler_eq_dec : EqDecision handler.
Proof. solve_decision. Defined.
#[export] Instance signal_eq_dec : EqDecision signal.
Proof. solve_decision. Defined.

Record Connection `{Environment} := MkConnection {
  attached : bool;                           (** [transport_] can be locked *)
  timer_ : ptime;                            (** when [timer_] expires *)
  response_deadline_ : ptime;
  remote_endpoint_ : endpoint;
  buffer_ : list Z;
  data_size_ : Z;
  data_received_ : Z;
  timeout_for_response_ : Z;
  timeout_state_ : TimeoutState;
}.
Arguments MkConnection {_}.

Record State `{Environment} := MkState {
  conn : Connection;
  socket_ : Socket.Socket;
  net : Socket.Net;
  read_at : nat;                             (** where in [buffer_] the socket reads to next *)
  handlers : list pending;
  signals : list signal;
}.
Arguments MkState {_}.

Definition kMaxTransportMessageSize : Z := 67108864.

Section connection.
Context `{Environment} (fuel : nat) (this : handle) (respond : list Z → list Z * Z).

(** The constructor, given the constructed socket. *)
Definition new_connection (remote : endpoint) (s : Socket.Socket) (n : Socket.Net) : State :=
  MkState (MkConnection true not_a_date_time not_a_date_time remote [] 0 0
             kDefaultInitialTimeout kNoTimeout) s n 0 [] [].

Definition upd_conn (f : Connection → Connection) : M State unit :=
  modify (λ s, MkState (f (conn s)) (socket_ s) (net s) (read_at s) (handlers s) (signals s)).
Definition set_attached (v : bool) (c : Connection) : Connection :=
  MkConnection v (timer_ c) (response_deadline_ c) (remote_endpoint_ c) (buffer_ c) (data_size_ c)
    (data_received_ c) (timeout_for_response_ c) (timeout_state_ c).
Definition set_timer (v : ptime) (c : Connection) : Connection :=
  MkConnection (attached c) v (response_deadline_ c) (remote_endpoint_ c) (buffer_ c) (data_size_ c)
    (data_received_ c) (timeout_for_response_ c) (timeout_state_ c).
Definition set_response_deadline (v : ptime) (c : Connection) : Connection :=
  MkConnection (attached c) (timer_ c) v (remote_endpoint_ c) (buffer_ c) (data_size_ c)
    (data_received_ c) (timeout_for_response_ c) (timeout_state_ c).
Definition set_buffer (v : list Z) (c : Connection) : Connection :=
  MkConnection (attached c) (timer_ c) (response_deadline_ c) (remote_endpoint_ c) v (data_size_ c)
    (data_received_ c) (timeout_for_response_ c) (timeout_state_ c).
Definition set_data_size (v : Z) (c : Connection) : Connection :=
  MkConnection (attached c) (timer_ c) (response_deadline_ c) (remote_endpoint_ c) (buffer_ c) v
    (data_received_ c) (timeout_for_response_ c) (timeout_state_ c).
Definition set_data_received (v : Z) (c : Connection) : Connection :=
  MkConnection (attached c) (timer_ c) (response_deadline_ c) (remote_endpoint_ c) (buffer_ c)
    (data_size_ c) v (timeout_for_response_ c) (timeout_state_ c).
Definition set_timeout_for_response (v : Z) (c : Connection) : Connection :=
  MkConnection (attached c) (timer_ c) (response_deadline_ c) (remote_endpoint_ c) (buffer_ c)
    (data_size_ c) (data_received_ c) v (timeout_state_ c).
Definition set_timeout_state (v : TimeoutState) (c : Connection) : Connection :=
  MkConnection (attached c) (timer_ c) (response_deadline_ c) (remote_endpoint_ c) (buffer_ c)
    (data_size_ c) (data_received_ c) (timeout_for_response_ c) v.

Definition signal_ (e : signal) : M State unit :=
  modify (λ s, MkState (conn s) (socket_ s) (net s) (read_at s) (handlers s) (e :: signals s)).
Definition await (p : pending) : M State unit :=
  modify (λ s, MkState (conn s) (socket_ s) (net s) (read_at s) (handlers s ++ [p]) (signals s)).
Definition post (h : handler) : M State unit := await (MkPending h 0).

Definition now : M State ptime :=
  zoom (λ s, (net s).2)
    (λ w s, MkState (conn s) (socket_ s) ((net s).1, w) (read_at s) (handlers s) (signals s)) Now.
Definition expires_at (t : ptime) : M State unit := upd_conn (set_timer t).
Definition expires_from_now (d : Z) : M State unit := t ← now; expires_at (ptime_add t d).

(** [m] runs on the socket.  The bytes it reads (the ones by which [read_into]
    grows) go into [buffer_], into which the socket's read buffer points. *)
Definition write_at (off : nat) (bytes : list Z) (buffer : list Z) : list Z :=
  take off buffer ++ bytes ++ drop (off + length bytes) buffer.
Definition read_bytes (s : Socket.Socket) : list Z := Socket.read_into (Socket.waiting_read_ s).
Definition in_socket {A} (m : M Socket.State A) : M State A := λ s,
  match m (socket_ s, net s) with
  | Ok (a, (s', n')) =>
      let bytes := drop (length (read_bytes (socket_ s))) (read_bytes s') in
      Ok (a, MkState (set_buffer (write_at (read_at s) bytes (buffer_ (conn s))) (conn s)) s' n'
               (read_at s + length bytes) (handlers s) (signals s))
  | Fault f => Fault f
  end.

(** [m] begins by waiting on the timer whose calls are [calls]. *)
Definition async (h : handler) (calls : Socket.Socket → Socket.deadline) (m : M Socket.State unit) :
    M State unit :=
  s ← get;
  in_socket m;;
  await (MkPending h (S (length (calls (socket_ s))))).

Definition connect_calls (s : Socket.Socket) := Socket.op_timer (Socket.waiting_connect_ s).
Definition read_calls (s : Socket.Socket) := Socket.read_timer (Socket.waiting_read_ s).
Definition write_calls (s : Socket.Socket) := Socket.write_timer (Socket.waiting_write_ s).
Definition flush_calls (s : Socket.Socket) := Socket.op_timer (Socket.waiting_flush_ s).

(** ** Closing *)

Definition DoClose : M State unit :=
  s ← get;
  if attached (conn s) then
    signal_ SRemoveConnection;;
    upd_conn (set_attached false);;
    async HFlush flush_calls Socket.AsyncFlush;;
    expires_from_now kStallTimeout
  else in_socket Socket.Close.

Definition CloseOnError (error : TransportCondition) : M State unit :=
  s ← get;
  when (attached (conn s)) (signal_ (SError error));;
  DoClose.

Definition Stopped (s : State) : bool := negb (attached (conn s)) || negb (Socket.IsOpen (socket_ s)).

(** ** Timeouts

    [ec]: an error other than [operation_aborted]. *)
Definition CheckTimeout (ec : bool) : M State unit :=
  if ec then in_socket Socket.Close
  else
    s ← get;
    if negb (Socket.IsOpen (socket_ s)) then
      (match timeout_state_ (conn s) with kSending => CloseOnError kSendStalled | _ => mret tt end)
    else
      t ← now;
      when (ptime_leb (timer_ (conn s)) t) (
        match timeout_state_ (conn s) with
        | kSending => CloseOnError kSendTimeout
        | _ => CloseOnError kReceiveTimeout
        end);;
      post HCheckTimeout.

Definition StartTick : M State unit := post HTick.

Definition HandleTick : M State unit :=
  s ← get;
  when (Socket.IsOpen (socket_ s)) (
    (match timeout_state_ (conn s) with
     | kSending =>
         sent_length ← in_socket Socket.SentLength;
         when (0 <? sent_length) (expires_from_now kStallTimeout);;
         slow ← in_socket (Socket.IsSlowTransmission sent_length);
         when slow (CloseOnError kSendTimeout)
     | _ => mret tt
     end);;
    s ← get;
    when (Socket.IsOpen (socket_ s)) StartTick).

(** ** Reading *)

Definition resize (n : nat) (l : list Z) : list Z := take n l ++ replicate (n - length l) 0.

(** [AsyncRead] into the part of [buffer_] from [off] on.  A read of nothing
    leaves the socket's buffer where it points. *)
Definition read_from (off : nat) (transfer_at_least : Z) (h : handler) : M State unit :=
  s ← get;
  let room := (length (buffer_ (conn s)) - off)%nat in
  when (negb (room =? 0)%nat) (modify (λ s,
    MkState (conn s)
      (Socket.set_read (Socket.read_set_buffer (Socket.read_buffer (Socket.waiting_read_ (socket_ s))) []
         (Socket.waiting_read_ (socket_ s))) (socket_ s))
      (net s) off (handlers s) (signals s)));;
  async h read_calls (Socket.AsyncRead room transfer_at_least).

Definition StartReadSize : M State unit :=
  s ← get;
  assertb (negb (Stopped s));;
  upd_conn (λ c, set_buffer (resize 4 (buffer_ c)) c);;
  read_from 0 4 HReadSize;;
  t ← now;
  upd_conn (λ c, set_response_deadline (ptime_add t (timeout_for_response_ c)) c);;
  upd_conn (λ c, set_timer
    (if ptime_ltb (response_deadline_ c) (ptime_add t kStallTimeout)
     then ptime_add t kStallTimeout else response_deadline_ c) c);;
  upd_conn (set_timeout_state kReceiving).

Definition StartReadData : M State unit :=
  s ← get;
  if Stopped s then CloseOnError kNoConnection
  else
    best ← liftR (Socket.BestReadBufferSize (socket_ s));
    let c := conn s in
    let buffer_size := u64 (data_received_ c + Z.min best (u64 (data_size_ c - data_received_ c))) in
    upd_conn (λ c, set_buffer (resize (Z.to_nat buffer_size) (buffer_ c)) c);;
    read_from (Z.to_nat (data_received_ c)) 1 HReadData.

Definition HandleReadSize (ec : bool) : M State unit :=
  s ← get;
  if Stopped s then CloseOnError kReceiveTimeout
  else if ec then CloseOnError kReceiveFailure
  else
    b0 ← liftR (byte_at (buffer_ (conn s)) 0);
    b1 ← liftR (byte_at (buffer_ (conn s)) 1);
    b2 ← liftR (byte_at (buffer_ (conn s)) 2);
    b3 ← liftR (byte_at (buffer_ (conn s)) 3);
    upd_conn (set_data_size (u64 (size_of_bytes b0 b1 b2 b3)));;
    upd_conn (set_data_received 0);;
    expires_from_now kStallTimeout;;
    StartReadData.

Definition HandleReadData (ec : bool) (length : Z) : M State unit :=
  s ← get;
  if Stopped s then CloseOnError kReceiveTimeout
  else if ec then CloseOnError kReceiveFailure
  else
    upd_conn (λ c, set_data_received (u64 (data_received_ c + length)) c);;
    s ← get;
    if data_received_ (conn s) =? data_size_ (conn s) then
      expires_at pos_infin;;
      post HDispatchMessage
    else
      when (0 <? length) (expires_from_now kStallTimeout);;
      slow ← in_socket (Socket.IsSlowTransmission length);
      when slow (CloseOnError kReceiveTimeout);;
      StartReadData.

(** ** Writing *)

Definition EncodeData (data : list Z) : M State unit :=
  let msg_size := DataSize (Z.of_nat (length data)) in
  if kMaxTransportMessageSize <? u64 msg_size then CloseOnError kMessageSizeTooLarge
  else upd_conn (set_buffer (size_bytes msg_size ++ data)).

Definition StartWrite : M State unit :=
  s ← get;
  if Stopped s then CloseOnError kNoConnection
  else
    async HWrite write_calls (Socket.AsyncWrite (buffer_ (conn s)));;
    expires_from_now kStallTimeout;;
    upd_conn (set_timeout_state kSending).

Definition HandleWrite (ec : bool) : M State unit :=
  s ← get;
  if Stopped s then CloseOnError kNoConnection
  else if ec then CloseOnError kSendFailure
  else
    expires_at pos_infin;;
    upd_conn (set_timeout_state kNoTimeout);;
    if timeout_for_response_ (conn s) =? kImmediateTimeout then DoClose else StartReadSize.

Definition DispatchMessage : M State unit :=
  s ← get;
  when (attached (conn s)) (
    signal_ (SMessageReceived (buffer_ (conn s)));;
    let '(response, response_timeout) := respond (buffer_ (conn s)) in
    if bool_decide (response = []) then post HClose
    else
      EncodeData response;;
      upd_conn (set_timeout_for_response response_timeout);;
      post HStartWrite).

(** ** Connecting *)

Definition StartServerConnect : M State unit :=
  async HServerConnect connect_calls (Socket.AsyncConnect fuel this);;
  expires_from_now kDefaultInitialTimeout;;
  upd_conn (set_timeout_state kSending).

Definition StartClientConnect : M State unit :=
  s ← get;
  async HClientConnect connect_calls (Socket.AsyncConnect_to fuel this (remote_endpoint_ (conn s)));;
  expires_from_now kDefaultInitialTimeout;;
  upd_conn (set_timeout_state kSending).

Definition SimpleClientConnect : M State unit :=
  s ← get;
  async HSimpleClientConnect connect_calls
    (Socket.AsyncConnect_to fuel this (remote_endpoint_ (conn s)));;
  expires_from_now kDefaultInitialTimeout;;
  upd_conn (set_timeout_state kSending).

Definition HandleServerConnect (ec : bool) : M State unit :=
  s ← get;
  if Stopped s then mret tt
  else if ec then CloseOnError kReceiveFailure else StartReadSize.

Definition HandleClientConnect (ec : bool) : M State unit :=
  s ← get;
  if Stopped s then mret tt
  else if ec then CloseOnError kSendFailure else StartWrite.

Definition HandleSimpleClientConnect (ec : bool) : M State unit :=
  s ← get;
  if Stopped s then mret tt
  else signal_ (SConnectResult (if ec then kConnectError else kSuccess)).

Definition StartReceiving : M State unit := StartTick;; StartServerConnect;; CheckTimeout false.

Definition StartSending (data : list Z) (timeout : Z) : M State unit :=
  EncodeData data;;
  upd_conn (set_timeout_for_response timeout);;
  StartTick;; StartClientConnect;; CheckTimeout false.

Definition Connect (timeout : Z) : M State unit :=
  upd_conn (set_timeout_for_response timeout);;
  StartTick;; SimpleClientConnect;; CheckTimeout false.

(** ** Running a handler *)

Definition is_cancel (c : Socket.timer_call) : bool :=
  match c with Socket.cancel => true | Socket.async_wait => false end.
Definition completed (since : nat) (calls : Socket.deadline) : bool :=
  existsb is_cancel (take (length calls - since) calls).

(** Timers other than those of pending operations may complete at any time. *)
Definition ready (p : pending) (s : State) : bool :=
  match p_handler p with
  | HServerConnect | HClientConnect | HSimpleClientConnect =>
      completed (p_since p) (connect_calls (socket_ s))
  | HReadSize | HReadData => completed (p_since p) (read_calls (socket_ s))
  | HWrite => completed (p_since p) (write_calls (socket_ s))
  | HFlush => completed (p_since p) (flush_calls (socket_ s))
  | HTick | HCheckTimeout | HDispatchMessage | HStartWrite | HClose => true
  end.

Definition failed (ec : Socket.error_code) : bool :=
  match ec with Socket.no_error => false | Socket.operation_aborted => true end.

Definition run_handler (h : handler) (ec : bool) : M State unit :=
  s ← get;
  let connect_ec := failed (Socket.connect_result (socket_ s)) in
  let '(read_ec, length) := Socket.read_result (socket_ s) in
  match h with
  | HServerConnect => HandleServerConnect connect_ec
  | HClientConnect => HandleClientConnect connect_ec
  | HSimpleClientConnect => HandleSimpleClientConnect connect_ec
  | HReadSize => HandleReadSize (failed read_ec)
  | HReadData => HandleReadData (failed read_ec) length
  | HWrite => HandleWrite (failed (Socket.write_result (socket_ s)).1)
  | HFlush | HClose => DoClose
  | HTick => in_socket Socket.TickOp;; HandleTick
  | HCheckTimeout => CheckTimeout ec
  | HDispatchMessage => DispatchMessage
  | HStartWrite => StartWrite
  end.

(** The [i]-th handler runs, if its operation is complete. *)
Definition complete (i : nat) (ec : bool) : M State unit :=
  s ← get;
  match handlers s !! i with
  | Some p =>
      when (ready p s) (
        modify (λ s, MkState (conn s) (socket_ s) (net s) (read_at s) (delete i (handlers s)) (signals s));;
        run_handler (p_handler p) ec)
  | None => mret tt
  end.
End connection.

(** ** What the transport is told *)

Section signals.
Context `{Environment} (fuel : nat) (this : handle) (respond : list Z → list Z * Z).

(** Neither an error nor the removal. *)
Definition ordinary (e : signal) : Prop :=
  match e with SError _ | SRemoveConnection => False | _ => True end.

Definition signals_ok (s : State) : Prop :=
  if attached (conn s) then Forall ordinary (signals s)
  else ∃ rest, Forall ordinary rest ∧
    (signals s = SRemoveConnection :: rest ∨
     ∃ e, signals s = SRemoveConnection :: SError e :: rest).

(** [m] keeps that, and what was signalled. *)
Definition tells {A} (m : M State A) : Prop :=
  ∀ s a s', m s = Ok (a, s') → signals_ok s → signals_ok s' ∧ signals s `suffix_of` signals s'.

(** [m] signals nothing and stays as attached as it was. *)
Definition silent {A} (m : M State A) : Prop :=
  ∀ s a s', m s = Ok (a, s') → signals s' = signals s ∧ attached (conn s') = attached (conn s).

Lemma silent_bind {A B} (m : M State A) (k : A → M State B) :
  silent m → (∀ a, silent (k a)) → silent (m ≫= k).
Proof.
  intros Hm Hk s b s' (a&s1&E1&E2)%M_bind_inv. apply Hm in E1 as [??]. eapply Hk in E2 as [??]. split; congruence.
Qed.
Lemma silent_ret {A} (a : A) : silent (mret a).
Proof. by intros s b s' [= _ <-]. Qed.
Lemma silent_get : silent get.
Proof. by intros s b s' [= _ <-]. Qed.
Lemma silent_when b m : silent m → silent (when b m).
Proof. destruct b; [done|intros; apply silent_ret]. Qed.
Lemma silent_liftR {A} (r : Res A) : silent (liftR r).
Proof. intros s b s'. unfold liftR. destruct r; [|done]. by intros [= _ <-]. Qed.
Lemma silent_assertb b : silent (assertb b).
Proof. unfold assertb. destruct b; [apply silent_ret|by intros ???]. Qed.
Lemma silent_upd_conn f : (∀ c, attached (f c) = attached c) → silent (upd_conn f).
Proof. intros Hf s b s' [= _ <-]. cbn. by rewrite Hf. Qed.
Lemma silent_await p : silent (await p).
Proof. by intros s b s' [= _ <-]. Qed.
Lemma silent_modify f :
  (∀ s, signals (f s) = signals s ∧ attached (conn (f s)) = attached (conn s)) → silent (modify f).
Proof. intros Hf s b s' [= _ <-]. apply Hf. Qed.
Lemma silent_now : silent now.
Proof. by intros s b s' [= _ <-]. Qed.
Lemma silent_in_socket {A} (m : M Socket.State A) : silent (in_socket m).
Proof. intros s a s'. unfold in_socket. destruct (m _) as [[b [x n]]|]; [|done]. by intros [= _ <-]. Qed.
Ltac silent := repeat first
  [ done | apply silent_bind; [|intros ?] | apply silent_get | apply silent_when | apply silent_ret
  | apply silent_liftR | apply silent_assertb | apply silent_await | apply silent_now
  | apply silent_in_socket | apply silent_upd_conn; done | apply silent_modify; done ].
Lemma silent_async h calls m : silent (async h calls m).
Proof. unfold async. silent. Qed.
Lemma silent_expires_from_now d : silent (expires_from_now d).
Proof. unfold expires_from_now, expires_at. silent. Qed.
Lemma silent_read_from off n h : silent (read_from off n h).
Proof.
  unfold read_from. apply silent_bind; [silent|intros s]. cbv zeta.
  apply silent_bind; [silent|intros _]. apply silent_async.
Qed.
Lemma silent_StartReadSize : silent StartReadSize.
Proof.
  unfold StartReadSize. repeat first [apply silent_read_from|apply silent_bind; [|intros ?]]; silent.
Qed.

Lemma silent_tells {A} (m : M State A) : silent m → tells m.
Proof. intros Hm s a s' [E1 E2]%Hm Hs. unfold signals_ok. by rewrite E2, E1. Qed.

Lemma tells_bind {A B} (m : M State A) (k : A → M State B) :
  tells m → (∀ a, tells (k a)) → tells (m ≫= k).
Proof.
  intros Hm Hk s b s' (a&s1&E1&E2)%M_bind_inv Hs. destruct (Hm _ _ _ E1 Hs) as [Hs1 ?].
  destruct (Hk _ _ _ _ E2 Hs1). split; [done|by etrans].
Qed.

(** Closing signals the removal, once. *)
Lemma DoClose_signals s a s' :
  DoClose s = Ok (a, s') →
  attached (conn s') = false ∧
  signals s' = (if attached (conn s) then [SRemoveConnection] else []) ++ signals s.
Proof.
  intros E. unfold DoClose in E. apply M_bind_inv in E as (x&s1&[= <- <-]&E).
  destruct (attached (conn s)) eqn:Ha.
  - apply M_bind_inv in E as (x&s1&[= <- <-]&E). apply M_bind_inv in E as ([]&s2&[= <-]&E).
    apply M_bind_inv in E as (x&s3&E3&E). apply silent_async in E3 as [H1 H2].
    apply silent_expires_from_now in E as [H3 H4]. by rewrite H3, H4, H1, H2.
  - apply silent_in_socket in E as [-> ->]. by rewrite Ha.
Qed.

Lemma tells_DoClose : tells DoClose.
Proof.
  intros s a s' [Ha Es]%DoClose_signals Hs. unfold signals_ok in *. rewrite Ha, Es.
  destruct (attached (conn s)); cbn [app]; [|by split].
  split; [|by apply suffix_cons_r]. exists (signals s). split; [done|by left].
Qed.

Lemma tells_CloseOnError e : tells (CloseOnError e).
Proof.
  intros s a s' E Hs. unfold CloseOnError in E.
  apply M_bind_inv in E as (x&s1&[= <- <-]&E). apply M_bind_inv in E as ([]&s2&E2&E).
  apply DoClose_signals in E as [Ha Es]. unfold signals_ok in *.
  destruct (attached (conn s)) eqn:Hatt; cbn [when] in E2.
  - injection E2 as <-. cbn [conn signals] in Es. rewrite Hatt in Es. rewrite Ha, Es.
    split; [|by do 2 apply suffix_cons_r]. exists (signals s). split; [done|]. right. by exists e.
  - injection E2 as <-. rewrite Hatt in Es. by rewrite Ha, Es.
Qed.

(** While the transport is attached, anything ordinary may be signalled. *)
Lemma tells_signal_attached (s s' : State) e a :
  attached (conn s) = true → ordinary e → signal_ e s = Ok (a, s') → signals_ok s →
  signals_ok s' ∧ signals s `suffix_of` signals s'.
Proof.
  intros Ha He [= _ <-] Hs. unfold signals_ok in *. cbn [conn signals]. rewrite Ha in *.
  split; [by constructor|by apply suffix_cons_r].
Qed.

Lemma tells_when b m : tells m → tells (when b m).
Proof. destruct b; [done|intros _; apply silent_tells, silent_ret]. Qed.

Ltac tells := repeat first
  [ done | apply tells_CloseOnError | apply tells_DoClose
  | apply silent_tells; (apply silent_async || apply silent_expires_from_now || apply silent_read_from
      || apply silent_StartReadSize)
  | apply silent_tells; solve [silent]
  | apply tells_bind; [|intros ?] | apply tells_when
  | match goal with |- tells (if ?b then _ else _) => destruct b end
  | match goal with |- tells (match ?b with _ => _ end) => destruct b end ].

Lemma tells_CheckTimeout ec : tells (CheckTimeout ec).
Proof. unfold CheckTimeout, post. tells. Qed.
Lemma tells_HandleTick : tells HandleTick.
Proof. unfold HandleTick, StartTick, post. tells. Qed.
Lemma tells_StartReadData : tells StartReadData.
Proof. unfold StartReadData. tells. Qed.
Lemma tells_HandleReadSize ec : tells (HandleReadSize ec).
Proof. unfold HandleReadSize. cbv zeta. tells. Qed.
Lemma tells_HandleReadData ec n : tells (HandleReadData ec n).
Proof. unfold HandleReadData, expires_at, post. tells. Qed.
Lemma tells_EncodeData data : tells (EncodeData data).
Proof. unfold EncodeData. cbv zeta. tells. Qed.
Lemma tells_StartWrite : tells StartWrite.
Proof. unfold StartWrite. tells. Qed.
Lemma tells_HandleWrite ec : tells (HandleWrite ec).
Proof. unfold HandleWrite, expires_at. tells. Qed.
Lemma tells_HandleServerConnect ec : tells (HandleServerConnect ec).
Proof. unfold HandleServerConnect. tells. Qed.
Lemma tells_HandleClientConnect ec : tells (HandleClientConnect ec).
Proof. unfold HandleClientConnect. tells. Qed.

Lemma tells_HandleSimpleClientConnect ec : tells (HandleSimpleClientConnect ec).
Proof.
  intros s a s' E Hs. apply M_bind_inv in E as (x&s1&[= <- <-]&E).
  destruct (Stopped s) eqn:Est; [by injection E as _ <-|].
  eapply (tells_signal_attached s s' (SConnectResult _)); [|exact I|exact E|exact Hs].
  unfold Stopped in Est. by destruct (attached (conn s)).
Qed.

Lemma tells_DispatchMessage : tells (DispatchMessage respond).
Proof.
  intros s a s' E Hs. apply M_bind_inv in E as (x&s1&[= <- <-]&E).
  destruct (attached (conn s)) eqn:Ha; [|by injection E as _ <-]. cbn [when] in E.
  apply M_bind_inv in E as (x&s1&E1&E).
  apply (tells_signal_attached s s1 (SMessageReceived (buffer_ (conn s))) x Ha I) in E1 as [Hs1 Hsuf];
    [|done].
  destruct (respond _) as [response t].
  assert (tells (if bool_decide (response = []) then post HClose
    else EncodeData response;; upd_conn (set_timeout_for_response t);; post HStartWrite)) as Ht.
  { destruct (bool_decide _); unfold post; tells; apply tells_EncodeData. }
  destruct (Ht _ _ _ E Hs1) as [? Hsuf']. split; [done|]. by etrans.
Qed.

Lemma tells_run_handler h ec : tells (run_handler respond h ec).
Proof.
  unfold run_handler. apply tells_bind; [apply silent_tells, silent_get|intros s]. cbv zeta.
  destruct (Socket.read_result (socket_ s)) as [e n].
  destruct h; first
    [ apply tells_HandleServerConnect | apply tells_HandleClientConnect
    | apply tells_HandleSimpleClientConnect | apply tells_HandleReadSize | apply tells_HandleReadData
    | apply tells_HandleWrite | apply tells_DoClose | apply tells_CheckTimeout
    | apply tells_DispatchMessage | apply tells_StartWrite
    | apply tells_bind; [apply silent_tells, silent_in_socket|intros _; apply tells_HandleTick] ].
Qed.

Lemma tells_complete i ec : tells (complete respond i ec).
Proof.
  unfold complete. apply tells_bind; [apply silent_tells, silent_get|intros s].
  destruct (handlers s !! i); [|apply silent_tells, silent_ret].
  apply tells_when, tells_bind; [apply silent_tells, silent_modify; done|intros _; apply tells_run_handler].
Qed.

(** How a connection begins. *)
Inductive start := ToReceive | ToSend (data : list Z) (timeout : Z) | ToConnect (timeout : Z).
Definition begin_ (k : start) : M State unit :=
  match k with
  | ToReceive => StartReceiving fuel this
  | ToSend data timeout => StartSending fuel this data timeout
  | ToConnect timeout => Connect fuel this timeout
  end.

Lemma tells_begin k : tells (begin_ k).
Proof.
  destruct k; cbn [begin_];
    unfold StartReceiving, StartSending, Connect, StartTick, StartServerConnect, StartClientConnect,
      SimpleClientConnect, post; repeat first [apply tells_EncodeData|apply tells_CheckTimeout|tells].
Qed.

(** A connection's life: handlers run, in any order in which their operations
    complete; it may be told to close; and anything happens to its socket. *)
Inductive lives (k : start) : State → Prop :=
  | lives_start remote s n st : begin_ k (new_connection remote s n) = Ok (tt, st) → lives k st
  | lives_handler st i ec st' : lives k st → complete respond i ec st = Ok (tt, st') → lives k st'
  | lives_close st st' : lives k st → DoClose st = Ok (tt, st') → lives k st'
  | lives_socket st (m : M Socket.State unit) st' :
      lives k st → in_socket m st = Ok (tt, st') → lives k st'.

(** C14: The transport is told properly, whatever happens to the connection and in
    whatever order its operations complete: as long as the connection is
    attached to its transport neither an error nor its removal has been
    signalled; afterwards the removal was signalled exactly once, right after
    at most one error, and nothing at all since (no error, no message). *)
Theorem transport_told_once (k : start) (s : State) :
  lives k s →
  if attached (conn s) then Forall ordinary (signals s)
  else ∃ before, Forall ordinary before ∧
    (signals s = SRemoveConnection :: before ∨
     ∃ e, signals s = SRemoveConnection :: SError e :: before).
Proof.
  change (lives k s → signals_ok s).
  induction 1 as [remote so n st E|st i ec st' _ IH E|st st' _ IH E|st m st' _ IH E].
  - apply (tells_begin k _ _ _ E). by apply Forall_nil_2.
  - by apply (tells_complete i ec _ _ _ E).
  - by apply (tells_DoClose _ _ _ E).
  - exact (proj1 (silent_tells _ (silent_in_socket m) _ _ _ E IH)).
Qed.
End signals.

Module ConnectionExamples.
Import Demo.

Definition silent_application (_ : list Z) : list Z * Z := ([], 0).

(** Sending starts, and the connection is told to close. *)
Definition at_first : State :=
  new_connection (remote 2) (Socket.SocketExamples.fresh_socket endpoint_none 0) Socket.SocketExamples.net0.
Definition sending : State :=
  (from_ok (tt, at_first) (begin_ 4 1%positive (ToSend [1; 2; 3] 0) at_first)).2.
Definition closing : State := (from_ok (tt, sending) (DoClose sending)).2.

Lemma closing_lives : lives 4 1%positive silent_application (ToSend [1; 2; 3] 0) closing.
Proof.
  apply (lives_close _ _ _ _ sending).
  - apply (lives_start _ _ _ _ (remote 2) (Socket.SocketExamples.fresh_socket endpoint_none 0)
      Socket.SocketExamples.net0).
    rewrite (from_ok_eq (tt, at_first) (begin_ _ _ _ _)) by (vm_compute; reflexivity).
    unfold sending. by destruct (from_ok _ _) as [[] ?].
  - rewrite (from_ok_eq (tt, sending) (DoClose sending)) by (vm_compute; reflexivity).
    unfold closing. by destruct (from_ok _ _) as [[] ?].
Qed.

Lemma transport_told_once_witness :
  lives 4 1%positive silent_application (ToSend [1; 2; 3] 0) closing ∧
  ∃ before, Forall ordinary before ∧
    (signals closing = SRemoveConnection :: before ∨
     ∃ e, signals closing = SRemoveConnection :: SError e :: before).
Proof.
  split; [exact closing_lives|].
  pose proof (transport_told_once 4 1%positive silent_application (ToSend [1; 2; 3] 0) closing
    closing_lives) as Ht.
  replace (attached (conn closing)) with false in Ht by (vm_compute; reflexivity). exact Ht.
Defined.
End ConnectionExamples.
