(* ===== verification/Framing.v ===== *)
(** * What happens to a connection while it reads a message

    A connection reads a message piecewise into [buffer_] while datagrams arrive,
    timers expire and handlers run in any order.  [moved] is what all of that
    does to a read that is pending, and [reading] what is known of that read;
    [Messages] follows the message itself.  Of the socket the proofs use
    [Reading.progress] only. *)

From S2P Require Import Prelude Environment ByteOrder Transport Shared Dispatcher.
From S2P Require Import CongestionControl Frames Registration Reading Connection.
From S2P Require Session Socket.

Section moved.
Context `{Environment} `{!IpAddressLaws}.

Definition sk (st : State) : Socket.State := (socket_ st, net st).
Definition rd (st : State) : Socket.ReadOp := Socket.waiting_read_ (socket_ st).
Definition read (st : State) : list Z := read_bytes (socket_ st).

(** The handlers of the conversation itself. *)
Definition talking (p : pending) : bool :=
  match p_handler p with HFlush | HTick | HCheckTimeout | HClose => false | _ => true end.
Definition talks (st : State) : list pending := filter talking (handlers st).
Definition messages (st : State) : list (list Z) :=
  omap (λ e, match e with SMessageReceived m => Some m | _ => None end) (signals st).

(** The bytes that a read gets from one state to the next. *)
Definition added (st st' : State) : list Z := drop (length (read st)) (read st').

(** The pending read is sound: its buffer is the rest of [buffer_]. *)
Definition sound (st : State) : Prop :=
  Socket.state_ok (sk st) ∧ (Socket.IsOpen (socket_ st) = true → fine (rd st)) ∧
  (read_at st + Socket.read_buffer (rd st) ≤ length (buffer_ (conn st)))%nat.

(** Nothing of the conversation happened but that the read went on, or the socket
    was closed; an operation that stops a connection stops it for good. *)
Record moved (st st' : State) : Prop := {
  moved_ok : Socket.state_ok (sk st');
  moved_fine : Socket.IsOpen (socket_ st') = true → fine (rd st');
  moved_talks : talks st' = talks st;
  moved_messages : messages st' = messages st;
  moved_stopped : Stopped st = true → Stopped st' = true;
  moved_read : ∃ bytes, read st' = read st ++ bytes ∧
    Socket.read_buffer (rd st) = (Socket.read_buffer (rd st') + length bytes)%nat ∧
    buffer_ (conn st') = write_at (read_at st) bytes (buffer_ (conn st)) ∧
    read_at st' = (read_at st + length bytes)%nat;
  moved_sizes : data_size_ (conn st') = data_size_ (conn st) ∧
    data_received_ (conn st') = data_received_ (conn st);
  moved_progress : Stopped st' = false → progress (rd st) (rd st');
}.

Lemma write_at_nil off l : write_at off [] l = l.
Proof. unfold write_at. cbn [app length]. by rewrite Nat.add_0_r, take_drop. Qed.

Lemma write_at_app off b1 b2 l : (off ≤ length l)%nat →
  write_at (off + length b1) b2 (write_at off b1 l) = write_at off (b1 ++ b2) l.
Proof.
  intros Hoff. unfold write_at. rewrite length_app, <-app_assoc.
  rewrite (app_assoc (take off l)), take_app_length' by (rewrite length_app, length_take; lia).
  rewrite <-app_assoc. do 3 f_equal.
  rewrite drop_app_ge by (rewrite length_app, length_take; lia).
  rewrite drop_drop, length_app, length_take. f_equal. lia.
Qed.

Lemma length_write_at off b l : (off + length b ≤ length l)%nat → length (write_at off b l) = length l.
Proof. intros. unfold write_at. rewrite !length_app, length_take, length_drop. lia. Qed.

Lemma moved_sound st st' : sound st → moved st st' → sound st'.
Proof.
  intros (Hok&Hf&Hlen) Hm. destruct (moved_read _ _ Hm) as (bytes&Eb&Er&Ebuf&Ea).
  split_and!; [apply Hm|apply Hm|].
  rewrite Ebuf, length_write_at by lia. lia.
Qed.

Lemma moved_refl st : sound st → moved st st.
Proof.
  intros (Hok&Hf&Hlen). split; try done.
  - exists []. rewrite write_at_nil, app_nil_r. cbn. split_and!; [done|lia|done|lia].
  - intros Ho. apply progress_refl, Hf. by destruct (orb_false_elim _ _ Ho) as [_ ?%negb_false_iff].
Qed.

Lemma moved_trans st1 st2 st3 : sound st1 → moved st1 st2 → moved st2 st3 → moved st1 st3.
Proof.
  intros (_&_&Hlen) [H1 F1 T1 M1 S1 (b1&B1&R1&W1&A1) [D1 E1] P1] [H2 F2 T2 M2 S2 (b2&B2&R2&W2&A2) [D2 E2] P2].
  split; [done|done|congruence|congruence|auto| |split; congruence|].
  - exists (b1 ++ b2). rewrite length_app. split_and!; [by rewrite B2, B1, app_assoc|lia| |lia].
    rewrite W2, W1, A1. apply write_at_app. lia.
  - intros H3. eapply progress_trans; [apply P1|by apply P2].
    destruct (Stopped st2) eqn:E; [by rewrite S2 in H3|done].
Qed.

Definition moves {A} (m : M State A) : Prop :=
  ∀ st a st', sound st → m st = Ok (a, st') → moved st st'.

Lemma moves_bind {A B} (m : M State A) (k : A → M State B) :
  moves m → (∀ a, moves (k a)) → moves (m ≫= k).
Proof.
  intros Hm Hk st b st' Hs (a&st1&E1&E2)%M_bind_inv. pose proof (Hm _ _ _ Hs E1) as H1.
  eapply moved_trans; [done|exact H1|]. eapply Hk; [by eapply moved_sound|exact E2].
Qed.
Lemma moves_get_bind {B} (k : State → M State B) :
  (∀ st b st', sound st → k st st = Ok (b, st') → moved st st') → moves (get ≫= k).
Proof. intros Hk st b st' Hs (a&st1&[= <- <-]&E2)%M_bind_inv. by eapply Hk. Qed.
Lemma moves_ret {A} (a : A) : moves (mret a).
Proof. intros st b st' Hs [= _ <-]. by apply moved_refl. Qed.
Lemma moves_get : moves get.
Proof. intros st b st' Hs [= _ <-]. by apply moved_refl. Qed.
Lemma moves_when b m : moves m → moves (when b m).
Proof. destruct b; [done|intros _; apply moves_ret]. Qed.
Lemma moves_now : moves now.
Proof.
  intros st b st' Hs E. assert (moved st st) as Hm by by apply moved_refl.
  injection E as _ <-. destruct Hm. by split.
Qed.

(** Changes to members that no read depends on. *)
Lemma moves_upd_conn f :
  (∀ c, buffer_ (f c) = buffer_ c ∧ data_size_ (f c) = data_size_ c ∧
    data_received_ (f c) = data_received_ c ∧ (attached c = false → attached (f c) = false)) →
  moves (upd_conn f).
Proof.
  intros Hf st a st' Hs [= _ <-]. destruct (moved_refl st Hs) as [? ? ? ? _ (b&?&?&Eb&?) _ Hp].
  destruct (Hf (conn st)) as (Hb&Hd&Hr&Ha). split; try done; cbn [conn socket_].
  - unfold Stopped. cbn. intros [Ho|Ho]%orb_true_iff; apply orb_true_iff; [left|by right].
    apply negb_true_iff. apply negb_true_iff in Ho. auto.
  - exists b. split_and!; try done. cbn. by rewrite Hb.
  - intros Ho. apply progress_refl, Hs. by destruct (orb_false_elim _ _ Ho) as [_ ?%negb_false_iff].
Qed.

Lemma moves_expires_from_now d : moves (expires_from_now d).
Proof. apply moves_bind; [apply moves_now|intros t]. by apply moves_upd_conn. Qed.

Lemma moves_await p : talking p = false → moves (await p).
Proof.
  intros Hp st a st' Hs [= _ <-]. destruct (moved_refl st Hs). split; try done.
  unfold talks. cbn. by rewrite filter_app, filter_cons, Hp, app_nil_r.
Qed.

Lemma moves_signal e : (∀ m, e ≠ SMessageReceived m) → moves (signal_ e).
Proof.
  intros He st a st' Hs [= _ <-]. destruct (moved_refl st Hs). split; try done.
  unfold messages. cbn. destruct e; try done. by destruct (He message).
Qed.

(** Operations of the socket. *)
Lemma moves_in_socket {A} (m : M Socket.State A) :
  (∀ s a s', Socket.state_ok s → (Socket.IsOpen s.1 = true → fine (the_read s)) → m s = Ok (a, s') →
    Socket.state_ok s' ∧ (Socket.IsOpen s.1 = false → Socket.IsOpen s'.1 = false) ∧
    (progress (the_read s) (the_read s') ∨
     (Socket.IsOpen s'.1 = false ∧
      Socket.read_into (the_read s') = Socket.read_into (the_read s) ∧
      Socket.read_buffer (the_read s') = Socket.read_buffer (the_read s)))) →
  moves (in_socket m).
Proof.
  intros Hm st a st' (Hok&Hf&Hlen) E. unfold in_socket in E.
  destruct (m (socket_ st, net st)) as [[b [s' n']]|] eqn:Em; [|done]. injection E as -> <-.
  destruct (Hm _ _ _ Hok Hf Em) as (Hok'&Hopen&Hread). split; try done; cbn [socket_ net conn].
  - destruct Hread as [Hp|(Hc&_)]; [intros _; apply Hp|]. cbn [fst] in Hc. congruence.
  - unfold Stopped. cbn [conn socket_ set_buffer attached]. intros [Ho|Ho]%orb_true_iff; apply orb_true_iff;
      [by left|right]. apply negb_true_iff. apply negb_true_iff in Ho. by apply Hopen.
  - destruct Hread as [[_ (bytes&Eb&Er) _ _]|(_&Ei&Er)].
    + exists bytes. unfold the_read in *. cbn [fst] in *. unfold read, rd, read_bytes. cbn [socket_ conn buffer_ set_buffer read_at].
      rewrite Eb, drop_app_length. split_and!; done || lia.
    + exists []. unfold the_read in *. cbn [fst] in *. unfold read, rd, read_bytes. cbn [socket_ conn buffer_ set_buffer read_at].
      rewrite Ei, drop_all, Er, app_nil_r. cbn [length]. split_and!; done || lia.
  - unfold Stopped. cbn [conn socket_ set_buffer attached]. intros Hst. apply orb_false_iff in Hst as [_ Ho].
    apply negb_false_iff in Ho. destruct Hread as [Hp|(Hc&_)]; [exact Hp|]. cbn [fst] in Hc. congruence.
Qed.
(** Those that do not touch the read at all. *)
Lemma moves_apart {A} (m : M Socket.State A) :
  (∀ s a s', Socket.state_ok s → m s = Ok (a, s') → Socket.state_ok s') →
  keeps the_read m → quiet m → moves (in_socket m).
Proof.
  intros Hok Hk Hq. apply moves_in_socket. intros s a s' Hs Hf E. split; [by eapply Hok|].
  destruct (Hq _ _ _ E) as (_&Eo&_). apply Hk in E as Er. rewrite Eo, Er.
  split; [done|]. destruct (Socket.IsOpen s.1); [left|by right]. apply progress_refl. auto.
Qed.

#[local] Instance the_read_framed : Framed the_read.
Proof. by split. Qed.
#[local] Instance registration_framed : Framed registration.
Proof. by split. Qed.

Lemma moves_AsyncFlush : moves (in_socket Socket.AsyncFlush).
Proof.
  apply moves_apart; [|keeps|apply quiet_AsyncFlush].
  intros s a s' Hs E. by eapply safe_ok; [apply Socket.safe_AsyncFlush|..].
Qed.

Lemma moves_SentLength : moves (in_socket Socket.SentLength).
Proof.
  apply moves_apart; [|keeps|apply quiet_keeps; keeps].
  intros s a s' Hs E. apply M_bind_inv in E as (x&s1&[= <- <-]&E).
  apply M_bind_inv in E as (y&s1&Ea&E). unfold assertb in Ea. destruct (_ <=? _); [|done].
  injection Ea as _ <-. injection E as _ <-. exact Hs.
Qed.

Lemma moves_IsSlowTransmission n : moves (in_socket (Socket.IsSlowTransmission n)).
Proof.
  apply moves_apart; [|keeps|apply quiet_keeps; keeps].
  intros s a s' Hs E. apply zoom_inv in E as (sh&E&->). apply zoom_inv in E as ([c w]&E&->).
  destruct Hs as (H1&H2&H3&H4&Hc&H6). destruct (IsSlowTransmission_ok n (Socket.congestion_control_ s.1) s.2.2 Hc)
    as (b&c'&w'&E'&Hc'&_).
  pose proof (eq_trans (eq_sym E') E) as E2. injection E2 as _ <- <-.
  exact (conj H1 (conj H2 (conj H3 (conj H4 (conj Hc' H6))))).
Qed.

(** What was read and the room that is left. *)
Definition progress_of (s : Socket.State) : list Z * nat :=
  (Socket.read_into (the_read s), Socket.read_buffer (the_read s)).
#[local] Instance progress_of_framed : Framed progress_of.
Proof. by split. Qed.

Lemma keeps_session (m : M (Session.Session * Shared) unit) : keeps progress_of (Socket.in_session m).
Proof. by intros s a s' (t&_&->)%zoom_inv. Qed.
Lemma keeps_dispatcher f : keeps progress_of (Socket.in_dispatcher f).
Proof. by intros s a s' [= _ <-]. Qed.
Lemma keeps_cancelled_read :
  keeps progress_of (Socket.upd_read
    (Socket.read_call Socket.cancel ∘ Socket.read_set_bytes 0 ∘ Socket.read_set_ec Socket.operation_aborted)).
Proof. by intros s a s' [= _ <-]. Qed.

Lemma keeps_Close : keeps progress_of Socket.Close.
Proof.
  unfold Socket.Close. apply keeps_bind; [apply keeps_me|intros x].
  apply keeps_bind; [apply keeps_when|intros _].
  { apply keeps_bind; [apply keeps_in_sender; apply _|intros _].
    apply keeps_bind; [apply keeps_in_shared; apply _|intros _].
    apply keeps_bind; [apply keeps_me|intros y]. apply keeps_dispatcher. }
  apply keeps_bind; [apply keeps_session|intros _].
  do 3 (apply keeps_bind; [apply keeps_in_shared; apply _|intros _]).
  apply keeps_bind; [apply keeps_upd_connect; apply _|intros _].
  apply keeps_bind; [apply keeps_upd_write; apply _|intros _].
  apply keeps_bind; [apply keeps_cancelled_read|intros _]. apply keeps_upd_flush; apply _.
Qed.

Lemma moves_Close : moves (in_socket Socket.Close).
Proof.
  apply moves_in_socket. intros s a s' Hs Hf E.
  split; [by eapply safe_ok; [apply Socket.safe_Close|..]|].
  destruct (Close_closes _ _ _ E) as [Ho _]. split; [done|]. right. split; [done|].
  apply keeps_Close in E. unfold progress_of in E. by injection E.
Qed.

Lemma moves_TickOp : moves (in_socket Socket.TickOp).
Proof.
  apply moves_in_socket. intros s a s' Hs Hf E.
  split; [by eapply safe_ok; [apply Socket.safe_TickOp|..]|].
  destruct (quiet_TickOp _ _ _ Hs E) as (_&Eo&_). rewrite Eo. split; [done|].
  destruct (Socket.IsOpen s.1) eqn:Ho.
  - left. eapply advances_TickOp; [done|auto|exact E].
  - right. split; [done|]. apply M_bind_inv in E as (x&s1&[= <- <-]&E). unfold id in E. rewrite Ho in E.
    by injection E as _ <-.
Qed.

Lemma moves_datagram data ep st st' :
  sound st → bytes_ok data → Socket.initial_number_ok data → Socket.IsOpen (socket_ st) = true →
  in_socket (Socket.HandleReceiveFrom data ep) st = Ok (tt, st') → moved st st'.
Proof.
  intros Hs Hb Hi Ho E.
  assert (moves (in_socket (λ s, if Socket.IsOpen s.1 then Socket.HandleReceiveFrom data ep s else Ok (tt, s)))) as Hm.
  2: { apply (Hm st tt st' Hs). unfold in_socket in *. cbn [fst]. by rewrite Ho. }
  apply moves_in_socket. intros s a s' Hok Hf E'. destruct (Socket.IsOpen s.1) eqn:Ho'.
  2: { injection E' as _ <-. cbn [fst]. split; [done|]. split; [done|]. by right. }
  assert (E2 : Socket.HandleReceiveFrom data ep s = Ok (tt, s')) by (rewrite E'; by destruct a).
  split; [eapply safe_ok; [by apply Socket.safe_HandleReceiveFrom|done|exact E2]|]. split; [done|].
  apply HandleReceiveFrom_inv in E2 as Hr; [|done].
  destruct Hr as [->|p Hp E3|p Hp E3|p Hp E3|p E3|p Hp E3|E3].
  - left. apply progress_refl. auto.
  - left. exact (advances_HandleData p Hp _ _ _ Hok (Hf eq_refl) E3).
  - left. exact (advances_HandleAck p Hp _ _ _ Hok (Hf eq_refl) E3).
  - left. exact (advances_HandleAckOfAck p Hp _ _ _ Hok (Hf eq_refl) E3).
  - left. exact (advances_HandleNegativeAck p _ _ _ Hok (Hf eq_refl) E3).
  - left. apply keeps_HandleHandshake in E3. rewrite E3. apply progress_refl. auto.
  - right. destruct (Close_closes _ _ _ E3) as [Hc _]. split; [done|].
    apply keeps_Close in E3. unfold progress_of in E3. by injection E3.
Qed.
End moved.

(** ** The operations that leave the conversation alone *)

Section operations.
Context `{Environment} `{!IpAddressLaws}.

Lemma moves_async h calls m :
  moves (in_socket m) → (∀ n, talking (MkPending h n) = false) → moves (async h calls m).
Proof.
  intros Hm Hh. unfold async. apply moves_bind; [apply moves_get|intros s].
  apply moves_bind; [exact Hm|intros _]. by apply moves_await.
Qed.

Lemma moves_DoClose : moves DoClose.
Proof.
  apply moves_bind; [apply moves_get|intros s]. destruct (attached (conn s)).
  - apply moves_bind; [by apply moves_signal|intros _].
    apply moves_bind; [by apply moves_upd_conn|intros _].
    apply moves_bind; [by apply moves_async; [apply moves_AsyncFlush|]|intros _].
    apply moves_expires_from_now.
  - apply moves_Close.
Qed.

Lemma moves_CloseOnError e : moves (CloseOnError e).
Proof.
  apply moves_bind; [apply moves_get|intros s].
  apply moves_bind; [apply moves_when; by apply moves_signal|intros _; apply moves_DoClose].
Qed.

Lemma CloseOnError_stops e st st' : CloseOnError e st = Ok (tt, st') → Stopped st' = true.
Proof.
  intros E. apply M_bind_inv in E as (x&s1&[= <- <-]&E). apply M_bind_inv in E as ([]&s2&E2&E).
  apply DoClose_signals in E as [Ha _]. unfold Stopped. by rewrite Ha.
Qed.

Ltac moves := repeat first
  [ apply moves_CloseOnError | apply moves_DoClose | apply moves_expires_from_now | apply moves_now
  | apply moves_get | apply moves_ret | apply moves_Close | apply moves_SentLength
  | apply moves_IsSlowTransmission | apply moves_TickOp
  | apply moves_await; done | apply moves_when | apply moves_bind; [|intros ?]
  | match goal with
    | |- moves (if ?b then _ else _) => destruct b
    | |- moves (match ?b with _ => _ end) => destruct b
    end ].

Lemma moves_CheckTimeout ec : moves (CheckTimeout ec).
Proof. unfold CheckTimeout, post. moves. Qed.
Lemma moves_HandleTick : moves HandleTick.
Proof. unfold HandleTick, StartTick, post. moves. Qed.
Lemma moves_tick : moves (in_socket Socket.TickOp;; HandleTick).
Proof. apply moves_bind; [apply moves_TickOp|intros _; apply moves_HandleTick]. Qed.

(** ** A read that is pending *)

(** [p] waits for a read of at least [n] bytes behind [prefix]. *)
Record reading (p : pending) (prefix : list Z) (n : Z) (st : State) : Prop := {
  reading_calls : ∃ k rest, read_calls (socket_ st) = replicate k Socket.cancel ++ Socket.async_wait :: rest ∧
    p_since p = S (length rest) ∧ (k = 0%nat → ¬ satisfied (rd st)) ∧
    (k ≠ 0%nat → Socket.read_ec (rd st) = Socket.no_error ∧ satisfied (rd st));
  reading_at_least : Socket.read_transfer_at_least (rd st) = n;
  reading_at : read_at st = (length prefix + length (read st))%nat;
  reading_length : length (buffer_ (conn st)) = (read_at st + Socket.read_buffer (rd st))%nat;
  reading_buffer : take (read_at st) (buffer_ (conn st)) = prefix ++ read st;
}.

Lemma reading_moved p prefix n st st' :
  reading p prefix n st → moved st st' → Stopped st' = false → reading p prefix n st'.
Proof.
  intros [(k&rest&Ec&Ep&Hk0&Hk1) Hn Ha Hl Hb] Hm Hst.
  destruct (moved_read _ _ Hm) as (bytes&Eb&Er&Ebuf&Eat).
  destruct (moved_progress _ _ Hm Hst) as [Hf _ Eal (k'&Ec'&Hz&Hnz)].
  assert (Hlen : length (read st') = (length (read st) + length bytes)%nat) by by rewrite Eb, length_app.
  split.
  - exists (k' + k)%nat, rest. split; [|split; [done|split]].
    + change (read_calls (socket_ st')) with (Socket.read_timer (rd st')).
      change (read_calls (socket_ st)) with (Socket.read_timer (rd st)) in Ec.
      by rewrite Ec', Ec, replicate_add, app_assoc.
    + intros Hk. destruct Hz as [_ Hz]; [lia|]. intros Hs. pose proof (Hz Hs) as Ei. apply Hk0; [lia|].
      change (read st' = read st) in Ei. rewrite Ei in Hlen.
      destruct Hs as [Hs|Hs]; [left; lia|right]. change (Socket.read_into (rd st')) with (read st') in Hs.
      rewrite Ei in Hs. by rewrite <-Eal.
    + intros Hk. destruct (decide (k' = 0%nat)) as [Hk'|Hk']; [|by apply Hnz].
      destruct Hz as [Hz _]; [done|]. destruct Hk1 as [Hk1 Hs]; [lia|]. split; [congruence|].
      eapply progress_satisfied; [apply (moved_progress _ _ Hm Hst)|done].
  - congruence.
  - rewrite Eat, Hlen. lia.
  - rewrite Ebuf, length_write_at by lia. lia.
  - rewrite Ebuf, Eat, Eb. unfold write_at. rewrite app_assoc.
    rewrite take_app_length' by (rewrite length_app, length_take; lia).
    by rewrite Hb, app_assoc.
Qed.

(** Whether it is complete. *)
Lemma reading_completed p prefix n st :
  reading p prefix n st →
  (completed (p_since p) (read_calls (socket_ st)) = true ↔ satisfied (rd st)) ∧
  (satisfied (rd st) → Socket.read_ec (rd st) = Socket.no_error).
Proof.
  intros [(k&rest&Ec&Ep&Hk0&Hk1) _ _ _ _]. unfold completed. rewrite Ec, Ep.
  replace (length (replicate k Socket.cancel ++ Socket.async_wait :: rest) - S (length rest))%nat with k
    by (rewrite length_app, length_replicate; cbn; lia).
  rewrite take_app_length' by (by rewrite length_replicate).
  assert (existsb is_cancel (replicate k Socket.cancel) = negb (k =? 0)%nat) as ->.
  { destruct k; [done|]. done. }
  destruct (Nat.eqb_spec k 0) as [->|Hk]; cbn [negb].
  - split; [split; [done|by intros ?%Hk0]|by intros ?%Hk0].
  - destruct (Hk1 Hk). done.
Qed.

(** How many reads were started. *)
Definition waits_in (calls : Socket.deadline) : nat := length (filter (λ c, negb (is_cancel c)) calls).
Definition waits (st : State) : nat := waits_in (read_calls (socket_ st)).

Lemma waits_cancelled k calls : waits_in (replicate k Socket.cancel ++ calls) = waits_in calls.
Proof. unfold waits_in. induction k; [done|]. done. Qed.

(** Starting one. *)
Lemma read_from_reading off n h st st' :
  Socket.state_ok (sk st) → (off < length (buffer_ (conn st)))%nat → 1 ≤ n →
  Z.of_nat (length (buffer_ (conn st))) < 18446744073709551616 →
  read_from off n h st = Ok (tt, st') →
  ∃ p, p_handler p = h ∧ handlers st' = handlers st ++ [p] ∧ signals st' = signals st ∧
    reading p (take off (buffer_ (conn st))) n st' ∧ Socket.state_ok (sk st') ∧ fine (rd st') ∧
    length (buffer_ (conn st')) = length (buffer_ (conn st)) ∧
    data_size_ (conn st') = data_size_ (conn st) ∧ data_received_ (conn st') = data_received_ (conn st) ∧
    attached (conn st') = attached (conn st) ∧ Socket.IsOpen (socket_ st') = Socket.IsOpen (socket_ st) ∧
    waits st' = S (waits st).
Proof.
  intros Hok Hoff Hn Hsize E. unfold read_from in E. apply M_bind_inv in E as (x&s1&[= <- <-]&E). cbv zeta in E.
  rewrite (proj2 (Nat.eqb_neq _ 0)) in E by lia. cbn [negb when] in E.
  apply M_bind_inv in E as ([]&s1&[= <-]&E). unfold async in E.
  apply M_bind_inv in E as (x&s1&[= <- <-]&E). apply M_bind_inv in E as ([]&s1&E1&E).
  injection E as <-. unfold in_socket in E1. cbn [socket_ net] in E1.
  set (o := Socket.waiting_read_ (socket_ st)) in *. set (room := (length (buffer_ (conn st)) - off)%nat) in *.
  set (so := Socket.set_read (Socket.read_set_buffer (Socket.read_buffer o) [] o) (socket_ st)) in *.
  destruct (Socket.AsyncRead room n (so, net st)) as [[[] [s' n']]|] eqn:Er; [|done].
  injection E1 as <-. cbn [socket_ conn signals handlers set_buffer buffer_ read_at data_size_ data_received_ attached].
  assert (Socket.state_ok (so, net st)) as Hso by exact Hok.
  pose proof (AsyncRead_starts room n (so, net st) (s', n') Hso ltac:(lia) ltac:(lia) Er) as Hp.
  assert (Socket.state_ok (s', n')) as Hok' by (eapply safe_ok; [apply Socket.safe_AsyncRead|exact Hso|exact Er]).
  destruct (quiet_AsyncRead _ _ _ _ _ Er) as (_&Eo&_). cbn [fst] in Eo.
  destruct Hp as [Hf (bytes&Eb&Er') Eal (k&Ec&Hz&Hnz)].
  unfold the_read in Eb, Er', Eal, Ec, Hz, Hnz, Hf. cbn [fst] in Eb, Er', Eal, Ec, Hz, Hnz, Hf.
  change (Socket.waiting_read_ so) with (Socket.read_set_buffer (Socket.read_buffer o) [] o) in *.
  cbn [started Socket.read_into Socket.read_buffer Socket.read_transfer_at_least Socket.read_timer
    Socket.read_set_buffer Socket.read_ec app] in *.
  set (o' := Socket.waiting_read_ s') in *.
  cbn [net]. rewrite drop_0.
  change (read_bytes s') with (Socket.read_into o'). rewrite Eb.
  exists (MkPending h (S (length (read_calls so)))). split; [done|]. split; [done|]. split; [done|]. split.
  - split; unfold read, rd, read_bytes; cbn [socket_ conn buffer_ set_buffer read_at p_since p_handler]; fold o'.
    + exists k, (Socket.read_timer o). split; [exact Ec|]. split; [reflexivity|]. split; [|exact Hnz].
      intros Hk Hs. destruct (Hz Hk) as [_ Hz']. pose proof (Hz' Hs) as Ei. rewrite Ei in Eb. subst bytes.
      destruct Hs as [Hs|Hs]; [unfold room in Er'; cbn [length] in Er'; lia|].
      rewrite Ei, Eal in Hs. cbn in Hs. lia.
    + exact Eal.
    + rewrite Eb, length_take. lia.
    + rewrite length_write_at; lia.
    + rewrite Eb. unfold write_at. rewrite app_assoc, take_app_length' by (rewrite length_app, length_take; lia). done.
  - split; [exact Hok'|]. split; [exact Hf|]. split; [by rewrite length_write_at; lia|].
    do 3 (split; [done|]). split; [exact Eo|]. unfold waits. cbn [socket_].
    change (read_calls s') with (Socket.read_timer o'). rewrite Ec.
    change (read_calls (socket_ st)) with (Socket.read_timer o). by rewrite waits_cancelled.
Qed.
End operations.
