(* ===== verification/Messages.v ===== *)
(** * A message over RUDP is received as it was framed

    The bytes that the socket gives a connection, from the moment it starts to
    read a message, determine what the transport is told: [phase] follows the
    message through the handlers of [Connection] while anything else of
    [Connection.next] happens in between. *)

From S2P Require Import Prelude Environment ByteOrder Transport Shared Dispatcher.
From S2P Require Import CongestionControl Frames Registration Reading Connection Framing.
From S2P Require Session Socket DataPacket Packet.

(** ** How far a message is *)

Section message.
Context `{Environment} `{!IpAddressLaws} (respond : list Z → list Z * Z).

Definition frame (data : list Z) : list Z := size_bytes (Z.of_nat (length data)) ++ data.

(** One thing that happens to a connection: one of its handlers runs, a datagram
    comes to its open socket, or it is told to close. *)
Inductive next (st st' : State) : Prop :=
  | next_handler i ec : complete respond i ec st = Ok (tt, st') → next st st'
  | next_datagram bytes ep : bytes_ok bytes → Socket.initial_number_ok bytes →
      Socket.IsOpen (socket_ st) = true →
      in_socket (Socket.HandleReceiveFrom bytes ep) st = Ok (tt, st') → next st st'
  | next_close : DoClose st = Ok (tt, st') → next st st'.

(** The bytes the socket gives to the connection on the way: to the read that is
    pending, or to the one that was started. *)
Definition read_between (st st' : State) : list Z :=
  if decide (waits st' = waits st) then added st st' else read st'.

Inductive receives (st : State) : list Z → State → Prop :=
  | receives_nothing : receives st [] st
  | receives_next T st1 st2 :
      receives st T st1 → next st1 st2 → receives st (T ++ read_between st1 st2) st2.

(** The message, of which the bytes [T] came so far. *)
Inductive phase (data T : list Z) (st : State) : Prop :=
  | in_size p : sound st → Stopped st = false → talks st = [p] → p_handler p = HReadSize →
      reading p [] 4 st → length (buffer_ (conn st)) = 4%nat → T = read st → messages st = [] →
      phase data T st
  | in_data p got : sound st → Stopped st = false → talks st = [p] → p_handler p = HReadData →
      reading p got 1 st → T = size_bytes (Z.of_nat (length data)) ++ got ++ read st →
      got ++ read st `prefix_of` data →
      data_size_ (conn st) = Z.of_nat (length data) → data_received_ (conn st) = Z.of_nat (length got) →
      (length (buffer_ (conn st)) ≤ length data)%nat → messages st = [] → phase data T st
  | in_dispatch p : sound st → talks st = [p] → p_handler p = HDispatchMessage →
      buffer_ (conn st) = data → Socket.read_buffer (rd st) = 0%nat → messages st = [] → phase data T st
  | arrived l : messages st = l ++ [data] → phase data T st
  | doomed : sound st → Stopped st = true → messages st = [] →
      (∀ p, p ∈ talks st → p_handler p = HReadSize ∨ p_handler p = HReadData) → phase data T st.

Lemma progress_waits st st' : progress (rd st) (rd st') → waits st' = waits st.
Proof.
  intros [_ _ _ (k&Ec&_)]. unfold waits. change (read_calls (socket_ st')) with (Socket.read_timer (rd st')).
  rewrite Ec. apply waits_cancelled.
Qed.

Lemma prefix_of_frame data rest x :
  size_bytes (Z.of_nat (length data)) ++ x `prefix_of` frame data ++ rest →
  (length x ≤ length data)%nat → x `prefix_of` data.
Proof.
  unfold frame. rewrite <-app_assoc. intros Hp%prefix_app_inv Hlen.
  destruct (prefix_weak_total x data (data ++ rest)) as [?|Hd]; [done|by apply prefix_app_r|done|].
  apply prefix_length_eq in Hd; [by rewrite Hd|done].
Qed.

Lemma messages_suffix st st' : signals st `suffix_of` signals st' → messages st `suffix_of` messages st'.
Proof. intros [k E]. unfold messages. rewrite E, omap_app. by eexists. Qed.

Lemma phase_arrived data T st st' :
  signals st `suffix_of` signals st' → (∃ l, messages st = l ++ [data]) → phase data T st'.
Proof.
  intros [k E]%messages_suffix [l El]. apply (arrived _ _ _ (k ++ l)). by rewrite E, El, app_assoc.
Qed.

(** What does not concern the conversation. *)
Lemma phase_moved data T rest st st' :
  sound st → phase data T st → moved st st' → signals st `suffix_of` signals st' →
  T ++ read_between st st' `prefix_of` frame data ++ rest → phase data (T ++ read_between st st') st'.
Proof.
  intros Hsound Hph Hm Hsuf Hp. pose proof (moved_sound _ _ Hsound Hm) as Hsound'.
  destruct (moved_read _ _ Hm) as (bytes&Eb&Er&Ebuf&Ea). destruct (moved_sizes _ _ Hm) as [Eds Edr].
  assert (∀ h q, talks st = [q] → p_handler q = h → h = HReadSize ∨ h = HReadData →
    messages st = [] → Stopped st' = true → phase data (T ++ read_between st st') st') as Hdoom.
  { intros h q Et Eh Hh Em Hst. apply doomed; [done|done|by rewrite (moved_messages _ _ Hm)|].
    intros q' Hq'. rewrite (moved_talks _ _ Hm), Et in Hq'. apply list_elem_of_singleton in Hq' as ->.
    by rewrite Eh. }
  assert (Stopped st' = false → read_between st st' = bytes) as Hbetween.
  { intros Hst. unfold read_between. rewrite decide_True by (apply progress_waits, Hm, Hst).
    unfold added. by rewrite Eb, drop_app_length. }
  destruct Hph as [p _ Hst Et Eh Hr Hlen HT Em|p got _ Hst Et Eh Hr HT Hg Es Erc Hlen Em
    |p _ Et Eh Ed Eroom Em|l El|_ Hst Em Ht].
  - destruct (Stopped st') eqn:Hst'; [eapply Hdoom; try done; by left|]. rewrite Hbetween by done.
    apply (in_size _ _ _ p); try done.
    + by rewrite (moved_talks _ _ Hm).
    + by eapply reading_moved.
    + destruct Hsound as (_&_&Hroom). rewrite Ebuf, length_write_at; lia.
    + by rewrite HT, Eb.
    + by rewrite (moved_messages _ _ Hm).
  - destruct (Stopped st') eqn:Hst'; [eapply Hdoom; try done; by right|]. rewrite Hbetween in * by done.
    pose proof (reading_moved _ _ _ _ _ Hr Hm Hst') as Hr'.
    assert (T ++ bytes = size_bytes (Z.of_nat (length data)) ++ got ++ read st') as HT'.
    { by rewrite HT, Eb, <-!app_assoc. }
    assert (length (buffer_ (conn st')) = length (buffer_ (conn st))) as Elen.
    { destruct Hsound as (_&_&Hroom). rewrite Ebuf, length_write_at; lia. }
    apply (in_data _ _ _ p got); try done.
    + by rewrite (moved_talks _ _ Hm).
    + rewrite HT' in Hp. eapply prefix_of_frame; [exact Hp|].
      pose proof (reading_at _ _ _ _ Hr') as Hat. pose proof (reading_length _ _ _ _ Hr') as Hl.
      rewrite length_app. lia.
    + by rewrite Eds.
    + by rewrite Edr.
    + by rewrite Elen.
    + by rewrite (moved_messages _ _ Hm).
  - assert (bytes = []) as -> by (destruct bytes; [done|cbn [length] in Er; lia]).
    apply (in_dispatch _ _ _ p); try done.
    + by rewrite (moved_talks _ _ Hm).
    + by rewrite Ebuf, write_at_nil.
    + cbn [length] in Er. lia.
    + by rewrite (moved_messages _ _ Hm).
  - eapply phase_arrived; [done|by exists l].
  - apply doomed; [done|by apply Hm|by rewrite (moved_messages _ _ Hm)|].
    intros p Hp'. rewrite (moved_talks _ _ Hm) in Hp'. auto.
Qed.

(** ** Running its handlers *)

Definition del (i : nat) (s : State) : State :=
  MkState (conn s) (socket_ s) (net s) (read_at s) (delete i (handlers s)) (signals s).

Lemma complete_inv i ec st st' :
  complete respond i ec st = Ok (tt, st') →
  st' = st ∨ ∃ p, handlers st !! i = Some p ∧ ready p st = true ∧
    run_handler respond (p_handler p) ec (del i st) = Ok (tt, st').
Proof.
  intros E. apply M_bind_inv in E as (x&s1&[= <- <-]&E).
  destruct (handlers st !! i) as [p|] eqn:Ei; [|injection E as <-; by left].
  destruct (ready p st) eqn:Er; cbn [when] in E; [|injection E as <-; by left].
  apply M_bind_inv in E as ([]&s1&[= <-]&E). right. by exists p.
Qed.

Lemma sound_del i st : sound st → sound (del i st).
Proof. done. Qed.

Lemma moved_del i p st :
  sound st → handlers st !! i = Some p → talking p = false → moved st (del i st).
Proof.
  intros Hs Hi Hp. destruct (moved_refl st Hs). split; try done.
  unfold talks. cbn [del handlers]. by apply filter_delete_other with p.
Qed.

Lemma moves_handler h n ec : talking (MkPending h n) = false → moves (run_handler respond h ec).
Proof.
  intros Hh. apply moves_bind; [apply moves_get|intros s]. cbv zeta.
  destruct (Socket.read_result (socket_ s)) as [e m].
  destruct h; try discriminate Hh; [apply moves_DoClose|apply moves_tick|apply moves_CheckTimeout|apply moves_DoClose].
Qed.

Lemma reading_del i p prefix n st : reading p prefix n st → reading p prefix n (del i st).
Proof. intros [H1 H2 H3 H4 H5]. by split. Qed.

(** ** What a handler does on the side *)

Record aside (s s' : State) : Prop := {
  aside_ok : Socket.state_ok (sk s) → Socket.state_ok (sk s');
  aside_read : rd s' = rd s;
  aside_calls : read_calls (socket_ s') = read_calls (socket_ s);
  aside_open : Socket.IsOpen (socket_ s') = Socket.IsOpen (socket_ s);
  aside_attached : attached (conn s') = attached (conn s);
  aside_buffer : buffer_ (conn s') = buffer_ (conn s);
  aside_size : data_size_ (conn s') = data_size_ (conn s);
  aside_received : data_received_ (conn s') = data_received_ (conn s);
  aside_at : read_at s' = read_at s;
  aside_handlers : handlers s' = handlers s;
  aside_signals : signals s' = signals s;
}.

Lemma aside_trans s1 s2 s3 : aside s1 s2 → aside s2 s3 → aside s1 s3.
Proof.
  intros [O1 R1 C1 P1 A1 B1 S1 D1 T1 H1 G1] [O2 R2 C2 P2 A2 B2 S2 D2 T2 H2 G2].
  split; try congruence. intros Ho. exact (O2 (O1 Ho)).
Qed.

Lemma aside_expires d st st' : expires_from_now d st = Ok (tt, st') → aside st st'.
Proof.
  intros E. apply M_bind_inv in E as (t&s1&E1&E). injection E1 as _ <-. injection E as <-. by split.
Qed.

Lemma aside_slow n st b st' : in_socket (Socket.IsSlowTransmission n) st = Ok (b, st') → aside st st'.
Proof.
  intros E. unfold in_socket in E.
  destruct (Socket.IsSlowTransmission n (socket_ st, net st)) as [[b' [s' n']]|] eqn:Em; [|done].
  injection E as _ <-.
  assert (the_read (s', n') = the_read (socket_ st, net st)) as Er.
  { refine (keeps_IsSlowTransmission the_read n _ _ _ Em). by split. }
  assert (registration (s', n') = registration (socket_ st, net st)) as Eg.
  { refine (keeps_IsSlowTransmission registration n _ _ _ Em). by split. }
  unfold the_read in Er. cbn [fst] in Er. unfold registration in Eg. cbn [fst snd] in Eg.
  injection Eg as _ Eo _.
  assert (read_bytes s' = read_bytes (socket_ st)) as Eb by (unfold read_bytes; by rewrite Er).
  split; cbn [socket_ conn read_at handlers signals set_buffer buffer_ data_size_ data_received_ attached];
    rewrite ?Eb, ?drop_all, ?write_at_nil; try done.
  - apply zoom_inv in Em as (sh&Em&E2). apply zoom_inv in Em as ([c w]&Em&->).
    unfold sk, Socket.state_ok. cbn [fst snd socket_ net]. intros (H1&H2&H3&H4&Hc&H6). cbn [fst snd] in *.
    destruct (IsSlowTransmission_ok n (Socket.congestion_control_ (socket_ st)) (net st).2 Hc)
      as (b0&c'&w'&E'&Hc'&_).
    pose proof (eq_trans (eq_sym E') Em) as E3. injection E3 as _ <- <-.
    injection E2 as -> _. exact (conj H1 (conj H2 (conj H3 (conj H4 (conj Hc' H6))))).
  - unfold read_calls. by rewrite Er.
Qed.

Lemma aside_stopped s s' : aside s s' → Stopped s' = Stopped s.
Proof. intros Ha. unfold Stopped. by rewrite (aside_attached _ _ Ha), (aside_open _ _ Ha). Qed.

(** ** Starting to read the data *)

Lemma best_positive st best :
  Socket.state_ok (sk st) → Socket.BestReadBufferSize (socket_ st) = Ok best → 16 ≤ best.
Proof.
  intros (_&_&_&_&Hc&_) E. destruct Hc as ((Hd&Hw&Hr)&_). cbn [fst] in *.
  unfold Socket.BestReadBufferSize, BestReadBufferSize in E. unfold sk in Hr. cbn [fst] in Hr.
  unfold RudpParameters.default_window_size, RudpParameters.maximum_window_size,
    RudpParameters.max_data_size in *.
  rewrite !u64_small in E by lia. destruct (_ <? _); [|done]. injection E as <-.
  unfold u32. rewrite Z.mod_small by lia. lia.
Qed.

Record before_data (data got : list Z) (st : State) : Prop := {
  before_ok : Socket.state_ok (sk st);
  before_open : Stopped st = false;
  before_talks : talks st = [];
  before_messages : messages st = [];
  before_size : data_size_ (conn st) = Z.of_nat (length data);
  before_received : data_received_ (conn st) = Z.of_nat (length got);
  before_got : take (length got) (buffer_ (conn st)) = got;
}.

Lemma StartReadData_next data got st st' :
  Z.of_nat (length data) < 2147483648 → (length got < length data)%nat → before_data data got st →
  StartReadData st = Ok (tt, st') →
  ∃ p, p_handler p = HReadData ∧ talks st' = [p] ∧ messages st' = [] ∧ reading p got 1 st' ∧
    sound st' ∧ Stopped st' = false ∧ data_size_ (conn st') = Z.of_nat (length data) ∧
    data_received_ (conn st') = Z.of_nat (length got) ∧
    (length (buffer_ (conn st')) ≤ length data)%nat ∧ waits st' = S (waits st).
Proof.
  intros Hdata Hgot [Hok Hst Ht Hm Es Er Eg] E.
  apply M_bind_inv in E as (x&s1&[= <- <-]&E). rewrite Hst in E.
  apply liftR_inv in E as (best&Eb&E). pose proof (best_positive _ _ Hok Eb) as Hbest. cbv zeta in E.
  rewrite Es, Er in E. rewrite (u64_small (_ - _)) in E by lia. rewrite u64_small in E by lia.
  apply M_bind_inv in E as ([]&s1&E1&E). injection E1 as <-. rewrite Nat2Z.id in E.
  set (size := Z.to_nat _) in E.
  assert (length got < size ≤ length data)%nat as Hsize by (unfold size; lia).
  assert (Hlen : length (resize size (buffer_ (conn st))) = size).
  { unfold resize. rewrite length_app, length_take, length_replicate. lia. }
  apply read_from_reading in E as (p&Ep&Eh&Esig&Hr&Hok'&Hf&El&Ds&Dr&Ea&Eo&Ew);
    cbn [conn buffer_ set_buffer socket_ net signals handlers data_size_ data_received_ attached] in *;
    [|exact Hok|lia|lia|lia].
  exists p. split; [done|]. split; [|split].
  { unfold talks. rewrite Eh, filter_app. change (filter talking (handlers st)) with (talks st). rewrite Ht.
    unfold talking. cbn. rewrite Ep. done. }
  { unfold messages. by rewrite Esig. }
  replace (take (length got) (resize size (buffer_ (conn st)))) with got in Hr.
  2: { unfold resize. apply (f_equal length) in Eg as Lg. rewrite length_take in Lg.
       rewrite take_app_le by (rewrite length_take; lia). rewrite take_take.
       by replace (length got `min` size)%nat with (length got) by lia. }
  split; [exact Hr|]. split; [|split; [|split_and!]]; try congruence; try lia.
  - split; [exact Hok'|]. split; [intros _; exact Hf|]. pose proof (reading_length _ _ _ _ Hr). lia.
  - unfold Stopped in *. by rewrite Ea, Eo.
  - exact Ew.
Qed.

(** ** The handlers of the conversation *)

Definition reads_only (st : State) : Prop :=
  ∀ p, p ∈ talks st → p_handler p = HReadSize ∨ p_handler p = HReadData.

Lemma CloseOnError_dooms data T e st st' :
  sound st → messages st = [] → reads_only st → CloseOnError e st = Ok (tt, st') → phase data T st'.
Proof.
  intros Hs Hm Hr E. pose proof (moves_CloseOnError e _ _ _ Hs E) as Hmv.
  apply CloseOnError_stops in E as Hst. apply doomed; [by eapply moved_sound|done| |].
  - by rewrite (moved_messages _ _ Hmv).
  - rewrite (moved_talks _ _ Hmv). exact Hr.
Qed.

Lemma reads_only_nil st : talks st = [] → reads_only st.
Proof. intros E p Hp. rewrite E in Hp. by apply elem_of_nil in Hp. Qed.

Lemma read_between_new st st' : waits st' = S (waits st) → read_between st st' = read st'.
Proof. intros E. unfold read_between. rewrite decide_False by lia. done. Qed.

Lemma read_between_same st st' :
  waits st' = waits st → read st' = read st → read_between st st' = [].
Proof. intros Ew Er. unfold read_between, added. by rewrite decide_True, Er, drop_all by done. Qed.

(** The data is being read, and nothing else came than it begins with. *)
Lemma data_phase data rest got T st st1 st' :
  Z.of_nat (length data) < 2147483648 → (length got < length data)%nat → before_data data got st1 →
  StartReadData st1 = Ok (tt, st') → waits st1 = waits st →
  T = size_bytes (Z.of_nat (length data)) ++ got →
  T ++ read_between st st' `prefix_of` frame data ++ rest →
  phase data (T ++ read_between st st') st'.
Proof.
  intros Hd Hg Hb E Ew HT Hp.
  destruct (StartReadData_next _ _ _ _ Hd Hg Hb E) as (p&Ep&Et&Em&Hr&Hs&Hst&Ds&Dr&Hlen&Ew').
  rewrite read_between_new in * by congruence. subst T. rewrite <-app_assoc in *.
  apply (in_data _ _ _ p got); try done.
  eapply prefix_of_frame; [exact Hp|]. pose proof (reading_at _ _ _ _ Hr). pose proof (reading_length _ _ _ _ Hr).
  rewrite length_app. lia.
Qed.

Lemma size_arrived data rest p st :
  reading p [] 4 st → satisfied (rd st) → length (buffer_ (conn st)) = 4%nat →
  read st `prefix_of` frame data ++ rest →
  buffer_ (conn st) = size_bytes (Z.of_nat (length data)) ∧ read st = size_bytes (Z.of_nat (length data)).
Proof.
  intros [_ Hn Ha Hl Hb] Hsat Hlen Hp. cbn [length Nat.add app] in *.
  assert (length (read st) = 4%nat) as H4.
  { destruct Hsat as [Hs|Hs]; [lia|]. rewrite Hn in Hs. change (Socket.read_into (rd st)) with (read st) in Hs. lia. }
  assert (read st = size_bytes (Z.of_nat (length data))) as Er.
  { unfold frame in Hp. rewrite <-app_assoc in Hp. destruct Hp as [k Hk].
    apply app_inj_1 in Hk as [Hk _]; [done|]. by rewrite H4, length_size_bytes. }
  split; [|done]. rewrite Ha, H4, take_ge in Hb by lia. congruence.
Qed.

Lemma HandleReadSize_next data rest p T st i st' :
  0 < Z.of_nat (length data) < 2147483648 →
  sound st → Stopped st = false → talks st = [p] → reading p [] 4 st →
  length (buffer_ (conn st)) = 4%nat → T = read st → messages st = [] → talks (del i st) = [] →
  satisfied (rd st) →
  HandleReadSize false (del i st) = Ok (tt, st') →
  T ++ read_between st st' `prefix_of` frame data ++ rest → phase data (T ++ read_between st st') st'.
Proof.
  intros Hd Hs Hst Et Hr Hlen HT Em Etd Hsat E Hp.
  destruct (size_arrived data rest p st Hr Hsat Hlen) as [Eb Er].
  { rewrite <-HT. by eapply prefix_app_l. }
  apply M_bind_inv in E as (x&s1&[= <- <-]&E). change (Stopped (del i st)) with (Stopped st) in E.
  rewrite Hst in E. cbn [del conn] in E. rewrite Eb in E.
  destruct (size_bytes (Z.of_nat (length data))) as [|b0 [|b1 [|b2 [|b3 [|b4 ?]]]]] eqn:Esz; try done.
  do 4 (apply liftR_inv in E as (?&[= <-]&E)).
  rewrite (size_bytes_round_trip (Z.of_nat (length data)) b0 b1 b2 b3) in E by (done || lia).
  rewrite u64_small in E by lia.
  apply M_bind_inv in E as ([]&s1&E1&E). injection E1 as <-.
  apply M_bind_inv in E as ([]&s2&E2&E). injection E2 as <-.
  apply M_bind_inv in E as ([]&s3&E3&E). apply aside_expires in E3 as Ha.
  eapply (data_phase data rest [] T st s3); [lia|cbn [length]; lia| |exact E| | |exact Hp].
  - split.
    + apply Ha, Hs.
    + rewrite (aside_stopped _ _ Ha). exact Hst.
    + unfold talks. rewrite (aside_handlers _ _ Ha). exact Etd.
    + unfold messages. rewrite (aside_signals _ _ Ha). exact Em.
    + rewrite (aside_size _ _ Ha). done.
    + rewrite (aside_received _ _ Ha). done.
    + done.
  - unfold waits. by rewrite (aside_calls _ _ Ha).
  - by rewrite app_nil_r, HT, Er, Esz.
Qed.

Lemma HandleReadData_next data rest p got T st i st' :
  0 < Z.of_nat (length data) < 2147483648 →
  sound st → Stopped st = false → reading p got 1 st →
  T = size_bytes (Z.of_nat (length data)) ++ got ++ read st → got ++ read st `prefix_of` data →
  data_size_ (conn st) = Z.of_nat (length data) → data_received_ (conn st) = Z.of_nat (length got) →
  (length (buffer_ (conn st)) ≤ length data)%nat → messages st = [] → talks (del i st) = [] →
  HandleReadData false (Z.of_nat (length (read st))) (del i st) = Ok (tt, st') →
  T ++ read_between st st' `prefix_of` frame data ++ rest → phase data (T ++ read_between st st') st'.
Proof.
  intros Hd Hs Hst [_ _ Ha Hl Hb] HT Hpre Es Er Hlen Em Etd E Hp.
  pose proof (prefix_length _ _ Hpre) as Hle. rewrite length_app in Hle.
  apply M_bind_inv in E as (x&s1&[= <- <-]&E). change (Stopped (del i st)) with (Stopped st) in E.
  rewrite Hst in E. apply M_bind_inv in E as ([]&s1&E1&E). injection E1 as <-.
  apply M_bind_inv in E as (x&s1&[= <- <-]&E).
  cbn [del conn data_received_ set_data_received data_size_] in E. rewrite Er, Es in E.
  rewrite u64_small in E by lia.
  set (s2 := MkState _ _ _ _ _ _) in E.
  assert (aside s2 s2) as H22 by by split.
  destruct (Z.eqb_spec (Z.of_nat (length got) + Z.of_nat (length (read st))) (Z.of_nat (length data))) as [Hall|Hmore].
  - apply M_bind_inv in E as ([]&s3&E3&E). injection E3 as <-. injection E as <-.
    rewrite read_between_same by done.
    assert (got ++ read st = data) as Hdata.
    { apply prefix_length_eq; [done|]. rewrite length_app. lia. }
    refine (in_dispatch _ _ _ (MkPending HDispatchMessage 0) _ _ _ _ _ _).
    + exact Hs.
    + unfold talks in *. cbn [handlers s2 del] in *. by rewrite filter_app, Etd.
    + done.
    + cbn [conn s2 buffer_ set_timer set_data_received]. rewrite take_ge in Hb by lia. congruence.
    + change (Socket.read_buffer (rd st) = 0%nat). lia.
    + exact Em.
  - apply M_bind_inv in E as ([]&s3&E3&E).
    assert (aside s2 s3) as H23.
    { destruct (0 <? _); cbn [when] in E3; [by eapply aside_expires|by injection E3 as <-]. }
    apply M_bind_inv in E as (slow&s4&E4&E). apply aside_slow in E4.
    pose proof (aside_trans _ _ _ H23 E4) as H24.
    assert (sound s4) as Hs4.
    { split; [apply H24, Hs|]. rewrite (aside_open _ _ H24), (aside_read _ _ H24), (aside_at _ _ H24), (aside_buffer _ _ H24).
      exact (proj2 Hs). }
    assert (talks s4 = []) as Et4 by (unfold talks; rewrite (aside_handlers _ _ H24); exact Etd).
    assert (messages s4 = []) as Em4 by (unfold messages; rewrite (aside_signals _ _ H24); exact Em).
    apply M_bind_inv in E as ([]&s5&E5&E). destruct slow; cbn [when] in E5.
    + apply CloseOnError_stops in E5 as Hst5. pose proof (moves_CloseOnError _ _ _ _ Hs4 E5) as Hm5.
      apply M_bind_inv in E as (x&s6&[= <- <-]&E). rewrite Hst5 in E.
      eapply CloseOnError_dooms; [by eapply moved_sound| | |exact E].
      * by rewrite (moved_messages _ _ Hm5).
      * apply reads_only_nil. by rewrite (moved_talks _ _ Hm5).
    + injection E5 as <-.
      eapply (data_phase data rest (got ++ read st) T st s4); [lia|rewrite length_app; lia| |exact E| |done|exact Hp].
      * split; try done; [apply Hs4|..].
        -- rewrite (aside_stopped _ _ H24). exact Hst.
        -- rewrite (aside_size _ _ H24). exact Es.
        -- rewrite (aside_received _ _ H24), length_app, Nat2Z.inj_add. done.
        -- rewrite (aside_buffer _ _ H24), length_app, <-Ha. exact Hb.
      * unfold waits. by rewrite (aside_calls _ _ H24).
Qed.

Lemma DispatchMessage_tells s s' :
  signals_ok s → attached (conn s) = true → DispatchMessage respond s = Ok (tt, s') →
  SMessageReceived (buffer_ (conn s)) :: signals s `suffix_of` signals s'.
Proof.
  intros Hs Ha E. unfold DispatchMessage in E. apply M_bind_inv in E as (x&s1&[= <- <-]&E).
  rewrite Ha in E. cbn [when] in E. apply M_bind_inv in E as ([]&s1&E1&E).
  pose proof (tells_signal_attached s s1 (SMessageReceived (buffer_ (conn s))) tt Ha I E1 Hs) as [Hs1 _].
  injection E1 as <-. cbn [signals]. destruct (respond _) as [response t].
  refine (proj2 (_ : signals_ok s' ∧ _)). revert E Hs1.
  match goal with |- ?m ?s = _ → _ => change (m s = Ok (tt, s') → signals_ok s → signals_ok s' ∧ signals s `suffix_of` signals s') end.
  revert s'. intros s' E Hs1. revert E. destruct (bool_decide _); intros E.
  - exact (silent_tells _ (silent_await _) _ _ _ E Hs1).
  - refine (tells_bind _ _ (tells_EncodeData _) (λ _, _) _ _ _ E Hs1).
    apply silent_tells, silent_bind; [by apply silent_upd_conn|intros _; apply silent_await].
Qed.

Lemma next_signals st st' : signals_ok st → next st st' → signals_ok st' ∧ signals st `suffix_of` signals st'.
Proof.
  intros Hs [i ec E|bytes ep _ _ _ E|E].
  - exact (tells_complete respond i ec _ _ _ E Hs).
  - exact (silent_tells _ (silent_in_socket _) _ _ _ E Hs).
  - exact (tells_DoClose _ _ _ E Hs).
Qed.

Definition concerns (h : handler) : bool := talking (MkPending h 0).

(** A handler runs. *)
Lemma phase_handler data T rest st st' i ec x :
  0 < Z.of_nat (length data) < 2147483648 → signals_ok st → phase data T st →
  signals st `suffix_of` signals st' →
  handlers st !! i = Some x → ready x st = true → run_handler respond (p_handler x) ec (del i st) = Ok (tt, st') →
  T ++ read_between st st' `prefix_of` frame data ++ rest → phase data (T ++ read_between st st') st'.
Proof.
  intros Hd Hsig Hph Hsuf Hi Hready E Hp.
  assert (∀ q, talks st = [q] → talking x = true → x = q ∧ talks (del i st) = []) as Honly.
  { intros q Eq Ex. by eapply filter_delete_only. }
  assert (sound st → talking x = false → phase data (T ++ read_between st st') st') as Hother.
  { intros Hs Ex. eapply phase_moved; [done|done| |done|done].
    pose proof (moved_del i x st Hs Hi Ex) as Hdel. eapply moved_trans; [done|exact Hdel|].
    refine (moves_handler (p_handler x) 0 ec Ex _ _ _ _ E). exact Hs. }
  destruct Hph as [p Hs Hst Et Eh Hr Hlen HT Em|p got Hs Hst Et Eh Hr HT Hg Es Erc Hlen Em
    |p Hs Et Eh Ed Eroom Em|l El|Hs Hst Em Ht].
  - destruct (talking x) eqn:Ex; [|by auto]. destruct (Honly p Et eq_refl) as [-> Etd].
    unfold ready in Hready. rewrite Eh in Hready, E. destruct (reading_completed _ _ _ _ Hr) as [Hc He].
    apply Hc in Hready. specialize (He Hready). apply M_bind_inv in E as (y&s1&[= <- <-]&E).
    cbv zeta in E. cbn [del socket_ Socket.read_result] in E. unfold rd in He. rewrite He in E.
    eapply HandleReadSize_next; try done.
  - destruct (talking x) eqn:Ex; [|by auto]. destruct (Honly p Et eq_refl) as [-> Etd].
    unfold ready in Hready. rewrite Eh in Hready, E. destruct (reading_completed _ _ _ _ Hr) as [Hc He].
    apply Hc in Hready. specialize (He Hready). apply M_bind_inv in E as (y&s1&[= <- <-]&E).
    cbv zeta in E. cbn [del socket_ Socket.read_result] in E. unfold rd in He. rewrite He in E.
    assert (Socket.read_bytes_transferred (Socket.waiting_read_ (socket_ st)) = Z.of_nat (length (read st))) as El.
    { apply orb_false_elim in Hst as [_ ?%negb_false_iff]. by apply (proj1 (proj2 Hs)). }
    rewrite El in E. eapply HandleReadData_next; try done.
  - destruct (talking x) eqn:Ex; [|by auto]. destruct (Honly p Et eq_refl) as [-> Etd].
    rewrite Eh in E. apply M_bind_inv in E as (y&s1&[= <- <-]&E). cbv zeta in E.
    destruct (Socket.read_result _) as [e n]. destruct (attached (conn st)) eqn:Ha.
    + apply DispatchMessage_tells in E as [k Ek]; [|done|done]. cbn [del conn signals] in Ek. rewrite Ed in Ek.
      refine (arrived _ _ _ (omap (λ e, match e with SMessageReceived m => Some m | _ => None end) k) _).
      unfold messages in *. rewrite Ek, omap_app. cbn. by rewrite Em.
    + unfold DispatchMessage in E. apply M_bind_inv in E as (y&s1&[= <- <-]&E).
      cbn [del conn] in E. rewrite Ha in E. injection E as <-.
      apply doomed; [exact Hs| |exact Em|by apply reads_only_nil].
      unfold Stopped. cbn [del conn]. by rewrite Ha.
  - eapply phase_arrived; [done|by exists l].
  - destruct (talking x) eqn:Ex; [|by auto].
    assert (reads_only (del i st)) as Hro.
    { intros q Hq. apply Ht. unfold talks in *. cbn [del handlers] in Hq.
      destruct (filter_delete talking _ _ _ Hi) as (l1&l2&E1&E2). rewrite E2 in Hq. rewrite E1.
      apply elem_of_app in Hq. apply elem_of_app. destruct Hq; [by left|right]. apply elem_of_app. by right. }
    assert (∃ e, CloseOnError e (del i st) = Ok (tt, st')) as [e Ee].
    { assert (p_handler x = HReadSize ∨ p_handler x = HReadData) as Hx.
      { apply Ht. unfold talks. apply list_elem_of_filter. split; [by rewrite Ex|]. by eapply list_elem_of_lookup_2. }
      apply M_bind_inv in E as (y&s1&[= <- <-]&E). cbv zeta in E.
      destruct (Socket.read_result _) as [ec' n].
      destruct Hx as [Ehx|Ehx]; rewrite Ehx in E; apply M_bind_inv in E as (y&s1&[= <- <-]&E);
        change (Stopped (del i st)) with (Stopped st) in E; rewrite Hst in E; eauto. }
    by eapply (CloseOnError_dooms _ _ e (del i st)).
Qed.

Lemma phase_next data T rest st st' :
  0 < Z.of_nat (length data) < 2147483648 → signals_ok st → phase data T st → next st st' →
  T ++ read_between st st' `prefix_of` frame data ++ rest → phase data (T ++ read_between st st') st'.
Proof.
  intros Hd Hsig Hph Hn Hp. destruct (next_signals _ _ Hsig Hn) as [_ Hsuf].
  assert (((∃ l, messages st = l ++ [data]) ∨ sound st)) as [Ha|Hs].
  { destruct Hph; eauto. }
  { by eapply phase_arrived. }
  destruct Hn as [i ec E|bytes ep Hb Hi Ho E|E].
  - apply complete_inv in E as [->|(x&Hi&Hr&E)]; [|by eapply phase_handler].
    rewrite read_between_same, app_nil_r by done. done.
  - eapply phase_moved; [done|done| |done|done]. by eapply moves_datagram.
  - eapply phase_moved; [done|done| |done|done]. by eapply moves_DoClose.
Qed.

Lemma StartReadSize_phase data st0 st1 :
  Socket.state_ok (sk st0) → Stopped st0 = false → talks st0 = [] → messages st0 = [] →
  StartReadSize st0 = Ok (tt, st1) → phase data (read st1) st1.
Proof.
  intros Hok Hst Et Em E. apply M_bind_inv in E as (x&s1&[= <- <-]&E). rewrite Hst in E.
  apply M_bind_inv in E as ([]&s1&[= <-]&E). apply M_bind_inv in E as ([]&s1&[= <-]&E).
  apply M_bind_inv in E as ([]&s2&E2&E). apply M_bind_inv in E as (t&s3&E3&E). injection E3 as _ <-.
  apply M_bind_inv in E as ([]&s4&[= <-]&E). apply M_bind_inv in E as ([]&s5&[= <-]&E). injection E as <-.
  assert (length (resize 4 (buffer_ (conn st0))) = 4%nat) as Hlen.
  { unfold resize. rewrite length_app, length_take, length_replicate. lia. }
  apply read_from_reading in E2 as (p&Ep&Eh&Esig&Hr&Hok'&Hf&El&_&_&Ea&Eo&Ew);
    cbn [conn buffer_ set_buffer socket_ net signals handlers attached] in *;
    [|exact Hok|lia|lia|lia].
  refine (in_size _ _ _ p _ _ _ Ep _ _ _ _).
  - split; [exact Hok'|]. split; [intros _; exact Hf|]. pose proof (reading_length _ _ _ _ Hr). change (read_at s2 + Socket.read_buffer (rd s2) ≤ length (buffer_ (conn s2)))%nat. lia.
  - unfold Stopped in *. cbn [conn socket_ attached set_timeout_state set_timer set_response_deadline]. by rewrite Ea, Eo.
  - unfold talks. cbn [handlers]. rewrite Eh, filter_app. change (filter talking (handlers st0)) with (talks st0).
    rewrite Et. unfold talking. cbn. by rewrite Ep.
  - destruct Hr as [H1 H2 H3 H4 H5]. by split.
  - cbn [conn buffer_ set_timeout_state set_timer set_response_deadline]. lia.
  - done.
  - unfold messages. cbn [signals]. by rewrite Esig.
Qed.

Lemma receives_phase data rest T0 st1 T st2 :
  0 < Z.of_nat (length data) < 2147483648 → signals_ok st1 → phase data T0 st1 → receives st1 T st2 →
  T0 ++ T `prefix_of` frame data ++ rest → signals_ok st2 ∧ phase data (T0 ++ T) st2.
Proof.
  intros Hd Hsig Hph Hr. induction Hr as [|T sa sb Hr IH Hn]; intros Hp.
  - rewrite app_nil_r. done.
  - rewrite app_assoc in *. destruct IH as [Hsa Ha]; [by eapply prefix_app_l|].
    split; [by eapply next_signals|]. by eapply phase_next.
Qed.

Lemma complete_data_ready data p got st :
  sound st → Stopped st = false → reading p got 1 st → p_handler p = HReadData →
  got ++ read st = data → (length (buffer_ (conn st)) ≤ length data)%nat → ready p st = true.
Proof.
  intros Hs Hst Hr Eh Ed Hlen. unfold ready. rewrite Eh. apply (reading_completed _ _ _ _ Hr). left.
  pose proof (reading_at _ _ _ _ Hr). pose proof (reading_length _ _ _ _ Hr).
  apply (f_equal length) in Ed. rewrite length_app in Ed. lia.
Qed.

(** C15: What a connection that starts to read is told of a message, of at least one byte
    and fewer than 2{^31}, is the message: let the bytes that its socket gives it from
    then on be, as far as they go, [data] framed by its length and anything behind.
    Then, whatever comes in between (other datagrams, but for handshakes with an initial
    sequence number of more than 31 bits, timers, handlers in any order, a request to
    close), however the bytes are cut into pieces, the first message reported, if any,
    is [data]; and once the whole frame has come, the message was reported, or the
    connection was stopped, or one of its last two handlers is ready to run. *)
Theorem message_reassembled (data rest T : list Z) (st0 st1 st2 : State) :
  0 < Z.of_nat (length data) < 2147483648 →
  Socket.state_ok (sk st0) → Stopped st0 = false → talks st0 = [] → Forall ordinary (signals st0) →
  messages st0 = [] → StartReadSize st0 = Ok (tt, st1) → receives st1 T st2 →
  read st1 ++ T `prefix_of` frame data ++ rest →
  (messages st2 = [] ∨ ∃ later, messages st2 = later ++ [data]) ∧
  (frame data `prefix_of` read st1 ++ T →
   (∃ later, messages st2 = later ++ [data]) ∨ Stopped st2 = true ∨
   ∃ p, talks st2 = [p] ∧ ready p st2 = true ∧
     (p_handler p = HReadData ∨ p_handler p = HDispatchMessage ∧ buffer_ (conn st2) = data)).
Proof.
  intros Hd Hok Hst Et Hsig Em E Hr Hp.
  assert (signals_ok st1) as Hsig1.
  { refine (proj1 (silent_tells _ silent_StartReadSize _ _ _ E _)).
    unfold signals_ok. unfold Stopped in Hst. by destruct (attached (conn st0)). }
  pose proof (StartReadSize_phase data _ _ Hok Hst Et Em E) as Hph.
  destruct (receives_phase data rest _ _ _ _ Hd Hsig1 Hph Hr Hp) as [_ H2].
  destruct H2 as [p Hs2 Hst2 Et2 Eh Hrd Hlen HT Em2|p got Hs2 Hst2 Et2 Eh Hrd HT Hg Es Erc Hlen Em2
    |p Hs2 Et2 Eh Ed Eroom Em2|l El|Hs2 Hst2 Em2 Ht].
  - split; [by left|]. intros Hf%prefix_length. exfalso. rewrite HT in Hf. unfold frame in Hf.
    rewrite length_app, length_size_bytes in Hf.
    pose proof (reading_at _ _ _ _ Hrd). pose proof (reading_length _ _ _ _ Hrd). lia.
  - split; [by left|]. intros Hf. right. right. exists p. split; [done|]. split; [|by left].
    rewrite HT in Hf. unfold frame in Hf. apply prefix_app_inv in Hf.
    eapply (complete_data_ready data p got); try done. apply prefix_length_eq; [done|by apply prefix_length].
  - split; [by left|]. intros _. right. right. exists p. split; [done|].
    split; [unfold ready; by rewrite Eh|by right].
  - split; [right|intros _; left]; by exists l.
  - split; [by left|]. intros _. right. by left.
Qed.
End message.

Module MessageExamples.
Import Demo.

Definition no_reply (_ : list Z) : list Z * Z := ([], 0).

(** The frame of [[7; 8; 9]] in two packets. *)
Definition packet (n : Z) (data : list Z) : DataPacket.t := DataPacket.Mk n true true true 0 0 1 data.
Definition first : list Z := wire_bytes (packet 11 [0; 0; 0; 3; 7]).
Definition second : list Z := wire_bytes (packet 12 [8; 9]).

Definition fresh : State :=
  new_connection (remote 2) Socket.SocketExamples.connected Socket.SocketExamples.net0.

Definition receive (bytes : list Z) : M State unit :=
  in_socket (Socket.HandleReceiveFrom bytes (remote 2)).

Definition after (st : State) (r : Res (unit * State)) : State := (from_ok (tt, st) r).2.
Lemma after_eq st st' r : st' = after st r → is_ok r = true → r = Ok (tt, st').
Proof. intros ->. unfold after. by destruct r as [[[] ?]|]. Qed.

Definition listening : State := after fresh (StartReadSize fresh).
Definition st1 : State := after listening (receive first listening).
Definition st2 : State := after st1 (complete no_reply 0 false st1).
Definition st3 : State := after st2 (receive second st2).
Definition st4 : State := after st3 (complete no_reply 0 false st3).
Definition st5 : State := after st4 (complete no_reply 0 false st4).

(** What the socket gave the connection after [listening]. *)
Definition stream : list Z :=
  (((([] ++ read_between listening st1) ++ read_between st1 st2) ++ read_between st2 st3) ++
   read_between st3 st4) ++ read_between st4 st5.

Lemma packets_ok data : data = first ∨ data = second → bytes_ok data ∧ Socket.initial_number_ok data.
Proof.
  intros [->| ->]; (split; [unfold first, second; repeat (constructor; [by split; vm_compute|]); constructor|]);
    intros new p E1 E2; injection E1 as <-; vm_compute in E2; discriminate E2.
Qed.

Lemma run0 : StartReadSize fresh = Ok (tt, listening).
Proof. apply (after_eq fresh); [unfold listening; reflexivity|vm_compute; reflexivity]. Qed.
Lemma run1 : receive first listening = Ok (tt, st1).
Proof. apply (after_eq listening); [unfold st1; reflexivity|vm_compute; reflexivity]. Qed.
Lemma run2 : complete no_reply 0 false st1 = Ok (tt, st2).
Proof. apply (after_eq st1); [unfold st2; reflexivity|vm_compute; reflexivity]. Qed.
Lemma run3 : receive second st2 = Ok (tt, st3).
Proof. apply (after_eq st2); [unfold st3; reflexivity|vm_compute; reflexivity]. Qed.
Lemma run4 : complete no_reply 0 false st3 = Ok (tt, st4).
Proof. apply (after_eq st3); [unfold st4; reflexivity|vm_compute; reflexivity]. Qed.
Lemma run5 : complete no_reply 0 false st4 = Ok (tt, st5).
Proof. apply (after_eq st4); [unfold st5; reflexivity|vm_compute; reflexivity]. Qed.

Lemma next_packet data st st' :
  data = first ∨ data = second → Socket.IsOpen (socket_ st) = true →
  receive data st = Ok (tt, st') → next no_reply st st'.
Proof. intros [Hb Hi]%packets_ok Ho E. exact (next_datagram _ _ _ data (remote 2) Hb Hi Ho E). Qed.

Lemma stream_received : receives no_reply listening stream st5.
Proof.
  assert (Socket.IsOpen (socket_ listening) = true) as O1 by (vm_compute; reflexivity).
  assert (Socket.IsOpen (socket_ st2) = true) as O2 by (vm_compute; reflexivity).
  pose proof (next_packet first _ _ (or_introl eq_refl) O1 run1) as N1.
  pose proof (next_packet second _ _ (or_intror eq_refl) O2 run3) as N3.
  unfold stream.
  apply (receives_next _ _ _ st4); [|exact (next_handler _ _ _ 0 false run5)].
  apply (receives_next _ _ _ st3); [|exact (next_handler _ _ _ 0 false run4)].
  apply (receives_next _ _ _ st2); [|exact N3].
  apply (receives_next _ _ _ st1); [|exact (next_handler _ _ _ 0 false run2)].
  apply (receives_next _ _ _ listening); [|exact N1]. apply receives_nothing.
Qed.

Lemma fresh_ok : Socket.state_ok (sk fresh).
Proof.
  destruct (Socket.SocketExamples.fresh_socket_ok (remote 2) 77) as (_&H2&H3&H4&H5&H6); [by split; vm_compute|].
  refine (conj _ (conj H2 (conj H3 (conj H4 (conj H5 H6))))).
  split; vm_compute; repeat split; done.
Qed.

Lemma message_reassembled_witness :
  read listening ++ stream = frame [7; 8; 9] ∧ ∃ later, messages st5 = later ++ [[7; 8; 9]].
Proof.
  assert (read listening ++ stream = frame [7; 8; 9]) as Es by (vm_compute; reflexivity).
  split; [exact Es|].
  destruct (message_reassembled no_reply [7; 8; 9] [] stream fresh listening st5) as [[Hm|Hm] _].
  - by split; vm_compute.
  - exact fresh_ok.
  - vm_compute. reflexivity.
  - vm_compute. reflexivity.
  - apply Forall_nil_2.
  - reflexivity.
  - exact run0.
  - exact stream_received.
  - rewrite Es, app_nil_r. done.
  - exfalso. vm_compute in Hm. discriminate Hm.
  - exact Hm.
Defined.
End MessageExamples.
