(* ===== verification/Contact.v ===== *)
(** * Contacts

    Models src/maidsafe/transport/contact.cc: the addresses of a node.  The text
    form of addresses is asio's ([IpText]) and the bytes of a message are
    protobuf's ([ContactWire]); the message itself, with the fields that
    transport.proto gives it, is written out. *)

From S2P Require Import Prelude Environment.

Class IpText `{IpAddress} := {
  ip_to_string : ip_address → list Z;
  (** [from_string], which may set an error *)
  ip_from_string : list Z → option ip_address;
}.

(** Addresses have a text form. *)
Class IpTextLaws `{IpText} : Prop := {
  ip_from_to_string a : ip_from_string (ip_to_string a) = Some a;
}.

(** ** transport.proto *)

Record PbEndpoint := MkPbEndpoint { pb_ip : option (list Z); pb_port : option Z }.
Record PbContact := MkPbContact {
  pb_endpoint : option PbEndpoint;
  pb_local_ips : list (list Z);
  pb_local_port : option Z;
  pb_rendezvous : option PbEndpoint;
  pb_tcp443 : option bool;
  pb_tcp80 : option bool;
  pb_prefer_local : option bool;
}.

(** Required fields are set. *)
Definition endpoint_initialized (e : PbEndpoint) : bool :=
  match e with MkPbEndpoint (Some _) (Some _) => true | _ => false end.
Definition is_initialized (m : PbContact) : bool :=
  from_option endpoint_initialized true (pb_endpoint m) &&
  from_option endpoint_initialized true (pb_rendezvous m).

Class ContactWire := {
  SerializeToString : PbContact → option (list Z);
  ParseFromString : list Z → option PbContact;
}.
(** Protobuf writes a message with its required fields, and reads what it wrote. *)
Class ContactWireLaws `{ContactWire} : Prop := {
  serializes m : is_initialized m = true → is_Some (SerializeToString m);
  parses_serialized m s : SerializeToString m = Some s → ParseFromString s = Some m;
}.

Record Contact `{IpAddress} := MkContact {
  endpoint_ : endpoint;
  local_endpoints_ : list endpoint;
  rendezvous_endpoint_ : endpoint;
  tcp443_ : bool;
  tcp80_ : bool;
  prefer_local_ : bool;
}.
Arguments MkContact {_}.

Section contact.
Context `{IpAddress}.
Implicit Types (c : Contact) (ip : ip_address) (ep : endpoint).

Definition IsValid ep : bool :=
  negb (bool_decide (ep_address ep = ip_none) || (ep_port ep =? 0)).

Definition no_contact : Contact := MkContact endpoint_none [] endpoint_none false false false.
Definition Clear c : Contact := no_contact.

Definition tcp443endpoint c : endpoint :=
  if tcp443_ c then Endpoint _ (ep_address (endpoint_ c)) 443 else endpoint_none.
Definition tcp80endpoint c : endpoint :=
  if tcp80_ c then Endpoint _ (ep_address (endpoint_ c)) 80 else endpoint_none.

Definition IpMatchesEndpoint ip ep : bool := bool_decide (ip = ep_address ep).

(** [std::iter_swap] of the [i]-th element and the first. *)
Definition swap_first {A} (i : nat) (l : list A) : list A :=
  match l !! i, l !! 0%nat with
  | Some x, Some y => <[0%nat := x]> (<[i := y]> l)
  | _, _ => l
  end.

Definition set_local_endpoints (l : list endpoint) c : Contact :=
  MkContact (endpoint_ c) l (rendezvous_endpoint_ c) (tcp443_ c) (tcp80_ c) (prefer_local_ c).
Definition set_prefer_local (b : bool) c : Contact :=
  MkContact (endpoint_ c) (local_endpoints_ c) (rendezvous_endpoint_ c) (tcp443_ c) (tcp80_ c) b.

Definition MoveLocalEndpointToFirst ip c : bool * Contact :=
  match list_find (λ ep, IpMatchesEndpoint ip ep = true) (local_endpoints_ c) with
  | None => (false, c)
  | Some (i, _) => (true, set_local_endpoints (swap_first i (local_endpoints_ c)) c)
  end.

Definition Init c : bool * Contact :=
  match local_endpoints_ c with
  | [] => (false, Clear c)
  | first :: others =>
      if negb (IsValid (endpoint_ c)) || negb (IsValid first) then (false, Clear c)
      else if (tcp443_ c || tcp80_ c) && IsValid (rendezvous_endpoint_ c) then (false, Clear c)
      else if existsb (λ ep, negb (IsValid ep) || negb (ep_port ep =? ep_port first)) others
        then (false, Clear c)
      else
        let c := (MoveLocalEndpointToFirst (ep_address (endpoint_ c)) c).2 in
        if (tcp443_ c || tcp80_ c) &&
           negb (from_option (λ ep, bool_decide (ep_address (endpoint_ c) = ep_address ep)) true
                   (head (local_endpoints_ c)))
        then (false, Clear c) else (true, c)
  end.

Definition new_contact ep (locals : list endpoint) (rendezvous : endpoint) (tcp443 tcp80 : bool) : Contact :=
  (Init (MkContact ep locals rendezvous tcp443 tcp80 false)).2.

Definition SetPreferredEndpoint ip c : bool * Contact :=
  if negb (bool_decide (ep_address (rendezvous_endpoint_ c) = ip_none))
  then (bool_decide (ep_address (rendezvous_endpoint_ c) = ip), c)
  else
    let c := set_prefer_local false c in
    if bool_decide (ep_address (endpoint_ c) = ip) then (true, c)
    else
      let '(result, c) := MoveLocalEndpointToFirst ip c in
      (result, if result : bool then set_prefer_local true c else c).

Definition PreferredEndpoint c : endpoint :=
  if negb (bool_decide (ep_address (rendezvous_endpoint_ c) = ip_none)) then rendezvous_endpoint_ c
  else
    match local_endpoints_ c with
    | first :: _ => if prefer_local_ c then first else endpoint_ c
    | [] => endpoint_ c
    end.

Definition IsDirectlyConnected c : bool :=
  (tcp443_ c || tcp80_ c) ||
  (negb (prefer_local_ c) &&
   from_option (λ ep, bool_decide (ep_address ep = ep_address (endpoint_ c))) false
     (head (local_endpoints_ c))).

Context `{!IpText} `{ContactWire}.

(** [Endpoint(ip_as_string, port_in)]: no port where the text is no address. *)
Definition endpoint_of_string (text : list Z) (port : Z) : endpoint :=
  match ip_from_string text with Some ip => Endpoint _ ip port | None => Endpoint _ ip_none 0 end.

Definition pb_of_endpoint ep : PbEndpoint :=
  MkPbEndpoint (Some (ip_to_string (ep_address ep))) (Some (ep_port ep)).

(** The error, or the bytes. *)
Definition Serialise c : option (list Z) :=
  let m := MkPbContact (Some (pb_of_endpoint (endpoint_ c)))
    (ip_to_string ∘ ep_address <$> local_endpoints_ c) (ep_port <$> last (local_endpoints_ c))
    (if IsValid (rendezvous_endpoint_ c) then Some (pb_of_endpoint (rendezvous_endpoint_ c)) else None)
    (if IsValid (tcp443endpoint c) then Some true else None)
    (if IsValid (tcp80endpoint c) then Some true else None)
    (Some (prefer_local_ c)) in
  if negb (is_initialized m) then None else SerializeToString m.

(** Reading a field that is not set gives the default value. *)
Definition endpoint_of_pb (e : option PbEndpoint) : endpoint :=
  let e := default (MkPbEndpoint None None) e in
  endpoint_of_string (default [] (pb_ip e)) (u16 (default 0 (pb_port e))).

Definition Parse (serialised : list Z) c : bool * Contact :=
  match ParseFromString serialised with
  | None => (false, Clear c)
  | Some m =>
      let c := MkContact (endpoint_of_pb (pb_endpoint m))
        (local_endpoints_ c ++
         ((λ text, endpoint_of_string text (u16 (default 0 (pb_local_port m)))) <$> pb_local_ips m))
        (match pb_rendezvous m with Some e => endpoint_of_pb (Some e) | None => endpoint_none end)
        (default false (pb_tcp443 m)) (default false (pb_tcp80 m)) (default false (pb_prefer_local m)) in
      if negb (is_initialized m) then (false, Clear c) else (true, c)
  end.
End contact.

(** ** What a contact is *)

Section theory.
Context `{IpAddress}.
Implicit Types (c : Contact) (ip : ip_address) (ep : endpoint) (locals : list endpoint).

Definition common_port locals : Prop :=
  ∃ port, Forall (λ ep, IsValid ep = true ∧ ep_port ep = port) locals.

(** A contact as the header describes it. *)
Definition acceptable ep locals rendezvous (tcp : bool) : Prop :=
  IsValid ep = true ∧ locals ≠ [] ∧ common_port locals ∧
  (tcp = true → IsValid rendezvous = false ∧ ∃ l, l ∈ locals ∧ ep_address l = ep_address ep).

Lemma swap_first_perm {A} i (l : list A) : swap_first i l ≡ₚ l.
Proof.
  unfold swap_first. destruct (l !! i) as [x|] eqn:Ex; [|done]. destruct l as [|y l]; [done|].
  cbn [lookup list_lookup]. destruct i as [|i]; [by injection Ex as ->|].
  change (x :: <[i := y]> l ≡ₚ y :: l). cbn in Ex.
  rewrite <-(take_drop_middle l i x Ex) at 2.
  rewrite insert_take_drop by by eapply lookup_lt_Some.
  rewrite <-!Permutation_middle. apply perm_swap.
Qed.

Lemma swap_first_head {A} i (l : list A) x : l !! i = Some x → head (swap_first i l) = Some x.
Proof.
  intros Ex. unfold swap_first. rewrite Ex. destruct l as [|y l]; [done|].
  cbn [lookup list_lookup]. by destruct i.
Qed.

(** Moving an address to the front: whether it is there. *)
Lemma MoveLocalEndpointToFirst_spec ip c :
  let r := MoveLocalEndpointToFirst ip c in
  r.2 = set_local_endpoints (local_endpoints_ r.2) c ∧ local_endpoints_ r.2 ≡ₚ local_endpoints_ c ∧
  if r.1 then ∃ ep, head (local_endpoints_ r.2) = Some ep ∧ ep_address ep = ip
  else r.2 = c ∧ ∀ ep, ep ∈ local_endpoints_ c → ep_address ep ≠ ip.
Proof.
  unfold MoveLocalEndpointToFirst. destruct (list_find _ _) as [[i ep]|] eqn:E; cbn [fst snd].
  - apply list_find_Some in E as (Ei&Em&_). cbn [set_local_endpoints local_endpoints_].
    split; [done|]. split; [apply swap_first_perm|]. exists ep. split; [by apply swap_first_head|].
    unfold IpMatchesEndpoint in Em. by apply bool_decide_eq_true in Em.
  - apply list_find_None in E. rewrite Forall_forall in E. split; [by destruct c|]. split; [done|].
    split; [done|]. intros ep Hep Eip. apply (E ep Hep). unfold IpMatchesEndpoint. by apply bool_decide_eq_true.
Qed.

Lemma common_port_cons first others :
  common_port (first :: others) ↔ IsValid first = true ∧
    existsb (λ ep, negb (IsValid ep) || negb (ep_port ep =? ep_port first)) others = false.
Proof.
  split.
  - intros (port&Hp). apply Forall_cons in Hp as [[Hv Ep] Hp]. split; [done|]. 
    induction Hp as [|x l [Hx Epx] _ IH]; [done|]. cbn [existsb].
    by rewrite IH, Hx, Ep, Epx, Z.eqb_refl.
  - intros [Hv Ho]. exists (ep_port first). constructor; [done|].
    induction others as [|x l IH]; [constructor|]. cbn [existsb] in Ho.
    apply orb_false_iff in Ho as [Hx Hl]. constructor; [|by apply IH].
    apply orb_false_iff in Hx as [Hx%negb_false_iff Hp%negb_false_iff]. by apply Z.eqb_eq in Hp.
Qed.

Definition direct ep locals : bool := existsb (λ l, bool_decide (ep_address l = ep_address ep)) locals.

Lemma direct_spec ep locals :
  direct ep locals = true ↔ ∃ l, l ∈ locals ∧ ep_address l = ep_address ep.
Proof.
  unfold direct. rewrite existsb_exists. split; intros (l&Hl&E); exists l.
  - split; [by apply list_elem_of_In|by apply bool_decide_eq_true in E].
  - split; [by apply list_elem_of_In|by apply bool_decide_eq_true].
Qed.

(** C34: A contact that is constructed either passes the tests of [Init] (valid endpoint;
    valid local endpoints, all with the same port; with TCP, no rendezvous endpoint and
    a local endpoint with the external address) and then has these endpoints, and is
    directly connected if one of them has the external address; or it is empty. (The
    description in contact.h asks for more: that the endpoint equals the first local
    one, with its port, and that a directly connected node has no rendezvous endpoint,
    with TCP or without, see [direct_with_rendezvous].) *)
Theorem contact_constructed ep locals rendezvous (tcp443 tcp80 : bool) :
  let c := new_contact ep locals rendezvous tcp443 tcp80 in
  (acceptable ep locals rendezvous (tcp443 || tcp80) ∧
   c = MkContact ep (local_endpoints_ c) rendezvous tcp443 tcp80 false ∧
   local_endpoints_ c ≡ₚ locals ∧ IsDirectlyConnected c = direct ep locals) ∨
  (¬ acceptable ep locals rendezvous (tcp443 || tcp80) ∧ c = no_contact).
Proof.
  unfold new_contact, Init. cbn [local_endpoints_]. destruct locals as [|first others].
  { right. split; [|done]. by intros (_&?&_). }
  cbn [endpoint_ rendezvous_endpoint_ tcp443_ tcp80_]. set (tcp := tcp443 || tcp80).
  destruct (negb (IsValid ep) || negb (IsValid first)) eqn:E1; cbn [snd].
  { right. split; [|done]. intros (Hv&_&[Hf _]%common_port_cons&_). by rewrite Hv, Hf in E1. }
  apply orb_false_iff in E1 as [Hv%negb_false_iff Hf%negb_false_iff].
  destruct (tcp && IsValid rendezvous) eqn:E2; cbn [snd].
  { right. split; [|done]. apply andb_prop in E2 as [Et Er]. intros (_&_&_&Ht).
    destruct (Ht Et) as [Hr _]. congruence. }
  destruct (existsb _ others) eqn:E3; cbn [snd].
  { right. split; [|done]. intros (_&_&[_ Ho]%common_port_cons&_). congruence. }
  assert (common_port (first :: others)) as Hport by by apply common_port_cons.
  set (c0 := MkContact ep (first :: others) rendezvous tcp443 tcp80 false).
  destruct (MoveLocalEndpointToFirst_spec (ep_address ep) c0) as (Ec&Hperm&Hhead).
  set (r := MoveLocalEndpointToFirst (ep_address ep) c0) in *.
  assert (from_option (λ x, bool_decide (ep_address ep = ep_address x)) true (head (local_endpoints_ r.2)) =
    direct ep (first :: others) ∧
    from_option (λ x, bool_decide (ep_address x = ep_address ep)) false (head (local_endpoints_ r.2)) =
    direct ep (first :: others)) as [Ed1 Ed2].
  { destruct r.1.
    - destruct Hhead as (x&Eh&Ex). rewrite Eh. cbn [from_option]. rewrite !bool_decide_eq_true_2 by done.
      assert (direct ep (first :: others) = true) as ->; [|done]. apply direct_spec. exists x. split; [|done].
      change (x ∈ local_endpoints_ c0). rewrite <-Hperm. by apply head_Some_elem_of.
    - destruct Hhead as [-> Hno]. cbn [c0 local_endpoints_ head from_option].
      assert (ep_address first ≠ ep_address ep) as Hne by (apply Hno; left).
      rewrite !bool_decide_eq_false_2 by congruence.
      assert (direct ep (first :: others) = false) as ->; [|done]. apply not_true_is_false.
      intros (l&Hl&El)%direct_spec. by apply (Hno l). }
  assert (endpoint_ r.2 = ep) as Eep by by rewrite Ec.
  assert (tcp443_ r.2 || tcp80_ r.2 = tcp) as Etcp by by rewrite Ec.
  rewrite Etcp, Eep, Ed1.
  destruct (tcp && negb (direct ep (first :: others))) eqn:E4; cbn [snd].
  - right. split; [|done]. apply andb_prop in E4 as [Et Hd%negb_true_iff]. intros (_&_&_&Ht).
    destruct (Ht Et) as [_ Hl%direct_spec]. congruence.
  - left. split_and!.
    + split_and!; [done|done|done|]. intros Et. rewrite Et in E2, E4. split; [done|].
      apply direct_spec. by destruct (direct ep _).
    + exact Ec.
    + exact Hperm.
    + unfold IsDirectlyConnected. rewrite Eep, Ed2, Ec. cbn [set_local_endpoints tcp443_ tcp80_ prefer_local_ c0].
      fold tcp. destruct tcp; [by destruct (direct ep _)|done].
Qed.

(** Preferring an address succeeds exactly when it is the rendezvous address, if
    there is one, or else the external or a local address, and then it is the
    address preferred; the set of local endpoints stays. *)
Theorem preferred_endpoint_set ip c :
  let r := SetPreferredEndpoint ip c in
  (r.1 = true →  ep_address (PreferredEndpoint r.2) = ip) ∧
  (r.1 = true ↔
    if bool_decide (ep_address (rendezvous_endpoint_ c) = ip_none)
    then ep_address (endpoint_ c) = ip ∨ ∃ ep, ep ∈ local_endpoints_ c ∧ ep_address ep = ip
    else ep_address (rendezvous_endpoint_ c) = ip) ∧
  local_endpoints_ r.2 ≡ₚ local_endpoints_ c.
Proof.
  unfold SetPreferredEndpoint. destruct (bool_decide (_ = ip_none)) eqn:En; cbn [negb fst snd].
  2: { split_and!; [|by apply bool_decide_eq_true|done]. intros E%bool_decide_eq_true.
       unfold PreferredEndpoint. by rewrite En. }
  cbn [set_prefer_local endpoint_]. destruct (bool_decide (ep_address (endpoint_ c) = ip)) eqn:Ee; cbn [fst snd].
  { apply bool_decide_eq_true in Ee. split_and!; [|by split; [left|]|done]. intros _.
    unfold PreferredEndpoint. cbn [set_prefer_local rendezvous_endpoint_ local_endpoints_ prefer_local_ endpoint_].
    rewrite En. by destruct (local_endpoints_ c). }
  apply bool_decide_eq_false in Ee. fold (set_prefer_local false c).
  destruct (MoveLocalEndpointToFirst_spec ip (set_prefer_local false c)) as (Ec&Hperm&Hhead).
  destruct (MoveLocalEndpointToFirst ip _) as [b c1]. cbn [fst snd] in *.
  cbn [set_prefer_local local_endpoints_] in Hperm. destruct b; cbn [fst snd].
  - destruct Hhead as (x&Eh&Ex). split_and!; [|split; [|done]|exact Hperm].
    + intros _. unfold PreferredEndpoint. rewrite Ec.
      cbn [set_prefer_local set_local_endpoints rendezvous_endpoint_ local_endpoints_ prefer_local_].
      rewrite En. cbn [negb]. destruct (local_endpoints_ c1) as [|y l]; [done|]. by injection Eh as ->.
    + intros _. right. exists x. split; [|done]. rewrite <-Hperm. by apply head_Some_elem_of.
  - destruct Hhead as [-> Hno]. split_and!; [done| |done]. split; [done|].
    intros [?|(x&Hx&Ex)]; [done|]. by destruct (Hno x Hx).
Qed.

Context `{!IpText} `{!IpTextLaws} `{ContactWire} `{!ContactWireLaws}.

(** What the message can say. *)
Record expressible c : Prop := {
  expressible_port : is_u16 (ep_port (endpoint_ c));
  expressible_locals : ∃ port, is_u16 port ∧ Forall (λ ep, ep_port ep = port) (local_endpoints_ c);
  expressible_rendezvous : rendezvous_endpoint_ c = endpoint_none ∨
    IsValid (rendezvous_endpoint_ c) = true ∧ is_u16 (ep_port (rendezvous_endpoint_ c));
  expressible_tcp : tcp443_ c || tcp80_ c = true → ep_address (endpoint_ c) ≠ ip_none;
}.

Lemma u16_small z : is_u16 z → u16 z = z.
Proof. apply Z.mod_small. Qed.

Lemma endpoint_of_pb_of ep : is_u16 (ep_port ep) → endpoint_of_pb (Some (pb_of_endpoint ep)) = ep.
Proof.
  intros Hp. unfold endpoint_of_pb, pb_of_endpoint, endpoint_of_string. cbn [default from_option pb_ip pb_port id].
  rewrite ip_from_to_string, u16_small by done. by destruct ep.
Qed.

Lemma IsValid_none : IsValid endpoint_none = false.
Proof. unfold IsValid. cbn. by rewrite bool_decide_eq_true_2. Qed.

Lemma locals_of_pb locals port :
  is_u16 port → Forall (λ ep, ep_port ep = port) locals →
  ((λ text, endpoint_of_string text (u16 (default 0 (ep_port <$> last locals)))) <$>
    (ip_to_string ∘ ep_address <$> locals)) = locals.
Proof.
  intros Hp Hl. destruct (decide (locals = [])) as [->|Hne]; [done|].
  assert (ep_port <$> last locals = Some port) as ->.
  { destruct (last locals) as [x|] eqn:E; [|by apply last_None in E].
    apply last_Some_elem_of in E. rewrite Forall_forall in Hl. cbn. by rewrite (Hl x). }
  cbn [default from_option id]. rewrite u16_small by done. clear Hne.
  induction Hl as [|x l Ex _ IH]; [done|]. cbn [fmap list_fmap]. rewrite IH. f_equal.
  unfold endpoint_of_string. cbn [compose]. rewrite ip_from_to_string, <-Ex. by destruct x.
Qed.

Lemma tcp_serialised (b : bool) ip port :
  port ≠ 0 → (b = true → ip ≠ ip_none) →
  default false (if IsValid (if b then Endpoint _ ip port else endpoint_none) then Some true else None) = b.
Proof.
  intros Hp Hb. destruct b; [|by rewrite IsValid_none]. unfold IsValid. cbn [ep_address ep_port].
  rewrite bool_decide_eq_false_2 by auto. by rewrite (proj2 (Z.eqb_neq _ _)).
Qed.

(** C35: A contact that the message can express survives serialisation, for any
    address text and wire format that are inverses: parsing what was serialised
    gives all of it back.  But it is parsed into a contact whose local endpoints are
    kept in front of the new ones, so only a contact without any becomes equal. *)
Theorem contact_round_trip c c0 :
  expressible c → ∃ s, Serialise c = Some s ∧
    Parse s c0 = (true, set_local_endpoints (local_endpoints_ c0 ++ local_endpoints_ c) c).
Proof.
  intros [Hport (port&Hp&Hl) Hr Ht].
  assert (∀ b, tcp443_ c = b → b = true → ep_address (endpoint_ c) ≠ ip_none) as Ht1.
  { intros b Eb ->. apply Ht. by rewrite Eb. }
  assert (∀ b, tcp80_ c = b → b = true → ep_address (endpoint_ c) ≠ ip_none) as Ht2.
  { intros b Eb ->. apply Ht. rewrite Eb. apply orb_true_r. }
  unfold Serialise. cbv zeta. set (m := MkPbContact _ _ _ _ _ _ _).
  assert (is_initialized m = true) as Hm.
  { unfold m, is_initialized. cbn [pb_endpoint pb_rendezvous]. by destruct (IsValid (rendezvous_endpoint_ c)). }
  rewrite Hm. cbn [negb]. destruct (serializes m Hm) as [s Es]. exists s. split; [done|].
  unfold Parse. rewrite (parses_serialized m s Es), Hm. cbn [negb]. f_equal. unfold m, set_local_endpoints.
  cbn [pb_endpoint pb_local_ips pb_local_port pb_rendezvous pb_tcp443 pb_tcp80 pb_prefer_local].
  f_equal.
  - by apply endpoint_of_pb_of.
  - f_equal. by eapply locals_of_pb.
  - destruct Hr as [->|[Hv Hu]]; [by rewrite IsValid_none|]. rewrite Hv. by apply endpoint_of_pb_of.
  - by apply tcp_serialised; [|by apply Ht1].
  - by apply tcp_serialised; [|by apply Ht2].
Qed.
End theory.

Module ContactExamples.

#[local] Existing Instance Sim.ip.

(** Addresses written as their bytes. *)
Definition text_of (a : Sim.address) : list Z :=
  match a with Sim.V4 a b c d => [4; a; b; c; d] | Sim.V6 l => 6 :: l end.
Definition of_text (l : list Z) : option Sim.address :=
  match l with [4; a; b; c; d] => Some (Sim.V4 a b c d) | 6 :: l => Some (Sim.V6 l) | _ => None end.
#[export] Instance text : @IpText Sim.ip := {|
  ip_to_string := text_of : @ip_address Sim.ip → list Z; ip_from_string := of_text |}.
#[export] Instance text_laws : IpTextLaws.
Proof. split. by intros []. Qed.

(** A message written as its number in an enumeration of all messages. *)
#[export] Instance PbEndpoint_eq_dec : EqDecision PbEndpoint.
Proof. solve_decision. Defined.
#[export] Instance PbContact_eq_dec : EqDecision PbContact.
Proof. solve_decision. Defined.
#[export, refine] Instance PbEndpoint_countable : Countable PbEndpoint :=
  inj_countable' (λ e, (pb_ip e, pb_port e)) (λ x, MkPbEndpoint x.1 x.2) _.
Proof. by intros []. Defined.
#[export, refine] Instance PbContact_countable : Countable PbContact :=
  inj_countable' (λ m, (pb_endpoint m, pb_local_ips m, pb_local_port m, pb_rendezvous m,
      pb_tcp443 m, pb_tcp80 m, pb_prefer_local m))
    (λ '(e, ips, port, r, a, b, p), MkPbContact e ips port r a b p) _.
Proof. by intros []. Defined.
#[export] Instance wire : ContactWire := {|
  SerializeToString m := Some [Z.pos (encode m)];
  ParseFromString s := match s with [Z.pos p] => decode p | _ => None end |}.
#[export] Instance wire_laws : ContactWireLaws.
Proof. split; [done|]. intros m s [= <-]. apply decode_encode. Qed.

Definition v4 (d : Z) : @ip_address Sim.ip := Sim.V4 192 168 0 d.
Definition home : Contact :=
  new_contact (Endpoint _ (v4 1) 5483) [Endpoint _ (v4 7) 5000; Endpoint _ (v4 1) 5000] endpoint_none true false.

Lemma contact_round_trip_witness :
  ∃ s, Serialise home = Some s ∧ Parse s no_contact = (true, home).
Proof.
  apply (contact_round_trip home no_contact). split.
  - by split.
  - exists 5000. split; [by split|]. by repeat constructor.
  - by left.
  - discriminate.
Defined.

(** Contrary to the description a contact is directly connected with another port than
    its endpoint, and may then have a rendezvous endpoint. *)
Lemma direct_with_rendezvous :
  let c := new_contact (Endpoint _ (v4 1) 5483) [Endpoint _ (v4 1) 5000] (Endpoint _ (v4 9) 5483) false false in
  IsDirectlyConnected c = true ∧ rendezvous_endpoint_ c = Endpoint _ (v4 9) 5483.
Proof. by split. Qed.

(** Preferring a local address and then the external one again makes a directly
    connected node look as if it were not. *)
Lemma preferring_back_not_direct :
  let c := new_contact (Endpoint _ (v4 1) 5483) [Endpoint _ (v4 1) 5000; Endpoint _ (v4 7) 5000]
             endpoint_none false false in
  let c' := (SetPreferredEndpoint (v4 1) (SetPreferredEndpoint (v4 7) c).2).2 in
  IsDirectlyConnected c = true ∧ PreferredEndpoint c' = PreferredEndpoint c ∧
  IsDirectlyConnected c' = false.
Proof. by split_and!. Qed.
End ContactExamples.
