(* ===== verification/Protobuf.v ===== *)
(** * The messages of transport.proto

    The fields of each message, which of them are required ([IsInitialized]), and
    the numbers that message_handler.h gives to message types.  The bytes of a
    message are protobuf's ([Wire]). *)

From S2P Require Import Prelude Environment Contact.

Record WrapperMessage := MkWrapperMessage {
  msg_type : option Z;
  payload : option (list Z);
  message_signature : option (list Z);
}.
Record ManagedEndpointMessage := MkManagedEndpointMessage {
  managed_endpoint : option PbEndpoint;
  managed_result : option bool;
  message_id : option Z;
  identifier : option (list Z);
  frequency : option Z;
  retry_count : option Z;
  retry_frequency : option Z;
}.
Record NatDetectionRequest := MkNatDetectionRequest {
  local_ips : list (list Z);
  local_port : option Z;
  full_detection : option bool;
}.
Record NatDetectionResponse := MkNatDetectionResponse {
  detected_endpoint : option PbEndpoint;
  nat_type : option Z;
}.
Record ProxyConnectRequest := MkProxyConnectRequest {
  connect_endpoint : option PbEndpoint;
  rendezvous_connect : option bool;
  connect_rendezvous : option PbEndpoint;
}.
Record ProxyConnectResponse := MkProxyConnectResponse { connect_result : option bool }.
Record ForwardRendezvousRequest := MkForwardRendezvousRequest { receiver_endpoint : option PbEndpoint }.
Record ForwardRendezvousResponse := MkForwardRendezvousResponse {
  receiver_rendezvous_endpoint : option PbEndpoint;
}.
Record RendezvousRequest := MkRendezvousRequest { proxy_endpoint : option PbEndpoint }.
Record RendezvousAcknowledgement := MkRendezvousAcknowledgement { originator_endpoint : option PbEndpoint }.

(** A message type: whether the required fields of a message, and of those in it,
    are set; a message as the default constructor makes it; and its number. *)
Class MessageClass (T : Type) := {
  IsInitialized : T → bool;
  empty_message : T;
  message_type : Z;
}.
#[global] Arguments message_type T {_}.

(** An endpoint field that is required, or optional. *)
Definition required (e : option PbEndpoint) : bool := from_option endpoint_initialized false e.
Definition valid_if_set (e : option PbEndpoint) : bool := from_option endpoint_initialized true e.

#[export] Instance wrapper_class : MessageClass WrapperMessage := {|
  IsInitialized m := bool_decide (is_Some (msg_type m)) && bool_decide (is_Some (payload m));
  empty_message := MkWrapperMessage None None None; message_type := 0 |}.
#[export] Instance managed_endpoint_class : MessageClass ManagedEndpointMessage := {|
  IsInitialized m := valid_if_set (managed_endpoint m);
  empty_message := MkManagedEndpointMessage None None None None None None None; message_type := 1 |}.
#[export] Instance nat_detection_request_class : MessageClass NatDetectionRequest := {|
  IsInitialized m := bool_decide (is_Some (local_port m));
  empty_message := MkNatDetectionRequest [] None None; message_type := 2 |}.
#[export] Instance nat_detection_response_class : MessageClass NatDetectionResponse := {|
  IsInitialized m := valid_if_set (detected_endpoint m) && bool_decide (is_Some (nat_type m));
  empty_message := MkNatDetectionResponse None None; message_type := 3 |}.
#[export] Instance proxy_connect_request_class : MessageClass ProxyConnectRequest := {|
  IsInitialized m := required (connect_endpoint m) && bool_decide (is_Some (rendezvous_connect m)) &&
    valid_if_set (connect_rendezvous m);
  empty_message := MkProxyConnectRequest None None None; message_type := 4 |}.
#[export] Instance proxy_connect_response_class : MessageClass ProxyConnectResponse := {|
  IsInitialized m := bool_decide (is_Some (connect_result m));
  empty_message := MkProxyConnectResponse None; message_type := 5 |}.
#[export] Instance forward_rendezvous_request_class : MessageClass ForwardRendezvousRequest := {|
  IsInitialized m := required (receiver_endpoint m);
  empty_message := MkForwardRendezvousRequest None; message_type := 6 |}.
#[export] Instance forward_rendezvous_response_class : MessageClass ForwardRendezvousResponse := {|
  IsInitialized m := required (receiver_rendezvous_endpoint m);
  empty_message := MkForwardRendezvousResponse None; message_type := 7 |}.
#[export] Instance rendezvous_request_class : MessageClass RendezvousRequest := {|
  IsInitialized m := required (proxy_endpoint m);
  empty_message := MkRendezvousRequest None; message_type := 8 |}.
#[export] Instance rendezvous_acknowledgement_class : MessageClass RendezvousAcknowledgement := {|
  IsInitialized m := required (originator_endpoint m);
  empty_message := MkRendezvousAcknowledgement None; message_type := 9 |}.

(** ** The bytes of a message *)

Class Wire (T : Type) := {
  SerializeAsString : T → list Z;
  ParseFromString : list Z → option T;
}.
Class Protobuf := {
  wrapper_wire :: Wire WrapperMessage;
  managed_endpoint_wire :: Wire ManagedEndpointMessage;
  nat_detection_request_wire :: Wire NatDetectionRequest;
  nat_detection_response_wire :: Wire NatDetectionResponse;
  proxy_connect_request_wire :: Wire ProxyConnectRequest;
  proxy_connect_response_wire :: Wire ProxyConnectResponse;
  forward_rendezvous_request_wire :: Wire ForwardRendezvousRequest;
  forward_rendezvous_response_wire :: Wire ForwardRendezvousResponse;
  rendezvous_request_wire :: Wire RendezvousRequest;
  rendezvous_acknowledgement_wire :: Wire RendezvousAcknowledgement;
}.

(** What was written of a message with its required fields can be read. *)
Class WireLaws (T : Type) `{MessageClass T, Wire T} : Prop :=
  parses_serialized (m : T) : IsInitialized m = true → ParseFromString (SerializeAsString m) = Some m.
Class ProtobufLaws `{Protobuf} : Prop := {
  wrapper_laws :: WireLaws WrapperMessage;
  managed_endpoint_laws :: WireLaws ManagedEndpointMessage;
  nat_detection_request_laws :: WireLaws NatDetectionRequest;
  nat_detection_response_laws :: WireLaws NatDetectionResponse;
  proxy_connect_request_laws :: WireLaws ProxyConnectRequest;
  proxy_connect_response_laws :: WireLaws ProxyConnectResponse;
  forward_rendezvous_request_laws :: WireLaws ForwardRendezvousRequest;
  forward_rendezvous_response_laws :: WireLaws ForwardRendezvousResponse;
  rendezvous_request_laws :: WireLaws RendezvousRequest;
  rendezvous_acknowledgement_laws :: WireLaws RendezvousAcknowledgement;
}.

(** ** A concrete encoding

    Every field as a list of numbers behind its length. *)
Module SimWire.
Class Code (A : Type) := { enc : A → list Z; dec : list Z → option (A * list Z) }.
Class CodeLaws (A : Type) `{Code A} : Prop := dec_enc (a : A) s : dec (enc a ++ s) = Some (a, s).

#[export] Instance code_Z : Code Z := {| enc z := [z]; dec s := match s with z :: s => Some (z, s) | [] => None end |}.
#[export] Instance laws_Z : CodeLaws Z.
Proof. done. Qed.
#[export] Instance code_bool : Code bool := {| enc b := [if b : bool then 1 else 0]; dec s := match s with z :: s => Some (z =? 1, s) | [] => None end |}.
#[export] Instance laws_bool : CodeLaws bool.
Proof. by intros [] s. Qed.
#[export] Instance code_option {A} `{Code A} : Code (option A) := {|
  enc o := match o with Some a => 1 :: enc a | None => [0] end;
  dec s := match s with 1 :: s => '(a, s) ← dec s; Some (Some a, s) | _ :: s => Some (None, s) | [] => None end |}.
#[export] Instance laws_option {A} `{CodeLaws A} : CodeLaws (option A).
Proof. intros [a|] s; [cbn; by rewrite dec_enc|done]. Qed.
#[export] Instance code_pair {A B} `{Code A, Code B} : Code (A * B) := {|
  enc p := enc p.1 ++ enc p.2; dec s := '(a, s) ← dec s; '(b, s) ← dec s; Some ((a, b), s) |}.
#[export] Instance laws_pair {A B} `{CodeLaws A, CodeLaws B} : CodeLaws (A * B).
Proof. intros [a b] s. cbn. rewrite <-(assoc_L (++)), dec_enc. cbn. by rewrite dec_enc. Qed.

Fixpoint dec_list {A} `{Code A} (n : nat) (s : list Z) : option (list A * list Z) :=
  match n with
  | O => Some ([], s)
  | S n => '(a, s) ← dec s; '(l, s) ← dec_list n s; Some (a :: l, s)
  end.
#[export] Instance code_list {A} `{Code A} : Code (list A) := {|
  enc l := Z.of_nat (length l) :: mjoin (enc <$> l);
  dec s := match s with n :: s => dec_list (Z.to_nat n) s | [] => None end |}.
#[export] Instance laws_list {A} `{CodeLaws A} : CodeLaws (list A).
Proof.
  intros l s. cbn [dec enc code_list app]. rewrite Nat2Z.id.
  induction l as [|a l IH]; [done|]. change (mjoin (enc <$> a :: l)) with (enc a ++ mjoin (enc <$> l)). rewrite <-(assoc_L (++)).
  cbn [length dec_list]. rewrite dec_enc. cbn [mbind option_bind]. by rewrite IH.
Qed.

(** A message type by its fields. *)
Definition wire_of {T A} `{Code A} (fields : T → A) (make : A → T) : Wire T := {|
  SerializeAsString m := enc (fields m);
  ParseFromString s := '(a, _) ← dec s; Some (make a) |}.
Lemma wire_of_laws {T A} `{MessageClass T, CodeLaws A} (fields : T → A) (make : A → T) :
  (∀ m, make (fields m) = m) → WireLaws T (H0 := wire_of fields make).
Proof. intros Hm m _. cbn. rewrite <-(app_nil_r (enc _)), dec_enc. cbn. by rewrite Hm. Qed.

Definition endpoint_fields (e : PbEndpoint) := (pb_ip e, pb_port e).
Definition make_endpoint x := MkPbEndpoint x.1 x.2.
#[export] Instance code_endpoint : Code PbEndpoint := {|
  enc e := enc (endpoint_fields e); dec s := '(x, s) ← dec s; Some (make_endpoint x, s) |}.
#[export] Instance laws_endpoint : CodeLaws PbEndpoint.
Proof. intros [ip port] s. cbn [enc dec code_endpoint]. by rewrite dec_enc. Qed.

#[export] Instance protobuf : Protobuf := {|
  wrapper_wire := wire_of (λ m, (msg_type m, payload m, message_signature m))
    (λ x, MkWrapperMessage x.1.1 x.1.2 x.2);
  managed_endpoint_wire := wire_of
    (λ m, (managed_endpoint m, managed_result m, message_id m, identifier m, (frequency m, retry_count m, retry_frequency m)))
    (λ x, MkManagedEndpointMessage x.1.1.1.1 x.1.1.1.2 x.1.1.2 x.1.2 x.2.1.1 x.2.1.2 x.2.2);
  nat_detection_request_wire := wire_of (λ m, (local_ips m, local_port m, full_detection m))
    (λ x, MkNatDetectionRequest x.1.1 x.1.2 x.2);
  nat_detection_response_wire := wire_of (λ m, (detected_endpoint m, nat_type m)) (λ x, MkNatDetectionResponse x.1 x.2);
  proxy_connect_request_wire := wire_of (λ m, (connect_endpoint m, rendezvous_connect m, connect_rendezvous m))
    (λ x, MkProxyConnectRequest x.1.1 x.1.2 x.2);
  proxy_connect_response_wire := wire_of connect_result MkProxyConnectResponse;
  forward_rendezvous_request_wire := wire_of receiver_endpoint MkForwardRendezvousRequest;
  forward_rendezvous_response_wire := wire_of receiver_rendezvous_endpoint MkForwardRendezvousResponse;
  rendezvous_request_wire := wire_of proxy_endpoint MkRendezvousRequest;
  rendezvous_acknowledgement_wire := wire_of originator_endpoint MkRendezvousAcknowledgement |}.
#[export] Instance protobuf_laws : ProtobufLaws.
Proof. split; apply wire_of_laws; by intros []. Qed.
End SimWire.
