(* ===== verification/MessageHandler.v ===== *)
(** * Message handlers

    Models src/maidsafe/transport/message_handler.cc and rudp_message_handler.cc:
    what a transport does with a message it received, and how messages are made.
    A message is a byte that says how it is secured, and a [WrapperMessage], which
    may be signed and encrypted.

    Keys, ciphers and signatures are the cryptographic library's ([Crypto]).  A
    signal is the list of the functions connected to it; they are actions on a
    state [W] that the handler does not know. *)

From S2P Require Import Prelude Text Environment Transport Contact Protobuf.

Class Crypto := {
  PrivateKey : Type;
  PublicKey : Type;
  no_public_key : PublicKey;                               (** [Asym::PublicKey()] *)
  validate_key : PublicKey → bool;
  asym_sign : list Z → PrivateKey → option (list Z);
  asym_encrypt : list Z → PublicKey → option (list Z);
  asym_decrypt : list Z → PrivateKey → list Z;             (** empty on failure *)
  symm_encrypt : list Z → list Z → list Z → list Z;        (** data, key, initial vector *)
  symm_decrypt : list Z → list Z → list Z → list Z;
}.
(** The keys have 4096 bits. *)
Class CryptoLaws `{Crypto} := {
  key_pair : PublicKey → PrivateKey → Prop;
  asym_encrypt_size data pub priv c :
    key_pair pub priv → asym_encrypt data pub = Some c → length c = 512%nat;
  asym_decrypt_encrypt data pub priv c :
    key_pair pub priv → asym_encrypt data pub = Some c → asym_decrypt c priv = data;
  symm_decrypt_encrypt data key iv :
    length key = 32%nat → length iv = 16%nat → symm_decrypt (symm_encrypt data key iv) key iv = data;
}.

(** [SecurityType], a set of flags *)
Definition kNone : Z := 0.
Definition kSign : Z := 1.
Definition kSignWithParameters : Z := 2.
Definition kAsymmetricEncrypt : Z := 4.
Definition kSignAndAsymEncrypt : Z := 5.
Definition has (flag security_type : Z) : bool := negb (Z.land security_type flag =? 0).

Record Info `{IpAddress} := MkInfo { info_endpoint : endpoint; rtt : Z }.
Arguments MkInfo {_}.

Section message_handler.
Context `{IpAddress} `{!IpText} `{Crypto} `{Protobuf}.

(** ** Making a message

    [seed]: what [RandomString(48)] returns. *)
Definition MakeSerialisedWrapperMessage (private_key_ : option PrivateKey) (message_type : Z) (payload : list Z)
    (security_type : Z) (recipient_public_key : PublicKey) (seed : list Z) : Res (list Z) :=
  let wrapper_message := MkWrapperMessage (Some message_type) (Some payload) None in
  if security_type =? kNone then Ok (security_type :: SerializeAsString wrapper_message)
  else
    match private_key_ with
    | None => Ok []
    | Some key =>
        match (if has kSign security_type
               then signature ← asym_sign (decimal message_type ++ payload) key;
                    Some (MkWrapperMessage (Some message_type) (Some payload) (Some signature))
               else Some wrapper_message) with
        | None => Ok []
        | Some wrapper_message =>
            if has kAsymmetricEncrypt security_type then
              if negb (validate_key recipient_public_key) then Ok []
              else
                key ← substr 0 32 seed;
                kIV ← substr 32 16 seed;
                let encrypt_message := symm_encrypt (SerializeAsString wrapper_message) key kIV in
                match asym_encrypt seed recipient_public_key with
                | None => Ok []
                | Some encrypt_aes_seed => Ok (security_type :: encrypt_aes_seed ++ encrypt_message)
                end
            else Ok (security_type :: SerializeAsString wrapper_message)
        end
    end.

(** The nine overloads of [RudpMessageHandler::WrapMessage] *)
Definition WrapMessage {T} `{MessageClass T, Wire T} (private_key_ : option PrivateKey) (msg : T) : Res (list Z) :=
  if negb (IsInitialized msg) then Ok []
  else MakeSerialisedWrapperMessage private_key_ (message_type T) (SerializeAsString msg) kNone no_public_key [].

Definition CreateForwardRendezvousRequest (private_key_ : option PrivateKey) (ep : endpoint) : Res (list Z) :=
  WrapMessage private_key_ (MkForwardRendezvousRequest (Some (pb_of_endpoint ep))).

(** ** Receiving a message *)

Section received.
Context {W : Type}.

(** A function connected to a signal: of the arguments and of the objects passed
    by pointer, which it returns. *)
Definition slot (A R : Type) : Type := A → R → M W R.
Fixpoint emit {A R} (slots : list (slot A R)) (a : A) (r : R) : M W R :=
  match slots with
  | [] => mret r
  | f :: slots => r ← f a r; emit slots a r
  end.

(** What is inside, unless the message is dropped. *)
Definition deciphered (private_key_ : option PrivateKey) (security_type : Z) (request : list Z) : Res (option (list Z)) :=
  let serialised_message := tail request in
  if security_type =? kNone then Ok (Some serialised_message)
  else
    match private_key_ with
    | None => Ok None
    | Some key =>
        if has kAsymmetricEncrypt security_type then
          aes_seed ← substr 1 512 request;
          if negb (length aes_seed =? 512)%nat then Ok None
          else
            let encrypt_aes_seed := asym_decrypt aes_seed key in
            if bool_decide (encrypt_aes_seed = []) then Ok None
            else
              aes_key ← substr 0 32 encrypt_aes_seed;
              kIV ← substr 32 16 encrypt_aes_seed;
              rest ← substr 513 (length request) request;
              Ok (Some (symm_decrypt rest aes_key kIV))
        else Ok (Some serialised_message)
    end.

(** [process]: the virtual [ProcessSerialisedMessage]; [response]: the response and
    the timeout, which are passed by pointer. *)
Definition OnMessageReceived
    (process : Z → list Z → Z → list Z → Info → list Z * Z → M W (list Z * Z))
    (private_key_ : option PrivateKey) (request : list Z) (info : Info) (response : list Z * Z) : M W (list Z * Z) :=
  match request with
  | [] => mret response
  | security_type :: _ =>
      serialised_message ← liftR (deciphered private_key_ security_type request);
      match serialised_message ≫= ParseFromString with
      | Some wrapper =>
          if IsInitialized wrapper then
            process (default 0 (msg_type wrapper)) (default [] (payload wrapper)) security_type
              (default [] (message_signature wrapper)) info response
          else mret response
      | None => mret response
      end
  end.

(** [MessageHandler::ProcessSerialisedMessage] *)
Definition ProcessNothing (message_type : Z) (payload : list Z) (security_type : Z) (message_signature : list Z)
  (info : Info) (response : list Z * Z) : M W (list Z * Z) := mret response.
End received.

(** ** The RUDP message handler *)

Record RudpMessageHandler (W : Type) := MkRudpMessageHandler {
  private_key_ : option PrivateKey;
  on_error_ : list (slot (W := W) (TransportCondition * endpoint) unit);
  on_managed_endpoint_message_ : list (slot (W := W) ManagedEndpointMessage (ManagedEndpointMessage * Z));
  on_nat_detection_request_ : list (slot (W := W) (Info * NatDetectionRequest) (NatDetectionResponse * Z));
  on_nat_detection_response_ : list (slot (W := W) NatDetectionResponse unit);
  on_proxy_connect_request_ : list (slot (W := W) (Info * ProxyConnectRequest) (ProxyConnectResponse * Z));
  on_proxy_connect_response_ : list (slot (W := W) ProxyConnectResponse unit);
  on_forward_rendezvous_request_ : list (slot (W := W) (Info * ForwardRendezvousRequest) ForwardRendezvousResponse);
  on_forward_rendezvous_response_ : list (slot (W := W) ForwardRendezvousResponse unit);
  on_rendezvous_request_ : list (slot (W := W) (Info * RendezvousRequest) RendezvousAcknowledgement);
  on_rendezvous_acknowledgement_ : list (slot (W := W) RendezvousAcknowledgement unit);
}.
Arguments private_key_ {W}.
Arguments on_error_ {W}.
Arguments on_managed_endpoint_message_ {W}.
Arguments on_nat_detection_request_ {W}.
Arguments on_nat_detection_response_ {W}.
Arguments on_proxy_connect_request_ {W}.
Arguments on_proxy_connect_response_ {W}.
Arguments on_forward_rendezvous_request_ {W}.
Arguments on_forward_rendezvous_response_ {W}.
Arguments on_rendezvous_request_ {W}.
Arguments on_rendezvous_acknowledgement_ {W}.

Section rudp.
Context {W : Type} (h : RudpMessageHandler W).

Definition new_message_handler (key : option PrivateKey) : RudpMessageHandler W :=
  MkRudpMessageHandler W key [] [] [] [] [] [] [] [] [] [].

Definition OnError (condition : TransportCondition) (ep : endpoint) : M W unit := emit (on_error_ h) (condition, ep) tt.

(** [if (m.ParseFromString(payload) && m.IsInitialized())] *)
Definition if_parsed {T} `{MessageClass T, Wire T} (payload : list Z) (k : T → M W (list Z * Z)) : M W (list Z * Z) :=
  match ParseFromString payload with
  | Some m => if IsInitialized m then k m else mret ([], kImmediateTimeout)
  | None => mret ([], kImmediateTimeout)
  end.

Definition ProcessSerialisedMessage (message_type : Z) (payload : list Z) (security_type : Z)
    (message_signature : list Z) (info : Info) (response : list Z * Z) : M W (list Z * Z) :=
  let key := private_key_ h in
  if message_type =? Protobuf.message_type ManagedEndpointMessage then
    if_parsed payload (λ request,
      '(response, timeout) ← emit (on_managed_endpoint_message_ h) request (empty_message, kImmediateTimeout);
      message_response ← liftR (WrapMessage key response);
      mret (message_response, timeout))
  else if message_type =? Protobuf.message_type NatDetectionRequest then
    if_parsed payload (λ request,
      '(response, timeout) ← emit (on_nat_detection_request_ h) (info, request) (empty_message, kImmediateTimeout);
      if IsInitialized response then
        message_response ← liftR (WrapMessage key response);
        mret (message_response, timeout)
      else mret ([], timeout))
  else if message_type =? Protobuf.message_type NatDetectionResponse then
    if_parsed payload (λ response, emit (on_nat_detection_response_ h) response tt;; mret ([], kImmediateTimeout))
  else if message_type =? Protobuf.message_type ProxyConnectRequest then
    if_parsed payload (λ request,
      '(response, timeout) ← emit (on_proxy_connect_request_ h) (info, request) (empty_message, kImmediateTimeout);
      message_response ← liftR (WrapMessage key response);
      mret (message_response, timeout))
  else if message_type =? Protobuf.message_type ProxyConnectResponse then
    if_parsed payload (λ response, emit (on_proxy_connect_response_ h) response tt;; mret ([], kImmediateTimeout))
  else if message_type =? Protobuf.message_type ForwardRendezvousRequest then
    if_parsed payload (λ request,
      response ← emit (on_forward_rendezvous_request_ h) (info, request) empty_message;
      message_response ← liftR (WrapMessage key response);
      mret (message_response, kImmediateTimeout))
  else if message_type =? Protobuf.message_type ForwardRendezvousResponse then
    if_parsed payload (λ response, emit (on_forward_rendezvous_response_ h) response tt;; mret ([], kImmediateTimeout))
  else if message_type =? Protobuf.message_type RendezvousRequest then
    if_parsed payload (λ request,
      emit (on_rendezvous_request_ h) (info, request) empty_message;;
      mret ([], kImmediateTimeout))
  else if message_type =? Protobuf.message_type RendezvousAcknowledgement then
    if_parsed payload (λ acknowledgement,
      emit (on_rendezvous_acknowledgement_ h) acknowledgement tt;; mret ([], kImmediateTimeout))
  else
    ProcessNothing message_type payload security_type message_signature info ([], kImmediateTimeout).

(** What a transport gives to the handler: no response yet. *)
Definition Receive (request : list Z) (info : Info) : M W (list Z * Z) :=
  OnMessageReceived ProcessSerialisedMessage (private_key_ h) request info ([], kImmediateTimeout).
End rudp.
End message_handler.

(** ** What is sent is what is received *)

Section round_trip.
Context `{IpAddress} `{!IpText} `{CryptoLaws} `{ProtobufLaws}.

Lemma liftR_Ok_bind {S A B} (a : A) (k : A → M S B) s : (x ← liftR (Ok a); k x) s = k a s.
Proof. done. Qed.
Lemma has_none flag : has flag kNone = false.
Proof. unfold has. by rewrite Z.land_0_l. Qed.
(** A secured message is taken apart into what it was made of. *)
Lemma deciphered_encrypted t pub priv seed c data :
  key_pair pub priv → length seed = 48%nat → asym_encrypt seed pub = Some c → has kAsymmetricEncrypt t = true →
  deciphered (Some priv) t (t :: c ++ symm_encrypt data (take 32 seed) (take 16 (drop 32 seed))) = Ok (Some data).
Proof.
  intros Hk Hl Hc Ht. unfold deciphered. destruct (Z.eqb_spec t kNone) as [->|_]; [by rewrite has_none in Ht|].
  pose proof (asym_encrypt_size _ _ _ _ Hk Hc) as Hs. rewrite Ht, (substr_Ok 1) by (cbn [length]; lia).
  cbn [mbind Res_bind drop]. rewrite drop_0, take_app_length', Hs, (asym_decrypt_encrypt _ _ _ _ Hk Hc) by done. cbn [Nat.eqb negb].
  rewrite bool_decide_false, (substr_Ok 0), (substr_Ok 32), (substr_Ok 513) by first [lia | cbn [length]; rewrite length_app; lia | by intros ->].
  cbn [mbind Res_bind drop]. rewrite (drop_app_length' c), take_ge by first [done | cbn [length]; rewrite length_app; lia].
  by rewrite symm_decrypt_encrypt by (rewrite length_take, ?length_drop; lia).
Qed.
Lemma deciphered_plain key t s : (t = kNone ∨ is_Some key) → has kAsymmetricEncrypt t = false →
  deciphered key t (t :: s) = Ok (Some s).
Proof.
  intros Hk Ht. unfold deciphered. destruct (Z.eqb_spec t kNone) as [|Hne]; [done|].
  destruct Hk as [?|[k ->]]; [done|]. by rewrite Ht.
Qed.

(** The signature that a message carries *)
Definition signature_of (key : option PrivateKey) (message_type : Z) (payload : list Z) (security_type : Z) : list Z :=
  if has kSign security_type
  then default [] (k ← key; asym_sign (decimal message_type ++ payload) k) else [].

(** C23: A message that one node makes for another is taken apart into what it was made
    of, however it is secured: with the receiver's key pair, and if making it
    succeeds, [OnMessageReceived] processes exactly the message type, the payload,
    the security type and the sender's signature. *)
Theorem secured_message_round_trip {W} process (w : W) key message_type payload t pub seed bytes priv info response :
  MakeSerialisedWrapperMessage key message_type payload t pub seed = Ok bytes → bytes ≠ [] →
  length seed = 48%nat → key_pair pub priv →
  OnMessageReceived process (Some priv) bytes info response w =
  process message_type payload t (signature_of key message_type payload t) info response w.
Proof.
  intros E Hne Hl Hk. unfold MakeSerialisedWrapperMessage in E. unfold signature_of.
  assert (∀ sig, OnMessageReceived process (Some priv) bytes info response w =
    process message_type payload t (default [] sig) info response w ∨
    deciphered (Some priv) t bytes ≠ Ok (Some (SerializeAsString (MkWrapperMessage (Some message_type) (Some payload) sig))) ∨
    head bytes ≠ Some t) as Hr.
  { intros sig. destruct (decide (head bytes = Some t)) as [Eb|]; [|by right; right]. destruct bytes as [|t' s]; [done|].
    injection Eb as ->. unfold OnMessageReceived.
    destruct (deciphered (Some priv) t (t :: s)) as [o|f] eqn:Ed; [|right; left; done].
    destruct (decide (o = Some (SerializeAsString (MkWrapperMessage (Some message_type) (Some payload) sig)))) as [->|Ho];
      [left|right; left; congruence].
    rewrite liftR_Ok_bind. cbn [mbind option_bind]. by rewrite parses_serialized. }
  destruct (Z.eqb_spec t kNone) as [->|Ht].
  - injection E as <-. destruct (Hr None) as [E|[[]|[]]]; [|by rewrite deciphered_plain by (by rewrite ?has_none; auto)|done].
    by rewrite E, has_none.
  - destruct key as [k|]; [|by injection E as <-].
    destruct (if has kSign t then _ else _) as [wrapper|] eqn:Es; [|by injection E as <-].
    assert (∃ sig, wrapper = MkWrapperMessage (Some message_type) (Some payload) sig ∧
      default [] sig = if has kSign t then default [] (asym_sign (decimal message_type ++ payload) k) else []) as (sig&->&Esig).
    { destruct (has kSign t); [|injection Es as <-; by exists None].
      destruct (asym_sign _ k) as [sig|]; [|done]. injection Es as <-. by exists (Some sig). }
    cbn [mbind option_bind]. rewrite <-Esig. destruct (Hr sig) as [->|Hd]; [done|]. exfalso. destruct (has kAsymmetricEncrypt t) eqn:Ha.
    + destruct (negb _); [by injection E as <-|]. rewrite !substr_Ok in E by lia. cbn [mbind Res_bind drop] in E.
      destruct (asym_encrypt seed pub) as [c|] eqn:Ec; [|by injection E as <-]. injection E as <-.
      destruct Hd as [Hd|Hd]; [|done]. apply Hd. by eapply deciphered_encrypted.
    + injection E as <-. destruct Hd as [Hd|Hd]; [|done]. apply Hd. apply deciphered_plain; [by right|done].
Qed.

(** ** What makes the handler fail *)

Lemma deciphered_faults key t request f : request ≠ [] →
  deciphered key t request = Fault f ↔
  f = OutOfBounds ∧ t ≠ kNone ∧ has kAsymmetricEncrypt t = true ∧ (513 ≤ length request)%nat ∧
  ∃ k, key = Some k ∧ (0 < length (asym_decrypt (take 512 (tail request)) k) < 32)%nat.
Proof.
  intros Hne. unfold deciphered. destruct request as [|x request]; [done|]. clear Hne.
  destruct (Z.eqb_spec t kNone) as [|Ht]; [split; [done|]; by intros (_&?&_)|].
  destruct key as [k|]; [|split; [done|]; by intros (_&_&_&_&?&?&_)].
  destruct (has kAsymmetricEncrypt t); [|split; [done|]; by intros (_&_&?&_)].
  rewrite (substr_Ok 1) by (cbn [length]; lia). cbn [mbind Res_bind skipn tail]. rewrite drop_0.
  destruct (Nat.eqb_spec (length (take 512 request)) 512) as [Hl|Hl]; cbn [negb].
  2: { split; [done|]. intros (_&_&_&Hr&_). rewrite length_take in Hl. cbn in Hr. lia. }
  rewrite length_take in Hl. set (d := asym_decrypt _ k).
  destruct (bool_decide_reflect (d = [])) as [Ed|Hd].
  { split; [done|]. intros (_&_&_&_&k'&[= <-]&Hk). subst d. rewrite Ed in Hk. cbn in Hk. lia. }
  rewrite (substr_Ok 0) by lia. cbn [mbind Res_bind].
  destruct (decide (length d < 32)%nat) as [Hd32|Hd32].
  - rewrite (substr_short 32) by done. split; [intros [= <-]|intros (->&_); done]. split_and!; try done; [cbn; lia|]. exists k. split; [done|].
    change (0 < length d < 32)%nat. destruct d; [done|cbn in *; lia].
  - rewrite (substr_Ok 32), (substr_Ok 513) by (cbn [length]; lia).
    split; [done|]. intros (_&_&_&_&k'&[= <-]&Hk). change (0 < length d < 32)%nat in Hk. lia.
Qed.

(** C25: When what it processes messages with does not fail, [OnMessageReceived] fails,
    by an exception that nothing catches, on exactly the messages that are marked
    as encrypted, hold at least 512 bytes, and whose first 512 bytes decrypt to
    something shorter than the AES key.  Everything else it processes or drops. *)
Theorem message_handler_faults {W} process (w : W) key request info response f :
  (∀ message_type payload t signature, is_ok (process message_type payload t signature info response w) = true) →
  OnMessageReceived process key request info response w = Fault f ↔
  f = OutOfBounds ∧ ∃ t seed rest k, request = t :: seed ++ rest ∧ length seed = 512%nat ∧ key = Some k ∧
    has kAsymmetricEncrypt t = true ∧ (0 < length (asym_decrypt seed k) < 32)%nat.
Proof.
  intros Hp. unfold OnMessageReceived. destruct request as [|t request].
  { split; [done|]. by intros (_&?&?&?&?&?&_). }
  trans (deciphered key t (t :: request) = Fault f).
  - destruct (deciphered key t (t :: request)) as [[s|]|f'] eqn:Ed; [rewrite liftR_Ok_bind..|].
    + cbn [mbind option_bind]. destruct (ParseFromString s) as [wrapper|]; [|done]. destruct (IsInitialized wrapper); [|done].
      specialize (Hp (default 0 (msg_type wrapper)) (default [] (payload wrapper)) t (default [] (message_signature wrapper))).
      by destruct (process _ _ _ _ _ _ _).
    + done.
    + unfold mbind, M_bind, liftR. split; by intros [= ->].
  - rewrite deciphered_faults by done. split.
    + intros (->&_&Ha&Hl&k&->&Hk). cbn [length tail] in *. split; [done|]. exists t, (take 512 request), (drop 512 request), k.
      rewrite take_drop, length_take. split_and!; try done; lia.
    + intros (->&t'&seed&rest&k&[= <- ->]&Hs&->&Ha&Hk). split; [done|]. cbn [tail length]. rewrite length_app, take_app_length' by done.
      split; [intros ->; by rewrite has_none in Ha|]. split; [done|]. split; [lia|]. by exists k.
Qed.

(** ** Messages reach the functions connected for them *)

Inductive message :=
  | MManagedEndpoint (m : ManagedEndpointMessage)
  | MNatDetectionRequest (m : NatDetectionRequest)
  | MNatDetectionResponse (m : NatDetectionResponse)
  | MProxyConnectRequest (m : ProxyConnectRequest)
  | MProxyConnectResponse (m : ProxyConnectResponse)
  | MForwardRendezvousRequest (m : ForwardRendezvousRequest)
  | MForwardRendezvousResponse (m : ForwardRendezvousResponse)
  | MRendezvousRequest (m : RendezvousRequest)
  | MRendezvousAcknowledgement (m : RendezvousAcknowledgement).

Definition wrap (key : option PrivateKey) (m : message) : Res (list Z) :=
  match m with
  | MManagedEndpoint m => WrapMessage key m
  | MNatDetectionRequest m => WrapMessage key m
  | MNatDetectionResponse m => WrapMessage key m
  | MProxyConnectRequest m => WrapMessage key m
  | MProxyConnectResponse m => WrapMessage key m
  | MForwardRendezvousRequest m => WrapMessage key m
  | MForwardRendezvousResponse m => WrapMessage key m
  | MRendezvousRequest m => WrapMessage key m
  | MRendezvousAcknowledgement m => WrapMessage key m
  end.

(** The bytes of a message in plain text *)
Definition plain {T} `{MessageClass T, Wire T} (m : T) : list Z :=
  if IsInitialized m
  then kNone :: SerializeAsString (MkWrapperMessage (Some (message_type T)) (Some (SerializeAsString m)) None)
  else [].

(** What is to happen at the receiver: the functions connected for the message run
    in order, on the message; a request is answered in plain text. *)
Definition deliver {W} (h : RudpMessageHandler W) (info : Info) (m : message) : M W (list Z * Z) :=
  match m with
  | MManagedEndpoint m =>
      '(r, timeout) ← emit (on_managed_endpoint_message_ _ h) m (empty_message, kImmediateTimeout); mret (plain r, timeout)
  | MNatDetectionRequest m =>
      '(r, timeout) ← emit (on_nat_detection_request_ _ h) (info, m) (empty_message, kImmediateTimeout); mret (plain r, timeout)
  | MNatDetectionResponse m => emit (on_nat_detection_response_ _ h) m tt;; mret ([], kImmediateTimeout)
  | MProxyConnectRequest m =>
      '(r, timeout) ← emit (on_proxy_connect_request_ _ h) (info, m) (empty_message, kImmediateTimeout); mret (plain r, timeout)
  | MProxyConnectResponse m => emit (on_proxy_connect_response_ _ h) m tt;; mret ([], kImmediateTimeout)
  | MForwardRendezvousRequest m =>
      r ← emit (on_forward_rendezvous_request_ _ h) (info, m) empty_message; mret (plain r, kImmediateTimeout)
  | MForwardRendezvousResponse m => emit (on_forward_rendezvous_response_ _ h) m tt;; mret ([], kImmediateTimeout)
  | MRendezvousRequest m => emit (on_rendezvous_request_ _ h) (info, m) empty_message;; mret ([], kImmediateTimeout)
  | MRendezvousAcknowledgement m => emit (on_rendezvous_acknowledgement_ _ h) m tt;; mret ([], kImmediateTimeout)
  end.

Lemma WrapMessage_plain {T} `{MessageClass T, Wire T} key (m : T) : WrapMessage key m = Ok (plain m).
Proof. unfold WrapMessage, plain. by destruct (IsInitialized m). Qed.

Lemma bind_ext {S A B} (m : M S A) (k k' : A → M S B) s : (∀ a s', k a s' = k' a s') → (m ≫= k) s = (m ≫= k') s.
Proof. intros Hk. unfold mbind, M_bind. destruct (m s) as [[a s']|]; [apply Hk|done]. Qed.

Lemma Receive_plain {W} (h : RudpMessageHandler W) {T} `{WireLaws T} (m : T) info w : IsInitialized m = true →
  Receive h (plain m) info w =
  ProcessSerialisedMessage h (message_type T) (SerializeAsString m) kNone [] info ([], kImmediateTimeout) w.
Proof.
  intros Hm. unfold Receive, OnMessageReceived, plain. rewrite Hm, deciphered_plain by (by rewrite ?has_none; auto).
  rewrite liftR_Ok_bind. cbn [mbind option_bind]. by rewrite parses_serialized.
Qed.
Lemma if_parsed_serialized {W} {T} `{WireLaws T} (m : T) (k : T → M W (list Z * Z)) : IsInitialized m = true →
  if_parsed (SerializeAsString m) k = k m.
Proof. intros Hm. unfold if_parsed. by rewrite parses_serialized, Hm. Qed.

Definition initialized (m : message) : bool :=
  match m with
  | MManagedEndpoint m => IsInitialized m
  | MNatDetectionRequest m => IsInitialized m
  | MNatDetectionResponse m => IsInitialized m
  | MProxyConnectRequest m => IsInitialized m
  | MProxyConnectResponse m => IsInitialized m
  | MForwardRendezvousRequest m => IsInitialized m
  | MForwardRendezvousResponse m => IsInitialized m
  | MRendezvousRequest m => IsInitialized m
  | MRendezvousAcknowledgement m => IsInitialized m
  end.

Definition bytes_of (m : message) : list Z :=
  match m with
  | MManagedEndpoint m => plain m
  | MNatDetectionRequest m => plain m
  | MNatDetectionResponse m => plain m
  | MProxyConnectRequest m => plain m
  | MProxyConnectResponse m => plain m
  | MForwardRendezvousRequest m => plain m
  | MForwardRendezvousResponse m => plain m
  | MRendezvousRequest m => plain m
  | MRendezvousAcknowledgement m => plain m
  end.
Lemma wrap_bytes key m : wrap key m = Ok (bytes_of m).
Proof. destruct m; apply WrapMessage_plain. Qed.

Lemma Receive_bytes {W} (h : RudpMessageHandler W) m info w : initialized m = true →
  Receive h (bytes_of m) info w = deliver h info m w.
Proof.
  intros Hm. destruct m as [m|m|m|m|m|m|m|m|m]; cbn [bytes_of initialized deliver] in *;
    rewrite Receive_plain by first [apply _ | done];
    unfold ProcessSerialisedMessage; cbv [message_type Z.eqb Pos.eqb managed_endpoint_class nat_detection_request_class
      nat_detection_response_class proxy_connect_request_class proxy_connect_response_class
      forward_rendezvous_request_class forward_rendezvous_response_class rendezvous_request_class
      rendezvous_acknowledgement_class];
    rewrite (if_parsed_serialized m) by first [apply _ | done]; try done; apply bind_ext.
  - intros [r timeout] s. by rewrite WrapMessage_plain.
  - intros [r timeout] s. rewrite WrapMessage_plain. unfold plain. by destruct (IsInitialized r).
  - intros [r timeout] s. by rewrite WrapMessage_plain.
  - intros r s. by rewrite WrapMessage_plain.
Qed.

(** C24: An initialized message that an RUDP node makes with [WrapMessage] and another
    one receives runs there exactly the functions connected to the signal of its type,
    in order and on the message that was wrapped. The answer to a managed endpoint
    message or to a request for NAT detection, for a proxy to connect, or to forward a
    rendezvous is what these functions made of it, wrapped in turn; what they make of a
    rendezvous request is dropped, and it is answered, like every response, by nothing. *)
Theorem rudp_message_dispatched {W} (h : RudpMessageHandler W) key m info w :
  initialized m = true →
  ∃ bytes, wrap key m = Ok bytes ∧ Receive h bytes info w = deliver h info m w.
Proof. intros Hm. exists (bytes_of m). split; [apply wrap_bytes|by apply Receive_bytes]. Qed.

(** A message does not need a valid signature. *)
Lemma signature_not_checked {W} (h : RudpMessageHandler W) message_type payload t sig sig' info response w :
  ProcessSerialisedMessage h message_type payload t sig info response w =
  ProcessSerialisedMessage h message_type payload t sig' info response w.
Proof. done. Qed.
End round_trip.

(** ** Examples *)

(** Ciphers that only move numbers about *)
Module SimCrypto.
#[export] Instance crypto : Crypto := {|
  PrivateKey := Z; PublicKey := Z; no_public_key := 0; validate_key k := negb (k =? 0);
  asym_sign data key := Some [key + Z.of_nat (length data)];
  asym_encrypt data key := if (length data <? 512)%nat
    then Some (Z.of_nat (length data) :: data ++ replicate (511 - length data) key) else None;
  asym_decrypt c key := match c with n :: c => take (Z.to_nat n) c | [] => [] end;
  symm_encrypt data key iv := (λ b, b + default 0 (head key)) <$> data;
  symm_decrypt data key iv := (λ b, b - default 0 (head key)) <$> data |}.

#[export] Instance crypto_laws : CryptoLaws.
Proof.
  refine {| key_pair pub priv := pub = priv |}.
  - intros data pub priv c _. cbn [asym_encrypt crypto]. destruct (Nat.ltb_spec (length data) 512); [|done].
    intros [= <-]. cbn [length]. rewrite length_app, length_replicate. lia.
  - intros data pub priv c _. cbn [asym_encrypt crypto]. destruct (Nat.ltb_spec (length data) 512); [|done].
    intros [= <-]. cbn [asym_decrypt crypto].
    by rewrite Nat2Z.id, take_app_length.
  - intros data key iv _ _. cbn [symm_decrypt symm_encrypt crypto]. rewrite <-list_fmap_compose. rewrite (list_fmap_ext _ id), list_fmap_id; [done|].
    intros i b _. cbn. lia.
Defined.
End SimCrypto.

Module HandlerExamples.
Import SimWire SimCrypto.
#[local] Existing Instances Sim.ip Contact.ContactExamples.text.

Definition from_here : Info := MkInfo (Endpoint _ (Sim.V4 10 0 0 1) 5000) 0.

(** Processing that answers with the payload, and logs the message type. *)
Definition logging (message_type : Z) (payload : list Z) (t : Z) (signature : list Z) (info : Info)
  (response : list Z * Z) : M (list Z) (list Z * Z) := λ log, Ok ((payload, t), message_type :: log).

(** A pair of keys is the same number twice. *)
Definition sender_key : @PrivateKey crypto := 7.
Definition receiver_key : @PrivateKey crypto := 9.

Definition seed : list Z := replicate 48 5.
Definition secured : list Z :=
  from_ok [] (MakeSerialisedWrapperMessage (Some sender_key) 1001 [1; 2; 3] kSignAndAsymEncrypt receiver_key seed).

Lemma secured_message_round_trip_witness :
  length secured = 523%nat ∧
  OnMessageReceived logging (Some receiver_key) secured from_here ([], 0) [] = Ok (([1; 2; 3], kSignAndAsymEncrypt), [1001]).
Proof.
  split; [vm_compute; reflexivity|].
  rewrite (secured_message_round_trip logging [] (Some sender_key) 1001 [1; 2; 3] kSignAndAsymEncrypt
      receiver_key seed secured receiver_key);
    [reflexivity|vm_compute; reflexivity|vm_compute; discriminate|reflexivity|reflexivity].
Defined.

(** Three bytes that are encrypted where the AES key should be. *)
Definition short_seed : list Z := default [] (@asym_encrypt crypto [1; 2; 3] receiver_key).
Definition hostile : list Z := kAsymmetricEncrypt :: short_seed ++ [0].

Lemma message_handler_faults_witness :
  OnMessageReceived logging (Some receiver_key) hostile from_here ([], 0) [] = Fault OutOfBounds.
Proof.
  apply (message_handler_faults logging [] (Some receiver_key) hostile from_here ([], 0) OutOfBounds); [done|].
  split; [done|]. exists kAsymmetricEncrypt, short_seed, [0], receiver_key.
  split_and!; try reflexivity; vm_compute; lia.
Defined.

(** A node that tells who asks that it is not connected. *)
Definition answering : RudpMessageHandler (list Z) :=
  MkRudpMessageHandler _ None [] []
    [λ a r log, Ok ((MkNatDetectionResponse None (Some 5), kDefaultInitialTimeout), ep_port (info_endpoint a.1) :: log)]
    [] [] [] [] [] [] [].
Definition question : NatDetectionRequest := MkNatDetectionRequest [] (Some 5000) None.

Lemma rudp_message_dispatched_witness :
  ∃ bytes, WrapMessage None question = Ok bytes ∧
    Receive answering bytes from_here [] =
    Ok ((plain (MkNatDetectionResponse None (Some 5)), kDefaultInitialTimeout), [5000]).
Proof. exact (rudp_message_dispatched answering None (MNatDetectionRequest question) from_here [] eq_refl). Defined.
End HandlerExamples.
