(* ===== verification/NatDetection.v ===== *)
(** * Detecting the kind of NAT, and keeping it open

    Models src/maidsafe/transport/nat_detection.cc, nat_detection_rpcs.cc and
    nat_traversal.cc: a node asks nodes that it knows to be reachable what they see
    of it, one after the other, and keeps a mapping open by sending now and then.

    What is connected to the message handler's signals is in the state, in order.
    A [Detect] that has not returned has its local variables in [frames]; using
    those of one that has returned faults.  [sent] lists what the transport was
    given to send, newest first. *)

From S2P Require Import Prelude Text Environment Transport Contact Protobuf MessageHandler.

Inductive NatType := kManualPortMapped | kDirectConnected | kNatPmp | kUPnP | kFullCone | kPortRestricted | kNotConnected.
Definition nat_type_code (t : NatType) : Z :=
  match t with
  | kManualPortMapped => 0 | kDirectConnected => 1 | kNatPmp => 2 | kUPnP => 3 | kFullCone => 4
  | kPortRestricted => 5 | kNotConnected => 6
  end.

Record TransportDetails `{IpAddress} := MkTransportDetails {
  td_endpoint : endpoint;
  local_endpoints : list endpoint;
  rendezvous_endpoint : endpoint;
}.
Arguments MkTransportDetails {_}.
Definition no_details `{IpAddress} : TransportDetails := MkTransportDetails endpoint_none [] endpoint_none.

(** The arguments bound to a callback of one request *)
Record Detection `{IpAddress} := MkDetection {
  candidates : list Contact;
  request : list Z;
  frame : nat;
  index : nat;
}.
Arguments MkDetection {_}.

(** What a [Detect] shares with its callback; [found] is the caller's [nat_type]. *)
Record Frame `{IpAddress} := MkFrame {
  found : option Z;
  found_rendezvous : option endpoint;
  notified : bool;
}.
Arguments MkFrame {_}.

Record Client `{IpAddress} := MkClient {
  details : TransportDetails;                  (** of the transport *)
  on_nat_detection_response_ : list Detection;
  on_error_ : list Detection;
  frames : gmap nat Frame;
  detects : nat;                               (** calls of [Detect], which number the frames *)
  sent : list (list Z * endpoint * Z);
}.
Arguments MkClient {_}.

Section client.
Context `{IpAddress} `{!IpText} `{Crypto} `{Protobuf}.

Definition set_details (d : TransportDetails) (s : Client) : Client :=
  MkClient d (on_nat_detection_response_ s) (on_error_ s) (frames s) (detects s) (sent s).
Definition set_frames (l : gmap nat Frame) (s : Client) : Client :=
  MkClient (details s) (on_nat_detection_response_ s) (on_error_ s) l (detects s) (sent s).
(** A new frame *)
Definition enter (s : Client) : Client :=
  MkClient (details s) (on_nat_detection_response_ s) (on_error_ s) (<[detects s := MkFrame None None false]> (frames s))
    (S (detects s)) (sent s).
Definition connect (d : Detection) (s : Client) : Client :=
  MkClient (details s) (on_nat_detection_response_ s ++ [d]) (on_error_ s ++ [d]) (frames s) (detects s) (sent s).
Definition Send (message : list Z) (ep : endpoint) (timeout : Z) (s : Client) : Client :=
  MkClient (details s) (on_nat_detection_response_ s) (on_error_ s) (frames s) (detects s)
    ((message, ep, timeout) :: sent s).

(** ** NatDetectionRpcs *)

Definition DoNatDetection (d : Detection) : M Client unit :=
  modify (connect d);;
  match candidates d !! index d with
  | Some c => modify (Send (request d) (endpoint_ c) kDefaultInitialTimeout)
  | None => throw OutOfBounds
  end.

(** [begin()] of the local endpoints is used even if there are none. *)
Definition RpcsNatDetection (candidates : list Contact) (key : option PrivateKey) (full : bool) (frame : nat) :
    M Client unit :=
  s ← get;
  match local_endpoints (details s) with
  | [] => throw OutOfBounds
  | first :: _ =>
      message ← liftR (WrapMessage key (MkNatDetectionRequest
        (ip_to_string ∘ ep_address <$> local_endpoints (details s)) (Some (ep_port first)) (Some full)));
      DoNatDetection (MkDetection candidates message frame 0)
  end.

(** ** NatDetection *)

Definition DetectCallback (nat_type : Z) (d : TransportDetails) (frame : nat) : M Client unit :=
  if 0 <=? nat_type then
    s ← get;
    match frames s !! frame with
    | Some _ =>
        let t := details s in
        modify (set_details (MkTransportDetails (td_endpoint d) (local_endpoints t)
          (if nat_type =? nat_type_code kPortRestricted then rendezvous_endpoint d else rendezvous_endpoint t)));;
        modify (set_frames (<[frame := MkFrame (Some nat_type) (Some (rendezvous_endpoint d)) true]> (frames s)))
    | None => throw OutOfBounds
    end
  else mret tt.

Definition Detect (contacts : list Contact) (key : option PrivateKey) (full : bool) : M Client nat :=
  s ← get;
  modify enter;;
  RpcsNatDetection (filter (λ c, IsDirectlyConnected c = true) contacts) key full (detects s);;
  mret (detects s).
(** [Detect] returns when it is notified, or when its time is up. *)
Definition Return (frame : nat) : M Client (option Frame) :=
  s ← get;
  modify (set_frames (delete frame (frames s)));;
  mret (frames s !! frame).

(** ** The callback of a request *)

(** [ip.from_string(...)] returns an address, and throws where there is none; it
    does not change [ip].  [response]: none when the signal was [on_error]. *)
Definition NatDetectionCallback (response : TransportCondition + NatDetectionResponse) (d : Detection) : M Client unit :=
  match response with
  | inr response =>
      let ep := default (MkPbEndpoint None None) (detected_endpoint response) in
      match ip_from_string (c_string (default [] (pb_ip ep))) with
      | None => throw OutOfBounds
      | Some _ =>
          match candidates d !! index d with
          | Some c =>
              DetectCallback (default 0 (nat_type response))
                (MkTransportDetails (Endpoint _ ip_none (u16 (default 0 (pb_port ep)))) [] (endpoint_ c)) (frame d)
          | None => throw OutOfBounds
          end
      end
  | inl _ =>
      if (S (index d) <? length (candidates d))%nat
      then DoNatDetection (MkDetection (candidates d) (request d) (frame d) (S (index d)))
      else DetectCallback (condition_code kError) no_details (frame d)
  end.

(** The functions connected when the signal is emitted run, in order. *)
Fixpoint run_slots (response : TransportCondition + NatDetectionResponse) (l : list Detection) : M Client unit :=
  match l with
  | [] => mret tt
  | d :: l => NatDetectionCallback response d;; run_slots response l
  end.
Definition OnResponse (response : NatDetectionResponse) : M Client unit :=
  s ← get; run_slots (inr response) (on_nat_detection_response_ s).
(** [on_error] with [kSuccess] would be taken for a response without fields. *)
Definition OnError (condition : TransportCondition) : M Client unit :=
  s ← get;
  run_slots (if bool_decide (condition = kSuccess) then inr (MkNatDetectionResponse None None) else inl condition) (on_error_ s).
End client.

(** ** Candidates are asked in turn *)

(** Binomial coefficients *)
Fixpoint binomial (n k : nat) : nat :=
  match n, k with
  | _, O => 1
  | O, S _ => 0
  | S n, S k => binomial n k + binomial n (S k)
  end.
Lemma binomial_pos n k : (k ≤ n)%nat → (1 ≤ binomial n k)%nat.
Proof.
  revert k. induction n as [|n IH]; intros [|k] Hk; cbn; try lia.
  pose proof (IH k ltac:(lia)). lia.
Qed.
Lemma binomial_gt n k : (n < k)%nat → binomial n k = 0%nat.
Proof. revert k. induction n as [|n IH]; intros [|k] Hk; cbn; try lia. rewrite !IH; lia. Qed.

Section asking.
Context `{IpAddress} `{!IpText} `{Crypto} `{Protobuf}.
Context (C : list Contact) (message : list Z) (f : nat).
Implicit Types (s : Client) (l : list nat).

Definition detection (j : nat) : Detection := MkDetection C message f j.
Definition ask (j : nat) : list Z * endpoint * Z :=
  (message, from_option endpoint_ endpoint_none (C !! j), kDefaultInitialTimeout).
(** The requests that follow the ones with indices [l] when these fail *)
Definition next l : list nat := filter (λ j, j < length C)%nat (S <$> l).

(** The candidates with indices [l] were asked, in this order. *)
Definition asked l s s' : Prop :=
  on_nat_detection_response_ s' = on_nat_detection_response_ s ++ (detection <$> l) ∧
  on_error_ s' = on_error_ s ++ (detection <$> l) ∧
  sent s' = reverse (ask <$> l) ++ sent s ∧ details s' = details s ∧ frames s' = frames s.

Lemma asked_nil s : asked [] s s.
Proof. split_and!; by rewrite ?app_nil_r. Qed.
Lemma asked_app l1 l2 s1 s2 s3 : asked l1 s1 s2 → asked l2 s2 s3 → asked (l1 ++ l2) s1 s3.
Proof.
  intros (R1&E1&S1&D1&F1) (R2&E2&S2&D2&F2).
  split_and!; rewrite ?fmap_app, ?reverse_app, ?R2, ?R1, ?E2, ?E1, ?S2, ?S1; by rewrite ?(assoc_L (++)) || congruence.
Qed.

Lemma DoNatDetection_asks j s : (j < length C)%nat → ∃ s', DoNatDetection (detection j) s = Ok (tt, s') ∧ asked [j] s s'.
Proof.
  intros [c Ec]%lookup_lt_is_Some. unfold DoNatDetection, mbind, M_bind, modify. cbn [candidates index detection request].
  rewrite Ec. eexists. split; [done|]. split_and!; try done. cbn. unfold ask. by rewrite Ec.
Qed.

Lemma run_slots_fail cond l s : Forall (λ j, j < length C)%nat l →
  ∃ s', run_slots (inl cond) (detection <$> l) s = Ok (tt, s') ∧ asked (next l) s s'.
Proof.
  intros Hl. revert s. induction Hl as [|j l Hj Hl IH]; intros s; [exists s; split; [done|apply asked_nil]|].
  rewrite fmap_cons. cbn [run_slots NatDetectionCallback]. cbn [candidates index detection request frame].
  unfold next. rewrite fmap_cons, filter_cons. change (filter _ (S <$> l)) with (next l).
  destruct (Nat.ltb_spec (S j) (length C)) as [Hlt|Hge].
  - rewrite decide_True by done. destruct (DoNatDetection_asks (S j) s Hlt) as (s1&E1&A1).
    destruct (IH s1) as (s2&E2&A2). exists s2. split; [|by apply (asked_app [S j] _ _ s1)].
    unfold mbind at 1, M_bind at 1. unfold detection in E1. by rewrite E1.
  - rewrite decide_False by lia. exact (IH s).
Qed.

Lemma next_bounded l : Forall (λ j, j < length C)%nat (next l).
Proof. unfold next. apply Forall_forall. by intros j [? _]%list_elem_of_filter. Qed.

(** How often [j] is in [l] *)
Definition count (j : nat) l : nat := length (filter (j =.) l).
Lemma count_app j l1 l2 : count j (l1 ++ l2) = (count j l1 + count j l2)%nat.
Proof. unfold count. by rewrite filter_app, length_app. Qed.
Lemma count_next_0 l : count 0 (next l) = 0%nat.
Proof.
  unfold count. destruct (filter _ _) as [|x l'] eqn:E; [done|]. exfalso.
  assert (x ∈ filter (0%nat =.) (next l)) as [<- Hx]%list_elem_of_filter by (rewrite E; left).
  unfold next in Hx. apply list_elem_of_filter in Hx as [_ (y&?&_)%list_elem_of_fmap]. done.
Qed.
Lemma count_next_S j l : (S j < length C)%nat → count (S j) (next l) = count j l.
Proof.
  intros Hj. induction l as [|x l IH]; [done|]. unfold next, count in *. rewrite fmap_cons, !filter_cons.
  destruct (decide (j = x)) as [<-|Hne].
  - rewrite decide_True, filter_cons, decide_True by done. cbn [length]. by rewrite IH.
  - destruct (decide (S x < length C)%nat); [rewrite filter_cons, decide_False by congruence|]; exact IH.
Qed.

(** [k] errors in a row *)
Fixpoint errors (conds : list TransportCondition) : M Client unit :=
  match conds with [] => mret tt | cond :: conds => OnError cond;; errors conds end.

Lemma errors_ask conds l s0 s : Forall (λ c, c ≠ kSuccess) conds → Forall (λ j, j < length C)%nat l →
  on_error_ s0 = [] → asked l s0 s →
  ∃ l' s', errors conds s = Ok (tt, s') ∧ asked l' s0 s' ∧ Forall (λ j, j < length C)%nat l' ∧
    (∀ k, (∀ j, (j < length C)%nat → count j l = binomial k j) →
      ∀ j, (j < length C)%nat → count j l' = binomial (k + length conds) j).
Proof.
  intros Hc. revert l s. induction Hc as [|cond conds Hne Hc IH]; intros l s Hl Hnone Ha.
  { exists l, s. split_and!; try done. intros k Hk j Hj. rewrite Nat.add_0_r. by apply Hk. }
  destruct (run_slots_fail cond l s Hl) as (s1&E1&A1).
  destruct (IH (l ++ next l) s1) as (l'&s'&E&A&Hl'&Hk); [apply Forall_app; split; [done|apply next_bounded]|done| |].
  { by eapply asked_app. }
  exists l', s'. split; [|split; [done|split; [done|]]].
  - cbn [errors]. unfold OnError. rewrite bool_decide_false by done. unfold mbind at 1 2, M_bind at 1 2, get.
    destruct Ha as (_&Ee&_). rewrite Ee, Hnone, (left_id_L [] (++)), E1. exact E.
  - intros k Hcount j Hj. cbn [length]. rewrite Nat.add_succ_r, <-Nat.add_succ_l. apply Hk; [|done].
    clear j Hj. intros j Hj. rewrite count_app, Hcount by done. destruct j as [|j].
    + rewrite count_next_0. by destruct k.
    + rewrite count_next_S, Hcount by lia. cbn. lia.
Qed.
End asking.

Section detection.
Context `{IpAddress} `{!IpText} `{Crypto} `{Protobuf}.
Implicit Types (s : Client) (contacts : list Contact).

Definition reachable_contacts contacts : list Contact := filter (λ c, IsDirectlyConnected c = true) contacts.

Lemma count_pos j l : (1 ≤ count j l)%nat → j ∈ l.
Proof.
  unfold count. destruct (filter _ l) as [|x l'] eqn:E; cbn; [lia|intros _].
  assert (x ∈ filter (j =.) l) as [<- ?]%list_elem_of_filter by (rewrite E; left). done.
Qed.

(** When every request fails, the candidates that are directly connected are asked
    in turn, and one after the other all of them: after [k] failures the [j]-th was
    sent the same request as often as there are ways to choose [j] of the [k], so
    at least once for [j <= k].  (The callbacks of a request that failed stay
    connected, so each failure is answered by all requests made before.) *)
Theorem nat_detection_asks_all s contacts key full conds :
  local_endpoints (details s) ≠ [] → reachable_contacts contacts ≠ [] →
  on_nat_detection_response_ s = [] → on_error_ s = [] → Forall (λ c, c ≠ kSuccess) conds →
  let C := reachable_contacts contacts in
  ∃ message l s', (Detect contacts key full ≫= λ _, errors conds) s = Ok (tt, s') ∧
    sent s' = reverse (ask C message <$> l) ++ sent s ∧ Forall (λ j, j < length C)%nat l ∧
    (∀ j, (j < length C)%nat → count j l = binomial (length conds) j) ∧
    (∀ j c, C !! j = Some c → (j ≤ length conds)%nat →
      (message, endpoint_ c, kDefaultInitialTimeout) ∈ sent s').
Proof.
  intros Hlocal HC Hr He Hc C. set (f := detects s).
  destruct (local_endpoints (details s)) as [|first others] eqn:El; [done|].
  set (m := MkNatDetectionRequest (ip_to_string ∘ ep_address <$> first :: others) (Some (ep_port first)) (Some full)).
  set (message := plain m). set (s0 := enter s).
  assert (0 < length C)%nat as HlC by (unfold C; by destruct (reachable_contacts contacts); [|cbn; lia]).
  destruct (DoNatDetection_asks C message f 0 s0 HlC) as (s1&E1&A1).
  assert (Detect contacts key full s = Ok (f, s1)) as Ed.
  { unfold Detect, mbind, M_bind, get, modify, RpcsNatDetection, mbind, M_bind, get. cbn [details enter]. rewrite El.
    unfold liftR. rewrite WrapMessage_plain. fold f s0 m message (reachable_contacts contacts) C.
    change (MkDetection C message f 0) with (detection C message f 0). by rewrite E1. }
  destruct (errors_ask C message f conds [0%nat] s0 s1) as (l&s'&E&A&Hl&Hk); try done; [by constructor|].
  assert (∀ j, (j < length C)%nat → count j l = binomial (length conds) j) as Hcount.
  { apply (Hk 0%nat). intros [|j] _; [done|by rewrite binomial_gt by lia]. }
  exists message, l, s'. split; [by unfold mbind, M_bind; rewrite Ed|].
  destruct A as (_&_&Es&_&_). split; [exact Es|]. split; [done|]. split; [done|].
  intros j c Ej Hj. rewrite Es. apply elem_of_app. left. apply elem_of_reverse, list_elem_of_fmap.
  exists j. unfold ask. rewrite Ej. split; [done|]. apply count_pos. rewrite Hcount by by eapply lookup_lt_Some.
  by apply binomial_pos.
Qed.

(** *** The answer *)

Definition alive s (d : Detection) : Prop :=
  is_Some (frames s !! frame d) ∧ (index d < length (candidates d))%nat.
Definition candidate (d : Detection) : endpoint := from_option endpoint_ endpoint_none (candidates d !! index d).

Lemma callback_response s d response t ip : alive s d → nat_type response = Some t → 0 ≤ t →
  ip_from_string (c_string (default [] (detected_endpoint response ≫= pb_ip))) = Some ip →
  ∃ s', NatDetectionCallback (inr response) d s = Ok (tt, s') ∧
    td_endpoint (details s') = Endpoint _ ip_none (u16 (default 0 (detected_endpoint response ≫= pb_port))) ∧
    local_endpoints (details s') = local_endpoints (details s) ∧
    frames s' = <[frame d := MkFrame (Some t) (Some (candidate d)) true]> (frames s).
Proof.
  intros [[fr Ef] [c Ec]%lookup_lt_is_Some] Et Ht Eip.
  assert (∀ A (g : PbEndpoint → option A), g (default (MkPbEndpoint None None) (detected_endpoint response)) =
    match detected_endpoint response with Some e => g e | None => g (MkPbEndpoint None None) end) as Hg
    by (intros; by destruct (detected_endpoint response)).
  unfold NatDetectionCallback. rewrite !Hg.
  replace (match detected_endpoint response with Some e => pb_ip e | None => pb_ip (MkPbEndpoint None None) end)
    with (detected_endpoint response ≫= pb_ip) by by destruct (detected_endpoint response).
  replace (match detected_endpoint response with Some e => pb_port e | None => pb_port (MkPbEndpoint None None) end)
    with (detected_endpoint response ≫= pb_port) by by destruct (detected_endpoint response).
  rewrite Eip, Ec, Et. unfold DetectCallback, candidate. change (default 0 (Some t)) with t. rewrite (proj2 (Z.leb_le 0 t)), Ec by done.
  unfold mbind, M_bind, get, modify. rewrite Ef. eexists. split; [done|]. by cbn.
Qed.

Lemma run_slots_response l s response t ip : Forall (alive s) l → nat_type response = Some t → 0 ≤ t →
  ip_from_string (c_string (default [] (detected_endpoint response ≫= pb_ip))) = Some ip →
  ∃ s', run_slots (inr response) l s = Ok (tt, s') ∧
    (l ≠ [] → td_endpoint (details s') = Endpoint _ ip_none (u16 (default 0 (detected_endpoint response ≫= pb_port)))) ∧
    local_endpoints (details s') = local_endpoints (details s) ∧
    (∀ f, frames s' !! f = match last (filter (λ d, frame d = f) l) with
      | Some d => Some (MkFrame (Some t) (Some (candidate d)) true)
      | None => frames s !! f
      end).
Proof.
  intros Hl Et Ht Eip. revert s Hl. induction l as [|d l IH]; intros s Hl; [by exists s|].
  apply Forall_cons in Hl as [Hd Hl]. destruct (callback_response s d response t ip Hd Et Ht Eip) as (s1&E1&D1&L1&F1).
  destruct (IH s1) as (s'&E&De&Lo&Fr).
  { eapply Forall_impl; [exact Hl|]. intros d' [Hf ?]. split; [|done]. rewrite F1.
    destruct (decide (frame d = frame d')) as [->|Hne]; [by rewrite lookup_insert_eq; eexists|by rewrite lookup_insert_ne]. }
  exists s'. split; [cbn [run_slots]; unfold mbind, M_bind; by rewrite E1|]. split; [|split; [congruence|]].
  - intros _. destruct l; [|by apply De]. cbn in E. by injection E as <-.
  - intros f. rewrite Fr, F1, filter_cons. destruct (decide (frame d = f)) as [<-|Hne].
    + destruct (filter (λ d', frame d' = frame d) l) as [|d' l'] eqn:El; [by rewrite lookup_insert_eq|].
      rewrite last_cons_cons. destruct (last (d' :: l')) eqn:E'; [done|by apply last_None in E'].
    + by rewrite lookup_insert_ne.
Qed.

(** C26: An answer reaches every [Detect] that is waiting, if all whose callbacks are
    connected still wait (callbacks are never disconnected, and one of a [Detect] that
    returned makes the answer fail, see [late_answer_dangles]), the answer has a type of
    NAT that is not negative, and an address that can be parsed: each of them is woken,
    with the type of NAT that the answer says and, as the node to be reached through,
    the one that was asked last; the transport gets the port that was seen. (It does not
    get the address: [from_string] makes a new one, which is dropped.) *)
Theorem nat_detection_reports s response t ip :
  Forall (alive s) (on_nat_detection_response_ s) → on_nat_detection_response_ s ≠ [] →
  nat_type response = Some t → 0 ≤ t →
  ip_from_string (c_string (default [] (detected_endpoint response ≫= pb_ip))) = Some ip →
  ∃ s', OnResponse response s = Ok (tt, s') ∧
    td_endpoint (details s') = Endpoint _ ip_none (u16 (default 0 (detected_endpoint response ≫= pb_port))) ∧
    local_endpoints (details s') = local_endpoints (details s) ∧
    (∀ f d, last (filter (λ d, frame d = f) (on_nat_detection_response_ s)) = Some d →
      frames s' !! f = Some (MkFrame (Some t) (Some (candidate d)) true)).
Proof.
  intros Hl Hne Et Ht Eip. destruct (run_slots_response _ s response t ip Hl Et Ht Eip) as (s'&E&De&Lo&Fr).
  exists s'. split; [exact E|]. split; [by apply De|]. split; [done|]. intros f d Ed. by rewrite Fr, Ed.
Qed.
End detection.

(** ** NatTraversal

    A message every [interval_], from a timer whose waits are in [waits]: whether they
    were cancelled.  Each of them ends in [DoKeepAlive], which is not told why. *)
Record NatTraversal `{IpAddress} := MkNatTraversal {
  endpoint_ : endpoint;
  callback_ : bool;                            (** is set *)
  waits : list bool;
  on_error_slots : list bool;                  (** [KeepAliveCallback]: the bound [ec] *)
  alive_sent : list (list Z * endpoint * Z);   (** newest first *)
  reported : list TransportCondition;          (** calls of [callback_] *)
}.
Arguments MkNatTraversal {_}.

Section traversal.
Context `{IpAddress}.

Definition new_traversal : NatTraversal := MkNatTraversal endpoint_none false [] [] [] [].

(** "Alive" *)
Definition alive_message : list Z := [65; 108; 105; 118; 101].

Definition RpcsKeepAlive (ep : endpoint) (ec : bool) (t : NatTraversal) : NatTraversal :=
  MkNatTraversal (endpoint_ t) (callback_ t) (waits t) (on_error_slots t ++ [ec])
    ((alive_message, ep, kImmediateTimeout) :: alive_sent t) (reported t).
Definition set_waits (l : list bool) (t : NatTraversal) : NatTraversal :=
  MkNatTraversal (endpoint_ t) (callback_ t) l (on_error_slots t) (alive_sent t) (reported t).
Definition cancel (t : NatTraversal) : NatTraversal := set_waits (replicate (length (waits t)) true) t.
Definition async_wait (t : NatTraversal) : NatTraversal := set_waits (waits t ++ [false]) t.

Definition KeepAlive (ep : endpoint) (callback : bool) (t : NatTraversal) : NatTraversal :=
  if IsValid ep && callback
  then async_wait (RpcsKeepAlive ep false
    (MkNatTraversal ep true (waits t) (on_error_slots t) (alive_sent t) (reported t)))
  else t.

(** [expires_from_now] cancels what waits. *)
Definition DoKeepAlive (t : NatTraversal) : NatTraversal := async_wait (cancel (RpcsKeepAlive (endpoint_ t) false t)).

Definition KeepAliveCallback (condition : TransportCondition) (ec : bool) (t : NatTraversal) : NatTraversal :=
  if ec then
    let t := cancel t in
    MkNatTraversal (endpoint_ t) (callback_ t) (waits t) (on_error_slots t) (alive_sent t) (condition :: reported t)
  else t.

Inductive traversal_event :=
  | TvKeepAlive (ep : endpoint) (callback : bool)
  | TvTimer (i : nat)                             (** the [i]-th wait ends *)
  | TvError (condition : TransportCondition).     (** the message handler's [on_error] *)

Definition traverse (e : traversal_event) (t : NatTraversal) : NatTraversal :=
  match e with
  | TvKeepAlive ep callback => KeepAlive ep callback t
  | TvTimer i => match waits t !! i with Some _ => DoKeepAlive (set_waits (delete i (waits t)) t) | None => t end
  | TvError condition => foldl (λ t ec, KeepAliveCallback condition ec t) t (on_error_slots t)
  end.
Definition traverse_all (es : list traversal_event) : NatTraversal := foldl (λ t e, traverse e t) new_traversal es.

(** [DoKeepAlive] goes on, and errors are ignored. *)
Record keeping (t : NatTraversal) : Prop := {
  keeping_waits : callback_ t = true → waits t ≠ [];
  keeping_slots : Forall (λ ec, ec = false) (on_error_slots t);
  keeping_sent : length (alive_sent t) = length (on_error_slots t);
  keeping_reported : reported t = [];
}.

Lemma keeping_errors condition l t : Forall (λ ec, ec = false) l →
  foldl (λ t ec, KeepAliveCallback condition ec t) t l = t.
Proof. intros Hl. induction Hl as [|ec l -> Hl IH]; [done|exact IH]. Qed.

Lemma traverse_keeps e t : keeping t → keeping (traverse e t).
Proof.
  intros [K1 K2 K3 K4]. destruct e as [ep callback|i|condition]; cbn [traverse].
  - unfold KeepAlive. destruct (_ && _); [|by split]. split; cbn; try done.
    + intros _. by destruct (waits t).
    + apply Forall_app. split; [done|]. by constructor.
    + rewrite length_app. cbn. lia.
  - destruct (waits t !! i); [|by split]. split; cbn; try done.
    + by destruct (length (delete i (waits t))).
    + apply Forall_app. split; [done|]. by constructor.
    + rewrite length_app. cbn. lia.
  - by rewrite keeping_errors.
Qed.

(** Once it was started, keeping a mapping alive never ends: a wait for the timer is
    always pending, a message was sent for each request and timer, and whatever
    errors the transport reports the caller is never told.  (The condition that
    would tell it is an error code that is bound when the request is made.) *)
Theorem keep_alive_never_reports es :
  let t := traverse_all es in
  (callback_ t = true → waits t ≠ []) ∧ length (alive_sent t) = length (on_error_slots t) ∧ reported t = [].
Proof.
  assert (keeping (traverse_all es)) as [K1 K2 K3 K4]; [|done].
  unfold traverse_all. assert (keeping new_traversal) as Hn by (split; [done|constructor|done..]).
  revert Hn. generalize new_traversal. induction es as [|e es IH]; intros t Ht; [done|]. cbn [foldl].
  by apply IH, traverse_keeps.
Qed.

(** With two waits, each of them cancels the other, which ends at once. *)
Lemma keep_alive_twice_spins i t : (2 ≤ length (waits t))%nat → (i < length (waits t))%nat →
  let t' := traverse (TvTimer i) t in true ∈ waits t' ∧ length (waits t') = length (waits t).
Proof.
  intros Hl [b Eb]%lookup_lt_is_Some. cbn [traverse]. rewrite Eb. cbn.
  pose proof (length_delete (waits t) i ltac:(by eexists)) as Hd.
  rewrite length_app, length_replicate. cbn. split; [|lia].
  destruct (length (delete i (waits t))) eqn:E; [lia|]. left.
Qed.
End traversal.

Module NatExamples.
Import SimWire SimCrypto.
#[local] Existing Instances Sim.ip Contact.ContactExamples.text.

Definition host (d : Z) : endpoint := Endpoint _ (Sim.V4 10 1 1 d) 5000.
Definition direct (d : Z) : Contact := new_contact (host d) [host d] endpoint_none false false.
Definition behind_nat : Contact := new_contact (host 4) [host 9] endpoint_none false false.
Definition known : list Contact := [direct 1; behind_nat; direct 2; direct 3].
Definition idle : Client := MkClient (MkTransportDetails endpoint_none [host 7] endpoint_none) [] [] ∅ 0 [].
Definition failures : list TransportCondition := [kSendTimeout; kReceiveTimeout].

Lemma nat_detection_asks_all_witness :
  ∃ message s', (Detect known None false ≫= λ _, errors failures) idle = Ok (tt, s') ∧
    (message, host 3, kDefaultInitialTimeout) ∈ sent s' ∧ length (sent s') = 4%nat.
Proof.
  destruct (nat_detection_asks_all idle known None false failures) as (message&l&s'&E&Es&_&_&Hin).
  - done.
  - intros E%(f_equal length). vm_compute in E. discriminate E.
  - done.
  - done.
  - by repeat constructor.
  - exists message, s'. split; [exact E|]. split; [by apply (Hin 2%nat (direct 3)); [reflexivity|cbn; lia]|].
    assert (length (sent s') = length (sent (from_ok (tt, idle)
      ((Detect known None false ≫= λ _, errors failures) idle)).2)) as -> by by rewrite E.
    vm_compute. reflexivity.
Defined.

Definition asking : Client := (from_ok (0%nat, idle) (Detect known None false idle)).2.
Definition answer : NatDetectionResponse :=
  MkNatDetectionResponse (Some (MkPbEndpoint (Some [4; 10; 1; 1; 7]) (Some 6000))) (Some 6).

Lemma nat_detection_reports_witness :
  ∃ s', OnResponse answer asking = Ok (tt, s') ∧ td_endpoint (details s') = Endpoint _ ip_none 6000 ∧
    frames s' !! 0%nat = Some (MkFrame (Some 6) (Some (host 1)) true).
Proof.
  destruct (nat_detection_reports asking answer 6 (Sim.V4 10 1 1 7)) as (s'&E&De&_&Fr).
  - constructor; [|constructor]. split; [by eexists|]. apply Nat.ltb_lt. vm_compute. reflexivity.
  - intros E%(f_equal length). vm_compute in E. discriminate E.
  - done.
  - done.
  - done.
  - exists s'. split; [exact E|]. split; [exact De|]. by apply (Fr 0%nat (MkDetection [direct 1; direct 2; direct 3]
      (plain (MkNatDetectionRequest [[4; 10; 1; 1; 7]] (Some 5000) (Some false))) 0 0)).
Defined.

(** An answer that comes when [Detect] has returned uses its variables. *)
Lemma late_answer_dangles :
  is_ok ((_ ← Return 0; OnResponse answer) asking) = false.
Proof. vm_compute. reflexivity. Qed.
(** Without a directly connected contact the first one is used all the same. *)
Lemma detect_needs_contact : is_ok (Detect [behind_nat] None false idle) = false.
Proof. vm_compute. reflexivity. Qed.

Lemma keep_alive_never_reports_witness :
  let t := traverse_all [TvKeepAlive (host 1) true; TvError kSendTimeout; TvTimer 0] in
  callback_ t = true ∧ waits t ≠ [] ∧ length (alive_sent t) = 2%nat ∧ reported t = [].
Proof.
  intros t. destruct (keep_alive_never_reports [TvKeepAlive (host 1) true; TvError kSendTimeout; TvTimer 0]) as (Hw&Hs&Hr).
  split; [reflexivity|]. split; [apply Hw; reflexivity|]. split; [exact Hs|exact Hr].
Defined.
End NatExamples.
