(* ===== verification/NatService.v ===== *)
(** * Helping other nodes to detect their NAT

    Models src/maidsafe/transport/nat_detection_service.cc and service.cc.  A node
    behind a NAT asks a rendezvous node, which asks a third one, the proxy, to
    connect to it; where that fails, the proxy asks through the rendezvous node to
    be connected to.

    What the service does with transports is in [actions], newest first: a
    transport is the listening one ([None]), or the n-th that was made.  Where the
    code waits, what happens meanwhile is an argument.  The local variables that
    callbacks point to are in [frames] as long as the function runs. *)

From S2P Require Import Prelude Environment Transport Contact Protobuf MessageHandler NatDetection.
From S2P Require Shared.

Inductive action `{IpAddress} :=
  | ASend (transport : option nat) (message : list Z) (ep : endpoint) (timeout : Z)
  | AConnect (transport : option nat) (ep : endpoint) (timeout : Z)
  | AListen (transport : option nat) (ep : endpoint)
  | AError (condition : TransportCondition) (ep : endpoint).
Arguments ASend {_}.
Arguments AConnect {_}.
Arguments AListen {_}.
Arguments AError {_}.

(** [condition], [result] and whether the condition variable was notified *)
Record Local := MkLocal { condition : TransportCondition; result : bool; woken : bool }.

Record NatDetectionService `{Environment} := MkNatDetectionService {
  own_endpoint : endpoint;                           (** the listening transport's details *)
  on_proxy_connect_response_ : list (nat * endpoint); (** frame and proxy *)
  on_error_ : list (nat * endpoint);
  frames : gmap nat Local;
  entered : nat;                                     (** functions that waited, which number the frames *)
  endpoints_got : nat;                               (** calls of the functor *)
  transports : nat;
  actions : list action;
  world : World;
}.
Arguments MkNatDetectionService {_}.

Section service.
Context `{Environment} `{!IpText} `{Crypto} `{Protobuf}.
(** [get_directly_connected_endpoint_], and the private key of the message handler *)
Context (get_endpoint : option (nat → endpoint)) (key : option PrivateKey).

Definition act (a : action) : M NatDetectionService unit := modify (λ s,
  MkNatDetectionService (own_endpoint s) (on_proxy_connect_response_ s) (on_error_ s) (frames s) (entered s) (endpoints_got s)
    (transports s) (a :: actions s) (world s)).
Definition set_slots (responses errors : list (nat * endpoint)) (s : NatDetectionService) : NatDetectionService :=
  MkNatDetectionService (own_endpoint s) responses errors (frames s) (entered s) (endpoints_got s) (transports s) (actions s) (world s).
Definition set_frames (l : gmap nat Local) (s : NatDetectionService) : NatDetectionService :=
  MkNatDetectionService (own_endpoint s) (on_proxy_connect_response_ s) (on_error_ s) l (entered s) (endpoints_got s)
    (transports s) (actions s) (world s).
Definition new_transport : M NatDetectionService nat := λ s,
  Ok (transports s, MkNatDetectionService (own_endpoint s) (on_proxy_connect_response_ s) (on_error_ s) (frames s) (entered s)
    (endpoints_got s) (S (transports s)) (actions s) (world s)).
Definition random : M NatDetectionService Z := zoom world (λ w s,
  MkNatDetectionService (own_endpoint s) (on_proxy_connect_response_ s) (on_error_ s) (frames s) (entered s) (endpoints_got s)
    (transports s) (actions s) w) RandomUint32.

Definition GetDirectlyConnectedEndpoint : M NatDetectionService endpoint := λ s,
  match get_endpoint with
  | Some f => Ok (f (endpoints_got s), MkNatDetectionService (own_endpoint s) (on_proxy_connect_response_ s)
      (on_error_ s) (frames s) (entered s) (S (endpoints_got s)) (transports s) (actions s) (world s))
  | None => Ok (endpoint_none, s)
  end.

(** A local variable of a function that runs *)
Definition enter (l : Local) : M NatDetectionService nat :=
  s ← get;
  modify (λ s, MkNatDetectionService (own_endpoint s) (on_proxy_connect_response_ s) (on_error_ s)
    (<[entered s := l]> (frames s)) (S (entered s)) (endpoints_got s) (transports s) (actions s) (world s));;
  mret (entered s).
Definition leave (frame : nat) : M NatDetectionService unit := modify (λ s, set_frames (delete frame (frames s)) s).
Definition write (frame : nat) (l : Local) : M NatDetectionService unit :=
  s ← get;
  match frames s !! frame with
  | Some _ => modify (set_frames (<[frame := l]> (frames s)))
  | None => throw OutOfBounds
  end.

(** ** At the rendezvous node *)

Definition DirectlyConnected (request : NatDetectionRequest) (ep : endpoint) : bool :=
  existsb (λ text, bool_decide (ip_to_string (ep_address ep) = text)) (local_ips request).
Definition SetNatDetectionResponse (ep : endpoint) (nat_type : NatType) (response : NatDetectionResponse) :
    NatDetectionResponse :=
  MkNatDetectionResponse (Some (pb_of_endpoint ep)) (Some (nat_type_code nat_type)).

Definition SendProxyConnectRequest (originator proxy : endpoint) (rendezvous : bool) (t : option nat) : M NatDetectionService unit :=
  s ← get;
  message ← liftR (WrapMessage key (MkProxyConnectRequest (Some (pb_of_endpoint originator)) (Some rendezvous)
    (Some (pb_of_endpoint (own_endpoint s)))));
  act (ASend t message proxy kDefaultInitialTimeout).

Definition ProxyConnectResponse (c : TransportCondition) (remote : endpoint) (response : Protobuf.ProxyConnectResponse)
    (peer : endpoint) (frame : nat) : M NatDetectionService unit :=
  when (bool_decide (ep_address remote = ep_address peer))
    (write frame (MkLocal c (default false (connect_result response)) true)).

(** What the message handler signals while a function waits *)
Inductive signalled :=
  | SgResponse (response : Protobuf.ProxyConnectResponse)
  | SgError (c : TransportCondition) (remote : endpoint).
Fixpoint each (f : nat * endpoint → M NatDetectionService unit) (l : list (nat * endpoint)) : M NatDetectionService unit :=
  match l with [] => mret tt | x :: l => f x;; each f l end.
Definition fire (e : signalled) : M NatDetectionService unit :=
  s ← get;
  match e with
  | SgResponse response =>
      each (λ x, ProxyConnectResponse kSuccess x.2 response x.2 x.1) (on_proxy_connect_response_ s)
  | SgError c remote =>
      each (λ x, ProxyConnectResponse c remote (MkProxyConnectResponse None) x.2 x.1) (on_error_ s)
  end.
Fixpoint wait (frame : nat) (es : list signalled) : M NatDetectionService (option Local) :=
  match es with
  | [] => mret None
  | e :: es =>
      fire e;;
      s ← get;
      match frames s !! frame with
      | Some l => if woken l then mret (Some l) else wait frame es
      | None => throw OutOfBounds
      end
  end.

(** [es]: what is signalled while it waits; nothing is returned if it waits still.
    A slot is disconnected only where the proxy could not connect. *)
Definition NatDetection (es : list signalled) (info : Info) (request : NatDetectionRequest)
    (r : NatDetectionResponse * Z) : M NatDetectionService (option (NatDetectionResponse * Z)) :=
  let '(response, timeout) := r in
  let ep := info_endpoint info in
  if negb (default false (full_detection request)) then
    mret (Some (SetNatDetectionResponse ep
      (if DirectlyConnected request ep then kDirectConnected else kNotConnected) response, timeout))
  else if DirectlyConnected request ep then
    mret (Some (SetNatDetectionResponse ep kDirectConnected response, timeout))
  else
    proxy ← GetDirectlyConnectedEndpoint;
    t ← new_transport;
    frame ← enter (MkLocal kPendingResult false false);
    modify (λ s, set_slots (on_proxy_connect_response_ s ++ [(frame, proxy)]) (on_error_ s ++ [(frame, proxy)]) s);;
    SendProxyConnectRequest ep proxy false (Some t);;
    outcome ← wait frame es;
    match outcome with
    | None => mret None
    | Some l =>
        if negb (bool_decide (condition l = kSuccess)) then leave frame;; mret (Some (response, timeout))
        else if result l then
          leave frame;; mret (Some (SetNatDetectionResponse ep kFullCone response, kDefaultInitialTimeout))
        else
          modify (λ s, set_slots (filter (λ x, x.1 ≠ frame) (on_proxy_connect_response_ s))
            (filter (λ x, x.1 ≠ frame) (on_error_ s)) s);;
          proxy ← GetDirectlyConnectedEndpoint;
          SendProxyConnectRequest ep proxy true (Some t);;
          leave frame;;
          mret (Some (response, timeout))
    end.

Definition SetRendezvousRequest (proxy : endpoint) : RendezvousRequest := MkRendezvousRequest (Some (pb_of_endpoint proxy)).
Definition ForwardRendezvous (info : Info) (request : ForwardRendezvousRequest) (response : ForwardRendezvousResponse) :
    M NatDetectionService ForwardRendezvousResponse :=
  let originator := endpoint_of_pb (receiver_endpoint request) in
  message ← liftR (WrapMessage key (SetRendezvousRequest (info_endpoint info)));
  act (ASend None message originator kDefaultInitialTimeout);;
  mret response.

(** ** At the proxy *)

Definition SendForwardRendezvousRequest (rendezvous originator : endpoint) (t : option nat) : M NatDetectionService unit :=
  message ← liftR (WrapMessage key (MkForwardRendezvousRequest (Some (pb_of_endpoint originator))));
  act (ASend t message rendezvous kDefaultInitialTimeout).
Definition SendNatDetectionResponse (originator : endpoint) (t : option nat) : M NatDetectionService unit :=
  message ← liftR (WrapMessage key (SetNatDetectionResponse originator kPortRestricted empty_message));
  act (ASend t message originator kDefaultInitialTimeout).

(** [outcomes]: what [StartListening] of the transport returns for the i-th attempt;
    with the endpoint of the last one *)
Fixpoint attempts (n i : nat) (outcomes : nat → TransportCondition) (t : nat) (ep : endpoint) :
    M NatDetectionService (bool * endpoint) :=
  match n with
  | O => mret (false, ep)
  | S n =>
      r ← random;
      let ep := Endpoint _ (ep_address ep) (u16 (u32 (r mod (64000 - 1025) + 1025))) in
      act (AListen (Some t) ep);;
      if bool_decide (outcomes i = kSuccess) then mret (true, ep) else attempts n (S i) outcomes t ep
  end.
Definition StartListening (outcomes : nat → TransportCondition) (t : nat) (ep : endpoint) :
  M NatDetectionService (bool * endpoint) := attempts 10 0 outcomes t ep.

(** [127.0.0.1] *)
Definition loopback : ip_address := default ip_none (ip_from_string [49; 50; 55; 46; 48; 46; 48; 46; 49]).

Definition ConnectResult (in_result : TransportCondition) (frame : nat) : M NatDetectionService unit :=
  write frame (MkLocal in_result false true).
(** [connected]: the result of [Connect], if it comes in time *)
Definition ProxyConnect (outcomes : nat → TransportCondition) (connected : option TransportCondition) (info : Info)
    (request : ProxyConnectRequest) (r : Protobuf.ProxyConnectResponse * Z) :
    M NatDetectionService (Protobuf.ProxyConnectResponse * Z) :=
  let ep := endpoint_of_pb (connect_endpoint request) in
  t ← new_transport;
  '(listens, listening_endpoint) ← StartListening outcomes t (Endpoint _ loopback 0);
  if negb listens then
    act (AError kListenError listening_endpoint);;
    mret (MkProxyConnectResponse (Some false), r.2)
  else if negb (default false (rendezvous_connect request)) then
    frame ← enter (MkLocal kPendingResult false false);
    act (AConnect (Some t) ep kDefaultInitialTimeout);;
    match connected with Some c => ConnectResult c frame | None => mret tt end;;
    s ← get;
    leave frame;;
    mret (MkProxyConnectResponse (Some (bool_decide (condition <$> frames s !! frame = Some kSuccess))), r.2)
  else
    SendForwardRendezvousRequest (endpoint_of_pb (connect_rendezvous request)) ep (Some t);;
    SendNatDetectionResponse ep (Some t);;
    mret (MkProxyConnectResponse (Some false), r.2).

(** ** At the originator *)

Definition OriginConnectResult (c : TransportCondition) (ep : endpoint) : M NatDetectionService unit :=
  when (negb (bool_decide (c = kSuccess))) (act (AError c ep)).
Definition Rendezvous (info : Info) (request : RendezvousRequest) (response : RendezvousAcknowledgement) :
    M NatDetectionService RendezvousAcknowledgement :=
  act (AConnect None (endpoint_of_pb (proxy_endpoint request)) kDefaultInitialTimeout);;
  mret response.

(** [ConnectToSignals]; a [NatDetection] that does not return does not answer. *)
Definition ConnectToSignals (es : list signalled) (outcomes : nat → TransportCondition) (connected : option TransportCondition)
    (h : RudpMessageHandler NatDetectionService) : RudpMessageHandler NatDetectionService :=
  MkRudpMessageHandler _ (private_key_ _ h) (MessageHandler.on_error_ _ h) (on_managed_endpoint_message_ _ h)
    (on_nat_detection_request_ _ h ++ [λ a r,
      o ← NatDetection es a.1 a.2 r; match o with Some r => mret r | None => throw OutOfFuel end])
    (MessageHandler.on_nat_detection_response_ _ h)
    (on_proxy_connect_request_ _ h ++ [λ a r, ProxyConnect outcomes connected a.1 a.2 r])
    (MessageHandler.on_proxy_connect_response_ _ h)
    (on_forward_rendezvous_request_ _ h ++ [λ a r, ForwardRendezvous a.1 a.2 r])
    (on_forward_rendezvous_response_ _ h)
    (on_rendezvous_request_ _ h ++ [λ a r, Rendezvous a.1 a.2 r])
    (on_rendezvous_acknowledgement_ _ h).
End service.

(** ** service.cc *)
Module PlainService.
Definition NatDetection `{IpAddress} `{!IpText} (request : NatDetectionRequest) (info : Info)
    (response : NatDetectionResponse) : NatDetectionResponse :=
  if negb (default false (full_detection request)) then
    let ep := pb_of_endpoint (info_endpoint info) in
    MkNatDetectionResponse (Some ep)
      (Some (if existsb (λ text, bool_decide (pb_ip ep = Some text)) (local_ips request) then 0 else 5))
  else response.
End PlainService.

(** ** What a node is told *)

Section told.
Context `{Environment} `{!IpText} `{Crypto} `{Protobuf}.
Context (get_endpoint : option (nat → endpoint)) (key : option PrivateKey).
Implicit Types (s : NatDetectionService) (info : Info) (ep : endpoint).

Lemma DirectlyConnected_spec request ep :
  DirectlyConnected request ep = true ↔ ip_to_string (ep_address ep) ∈ local_ips request.
Proof.
  unfold DirectlyConnected. rewrite existsb_exists, list_elem_of_In. split.
  - by intros (x&Hx&->%bool_decide_eq_true).
  - intros Hx. exists (ip_to_string (ep_address ep)). split; [done|]. by apply bool_decide_eq_true.
Qed.

(** What is written to a frame stays in the service otherwise as it is. *)
Definition put (frame : nat) (l : Local) s : NatDetectionService := set_frames (<[frame := l]> (frames s)) s.

Lemma write_live frame l s : is_Some (frames s !! frame) → write frame l s = Ok (tt, put frame l s).
Proof. intros [x E]. unfold write, mbind, M_bind, get. by rewrite E. Qed.
Lemma write_dead frame l s : frames s !! frame = None → write frame l s = Fault OutOfBounds.
Proof. intros E. unfold write, mbind, M_bind, get. by rewrite E. Qed.

(** What a service that is waiting alone makes of a signal: the state of its locals. *)
Definition wakes (proxy : endpoint) (e : signalled) : option Local :=
  match e with
  | SgResponse response => Some (MkLocal kSuccess (default false (connect_result response)) true)
  | SgError c remote =>
      if bool_decide (ep_address remote = ep_address proxy) then Some (MkLocal c false true) else None
  end.

Lemma fire_alone e frame proxy s :
  on_proxy_connect_response_ s = [(frame, proxy)] → on_error_ s = [(frame, proxy)] → is_Some (frames s !! frame) →
  fire e s = Ok (tt, match wakes proxy e with Some l => put frame l s | None => s end).
Proof.
  intros Er Ee Hf. unfold fire, mbind, M_bind, get. destruct e as [response|c remote]; rewrite ?Er, ?Ee;
    cbn [each fst snd wakes]; unfold ProxyConnectResponse, mbind, M_bind.
  - rewrite bool_decide_true by done. cbn [when]. by rewrite write_live.
  - destruct (bool_decide _); cbn [when]; [by rewrite write_live|done].
Qed.

Lemma put_put frame l l' s : put frame l (put frame l' s) = put frame l s.
Proof. unfold put, set_frames. cbn. by rewrite insert_insert_eq. Qed.

(** The first signal that is meant for it wakes a service that waits alone. *)
Lemma wait_alone es frame proxy l s :
  on_proxy_connect_response_ s = [(frame, proxy)] → on_error_ s = [(frame, proxy)] →
  frames s !! frame = Some l → woken l = false →
  wait frame es s = match head (omap (wakes proxy) es) with
    | Some l' => Ok (Some l', put frame l' s)
    | None => Ok (None, s)
    end.
Proof.
  intros Er Ee Ef Hl. induction es as [|e es IH]; [done|]. cbn [wait omap list_omap].
  unfold mbind at 1, M_bind at 1. rewrite (fire_alone e frame proxy) by (rewrite ?Ef; done || by eexists).
  unfold mbind, M_bind, get. destruct (wakes proxy e) as [l'|] eqn:Ew; cbn [head].
  - unfold put at 1. cbn [frames set_frames]. rewrite lookup_insert_eq.
    destruct e as [response|c remote]; cbn [wakes] in Ew; [injection Ew as <-; done|].
    destruct (bool_decide _); [injection Ew as <-; done|done].
  - rewrite Ef, Hl. exact IH.
Qed.

Lemma SendProxyConnectRequest_acts ep proxy rendezvous t s : SendProxyConnectRequest key ep proxy rendezvous t s =
  act (ASend t (plain (MkProxyConnectRequest (Some (pb_of_endpoint ep)) (Some rendezvous)
    (Some (pb_of_endpoint (own_endpoint s))))) proxy kDefaultInitialTimeout) s.
Proof. unfold SendProxyConnectRequest, mbind, M_bind, get, liftR. by rewrite WrapMessage_plain. Qed.

(** The verdict on a node that is not directly connected: [None] while the proxy is
    silent, [kFullCone] if it could connect, and no answer otherwise. *)
Definition verdict (proxy : endpoint) (es : list signalled) (ep : endpoint) (r : NatDetectionResponse * Z) :
    option (NatDetectionResponse * Z) :=
  match head (omap (wakes proxy) es) with
  | None => None
  | Some l =>
      if bool_decide (condition l = kSuccess) && result l
      then Some (SetNatDetectionResponse ep kFullCone r.1, kDefaultInitialTimeout) else Some r
  end.
(** The proxy said that it could not connect. *)
Definition refused (proxy : endpoint) (es : list signalled) : bool :=
  match head (omap (wakes proxy) es) with
  | Some l => bool_decide (condition l = kSuccess) && negb (result l)
  | None => false
  end.
Definition ask_proxy s (ep proxy : endpoint) (rendezvous : bool) : action :=
  ASend (Some (transports s)) (plain (MkProxyConnectRequest (Some (pb_of_endpoint ep)) (Some rendezvous)
    (Some (pb_of_endpoint (own_endpoint s))))) proxy kDefaultInitialTimeout.
Definition next_endpoint s : endpoint := from_option (λ f, f (endpoints_got s)) endpoint_none get_endpoint.
Definition after_next_endpoint s : endpoint := from_option (λ f, f (S (endpoints_got s))) endpoint_none get_endpoint.

(** C27: The rendezvous node tells a node what it sees, as long as no callbacks of an
    earlier detection are connected (those of one whose verdict was full cone, or whose
    proxy failed, are left behind, and fail, see [second_detection_dangles]): that it is
    directly connected, if the address (not the port) the request came from is among the
    local ones that the request lists; otherwise, if no full detection was asked for,
    that it is not connected. In a full detection it asks a proxy to connect to the
    node, waits for the first answer of the proxy or error about it, and says full cone
    if the proxy could; if the proxy could not, another one is asked to do it by
    rendezvous. *)
Theorem nat_detection_verdict es info request r s :
  on_proxy_connect_response_ s = [] → on_error_ s = [] →
  let ep := info_endpoint info in
  let proxy := next_endpoint s in
  ∃ s', NatDetection get_endpoint key es info request r s =
      Ok (if decide (ip_to_string (ep_address ep) ∈ local_ips request)
          then Some (SetNatDetectionResponse ep kDirectConnected r.1, r.2)
          else if negb (default false (full_detection request))
          then Some (SetNatDetectionResponse ep kNotConnected r.1, r.2)
          else verdict proxy es ep r, s') ∧
    actions s' =
      (if decide (ip_to_string (ep_address ep) ∈ local_ips request) then []
       else if negb (default false (full_detection request)) then []
       else (if refused proxy es then [ask_proxy s ep (after_next_endpoint s) true] else []) ++ [ask_proxy s ep proxy false])
      ++ actions s.
Proof.
  intros Er Ee ep proxy. destruct r as [response timeout]. cbn [fst snd].
  assert (DirectlyConnected request ep = bool_decide (ip_to_string (ep_address ep) ∈ local_ips request)) as Hd.
  { apply eq_bool_prop_intro. by rewrite !Is_true_true, DirectlyConnected_spec, bool_decide_eq_true. }
  unfold NatDetection. fold ep. rewrite Hd.
  destruct (decide (ip_to_string (ep_address ep) ∈ local_ips request)) as [Hin|Hin].
  { rewrite bool_decide_true by done. exists s. by destruct (negb _). }
  rewrite bool_decide_false by done. destruct (negb _); [by exists s|].
  set (frame := entered s).
  assert (∃ s1, (proxy ← GetDirectlyConnectedEndpoint get_endpoint; t ← new_transport; frame ← enter (MkLocal kPendingResult false false);
      modify (λ s, set_slots (on_proxy_connect_response_ s ++ [(frame, proxy)]) (on_error_ s ++ [(frame, proxy)]) s);;
      SendProxyConnectRequest key ep proxy false (Some t);; mret (proxy, t, frame)) s = Ok ((proxy, transports s, frame), s1) ∧
    on_proxy_connect_response_ s1 = [(frame, proxy)] ∧ on_error_ s1 = [(frame, proxy)] ∧
    frames s1 !! frame = Some (MkLocal kPendingResult false false) ∧
    actions s1 = ask_proxy s ep proxy false :: actions s ∧ own_endpoint s1 = own_endpoint s ∧
    match get_endpoint with Some _ => endpoints_got s1 = S (endpoints_got s) | None => True end)
    as (s1&E1&R1&Er1&F1&A1&O1&G1).
  { unfold mbind, M_bind, GetDirectlyConnectedEndpoint, proxy, next_endpoint.
    unfold new_transport, enter, modify, mret, M_ret, mbind, M_bind, get.
    destruct get_endpoint as [g|]; cbn beta iota zeta; rewrite SendProxyConnectRequest_acts;
      (eexists; split; [reflexivity|]); cbn -[insert]; fold frame; rewrite Er, Ee, lookup_insert_eq; by split_and!. }
  unfold mbind, M_bind in E1 |- *.
  destruct (GetDirectlyConnectedEndpoint get_endpoint s) as [[p2 s2]|]; [|done].
  destruct (new_transport s2) as [[t3 s3]|]; [|done].
  destruct (enter _ s3) as [[f4 s4]|]; [|done].
  destruct (modify _ s4) as [[[] s5]|]; [|done].
  destruct (SendProxyConnectRequest _ _ _ _ _ s5) as [[[] s6]|]; [|done].
  injection E1 as -> -> -> ->. rewrite (wait_alone es frame proxy _ s1 R1 Er1 F1 eq_refl).
  unfold verdict, refused. destruct (head (omap (wakes proxy) es)) as [l|]; [|by exists s1].
  destruct (bool_decide_reflect (condition l = kSuccess)) as [Hc|Hc]; cbn [negb andb]; [|by eexists].
  destruct (result l); cbn [negb andb]; [by eexists|].
  cbn [modify]. unfold GetDirectlyConnectedEndpoint, after_next_endpoint, ask_proxy.
  destruct get_endpoint as [g|]; rewrite SendProxyConnectRequest_acts; (eexists; split; [reflexivity|]); cbn;
    rewrite A1, O1, ?G1; done.
Qed.
End told.

(** ** Looking for a port *)

Section ports.
Context `{Environment}.
Implicit Types (s : NatDetectionService) (ep : endpoint).

(** The attempts that are made: [n] of them, all but the last one in vain *)
Record tried (outcomes : nat → TransportCondition) (i n : nat) (ok : bool) : Prop := {
  tried_in_vain j : (i ≤ j)%nat → (S j < i + n)%nat → outcomes j ≠ kSuccess;
  tried_last : (0 < n)%nat → ok = bool_decide (outcomes (pred (i + n)) = kSuccess);
}.

Lemma attempts_tried n i outcomes t ep s : ∃ k ok ep' l s', attempts n i outcomes t ep s = Ok ((ok, ep'), s') ∧
  (k ≤ n)%nat ∧ ((0 < n)%nat → (0 < k)%nat) ∧ (ok = false → k = n) ∧ tried outcomes i k ok ∧
  actions s' = l ++ actions s ∧ length l = k ∧
  Forall (λ a, ∃ p, 1025 ≤ p < 64000 ∧ a = AListen (Some t) (Endpoint _ (ep_address ep) p)) l ∧
  ((0 < k)%nat → head l = Some (AListen (Some t) ep')).
Proof.
  revert i ep s. induction n as [|n IH]; intros i ep s.
  { exists 0%nat, false, ep, [], s. split_and!; try done; try lia. split; lia. }
  cbn [attempts]. unfold mbind at 1, M_bind at 1, random, zoom, RandomUint32. cbv zeta.
  set (r := random_uint32 _). set (s1 := MkNatDetectionService _ _ _ _ _ _ _ _ _).
  set (p := u16 (u32 (r mod (64000 - 1025) + 1025))).
  assert (1025 ≤ p < 64000) as Hp.
  { subst p. pose proof (Z.mod_pos_bound r (64000 - 1025) ltac:(lia)). unfold u16, u32.
    set (q := r mod (64000 - 1025)) in *. rewrite (Z.mod_small (q + 1025)), Z.mod_small; lia. }
  set (e1 := Endpoint _ (ep_address ep) p). unfold mbind, M_bind, act, modify.
  set (s2 := MkNatDetectionService _ _ _ _ _ _ _ _ _).
  destruct (bool_decide_reflect (outcomes i = kSuccess)) as [Ho|Ho].
  - exists 1%nat, true, e1, [AListen (Some t) e1], s2. split_and!; try done; try lia.
    + split; [lia|]. intros _. rewrite Nat.add_1_r. cbn. by rewrite bool_decide_true.
    + constructor; [by exists p|constructor].
  - destruct (IH (S i) e1 s2) as (k&ok&ep'&l&s'&E&Hk&Hk0&Hf&Ht&Ha&Hl&Hall&Hh).
    exists (S k), ok, ep', (l ++ [AListen (Some t) e1]), s'. split; [exact E|]. split_and!; try lia.
    + destruct Ht as [Hv Hlast]. split.
      * intros j Hij Hj. destruct (decide (j = i)) as [->|]; [done|]. apply Hv; lia.
      * intros _. destruct (decide (k = 0%nat)) as [->|].
        { assert (n = 0%nat) by lia. subst n. rewrite Nat.add_1_r. cbn. rewrite bool_decide_false by done.
          cbn in E. injection E as <- _ _. done. }
        rewrite <-Nat.add_succ_comm. apply Hlast. lia.
    + rewrite Ha. cbn. by rewrite <-(assoc_L (++)).
    + rewrite length_app. cbn. lia.
    + apply Forall_app. split; [exact Hall|]. constructor; [by exists p|constructor].
    + intros _. destruct l as [|a l]; [|apply Hh; cbn in Hl; lia]. cbn in Hl. subst k. cbn.
      destruct n; [cbn in E; by injection E as _ <- _|lia].
Qed.

(** To listen, the service tries random ports between 1025 and 63999, at most ten of
    them, and stops at the first on which the transport listens; it reports success
    if and only if the last attempt succeeded, with the endpoint that was tried. *)
Theorem listening_attempts outcomes t ep s : ∃ l ok ep' s',
  StartListening outcomes t ep s = Ok ((ok, ep'), s') ∧ actions s' = l ++ actions s ∧
  (1 ≤ length l ≤ 10)%nat ∧ head l = Some (AListen (Some t) ep') ∧
  Forall (λ a, ∃ p, 1025 ≤ p < 64000 ∧ a = AListen (Some t) (Endpoint _ (ep_address ep) p)) l ∧
  (∀ j, (S j < length l)%nat → outcomes j ≠ kSuccess) ∧
  ok = bool_decide (outcomes (pred (length l)) = kSuccess) ∧ (ok = false → length l = 10%nat).
Proof.
  destruct (attempts_tried 10 0 outcomes t ep s) as (k&ok&ep'&l&s'&E&Hk&Hk0&Hf&[Hv Hlast]&Ha&Hl&Hall&Hh).
  specialize (Hk0 ltac:(lia)). exists l, ok, ep', s'. rewrite Hl. split_and!; try done; [by apply Hh| |by apply Hlast].
  intros j Hj. apply Hv; lia.
Qed.
End ports.

(** ** Three nodes *)

Section rendezvous.
Context `{Environment} `{!IpText} `{!IpTextLaws} `{Crypto} `{ProtobufLaws}.
Implicit Types (s : NatDetectionService) (info : Info) (ep : endpoint).

(** The message handler of a node that runs the service *)
Definition serving g key es outcomes connected : RudpMessageHandler NatDetectionService :=
  ConnectToSignals g key es outcomes connected (new_message_handler key).

(** What a node was told to do, on top of what it did before *)
Definition acts (l : list action) s s' : Prop := actions s' = l ++ actions s.

Lemma pb_initialized ep : endpoint_initialized (pb_of_endpoint ep) = true.
Proof. done. Qed.

Lemma forwards g key es outcomes connected info originator s : is_u16 (ep_port originator) →
  ∃ s', Receive (serving g key es outcomes connected)
      (plain (MkForwardRendezvousRequest (Some (pb_of_endpoint originator)))) info s = Ok (([], kImmediateTimeout), s') ∧
    acts [ASend None (plain (SetRendezvousRequest (info_endpoint info))) originator kDefaultInitialTimeout] s s'.
Proof.
  intros Hp. change (plain (MkForwardRendezvousRequest ?e)) with (bytes_of (MForwardRendezvousRequest (MkForwardRendezvousRequest e))).
  rewrite Receive_bytes by done.
  cbn [deliver serving ConnectToSignals new_message_handler on_forward_rendezvous_request_ app emit fst snd].
  unfold ForwardRendezvous. cbn [receiver_endpoint]. rewrite endpoint_of_pb_of by done. rewrite WrapMessage_plain.
  eexists. split; [reflexivity|done].
Qed.

Lemma connects_to_proxy g key es outcomes connected info proxy s : is_u16 (ep_port proxy) →
  ∃ s', Receive (serving g key es outcomes connected) (plain (SetRendezvousRequest proxy)) info s =
      Ok (([], kImmediateTimeout), s') ∧
    acts [AConnect None proxy kDefaultInitialTimeout] s s'.
Proof.
  intros Hp. change (plain (SetRendezvousRequest proxy)) with (bytes_of (MRendezvousRequest (SetRendezvousRequest proxy))).
  rewrite Receive_bytes by done.
  cbn [deliver serving ConnectToSignals new_message_handler on_rendezvous_request_ app emit fst snd].
  unfold Rendezvous. cbn [proxy_endpoint SetRendezvousRequest]. rewrite endpoint_of_pb_of by done.
  eexists. split; [reflexivity|done].
Qed.

(** C28: A node behind a NAT is told of a proxy through the rendezvous node: a proxy that
    is asked to connect by rendezvous, and can listen on one of the ten ports it tries,
    tells the node that it is behind a port restricted NAT, and the rendezvous node to
    forward; what the rendezvous node then sends makes the node start to connect to the
    proxy, at the address that the rendezvous node saw. (Whether the proxy takes that
    connection is not said: it does not keep its transport, as a comment notes.) *)
Theorem rendezvous_reaches_proxy g1 k1 es1 outcomes connected g2 k2 es2 o2 c2 g3 k3 es3 o3 c3
    originator rendezvous info1 s1 :
  is_u16 (ep_port originator) → is_u16 (ep_port rendezvous) →
  (∃ j, (j < 10)%nat ∧ outcomes j = kSuccess) →
  ∃ forward t listens s1',
    Receive (serving g1 k1 es1 outcomes connected) (plain (MkProxyConnectRequest (Some (pb_of_endpoint originator))
      (Some true) (Some (pb_of_endpoint rendezvous)))) info1 s1 =
      Ok ((plain (MkProxyConnectResponse (Some false)), kImmediateTimeout), s1') ∧
    acts ([ASend (Some t) (plain (SetNatDetectionResponse originator kPortRestricted empty_message)) originator
             kDefaultInitialTimeout;
           ASend (Some t) forward rendezvous kDefaultInitialTimeout] ++ listens) s1 s1' ∧
    ∀ info2 s2, is_u16 (ep_port (info_endpoint info2)) → ∃ request s2',
      Receive (serving g2 k2 es2 o2 c2) forward info2 s2 = Ok (([], kImmediateTimeout), s2') ∧
      acts [ASend None request originator kDefaultInitialTimeout] s2 s2' ∧
      ∀ info3 s3, ∃ s3',
        Receive (serving g3 k3 es3 o3 c3) request info3 s3 = Ok (([], kImmediateTimeout), s3') ∧
        acts [AConnect None (info_endpoint info2) kDefaultInitialTimeout] s3 s3'.
Proof.
  intros Ho Hr (j&Hj&Hsucc). set (t := transports s1).
  set (m := MkProxyConnectRequest _ _ _). change (plain m) with (bytes_of (MProxyConnectRequest m)).
  rewrite Receive_bytes by done. subst m.
  cbn [deliver serving ConnectToSignals new_message_handler on_proxy_connect_request_ app emit fst snd].
  unfold ProxyConnect. cbn [connect_endpoint connect_rendezvous rendezvous_connect]. rewrite !endpoint_of_pb_of by done.
  assert (∀ s, ∃ ep l s', StartListening outcomes t (Endpoint _ loopback 0) s = Ok ((true, ep), s') ∧ actions s' = l ++ actions s)
    as Hlisten.
  { intros s. destruct (attempts_tried 10 0 outcomes t (Endpoint _ loopback 0) s) as (k&ok&ep'&l&s'&E&Hk&Hk0&Hf&[Hv Hlast]&Ha&_).
    exists ep', l, s'. split; [|exact Ha]. unfold StartListening. rewrite E. destruct ok; [done|exfalso].
    specialize (Hf eq_refl). subst k. specialize (Hlast ltac:(lia)). cbn in Hlast. symmetry in Hlast. apply bool_decide_eq_false in Hlast.
    destruct (decide (j = 9%nat)) as [->|]; [done|]. apply (Hv j); [lia|lia|done]. }
  unfold mbind, M_bind, new_transport. fold t. set (s2 := MkNatDetectionService _ _ _ _ _ _ _ _ _).
  destruct (Hlisten s2) as (ep&l&s3&E3&A3). rewrite E3. cbv beta iota zeta. cbn [negb default from_option].
  unfold SendForwardRendezvousRequest, SendNatDetectionResponse, mbind, M_bind, liftR, act, modify, mret, M_ret.
  rewrite !WrapMessage_plain.
  exists (plain (MkForwardRendezvousRequest (Some (pb_of_endpoint originator)))), t, l.
  eexists. split; [reflexivity|]. split; [unfold acts; cbn; by rewrite A3|].
  intros info2 s4 Hp. destruct (forwards g2 k2 es2 o2 c2 info2 originator s4 Ho) as (s4'&E4&A4).
  eexists _, s4'. split; [exact E4|]. split; [exact A4|]. intros info3 s5. by apply connects_to_proxy.
Qed.
End rendezvous.

(** ** Examples *)
Module ServiceExamples.
Import Shared.Demo SimWire SimCrypto.
#[local] Existing Instances Contact.ContactExamples.text Contact.ContactExamples.text_laws.

Definition fresh_service (ep : endpoint) : NatDetectionService :=
  MkNatDetectionService ep [] [] ∅ 0 0 0 [] (MkWorld _ 0 0 []).
Definition rendezvous_node : NatDetectionService := fresh_service (remote 1).
Definition third_nodes : option (nat → endpoint) := Some (λ i, remote (20 + Z.of_nat i)).
Definition asking_fully : NatDetectionRequest := MkNatDetectionRequest [[4; 192; 168; 0; 2]] (Some 5000) (Some true).
Definition from_node : Info := MkInfo (remote 9) 0.
Definition proxy_could (b : bool) : signalled := SgResponse (MkProxyConnectResponse (Some b)).

Lemma nat_detection_verdict_witness :
  ∃ s', NatDetection third_nodes None [SgError kSendTimeout (remote 5); proxy_could true] from_node asking_fully
      (empty_message, 0) rendezvous_node =
      Ok (Some (SetNatDetectionResponse (remote 9) kFullCone empty_message, kDefaultInitialTimeout), s') ∧
    length (actions s') = 1%nat.
Proof.
  destruct (nat_detection_verdict third_nodes None [SgError kSendTimeout (remote 5); proxy_could true] from_node asking_fully
    (empty_message, 0) rendezvous_node) as (s'&E&A); [reflexivity..|].
  exists s'. split; [exact E|]. rewrite A. reflexivity.
Defined.

(** When the verdict was full cone, or the proxy could not be asked, its callback stays
    connected; the next answer of any proxy uses variables of a function that has
    returned. *)
Lemma second_detection_dangles :
  let detect e : M NatDetectionService (option (NatDetectionResponse * Z)) :=
    NatDetection third_nodes None [e] from_node asking_fully (empty_message, 0) in
  let again first := is_ok ((_ ← detect first; detect (proxy_could true)) rendezvous_node) in
  again (proxy_could true) = false ∧ again (proxy_could false) = true.
Proof. by split; vm_compute. Qed.

(** The same with a connection that takes longer than the proxy waits *)
Lemma late_connection_dangles :
  let request := MkProxyConnectRequest (Some (pb_of_endpoint (remote 9))) (Some false) None in
  let connect : M NatDetectionService (Protobuf.ProxyConnectResponse * Z) :=
    ProxyConnect None (λ _, kSuccess) None from_node request (empty_message, 0) in
  is_ok (connect rendezvous_node) = true ∧ is_ok ((connect ≫= λ _, ConnectResult kSuccess 0) rendezvous_node) = false.
Proof. by split; vm_compute. Qed.

(** [Service] and [NatDetectionService] number the verdicts differently. *)
Lemma services_disagree :
  let request texts := MkNatDetectionRequest texts (Some 5000) (Some false) in
  let seen := ip_to_string (ep_address (remote 9)) in
  nat_type (PlainService.NatDetection (request [seen]) from_node empty_message) = Some (nat_type_code kManualPortMapped) ∧
  nat_type (PlainService.NatDetection (request []) from_node empty_message) = Some (nat_type_code kPortRestricted).
Proof. by split. Qed.

Lemma rendezvous_reaches_proxy_witness :
  ∃ forward t listens s1' request,
    acts ([ASend (Some t) (plain (SetNatDetectionResponse (remote 9) kPortRestricted empty_message)) (remote 9)
             kDefaultInitialTimeout;
           ASend (Some t) forward (remote 1) kDefaultInitialTimeout] ++ listens) (fresh_service (remote 20)) s1' ∧
    (∃ s2', acts [ASend None request (remote 9) kDefaultInitialTimeout] rendezvous_node s2') ∧
    ∃ s3', acts [AConnect None (remote 20) kDefaultInitialTimeout] (fresh_service (remote 9)) s3'.
Proof.
  destruct (rendezvous_reaches_proxy None None [] (λ _, kSuccess) None None None [] (λ _, kSuccess) None None None []
    (λ _, kSuccess) None (remote 9) (remote 1) (MkInfo (remote 1) 0) (fresh_service (remote 20)))
    as (forward&t&listens&s1'&_&A1&Hnext); [by split; vm_compute..|by exists 0%nat; split; [lia|]|].
  destruct (Hnext (MkInfo (remote 20) 0) rendezvous_node) as (request&s2'&_&A2&Hlast); [by split; vm_compute|].
  destruct (Hlast (MkInfo (remote 1) 0) (fresh_service (remote 9))) as (s3'&_&A3).
  exists forward, t, listens, s1', request. split; [exact A1|]. split; [by exists s2'|by exists s3'].
Defined.
End ServiceExamples.
