(* ===== verification/NetworkInterface.v ===== *)
(** * Network interfaces

    Models src/maidsafe/transport/network_interface.cc as it is built for Linux on a
    64-bit little-endian machine: the structures of the kernel are their bytes, and
    reading behind them is a fault.  The system calls are the class [Interfaces]. *)

From S2P Require Import Prelude Environment ByteOrder Text.

(** ** Addresses of asio as numbers *)

Class IpNumbers `{IpAddress} := {
  ip_of_ulong : Z → ip_address;      (** [address_v4(n)] *)
  ip_to_ulong : ip_address → Z;      (** [a.to_v4().to_ulong()], for a v4 address *)
  ip_is_multicast : ip_address → bool;
  ip_is_link_local : ip_address → bool;
}.
Class IpNumbersLaws `{IpNumbers} : Prop := {
  ip_of_ulong_v4 n : ip_is_v4 (ip_of_ulong n) = true;
  ip_to_of_ulong n : is_u32 n → ip_to_ulong (ip_of_ulong n) = n;
  ip_of_to_ulong a : ip_is_v4 a = true → ip_of_ulong (ip_to_ulong a) = a;
  ip_to_ulong_u32 a : ip_is_v4 a = true → is_u32 (ip_to_ulong a);
  ip_of_v6_not_v4 b : ip_is_v4 (ip_of_v6_bytes b) = false;
  ip_v6_of_bytes b : length b = 16%nat → bytes_ok b → ip_v6_bytes (ip_of_v6_bytes b) = b;
  ip_none_any : ip_none = ip_of_ulong 0;
}.

(** Bytes in network order, as asio numbers them *)
Definition be (l : list Z) : Z := foldl (λ n b, 256 * n + b) 0 l.
Definition v4_of_bytes `{IpNumbers} (l : list Z) : ip_address := ip_of_ulong (be l).
Definition v4_bytes `{IpNumbers} (a : ip_address) : list Z := htonl (ip_to_ulong a).

Lemma be_htonl n : is_u32 n → be (htonl n) = n.
Proof.
  unfold is_u32, be, htonl, u8. intros Hn. cbn [foldl]. rewrite !Z.shiftr_div_pow2 by lia.
  change (2 ^ 24) with 16777216. change (2 ^ 16) with 65536. change (2 ^ 8) with 256. mod_lia.
Qed.
Lemma htonl_be a b c d : bytes_ok [a; b; c; d] → htonl (be [a; b; c; d]) = [a; b; c; d] ∧ is_u32 (be [a; b; c; d]).
Proof.
  unfold bytes_ok, is_u8, is_u32, be, htonl, u8. rewrite !Forall_cons. intros (Ha&Hb&Hc&Hd&_).
  cbn [foldl]. rewrite !Z.shiftr_div_pow2 by lia.
  change (2 ^ 24) with 16777216. change (2 ^ 16) with 65536. change (2 ^ 8) with 256.
  split; [|lia]. repeat (apply (f_equal2 cons); [mod_lia|]). done.
Qed.
Lemma v4_of_to_bytes `{IpNumbersLaws} a : ip_is_v4 a = true → v4_of_bytes (v4_bytes a) = a.
Proof. intros Ha. unfold v4_of_bytes, v4_bytes. rewrite be_htonl by by apply ip_to_ulong_u32. by apply ip_of_to_ulong. Qed.
Lemma v4_to_of_bytes `{IpNumbersLaws} b : length b = 4%nat → bytes_ok b → v4_bytes (v4_of_bytes b) = b.
Proof.
  intros Hl Hb. destruct b as [|x [|y [|z [|w [|]]]]]; try done. destruct (htonl_be x y z w Hb) as [Eb Hn].
  unfold v4_of_bytes, v4_bytes. by rewrite ip_to_of_ulong.
Qed.
Lemma htonl_ok n : length (htonl n) = 4%nat ∧ bytes_ok (htonl n).
Proof. split; [done|]. unfold htonl. repeat (constructor; [apply u8_range|]). constructor. Qed.

(** ** Memory *)

Definition span (l : list Z) (i n : nat) : Res (list Z) :=
  if (i + n <=? length l)%nat then Ok (take n (drop i l)) else Fault OutOfBounds.
(** An unsigned number in the order of the machine *)
Fixpoint host_value (l : list Z) : Z := match l with [] => 0 | b :: l => b + 256 * host_value l end.
Definition host_at (l : list Z) (i n : nat) : Res Z := b ← span l i n; mret (host_value b).
Fixpoint le_bytes (n : nat) (v : Z) : list Z := match n with O => [] | S n => u8 v :: le_bytes n (v / 256) end.

Lemma span_app pre l post i n : i = length pre → n = length l → span (pre ++ l ++ post) i n = Ok l.
Proof.
  intros -> ->. unfold span. rewrite !length_app, (proj2 (Nat.leb_le _ _)) by lia.
  by rewrite drop_app_length, take_app_length.
Qed.
Lemma length_le_bytes n v : length (le_bytes n v) = n.
Proof. revert v. induction n as [|n IH]; intros v; [done|]. cbn. by rewrite IH. Qed.
Lemma host_value_le_bytes n v : 0 ≤ v < 256 ^ Z.of_nat n → host_value (le_bytes n v) = v.
Proof.
  revert v. induction n as [|n IH]; intros v Hv; [cbn in *; lia|]. cbn [le_bytes host_value].
  rewrite Nat2Z.inj_succ, Z.pow_succ_r in Hv by lia. rewrite IH by (unfold u8; mod_lia). unfold u8. mod_lia.
Qed.
Lemma host_at_app pre n v post i : i = length pre → 0 ≤ v < 256 ^ Z.of_nat n →
  host_at (pre ++ le_bytes n v ++ post) i n = Ok v.
Proof.
  intros -> Hv. unfold host_at. rewrite span_app by (rewrite ?length_le_bytes; done). cbn [mbind Res_bind].
  by rewrite host_value_le_bytes.
Qed.
Lemma span_head l post n : n = length l → span (l ++ post) 0 n = Ok l.
Proof. by apply (span_app []). Qed.
Lemma host_at_head n v post : 0 ≤ v < 256 ^ Z.of_nat n → host_at (le_bytes n v ++ post) 0 n = Ok v.
Proof. by apply (host_at_app []). Qed.

(** ** NetworkInterface *)

Record NetworkInterface `{IpAddress} := MkNetworkInterface {
  destination : ip_address;
  gateway : ip_address;
  netmask : ip_address;
  name : list Z;
}.
Arguments MkNetworkInterface {_}.

Class Interfaces := {
  opens_socket : bool;
  (** the bytes filled in of a buffer of the given size, if it succeeds *)
  SIOCGIFCONF : nat → option (list Z);
  SIOCGIFNETMASK : list Z → option (list Z);
}.

Section interfaces.
Context `{IpNumbers}.

Definition v4_any : ip_address := ip_of_ulong 0.
Definition v4_loopback : ip_address := ip_of_ulong 0x7f000001.
Definition v6_any : ip_address := ip_of_v6_bytes (replicate 16 0).
Definition v6_loopback : ip_address := ip_of_v6_bytes (replicate 15 0 ++ [1]).

Definition IsLocal (a : ip_address) : bool :=
  if negb (ip_is_v4 a) then ip_is_link_local a
  else
    let ip := ip_to_ulong a in
    (Z.land ip 0xff000000 =? 0x0a000000) || (Z.land ip 0xfff00000 =? 0xac100000) || (Z.land ip 0xffff0000 =? 0xc0a80000).
Definition IsLoopback (a : ip_address) : bool :=
  if ip_is_v4 a then bool_decide (a = v4_loopback) else bool_decide (a = v6_loopback).
Definition IsMulticast (a : ip_address) : bool := ip_is_multicast a.
(** Every IPv6 address is taken for any. *)
Definition IsAny (a : ip_address) : bool := if ip_is_v4 a then bool_decide (a = v4_any) else true.

Definition InaddrToAddress (addr : list Z) : Res ip_address := b ← span addr 0 4; mret (v4_of_bytes b).
Definition Inaddr6ToAddress (addr : list Z) : Res ip_address := b ← span addr 0 16; mret (ip_of_v6_bytes b).

Definition AF_INET : Z := 2.
Definition AF_INET6 : Z := 10.
(** [sin_addr] is behind the family and the port, [sin6_addr] behind the flow too. *)
Definition SockaddrToAddress (addr : list Z) : Res ip_address :=
  family ← host_at addr 0 2;
  if family =? AF_INET then address ← span addr 4 4; InaddrToAddress address
  else if family =? AF_INET6 then address ← span addr 8 16; Inaddr6ToAddress address
  else mret ip_none.

Context `{Interfaces}.

(** sizeof(ifreq): a name of 16 bytes and a union of 24 *)
Definition sizeof_ifreq : nat := 40.

(** [l]: what remains; with the interfaces whether [ec] is set *)
Fixpoint local_list (fuel : nat) (l : list Z) (ret : list NetworkInterface) : Res (list NetworkInterface * bool) :=
  match fuel, l with
  | _, [] => mret (ret, false)
  | O, _ => Fault OutOfFuel
  | S fuel, _ =>
      item ← span l 0 sizeof_ifreq;
      family ← host_at item 16 2;
      if (family =? AF_INET) || (family =? AF_INET6) then
        destination ← SockaddrToAddress (drop 16 item);
        let found mask := MkNetworkInterface destination ip_none mask (take 63 (c_string l)) in
        match SIOCGIFNETMASK item with
        | None =>
            if negb (ip_is_v4 destination) then local_list fuel (drop sizeof_ifreq l) (ret ++ [found v6_any])
            else mret (ret, true)
        | Some item' =>
            mask ← SockaddrToAddress (drop 16 item');
            local_list fuel (drop sizeof_ifreq l) (ret ++ [found mask])
        end
      else local_list fuel (drop sizeof_ifreq l) ret
  end.
Definition LocalList : Res (list NetworkInterface * bool) :=
  if negb opens_socket then mret ([], true)
  else
    match SIOCGIFCONF 1024 with
    | None => mret ([], true)
    | Some buf => local_list (length buf) buf []
    end.

(** The loop of [LocalAddress] *)
Fixpoint first_address (l : list NetworkInterface) (ret : ip_address) : ip_address :=
  match l with
  | [] => ret
  | i :: l =>
      let a := destination i in
      if IsLoopback a || IsMulticast a || IsAny a then first_address l ret
      else if ip_is_v4 a then a
      else first_address l (if negb (bool_decide (ret = v4_any)) then a else ret)
  end.
Definition LocalAddress : Res ip_address := r ← LocalList; mret (first_address r.1 v4_any).
End interfaces.

(** ** What the kernel answers *)

Section devices.
Context `{IpNumbersLaws} `{Interfaces}.

(** An [ifreq] with an IPv4 address *)
Definition ifreq (nm : list Z) (a : ip_address) : list Z :=
  (nm ++ replicate (16 - length nm) 0) ++ le_bytes 2 AF_INET ++ [0; 0] ++ v4_bytes a ++ replicate 16 0.
Record device := MkDevice { dev_name : list Z; dev_address : ip_address; dev_mask : ip_address }.
Definition reported (d : device) : NetworkInterface :=
  MkNetworkInterface (dev_address d) ip_none (dev_mask d) (dev_name d).
(** A device with IPv4 addresses, which the kernel reports *)
Record device_ok (d : device) : Prop := {
  dev_name_ok : (length (dev_name d) < 16)%nat ∧ Forall (λ c, c ≠ 0) (dev_name d);
  dev_address_ok : ip_is_v4 (dev_address d) = true;
  dev_mask_ok : ip_is_v4 (dev_mask d) = true;
  dev_answer : SIOCGIFNETMASK (ifreq (dev_name d) (dev_address d)) = Some (ifreq (dev_name d) (dev_mask d));
}.
Definition device_table (ds : list device) : list Z := ds ≫= λ d, ifreq (dev_name d) (dev_address d).

Lemma c_string_name nm n post : Forall (λ c, c ≠ 0) nm → (0 < n)%nat → c_string (nm ++ replicate n 0 ++ post) = nm.
Proof.
  intros Hnm Hn. induction Hnm as [|c nm Hc _ IH]; [by destruct n; [lia|]|].
  cbn. by rewrite (proj2 (Z.eqb_neq _ _) Hc), IH.
Qed.
Lemma length_ifreq nm a : (length nm < 16)%nat → length (ifreq nm a) = 40%nat.
Proof. intros Hl. unfold ifreq. rewrite !length_app, !length_replicate. cbn [length le_bytes v4_bytes htonl]. lia. Qed.

Lemma ifreq_family nm a : (length nm < 16)%nat → host_at (ifreq nm a) 16 2 = Ok AF_INET.
Proof. intros Hl. unfold ifreq. apply host_at_app; [|done]. rewrite length_app, length_replicate. lia. Qed.
Lemma ifreq_address nm a : (length nm < 16)%nat → ip_is_v4 a = true → SockaddrToAddress (drop 16 (ifreq nm a)) = Ok a.
Proof.
  intros Hl Ha. unfold ifreq, SockaddrToAddress. rewrite drop_app_length' by (rewrite length_app, length_replicate; lia).
  rewrite host_at_head by done. cbn [mbind Res_bind Z.eqb AF_INET Pos.eqb]. rewrite app_assoc.
  rewrite (span_app _ (v4_bytes a)) by done. cbn [mbind Res_bind]. unfold InaddrToAddress.
  rewrite <-(app_nil_r (v4_bytes a)) at 1. rewrite span_head by done. cbn [mbind Res_bind]. unfold mret, Res_ret.
  by rewrite v4_of_to_bytes.
Qed.

Lemma local_list_devices fuel ds ret : Forall device_ok ds → (length ds ≤ fuel)%nat →
  local_list fuel (device_table ds) ret = Ok (ret ++ (reported <$> ds), false).
Proof.
  intros Hds. revert fuel ret. induction Hds as [|d ds [Hn Ha Hm Hans] _ IH]; intros fuel ret Hf.
  { cbn. rewrite app_nil_r. by destruct fuel. }
  destruct Hn as [Hl Hn]. destruct fuel as [|fuel]; [cbn in Hf; lia|]. cbn in Hf.
  change (device_table (d :: ds)) with (ifreq (dev_name d) (dev_address d) ++ device_table ds).
  pose proof (length_ifreq _ (dev_address d) Hl) as Hq.
  assert (take 63 (c_string (ifreq (dev_name d) (dev_address d) ++ device_table ds)) = dev_name d) as Hc.
  { unfold ifreq. rewrite <-!app_assoc, c_string_name by (done || lia). rewrite take_ge; [done|lia]. }
  cbn [local_list]. destruct (ifreq (dev_name d) (dev_address d) ++ device_table ds) as [|b q] eqn:Eq.
  { apply (f_equal length) in Eq. rewrite length_app, Hq in Eq. done. }
  rewrite <-Eq in *. rewrite span_head by done. cbn [mbind Res_bind].
  rewrite ifreq_family by done. cbn [mbind Res_bind Z.eqb AF_INET Pos.eqb orb]. rewrite ifreq_address by done.
  cbn [mbind Res_bind]. rewrite Hans. rewrite ifreq_address by done. cbn [mbind Res_bind].
  rewrite Hc, drop_app_length' by done. rewrite IH by lia. by rewrite <-app_assoc.
Qed.

Lemma LocalList_devices ds : opens_socket = true → SIOCGIFCONF 1024 = Some (device_table ds) → Forall device_ok ds →
  LocalList = Ok (reported <$> ds, false).
Proof.
  intros Ho Hc Hds. unfold LocalList. rewrite Ho, Hc. cbn [negb]. rewrite local_list_devices; [done..|].
  clear -Hds. induction Hds as [|d ds [[Hl _] _ _ _] _ IH]; [done|].
  change (device_table (d :: ds)) with (ifreq (dev_name d) (dev_address d) ++ device_table ds).
  rewrite length_app, length_ifreq by done. cbn. lia.
Qed.

(** ** The addresses of a host *)

(** [GetLocalAddresses] and [LocalAddress] both skip these. *)
Definition skipped (a : ip_address) : bool := IsLoopback a || IsMulticast a || IsAny a.

Lemma not_skipped_v4 a : skipped a = false → ip_is_v4 a = true.
Proof. unfold skipped, IsAny. destruct (ip_is_v4 a); [done|]. by rewrite orb_true_r. Qed.
(** So the loop never gets to an address that is not IPv4. *)
Lemma first_address_head l : first_address l v4_any =
  default v4_any (head (filter (λ a, skipped a = false) (destination <$> l))).
Proof.
  induction l as [|i l IH]; [done|]. cbn [first_address fmap list_fmap]. fold (skipped (destination i)).
  rewrite filter_cons. destruct (skipped (destination i)) eqn:E; [by rewrite decide_False by done|].
  rewrite decide_True by done. by rewrite (not_skipped_v4 _ E).
Qed.
End devices.

(** ** Addresses of bytes

    An implementation of the addresses of asio that has the laws above *)
Module ByteIp.
From Stdlib Require Import Strings.Byte.

Inductive address := A4 (a b c d : byte) | A6 (bytes : list Z).
#[export] Instance byte_eq_decision : EqDecision byte.
Proof. intros x y. apply byte_eq_dec. Defined.
#[export] Instance byte_address_eq_dec : EqDecision address.
Proof. solve_decision. Defined.

Definition to_Z (b : byte) : Z := Z.of_N (to_N b).
Definition of_Z (n : Z) : byte := default x00 (of_N (Z.to_N (u8 n))).
Lemma of_to_Z b : of_Z (to_Z b) = b.
Proof. by destruct b. Qed.
Lemma to_of_Z n : is_u8 n → to_Z (of_Z n) = n.
Proof.
  intros Hn. unfold of_Z, u8. rewrite Z.mod_small by done. unfold is_u8 in Hn. unfold to_Z.
  destruct (of_N (Z.to_N n)) as [b|] eqn:E.
  - apply to_of_N in E. change (Z.of_N (to_N b) = n). rewrite E. lia.
  - apply of_N_None_iff in E. lia.
Qed.
Lemma to_Z_u8 b : is_u8 (to_Z b).
Proof. unfold to_Z, is_u8. pose proof (to_N_bounded b). lia. Qed.

#[export] Instance ip : IpAddress := {|
  ip_address := address;
  ip_none := A4 x00 x00 x00 x00;
  ip_is_v4 a := match a with A4 _ _ _ _ => true | A6 _ => false end;
  ip_v4_compatible_bytes a :=
    match a with A4 a b c d => replicate 12 0 ++ (to_Z <$> [a; b; c; d]) | A6 _ => replicate 16 0 end;
  ip_v6_bytes a := match a with A6 l => l | A4 _ _ _ _ => replicate 16 0 end;
  ip_of_v6_bytes := A6;
  v6_is_v4_compatible l := bool_decide (take 12 l = replicate 12 0);
  v6_to_v4 l := match of_Z <$> drop 12 l with [a; b; c; d] => A4 a b c d | _ => A4 x00 x00 x00 x00 end |}.
Definition of_bytes (l : list Z) : address :=
  match of_Z <$> l with [a; b; c; d] => A4 a b c d | _ => A4 x00 x00 x00 x00 end.
Definition v4 (a b c d : Z) : @ip_address ip := of_bytes [a; b; c; d].
#[export] Instance numbers : @IpNumbers ip := {|
  ip_of_ulong n := (of_bytes (htonl n) : @ip_address ip);
  ip_to_ulong (a : @ip_address ip) := match a with A4 a b c d => be (to_Z <$> [a; b; c; d]) | A6 _ => 0 end;
  ip_is_multicast (a : @ip_address ip) := match a with A4 a _ _ _ => Z.land (to_Z a) 0xf0 =? 0xe0 | A6 l => bool_decide (head l = Some 0xff) end;
  ip_is_link_local (a : @ip_address ip) := match a with A6 (a :: b :: _) => (a =? 0xfe) && (Z.land b 0xc0 =? 0x80) | _ => false end |}.

Lemma bytes_u8 a b c d : bytes_ok (to_Z <$> [a; b; c; d]).
Proof. repeat (constructor; [apply to_Z_u8|]). constructor. Qed.
#[export] Instance numbers_laws : IpNumbersLaws.
Proof.
  split.
  - done.
  - intros n Hn. change (be (to_Z <$> (of_Z <$> htonl n)) = n).
    rewrite <-(be_htonl n) at 2 by done. f_equal. unfold htonl. cbn [fmap list_fmap]. by rewrite !to_of_Z by apply u8_range.
  - intros [a b c d|l]; [|done]. intros _. change (of_bytes (htonl (be (to_Z <$> [a; b; c; d]))) = A4 a b c d).
    destruct (htonl_be _ _ _ _ (bytes_u8 a b c d)) as [E _]. cbn [fmap list_fmap] in *. rewrite E. unfold of_bytes. cbn [fmap list_fmap].
    by rewrite !of_to_Z.
  - intros [a b c d|l]; [|done]. intros _. exact (proj2 (htonl_be _ _ _ _ (bytes_u8 a b c d))).
  - done.
  - done.
  - done.
Qed.

Definition loopback_device : device := MkDevice [108; 111] (v4 127 0 0 1) (v4 255 0 0 0).
Definition ethernet_device : device := MkDevice [101; 116; 104; 48] (v4 192 168 0 7) (v4 255 255 255 0).
(** A kernel with the given devices *)
Definition kernel (ds : list device) : Interfaces := {|
  opens_socket := true;
  SIOCGIFCONF size := if bool_decide (length (device_table ds) ≤ size)%nat then Some (device_table ds) else None;
  SIOCGIFNETMASK item :=
    (λ p, ifreq (dev_name p.2) (dev_mask p.2)) <$> list_find (λ d, ifreq (dev_name d) (dev_address d) = item) ds |}.

(** A host with IPv6 only has no local address: [IsAny] holds of every IPv6 address,
    and the test that would take the address is the wrong way round. *)
Definition ifreq6 : list Z := [101; 116; 104; 48] ++ replicate 12 0 ++ [10; 0] ++ replicate 6 0 ++ [0xfd] ++ replicate 14 0 ++ [1].
Definition kernel6 : Interfaces := {|
  opens_socket := true; SIOCGIFCONF size := Some ifreq6; SIOCGIFNETMASK item := None |}.
Example ipv6_host_has_no_address :
  (∃ l, @LocalList ip numbers kernel6 = Ok (l, false) ∧ map destination l = [A6 ([0xfd] ++ replicate 14 0 ++ [1])]) ∧
  @LocalAddress ip numbers kernel6 = Ok (ip_none : @ip_address ip).
Proof. split; [eexists; split|]; vm_compute; reflexivity. Qed.
End ByteIp.
