(* ===== verification/Utils.v ===== *)
(** * Conversions of addresses

    Models src/maidsafe/transport/utils.cc.  [IpNetToAscii] and [IpAsciiToNet] are
    inverse up to the length of the buffer. *)

From S2P Require Import Prelude Environment ByteOrder Text Contact NetworkInterface.

Section utils.
Context `{IpNumbers} `{!IpText}.

(** [from_string] throws where there is no address; the exception is caught. *)
Definition IpAsciiToBytes (decimal_ip : list Z) : list Z :=
  match ip_from_string decimal_ip with
  | Some ip => if ip_is_v4 ip then v4_bytes ip else ip_v6_bytes ip
  | None => []
  end.

Definition IpBytesToAscii (bytes_ip : list Z) : list Z :=
  if (length bytes_ip =? 4)%nat then ip_to_string (v4_of_bytes bytes_ip)
  else if (length bytes_ip =? 16)%nat then ip_to_string (ip_of_v6_bytes bytes_ip)
  else [].

(** The four numbers of an address *)
Definition quad (address : Z) (shift : Z) : Z := Z.land (address ≫ shift) 0xff.
Definition dotted (address : Z) : list Z :=
  decimal (quad address 24) ++ 46 :: decimal (quad address 16) ++ 46 :: decimal (quad address 8) ++ 46 ::
  decimal (quad address 0).
(** What [snprintf] writes to a buffer of [sizer] characters, the last of which is 0 *)
Definition sizer : nat := 15.
Definition IpNetToAscii (address : Z) : list Z := take (sizer - 1) (dotted address) ++ [0].

(** [atoi], which is undefined where the number does not fit *)
Fixpoint skip_space (s : list Z) : list Z :=
  match s with c :: s' => if (c =? 32) || (9 <=? c) && (c <=? 13) then skip_space s' else s | [] => [] end.
Fixpoint digits_value (s : list Z) (n : Z) : Z :=
  match s with c :: s => if (48 <=? c) && (c <=? 57) then digits_value s (10 * n + (c - 48)) else n | [] => n end.
Definition atoi (s : list Z) : option Z :=
  let n := match skip_space s with
           | 43 :: s => digits_value s 0
           | 45 :: s => - digits_value s 0
           | s => digits_value s 0
           end in
  if (-2147483648 <=? n) && (n <=? 2147483647) then Some n else None.

Fixpoint ascii_to_net (buffer : list Z) (shift : Z) (startQuad : bool) (ret : Z) : option Z :=
  match buffer with
  | [] => Some ret
  | c :: rest =>
      if (0 <=? shift) && negb (c =? 0) then
        if startQuad then
          match atoi buffer with
          | Some n => ascii_to_net rest (shift - 8) (c =? 46) (Z.lor ret (u8 n ≪ shift))
          | None => None
          end
        else ascii_to_net rest shift (c =? 46) ret
      else Some ret
  end.
Definition IpAsciiToNet (buffer : list Z) : option Z := ascii_to_net buffer 24 true 0.

Context `{Interfaces}.
Definition GetLocalAddresses : Res (list ip_address) :=
  r ← LocalList;
  mret (if r.2 : bool then []
        else filter (λ a, negb (IsLoopback a) && negb (IsMulticast a) && negb (IsAny a) = true) (destination <$> r.1)).
End utils.

(** ** Bytes *)

Section bytes.
Context `{IpNumbersLaws} `{!IpText} `{!IpTextLaws}.

(** The bytes of an address, four or sixteen of them, survive their conversion to
    text and back; other strings of bytes become the empty text. *)
Theorem ip_bytes_round_trip b : bytes_ok b →
  if (length b =? 4)%nat || (length b =? 16)%nat then IpAsciiToBytes (IpBytesToAscii b) = b else IpBytesToAscii b = [].
Proof.
  intros Hb. unfold IpBytesToAscii, IpAsciiToBytes. destruct (Nat.eqb_spec (length b) 4) as [E4|_]; cbn [orb].
  - rewrite ip_from_to_string. unfold v4_of_bytes at 1. rewrite ip_of_ulong_v4. by apply v4_to_of_bytes.
  - destruct (Nat.eqb_spec (length b) 16) as [E16|_]; [|done].
    rewrite ip_from_to_string, ip_of_v6_not_v4. by apply ip_v6_of_bytes.
Qed.
End bytes.

(** ** Dotted text *)

(** What holds of each byte when it is computed holds of all bytes. *)
Lemma every_byte (P : Z → bool) : forallb P (seqZ 0 256) = true → ∀ n, is_u8 n → P n = true.
Proof.
  intros Hf n Hn. rewrite forallb_forall in Hf. apply Hf, list_elem_of_In, elem_of_seqZ. unfold is_u8 in Hn. lia.
Qed.
Definition digit (c : Z) : bool := (48 <=? c) && (c <=? 57).
Lemma decimal_digits n : is_u8 n → forallb digit (decimal n) = true.
Proof. revert n. apply every_byte. vm_compute. reflexivity. Qed.
Lemma decimal_nonempty n : is_u8 n → ∃ c l, decimal n = c :: l.
Proof.
  intros Hn. assert (negb (bool_decide (decimal n = [])) = true) as Hx.
  { revert n Hn. apply (every_byte (λ n, _)). vm_compute. reflexivity. }
  destruct (decimal n) as [|c l]; [done|by exists c, l].
Qed.
Lemma decimal_length n : is_u8 n → length (decimal n) = if n <? 10 then 1%nat else if n <? 100 then 2%nat else 3%nat.
Proof.
  intros Hn. apply Nat.eqb_eq. revert n Hn. apply every_byte. vm_compute. reflexivity.
Qed.
Lemma decimal_cut n : is_u8 n → 100 ≤ n → take 2 (decimal n) = decimal (n / 10).
Proof.
  intros Hn H100. assert ((n <? 100) || bool_decide (take 2 (decimal n) = decimal (n / 10)) = true) as Hx.
  { clear H100. revert n Hn. apply (every_byte (λ n, _)). vm_compute. reflexivity. }
  apply orb_true_iff in Hx as [?|Hx%bool_decide_eq_true]; [lia|done].
Qed.
Lemma decimal_value n : is_u8 n → digits_value (decimal n) 0 = n.
Proof. intros Hn. apply Z.eqb_eq. revert n Hn. apply every_byte. vm_compute. reflexivity. Qed.

(** A number ends where its digits do. *)
Definition ends (rest : list Z) : Prop := match rest with [] => True | c :: _ => digit c = false end.
Lemma digits_value_app l rest n : forallb digit l = true → ends rest → digits_value (l ++ rest) n = digits_value l n.
Proof.
  intros Hl Hr. revert n Hl. induction l as [|c l IH]; intros n Hl.
  - destruct rest as [|c rest]; [done|]. cbn in *. unfold digit in Hr. by rewrite Hr.
  - cbn in *. apply andb_true_iff in Hl as [Hc Hl]. unfold digit in Hc. rewrite Hc. by apply IH.
Qed.
Lemma atoi_decimal n rest : is_u8 n → ends rest → atoi (decimal n ++ rest) = Some n.
Proof.
  intros Hn Hr. unfold atoi. destruct (decimal_nonempty n Hn) as (c&l&E). pose proof (decimal_digits n Hn) as Hd.
  assert (digits_value (decimal n ++ rest) 0 = n) as Hv by (rewrite digits_value_app by done; by apply decimal_value).
  rewrite E in *. cbn [app] in *. cbn [forallb] in Hd. apply andb_true_iff in Hd as [Hc _]. unfold digit in Hc.
  assert (skip_space (c :: l ++ rest) = c :: l ++ rest) as ->.
  { cbn. by replace ((c =? 32) || (9 <=? c) && (c <=? 13)) with false by lia. }
  assert (48 ≤ c ≤ 57) as Hr' by lia.
  assert (c = 48 ∨ c = 49 ∨ c = 50 ∨ c = 51 ∨ c = 52 ∨ c = 53 ∨ c = 54 ∨ c = 55 ∨ c = 56 ∨ c = 57) as Hcs by lia.
  unfold is_u8 in Hn. destruct_or!; subst c; rewrite Hv; by rewrite (proj2 (andb_true_iff _ _)) by lia.
Qed.

Lemma skip_digits l rest shift ret : forallb digit l = true →
  ascii_to_net (l ++ rest) shift false ret = ascii_to_net rest shift false ret.
Proof.
  intros Hl. induction l as [|c l IH]; [done|]. cbn in Hl. apply andb_true_iff in Hl as [Hc Hl].
  cbn [app ascii_to_net]. unfold digit in Hc. replace (c =? 46) with false by lia. rewrite IH by done.
  replace (c =? 0) with false by lia. destruct (0 <=? shift) eqn:Es; [done|]. destruct rest; cbn; by rewrite ?Es.
Qed.
Lemma read_quad n rest shift ret : is_u8 n → ends rest → 0 ≤ shift →
  ascii_to_net (decimal n ++ rest) shift true ret = ascii_to_net rest (shift - 8) false (Z.lor ret (n ≪ shift)).
Proof.
  intros Hn Hr Hs. destruct (decimal_nonempty n Hn) as (c&l&E). pose proof (decimal_digits n Hn) as Hd.
  pose proof (atoi_decimal n rest Hn Hr) as Ha. rewrite E in *. cbn [forallb] in Hd. apply andb_true_iff in Hd as [Hc Hl].
  cbn [app ascii_to_net] in *. rewrite Ha. unfold digit in Hc. replace (c =? 46) with false by lia.
  replace (c =? 0) with false by lia. rewrite (proj2 (Z.leb_le _ _)) by done. cbn [negb andb]. rewrite skip_digits by done.
  unfold u8. by rewrite Z.mod_small.
Qed.
Lemma read_dot rest shift ret : 0 ≤ shift → ascii_to_net (46 :: rest) shift false ret = ascii_to_net rest shift true ret.
Proof. intros Hs. cbn [ascii_to_net]. by rewrite (proj2 (Z.leb_le _ _)). Qed.

Lemma lor_add x b k : 0 ≤ k → (2 ^ k | x) → 0 ≤ b < 2 ^ k → Z.lor x b = x + b.
Proof.
  intros Hk [y ->] Hb. rewrite <-Z.shiftl_mul_pow2 by done. rewrite lor_shiftl by done. by rewrite Z.shiftl_mul_pow2.
Qed.
(** Four quads of dotted text *)
Lemma read_dotted q3 q2 q1 q0 : is_u8 q3 → is_u8 q2 → is_u8 q1 → is_u8 q0 →
  IpAsciiToNet (decimal q3 ++ 46 :: decimal q2 ++ 46 :: decimal q1 ++ 46 :: decimal q0 ++ [0]) =
  Some (q3 * 16777216 + q2 * 65536 + q1 * 256 + q0).
Proof.
  intros H3 H2 H1 H0. unfold IpAsciiToNet. do 3 (rewrite read_quad, read_dot by done). rewrite read_quad by done.
  cbn [ascii_to_net Z.sub Z.leb]. change ((0 <=? 24 - 8 - 8 - 8 - 8) && negb (0 =? 0)) with false. cbn iota. f_equal.
  unfold is_u8 in *. change (24 - 8 - 8 - 8) with 0. change (24 - 8 - 8) with 8. change (24 - 8) with 16.
  rewrite !Z.shiftl_mul_pow2 by lia. change (2 ^ 24) with 16777216. change (2 ^ 16) with 65536. change (2 ^ 8) with 256.
  change (2 ^ 0) with 1. rewrite Z.lor_0_l.
  rewrite (lor_add (q3 * 16777216) (q2 * 65536) 24) by (first [lia|exists q3; lia]).
  rewrite (lor_add _ (q1 * 256) 16) by (first [lia|exists (q3 * 256 + q2); lia]).
  rewrite (lor_add _ (q0 * 1) 8) by (first [lia|exists (q3 * 65536 + q2 * 256 + q1); lia]). lia.
Qed.

Lemma quad_u8 a k : is_u8 (quad a k).
Proof. unfold quad. change 0xff with (Z.ones 8). rewrite Z.land_ones by lia. unfold is_u8. cbn. mod_lia. Qed.
Lemma quads_sum a : is_u32 a → quad a 24 * 16777216 + quad a 16 * 65536 + quad a 8 * 256 + quad a 0 = a.
Proof.
  unfold is_u32, quad. intros Ha. change 0xff with (Z.ones 8). rewrite !Z.land_ones, !Z.shiftr_div_pow2 by lia.
  change (2 ^ 24) with 16777216. change (2 ^ 16) with 65536. change (2 ^ 8) with 256. change (2 ^ 0) with 1. mod_lia.
Qed.

(** An address whose text has fifteen characters *)
Definition too_long (a : Z) : bool := forallb (λ k, 100 <=? quad a k) [24; 16; 8; 0].

Lemma length_dotted a : (length (dotted a) ≤ 14)%nat ∨ too_long a = true.
Proof.
  unfold too_long, dotted. cbn [forallb]. repeat (rewrite ?length_app; cbn [length]).
  rewrite !decimal_length by apply quad_u8.
  destruct (quad a 24 <? 100) eqn:E3, (quad a 16 <? 100) eqn:E2, (quad a 8 <? 100) eqn:E1, (quad a 0 <? 100) eqn:E0;
    try (left; repeat (destruct (_ <? 10)); lia). right. lia.
Qed.
Lemma cut_dotted a : too_long a = true → take 14 (dotted a) = decimal (quad a 24) ++ 46 :: decimal (quad a 16) ++
  46 :: decimal (quad a 8) ++ 46 :: decimal (quad a 0 / 10).
Proof.
  unfold too_long, dotted. cbn [forallb]. intros Hl. rewrite <-(decimal_cut (quad a 0)) by (apply quad_u8 || lia).
  assert (∀ k, 100 ≤ quad a k → length (decimal (quad a k)) = 3%nat) as H3.
  { intros k Hk. rewrite decimal_length by apply quad_u8. by rewrite !(proj2 (Z.ltb_ge _ _)) by lia. }
  assert (∀ k n rest, 100 ≤ quad a k → take (4 + n) (decimal (quad a k) ++ 46 :: rest) = decimal (quad a k) ++ 46 :: take n rest) as Ht.
  { intros k n rest Hk. change (4 + n)%nat with (3 + S n)%nat. rewrite take_app_add' by (symmetry; by apply H3). done. }
  change 14%nat with (4 + (4 + (4 + 2)))%nat. by rewrite !Ht by lia.
Qed.

(** C37: An address written by [IpNetToAscii] is read back by [IpAsciiToNet], unless all
    of its four numbers have three digits: the text then has fifteen characters, the
    buffer takes fourteen, and the last number loses its last digit. *)
Theorem ip_text_round_trip a : is_u32 a →
  IpAsciiToNet (IpNetToAscii a) = Some (if too_long a then a - quad a 0 + quad a 0 / 10 else a).
Proof.
  intros Ha. pose proof (quads_sum a Ha) as Hs. unfold IpNetToAscii, sizer. cbn [Nat.sub]. destruct (too_long a) eqn:Hl.
  - rewrite cut_dotted by done. do 3 (rewrite <-app_assoc; cbn [app]). rewrite read_dotted; [f_equal; lia|apply quad_u8..|].
    pose proof (quad_u8 a 0). unfold is_u8 in *. mod_lia.
  - destruct (length_dotted a) as [Hd|]; [|congruence]. rewrite take_ge by done. unfold dotted.
    do 3 (rewrite <-app_assoc; cbn [app]). rewrite read_dotted by apply quad_u8. by rewrite Hs.
Qed.

(** ** The addresses of this host *)

Section local.
Context `{IpNumbersLaws} `{Interfaces}.

(** On a host whose interfaces have IPv4 addresses, [GetLocalAddresses] returns
    them in the order of the kernel, without those that are loopback, multicast or
    unspecified, and [LocalAddress] is the first that it returns, or [0.0.0.0]. *)
Theorem local_addresses_agree ds : opens_socket = true → SIOCGIFCONF 1024 = Some (device_table ds) → Forall device_ok ds →
  let l := filter (λ a, skipped a = false) (dev_address <$> ds) in
  GetLocalAddresses = Ok l ∧ LocalAddress = Ok (default ip_none (head l)).
Proof.
  intros Ho Hc Hds. cbn zeta. unfold GetLocalAddresses, LocalAddress. rewrite (LocalList_devices ds) by done.
  cbn [mbind Res_bind fst snd]. assert (destination <$> (reported <$> ds) = dev_address <$> ds) as E by by rewrite <-list_fmap_compose.
  split; unfold mret, Res_ret; f_equal.
  - rewrite E. apply list_filter_iff. intros a. unfold skipped. destruct (IsLoopback a), (IsMulticast a), (IsAny a); done.
  - rewrite first_address_head, E. by rewrite ip_none_any.
Qed.
End local.

(** ** Examples *)

Module UtilsExamples.
Import ByteIp.

#[local] Instance tagged_text : @IpText ip := {|
  ip_to_string (a : @ip_address ip) := match a with A4 a b c d => 4 :: (to_Z <$> [a; b; c; d]) | A6 l => 6 :: l end;
  ip_from_string l := match l with 4 :: l => Some (of_bytes l : @ip_address ip) | 6 :: l => Some (A6 l : @ip_address ip) | _ => None end |}.
#[local] Instance tagged_text_laws : IpTextLaws.
Proof.
  split. intros [a b c d|l]; [|done]. change (Some (of_bytes (to_Z <$> [a; b; c; d])) = Some (A4 a b c d)).
  unfold of_bytes. cbn [fmap list_fmap]. by rewrite !of_to_Z.
Qed.

Lemma ip_bytes_round_trip_witness : bytes_ok [71; 111; 111; 100] ∧ IpAsciiToBytes (IpBytesToAscii [71; 111; 111; 100]) = [71; 111; 111; 100].
Proof.
  assert (bytes_ok [71; 111; 111; 100]) as Hb by (repeat constructor; cbn; lia).
  split; [exact Hb|]. exact (ip_bytes_round_trip [71; 111; 111; 100] Hb).
Defined.

(** 192.168.0.7, and 192.168.123.234, which becomes 192.168.123.23 *)
Lemma ip_text_round_trip_witness :
  IpAsciiToNet (IpNetToAscii 3232235527) = Some 3232235527 ∧ IpAsciiToNet (IpNetToAscii 3232267242) = Some 3232267031.
Proof.
  split.
  - apply (ip_text_round_trip 3232235527). by unfold is_u32.
  - apply (ip_text_round_trip 3232267242). by unfold is_u32.
Defined.
Example written_short : IpNetToAscii 3232267242 = [49; 57; 50; 46; 49; 54; 56; 46; 49; 50; 51; 46; 50; 51; 0].
Proof. vm_compute. reflexivity. Qed.

Definition host : list device := [loopback_device; ethernet_device].
Lemma local_addresses_agree_witness :
  @GetLocalAddresses ip numbers (kernel host) = Ok [v4 192 168 0 7] ∧ @LocalAddress ip numbers (kernel host) = Ok (v4 192 168 0 7).
Proof.
  apply (@local_addresses_agree ip numbers numbers_laws (kernel host) host); [done|vm_compute; reflexivity|].
  repeat constructor; vm_compute; lia || reflexivity || (intros E; discriminate E).
Defined.
End UtilsExamples.
