(* ===== verification/Gateway.v ===== *)
(** * The gateway of a host

    Models src/maidsafe/transport/gateway.cc as it is built for Linux on a 64-bit
    little-endian machine.  A buffer is its bytes, a pointer into it an offset, and
    reading behind it a fault; the macros of linux/netlink.h and linux/rtnetlink.h are
    the functions of the same names. *)

From S2P Require Import Prelude Environment ByteOrder Text NetworkInterface.

(** The kernel: what it sends for a request, datagram by datagram or with an error *)
Class RouteSocket := {
  opens_route_socket : bool;
  route_answers : list Z → option (list (option (list Z)));
  getpid : Z;
  (** the name it writes, for an index that has one *)
  if_indextoname : Z → option (list Z);
}.

(** ** Messages of netlink *)

Definition align4 (n : Z) : Z := Z.land (u32 (n + 3)) 0xfffffffc.

(** Length, type, flags, sequence number and process of a message *)
Definition sizeof_nlmsghdr : Z := 16.
Definition nlmsg_len (buf : list Z) (o : nat) : Res Z := host_at buf o 4.
Definition nlmsg_type (buf : list Z) (o : nat) : Res Z := host_at buf (o + 4) 2.
Definition nlmsg_flags (buf : list Z) (o : nat) : Res Z := host_at buf (o + 6) 2.
Definition nlmsg_seq (buf : list Z) (o : nat) : Res Z := host_at buf (o + 8) 4.
Definition nlmsg_pid (buf : list Z) (o : nat) : Res Z := host_at buf (o + 12) 4.
Definition NLMSG_ERROR : Z := 2.
Definition NLMSG_DONE : Z := 3.
Definition NLM_F_MULTI : Z := 2.
Definition NLMSG_OK (buf : list Z) (o : nat) (len : Z) : Res bool :=
  if len <? sizeof_nlmsghdr then mret false
  else l ← nlmsg_len buf o; mret ((sizeof_nlmsghdr <=? l) && (l <=? len)).

Definition rta_len (buf : list Z) (o : nat) : Res Z := host_at buf o 2.
Definition rta_type (buf : list Z) (o : nat) : Res Z := host_at buf (o + 2) 2.
Definition RTA_DST : Z := 1.
Definition RTA_OIF : Z := 4.
Definition RTA_GATEWAY : Z := 5.
Definition RT_TABLE_MAIN : Z := 254.
Definition RTA_OK (buf : list Z) (o : nat) (len : Z) : Res bool :=
  if len <? 4 then mret false else l ← rta_len buf o; mret ((4 <=? l) && (l <=? len)).

Section gateway.
Context `{IpNumbers} `{RouteSocket}.

Definition no_interface : NetworkInterface := MkNetworkInterface ip_none ip_none ip_none [].
Definition set_name (n : list Z) (i : NetworkInterface) : NetworkInterface :=
  MkNetworkInterface (destination i) (gateway i) (netmask i) n.
Definition set_gateway (a : ip_address) (i : NetworkInterface) : NetworkInterface :=
  MkNetworkInterface (destination i) a (netmask i) (name i).
Definition set_destination (a : ip_address) (i : NetworkInterface) : NetworkInterface :=
  MkNetworkInterface a (gateway i) (netmask i) (name i).

(** The datagrams that come; nothing is returned if it waits for more.  With what it
    returns the contents of [buf]. *)
Fixpoint ReadNetlinkSock (answers : list (option (list Z))) (buf : list Z) (len msg_len : nat) (seq pid : Z) :
    Res (option (Z * list Z)) :=
  match answers with
  | [] => mret None
  | None :: _ => mret (Some (-1, buf))
  | Some datagram :: answers =>
      let read := take (len - msg_len) datagram in
      let buf := take msg_len buf ++ read ++ drop (msg_len + length read) buf in
      ok ← NLMSG_OK buf msg_len (Z.of_nat (length read));
      if negb ok then mret (Some (-1, buf))
      else
        type ← nlmsg_type buf msg_len;
        if type =? NLMSG_ERROR then mret (Some (-1, buf))
        else if type =? NLMSG_DONE then mret (Some (Z.of_nat msg_len, buf))
        else
          let msg_len' := (msg_len + length read)%nat in
          flags ← nlmsg_flags buf msg_len;
          if Z.land flags NLM_F_MULTI =? 0 then mret (Some (Z.of_nat msg_len', buf))
          else
            s ← nlmsg_seq buf msg_len;
            p ← nlmsg_pid buf msg_len;
            if negb (s =? u32 seq) || negb (p =? u32 pid) then ReadNetlinkSock answers buf len msg_len' seq pid
            else mret (Some (Z.of_nat msg_len', buf))
  end.

(** The loop of [ParseNlmsghdr]; [ntohl] of a number in the order of the machine has its
    bytes in network order. *)
Fixpoint attributes (fuel : nat) (buf : list Z) (rt_attr : nat) (rt_len : Z) (rt_if : NetworkInterface) : Res NetworkInterface :=
  match fuel with
  | O => Fault OutOfFuel
  | S fuel =>
      ok ← RTA_OK buf rt_attr rt_len;
      if negb ok then mret rt_if
      else
        type ← rta_type buf rt_attr;
        rt_if ← (
          if type =? RTA_OIF then
            i ← host_at buf (rt_attr + 4) 4;
            mret match if_indextoname i with Some n => set_name n rt_if | None => rt_if end
          else if type =? RTA_GATEWAY then b ← span buf (rt_attr + 4) 4; mret (set_gateway (ip_of_ulong (be b)) rt_if)
          else if type =? RTA_DST then b ← span buf (rt_attr + 4) 4; mret (set_destination (ip_of_ulong (be b)) rt_if)
          else mret rt_if);
        l ← rta_len buf rt_attr;
        attributes fuel buf (rt_attr + Z.to_nat (align4 l)) (DataSize (rt_len - align4 l)) rt_if
  end.

(** Whether the message is a route of the main table, and the interface it fills in; the
    attributes follow 16 bytes of header and 12 of [rtmsg]. *)
Definition ParseNlmsghdr (buf : list Z) (nl_hdr : nat) (rt_if : NetworkInterface) : Res (bool * NetworkInterface) :=
  family ← host_at buf (nl_hdr + 16) 1;
  if negb (family =? AF_INET) then mret (false, rt_if)
  else
    table ← host_at buf (nl_hdr + 20) 1;
    if negb (table =? RT_TABLE_MAIN) then mret (false, rt_if)
    else
      len ← nlmsg_len buf nl_hdr;
      let rt_len := DataSize (len - 28) in
      i ← attributes (S (Z.to_nat rt_len)) buf (nl_hdr + 28) rt_len rt_if;
      mret (true, i).

(** The loop of [Routes] over the messages *)
Fixpoint routes (fuel : nat) (buf : list Z) (nl_msg : nat) (len : Z) (ret : list NetworkInterface) : Res (list NetworkInterface) :=
  match fuel with
  | O => Fault OutOfFuel
  | S fuel =>
      ok ← NLMSG_OK buf nl_msg (u32 len);
      if negb ok then mret ret
      else
        r ← ParseNlmsghdr buf nl_msg no_interface;
        l ← nlmsg_len buf nl_msg;
        routes fuel buf (nl_msg + Z.to_nat (align4 l)) (DataSize (len - align4 l)) (if r.1 : bool then ret ++ [r.2] else ret)
  end.

Definition kBufSize : nat := Z.to_nat 8192.
(** RTM_GETROUTE, a dump, with the sequence number 0 *)
Definition route_request : list Z :=
  le_bytes 4 28 ++ le_bytes 2 26 ++ le_bytes 2 0x301 ++ le_bytes 4 0 ++ le_bytes 4 getpid ++ replicate 12 0.

(** With the routes whether [ec] is assigned, which [errno] may leave without an error;
    nothing if it waits *)
Definition Routes : Res (option (list NetworkInterface * bool)) :=
  if negb opens_route_socket then mret (Some ([], true))
  else
    match route_answers route_request with
    | None => mret (Some ([], true))
    | Some answers =>
        let msg := route_request ++ replicate (kBufSize - 28) 0 in
        r ← ReadNetlinkSock answers msg kBufSize 0 1 getpid;
        match r with
        | None => mret None
        | Some (len, buf) =>
            if len <? 0 then mret (Some ([], true))
            else l ← routes (S kBufSize) buf 0 len []; mret (Some (l, false))
        end
    end.

Definition DefaultRoute : Res (option ip_address) :=
  r ← Routes;
  mret match r with
       | None => None
       | Some (l, _) => Some match list_find (λ i, destination i = ip_none) l with Some (_, i) => gateway i | None => ip_none end
       end.
End gateway.

(** ** The answers of a kernel *)

Section kernel.
Context `{IpNumbersLaws} `{RouteSocket}.

(** An attribute: its type and payload *)
Definition padding (n : nat) : nat := Z.to_nat ((- Z.of_nat n) `mod` 4).
Definition attribute_bytes (a : Z * list Z) : list Z :=
  le_bytes 2 (4 + Z.of_nat (length a.2)) ++ le_bytes 2 a.1 ++ a.2 ++ replicate (padding (length a.2)) 0.
Record attribute_ok (a : Z * list Z) : Prop := {
  attribute_type : is_u16 a.1;
  attribute_length : Z.of_nat (length a.2) < 60000;
  attribute_payload : a.1 ∈ [RTA_OIF; RTA_GATEWAY; RTA_DST] → length a.2 = 4%nat;
}.
(** A route; [rt_rest]: the fields of [rtmsg] between and behind these *)
Record route := MkRoute { rt_family : Z; rt_table : Z; rt_rest : Z * list Z; rt_attributes : list (Z * list Z) }.
Record route_ok (r : route) : Prop := {
  route_family : is_u8 (rt_family r);
  route_table : is_u8 (rt_table r);
  route_rest : length (rt_rest r).2 = 7%nat;
  route_attributes : Forall attribute_ok (rt_attributes r);
  route_length : Z.of_nat (length (rt_attributes r ≫= attribute_bytes)) < 8192;
}.
Definition header (len type flags seq pid : Z) : list Z :=
  le_bytes 4 len ++ le_bytes 2 type ++ le_bytes 2 flags ++ le_bytes 4 seq ++ le_bytes 4 pid.
(** Family, three bytes, table, seven bytes *)
Definition rtmsg (r : route) : list Z :=
  le_bytes 1 (rt_family r) ++ le_bytes 3 (rt_rest r).1 ++ le_bytes 1 (rt_table r) ++ (rt_rest r).2.
Definition route_bytes (pid : Z) (r : route) : list Z :=
  header (28 + Z.of_nat (length (rt_attributes r ≫= attribute_bytes))) 24 NLM_F_MULTI 0 pid ++
  rtmsg r ++ (rt_attributes r ≫= attribute_bytes).
Definition done_bytes (pid : Z) : list Z := header 20 NLMSG_DONE NLM_F_MULTI 0 pid ++ replicate 4 0.

(** What a route means *)
Definition set_attribute (i : NetworkInterface) (a : Z * list Z) : NetworkInterface :=
  if a.1 =? RTA_OIF then match if_indextoname (host_value a.2) with Some n => set_name n i | None => i end
  else if a.1 =? RTA_GATEWAY then set_gateway (v4_of_bytes a.2) i
  else if a.1 =? RTA_DST then set_destination (v4_of_bytes a.2) i
  else i.
Definition interface_of (r : route) : NetworkInterface := foldl set_attribute no_interface (rt_attributes r).
Definition in_main_table (r : route) : Prop := rt_family r = AF_INET ∧ rt_table r = RT_TABLE_MAIN.
#[export] Instance in_main_table_dec r : Decision (in_main_table r).
Proof. apply _. Defined.

Lemma align4_value n : 0 ≤ n < 4294967293 → align4 n = (n + 3) / 4 * 4.
Proof.
  intros Hn. unfold align4, u32. rewrite Z.mod_small by lia.
  assert (Z.land (n + 3) 0xfffffffc = Z.land ((n + 3) ≫ 2) (Z.ones 30) ≪ 2) as ->.
  { change 0xfffffffc with (Z.ones 30 ≪ 2). apply Z.bits_inj'. intros i Hi.
    rewrite Z.land_spec, !Z.shiftl_spec, Z.land_spec by done. destruct (decide (i < 2)).
    - rewrite (Z.testbit_neg_r (Z.ones 30)) by lia. by rewrite !andb_false_r.
    - rewrite Z.shiftr_spec by lia. by replace (i - 2 + 2) with i by lia. }
  rewrite Z.land_ones, Z.shiftr_div_pow2, Z.shiftl_mul_pow2 by lia. change (2 ^ 2) with 4. change (2 ^ 30) with 1073741824.
  rewrite Z.mod_small; [done|]. mod_lia.
Qed.

Lemma length_attribute_bytes a : Z.of_nat (length (attribute_bytes a)) = (4 + Z.of_nat (length a.2) + 3) / 4 * 4.
Proof.
  unfold attribute_bytes, padding. rewrite !length_app, !length_le_bytes, length_replicate. mod_lia.
Qed.
Lemma length_attributes l : Z.of_nat (length (l ≫= attribute_bytes)) `mod` 4 = 0.
Proof.
  induction l as [|a l IH]; [done|]. cbn [mbind list_bind]. rewrite length_app, Nat2Z.inj_add, length_attribute_bytes.
  change (list_bind _ _ attribute_bytes l) with (l ≫= attribute_bytes). mod_lia.
Qed.

(** Reading a field of what is at an offset *)
Lemma host_at_skip pre l o i n r : o = (length pre + i)%nat → host_at l i n = r → host_at (pre ++ l) o n = r.
Proof.
  intros -> <-. unfold host_at, span. rewrite length_app.
  replace (length pre + i + n <=? length pre + length l)%nat with (i + n <=? length l)%nat by (destruct (Nat.leb_spec (i + n) (length l)); lia).
  by rewrite drop_app_add.
Qed.

Lemma attribute_fields pre a post : attribute_ok a →
  let buf := pre ++ attribute_bytes a ++ post in
  rta_len buf (length pre) = Ok (4 + Z.of_nat (length a.2)) ∧ rta_type buf (length pre) = Ok a.1 ∧
  (length a.2 = 4%nat → span buf (length pre + 4) 4 = Ok a.2).
Proof.
  intros [Ht Hl _]. unfold attribute_bytes, rta_len, rta_type. rewrite <-!app_assoc. split_and!.
  - apply host_at_app; [done|]. change (256 ^ Z.of_nat 2) with 65536. lia.
  - rewrite (app_assoc pre). apply host_at_app; [by rewrite length_app, length_le_bytes|]. exact Ht.
  - intros E4. rewrite !(app_assoc pre), (app_assoc (pre ++ _)). apply span_app; [|done].
    rewrite !length_app, !length_le_bytes. lia.
Qed.

Lemma attributes_read l pre post i fuel : Forall attribute_ok l →
  (length (l ≫= attribute_bytes) < fuel)%nat → Z.of_nat (length (l ≫= attribute_bytes)) < 2147483648 →
  attributes fuel (pre ++ (l ≫= attribute_bytes) ++ post) (length pre) (Z.of_nat (length (l ≫= attribute_bytes))) i =
  Ok (foldl set_attribute i l).
Proof.
  intros Hl. revert pre i fuel. induction Hl as [|a l Ha Hl IH]; intros pre i fuel Hf Hb.
  { destruct fuel as [|fuel]; [cbn in Hf; lia|]. done. }
  destruct fuel as [|fuel]; [lia|]. pose proof (length_attribute_bytes a) as Hla. pose proof Ha as [Ht Hl' Hp].
  change ((a :: l) ≫= attribute_bytes) with (attribute_bytes a ++ (l ≫= attribute_bytes)) in *. rewrite length_app in *.
  rewrite <-app_assoc. destruct (attribute_fields pre a ((l ≫= attribute_bytes) ++ post) Ha) as (El&Et&Ep).
  cbn [attributes]. unfold RTA_OK. rewrite (proj2 (Z.ltb_ge _ _)) by mod_lia. rewrite El. cbn [mbind Res_bind mret Res_ret].
  replace ((4 <=? 4 + Z.of_nat (length a.2)) && (4 + Z.of_nat (length a.2) <=? Z.of_nat (length (attribute_bytes a) + length (l ≫= attribute_bytes))))
    with true by mod_lia.
  cbn [negb]. rewrite Et. cbn [mbind Res_bind].
  assert (∀ k : NetworkInterface → Res NetworkInterface,
    (if a.1 =? RTA_OIF then
       x ← host_at (pre ++ attribute_bytes a ++ (l ≫= attribute_bytes) ++ post) (length pre + 4) 4;
       mret match if_indextoname x with Some n => set_name n i | None => i end
     else if a.1 =? RTA_GATEWAY then
       b ← span (pre ++ attribute_bytes a ++ (l ≫= attribute_bytes) ++ post) (length pre + 4) 4; mret (set_gateway (ip_of_ulong (be b)) i)
     else if a.1 =? RTA_DST then
       b ← span (pre ++ attribute_bytes a ++ (l ≫= attribute_bytes) ++ post) (length pre + 4) 4; mret (set_destination (ip_of_ulong (be b)) i)
     else mret i) ≫= k = k (set_attribute i a)) as Hset.
  { intros k. unfold set_attribute, host_at.
    destruct (a.1 =? RTA_OIF) eqn:E1, (a.1 =? RTA_GATEWAY) eqn:E2, (a.1 =? RTA_DST) eqn:E3; try done;
      rewrite Ep by (apply Hp; set_solver by lia); done. }
  rewrite Hset. rewrite align4_value by lia. rewrite <-Hla, Nat2Z.id.
  replace (Z.of_nat (length (attribute_bytes a) + length (l ≫= attribute_bytes)) - Z.of_nat (length (attribute_bytes a)))
    with (Z.of_nat (length (l ≫= attribute_bytes))) by lia.
  rewrite DataSize_small by lia. rewrite <-length_app, app_assoc. apply IH; lia.
Qed.

Lemma header_fields pre len type flags seq pid post :
  is_u32 len → is_u16 type → is_u16 flags → is_u32 seq → is_u32 pid →
  let buf := pre ++ header len type flags seq pid ++ post in
  nlmsg_len buf (length pre) = Ok len ∧ nlmsg_type buf (length pre) = Ok type ∧ nlmsg_flags buf (length pre) = Ok flags ∧
  nlmsg_seq buf (length pre) = Ok seq ∧ nlmsg_pid buf (length pre) = Ok pid.
Proof.
  intros Hl Ht Hf Hs Hp. unfold header, nlmsg_len, nlmsg_type, nlmsg_flags, nlmsg_seq, nlmsg_pid. rewrite <-!app_assoc. split_and!.
  - by apply host_at_app.
  - rewrite (app_assoc pre). apply host_at_app; [|done]. by rewrite length_app, length_le_bytes.
  - rewrite !(app_assoc pre), (app_assoc (pre ++ _)). apply host_at_app; [|done]. rewrite !length_app, !length_le_bytes. lia.
  - rewrite !(app_assoc pre), !(app_assoc (pre ++ _)), (app_assoc ((pre ++ _) ++ _)). apply host_at_app; [|done].
    rewrite !length_app, !length_le_bytes. lia.
  - rewrite !(app_assoc pre), !(app_assoc (pre ++ _)), !(app_assoc ((pre ++ _) ++ _)), (app_assoc (((pre ++ _) ++ _) ++ _)).
    apply host_at_app; [|done]. rewrite !length_app, !length_le_bytes. lia.
Qed.
Lemma length_header len type flags seq pid : length (header len type flags seq pid) = 16%nat.
Proof. unfold header. by rewrite !length_app, !length_le_bytes. Qed.
Lemma length_rtmsg r : route_ok r → length (rtmsg r) = 12%nat.
Proof. intros [_ _ Hr _ _]. unfold rtmsg. by rewrite !length_app, !length_le_bytes, Hr. Qed.
Lemma length_route pid r : route_ok r → Z.of_nat (length (route_bytes pid r)) = 28 + Z.of_nat (length (rt_attributes r ≫= attribute_bytes)).
Proof. intros Hr. unfold route_bytes. rewrite !length_app, length_header, length_rtmsg by done. lia. Qed.

Lemma parse_route pre r post pid : route_ok r → is_u32 pid →
  ParseNlmsghdr (pre ++ route_bytes pid r ++ post) (length pre) no_interface =
  Ok (if bool_decide (in_main_table r) then (true, interface_of r) else (false, no_interface)).
Proof.
  intros Hr Hpid. pose proof Hr as [Hf Ht Hrest Ha Hlen]. set (l := rt_attributes r ≫= attribute_bytes) in *.
  unfold ParseNlmsghdr, route_bytes. fold l. rewrite <-!app_assoc.
  destruct (header_fields pre (28 + Z.of_nat (length l)) 24 NLM_F_MULTI 0 pid (rtmsg r ++ l ++ post)) as (El&_); [|done..|].
  { unfold is_u32. lia. }
  assert (host_at (rtmsg r ++ l ++ post) 0 1 = Ok (rt_family r)) as E1.
  { unfold rtmsg. rewrite <-!app_assoc. by apply host_at_head. }
  assert (host_at (rtmsg r ++ l ++ post) 4 1 = Ok (rt_table r)) as E2.
  { unfold rtmsg. rewrite <-!app_assoc, (app_assoc (le_bytes 1 _)). by apply host_at_app. }
  set (h := header _ _ _ _ _) in *. assert (length (pre ++ h) = (length pre + 16)%nat) as Eh by (unfold h; by rewrite length_app, length_header).
  rewrite app_assoc in El |- *.
  rewrite (host_at_skip (pre ++ h) _ (length pre + 16) 0 1 _ ltac:(lia) E1). cbn [mbind Res_bind].
  unfold in_main_table. destruct (Z.eqb_spec (rt_family r) AF_INET) as [Ef|Ef]; cbn [negb].
  2: { rewrite bool_decide_false by tauto. done. }
  rewrite (host_at_skip (pre ++ h) _ (length pre + 20) 4 1 _ ltac:(lia) E2). cbn [mbind Res_bind].
  destruct (Z.eqb_spec (rt_table r) RT_TABLE_MAIN) as [Et|Et]; cbn [negb].
  2: { rewrite bool_decide_false by tauto. done. }
  rewrite El. cbn [mbind Res_bind]. rewrite bool_decide_true by done.
  replace (28 + Z.of_nat (length l) - 28) with (Z.of_nat (length l)) by lia. rewrite DataSize_small by lia.
  rewrite app_assoc. replace (length pre + 28)%nat with (length ((pre ++ h) ++ rtmsg r)) by (rewrite length_app, length_rtmsg by done; lia).
  unfold l. rewrite attributes_read by (first [done|fold l; lia]). done.
Qed.

Lemma routes_read rs pre post pid fuel ret : Forall route_ok rs → is_u32 pid →
  (length rs < fuel)%nat → Z.of_nat (length (rs ≫= route_bytes pid)) < 2147483648 →
  routes fuel (pre ++ (rs ≫= route_bytes pid) ++ post) (length pre) (Z.of_nat (length (rs ≫= route_bytes pid))) ret =
  Ok (ret ++ (interface_of <$> filter in_main_table rs)).
Proof.
  intros Hrs Hpid. revert pre fuel ret. induction Hrs as [|r rs Hr Hrs IH]; intros pre fuel ret Hf Hb.
  { destruct fuel as [|fuel]; [lia|]. cbn. by rewrite app_nil_r. }
  destruct fuel as [|fuel]; [lia|]. cbn [length] in Hf. pose proof (length_route pid r Hr) as Hl.
  pose proof (length_attributes (rt_attributes r)) as Hm. pose proof (route_length _ Hr) as Hlen.
  change ((r :: rs) ≫= route_bytes pid) with (route_bytes pid r ++ (rs ≫= route_bytes pid)) in *. rewrite length_app in *.
  rewrite <-app_assoc. set (rest := (rs ≫= route_bytes pid) ++ post).
  assert (nlmsg_len (pre ++ route_bytes pid r ++ rest) (length pre) = Ok (Z.of_nat (length (route_bytes pid r)))) as El.
  { rewrite Hl. unfold route_bytes. rewrite <-app_assoc. apply header_fields; unfold is_u32; try done. lia. }
  cbn [routes]. unfold NLMSG_OK, u32. rewrite Z.mod_small by lia. unfold sizeof_nlmsghdr.
  rewrite (proj2 (Z.ltb_ge _ _)) by lia. rewrite El. cbn [mbind Res_bind mret Res_ret].
  replace ((16 <=? Z.of_nat (length (route_bytes pid r))) &&
    (Z.of_nat (length (route_bytes pid r)) <=? Z.of_nat (length (route_bytes pid r) + length (rs ≫= route_bytes pid)))) with true by lia.
  cbn [negb]. rewrite parse_route by done. cbn [mbind Res_bind].
  rewrite align4_value by lia. replace ((Z.of_nat (length (route_bytes pid r)) + 3) / 4 * 4) with (Z.of_nat (length (route_bytes pid r))) by mod_lia.
  rewrite Nat2Z.id, DataSize_small by lia.
  replace (Z.of_nat (length (route_bytes pid r) + length (rs ≫= route_bytes pid)) - Z.of_nat (length (route_bytes pid r)))
    with (Z.of_nat (length (rs ≫= route_bytes pid))) by lia.
  rewrite <-length_app. unfold rest. rewrite app_assoc, IH by lia. f_equal. rewrite filter_cons. destruct (decide (in_main_table r)) as [Hi|Hi].
  - rewrite bool_decide_true by done. cbn [fst snd]. by rewrite <-app_assoc.
  - by rewrite bool_decide_false by done.
Qed.

(** ** The dump *)

(** The datagrams of a dump: some routes in each, then the end *)
Definition dump (pid : Z) (gs : list (list route)) : list (option (list Z)) :=
  ((λ rs, Some (rs ≫= route_bytes pid)) <$> gs) ++ [Some (done_bytes pid)].

Lemma NLMSG_OK_header pre len type flags seq pid rest post n : is_u32 len → is_u16 type → is_u16 flags → is_u32 seq → is_u32 pid →
  16 ≤ len ≤ n → NLMSG_OK (pre ++ (header len type flags seq pid ++ rest) ++ post) (length pre) n = Ok true.
Proof.
  intros. rewrite <-app_assoc. unfold NLMSG_OK, sizeof_nlmsghdr. rewrite (proj2 (Z.ltb_ge _ _)) by lia.
  destruct (header_fields pre len type flags seq pid (rest ++ post)) as [E _]; [done..|]. rewrite E. cbn [mbind Res_bind]. unfold mret, Res_ret.
  f_equal. lia.
Qed.

(** What comes is appended; the sequence number asked for is never answered, so it reads
    to the end. *)
Lemma read_dump pid gs pre rest len : is_u32 pid → Forall (λ rs, rs ≠ [] ∧ Forall route_ok rs) gs →
  (length (pre ++ rest) = len)%nat → (length pre + length (mjoin gs ≫= route_bytes pid) + 20 ≤ len)%nat →
  Z.of_nat len < 2147483648 →
  ∃ rest', ReadNetlinkSock (dump pid gs) (pre ++ rest) len (length pre) 1 pid =
    Ok (Some (Z.of_nat (length pre + length (mjoin gs ≫= route_bytes pid)), (pre ++ (mjoin gs ≫= route_bytes pid)) ++ rest')).
Proof.
  intros Hpid Hgs. revert pre rest. induction Hgs as [|rs gs [Hne Hrs] Hgs IH]; intros pre rest Hl Hfit Hb.
  - cbn [dump fmap list_fmap app ReadNetlinkSock mjoin list_join mbind list_bind]. rewrite take_app_length, drop_app_add.
    assert (length (done_bytes pid) = 20%nat) as Hd by (unfold done_bytes; by rewrite length_app, length_header).
    rewrite (take_ge (done_bytes pid)) by (cbn in Hfit; lia).
    set (buf := pre ++ done_bytes pid ++ _). destruct (header_fields pre 20 NLMSG_DONE NLM_F_MULTI 0 pid
      (replicate 4 0 ++ drop (length (done_bytes pid)) rest)) as (_&E&_); [done..|]. rewrite (app_assoc (header _ _ _ _ _)) in E.
    change (nlmsg_type buf (length pre) = Ok NLMSG_DONE) in E.
    assert (NLMSG_OK buf (length pre) (Z.of_nat (length (done_bytes pid))) = Ok true) as Ek by (by apply NLMSG_OK_header; rewrite ?Hd).
    rewrite Ek. cbn [mbind Res_bind negb]. rewrite E. cbn [mbind Res_bind].
    change (NLMSG_DONE =? NLMSG_ERROR) with false. change (NLMSG_DONE =? NLMSG_DONE) with true. cbn iota. unfold buf.
    exists (done_bytes pid ++ drop (length (done_bytes pid)) rest). unfold mret, Res_ret. cbn [length]. by rewrite Nat.add_0_r, app_nil_r.
  - change (mjoin (rs :: gs)) with (rs ++ mjoin gs) in *. rewrite bind_app in *. rewrite length_app in *.
    change (dump pid (rs :: gs)) with (Some (rs ≫= route_bytes pid) :: dump pid gs). cbn [ReadNetlinkSock].
    destruct rs as [|r rs]; [done|]. apply Forall_cons in Hrs as [Hr Hrs].
    change ((r :: rs) ≫= route_bytes pid) with (route_bytes pid r ++ (rs ≫= route_bytes pid)) in *. rewrite length_app in *.
    pose proof (length_route pid r Hr) as Hlr. pose proof (route_length _ Hr).
    rewrite take_app_length, drop_app_add, (take_ge (_ ++ _)) by (rewrite length_app; lia).
    set (d := route_bytes pid r ++ (rs ≫= route_bytes pid)). assert (length d = length (route_bytes pid r) + length (rs ≫= route_bytes pid))%nat as Hd
      by (unfold d; by rewrite length_app).
    assert (∃ t, d = header (28 + Z.of_nat (length (rt_attributes r ≫= attribute_bytes))) 24 NLM_F_MULTI 0 pid ++ t) as [t Et].
    { unfold d, route_bytes. rewrite <-app_assoc. by eexists. }
    set (len0 := 28 + Z.of_nat (length (rt_attributes r ≫= attribute_bytes))) in *.
    destruct (header_fields pre len0 24 NLM_F_MULTI 0 pid (t ++ drop (length d) rest)) as (_&E2&E3&E4&E5); [unfold is_u32; try done; lia..|].
    assert (NLMSG_OK (pre ++ d ++ drop (length d) rest) (length pre) (Z.of_nat (length d)) = Ok true) as E1.
    { rewrite Et at 1. apply NLMSG_OK_header; unfold is_u32; try done; lia. }
    rewrite (app_assoc (header _ _ _ _ _)), <-Et in E2, E3, E4, E5.
    rewrite E1. cbn [mbind Res_bind negb]. rewrite E2. cbn [mbind Res_bind].
    change (24 =? NLMSG_ERROR) with false. change (24 =? NLMSG_DONE) with false. cbn iota.
    rewrite E3. cbn [mbind Res_bind]. change (Z.land NLM_F_MULTI NLM_F_MULTI =? 0) with false. cbn iota.
    rewrite E4. cbn [mbind Res_bind]. rewrite E5. cbn [mbind Res_bind]. change (negb (0 =? u32 1)) with true. cbn [orb].
    rewrite <-length_app, app_assoc. destruct (IH (pre ++ d) (drop (length d) rest)) as [rest' E]; rewrite ?length_app, ?length_drop in *; try lia.
    exists rest'. rewrite E, Hd. f_equal. f_equal. f_equal; [lia|]. f_equal. by rewrite <-app_assoc.
Qed.

Lemma length_route_request : length route_request = 28%nat.
Proof. unfold route_request. rewrite !length_app, !length_le_bytes. done. Qed.
Lemma list_find_head {A} (P : A → Prop) `{!∀ x, Decision (P x)} (l : list A) : snd <$> list_find P l = head (filter P l).
Proof.
  induction l as [|x l IH]; [done|]. cbn [list_find]. rewrite filter_cons. destruct (decide (P x)); [done|].
  rewrite <-IH. by destruct (list_find P l) as [[]|].
Qed.
Lemma routes_count pid rs : Forall route_ok rs → (length rs ≤ length (rs ≫= route_bytes pid))%nat.
Proof.
  induction 1 as [|r rs Hr _ IH]; [done|]. change ((r :: rs) ≫= route_bytes pid) with (route_bytes pid r ++ (rs ≫= route_bytes pid)).
  pose proof (length_route pid r Hr). rewrite length_app. cbn [length]. lia.
Qed.

End kernel.

(** ** Examples *)

Module GatewayExamples.
Import ByteIp.

Definition oif (n : Z) : Z * list Z := (RTA_OIF, [n; 0; 0; 0]).
Definition default_route : route :=
  MkRoute AF_INET RT_TABLE_MAIN (0, replicate 7 0) [(15, [254; 0; 0; 0]); (RTA_GATEWAY, [192; 168; 0; 1]); oif 2].
Definition subnet_route : route :=
  MkRoute AF_INET RT_TABLE_MAIN (24, replicate 7 0) [(RTA_DST, [192; 168; 0; 0]); oif 2; (12, [1; 2; 3; 4; 5])].
Definition local_route : route := MkRoute AF_INET 255 (32, replicate 7 0) [(RTA_DST, [192; 168; 0; 7]); oif 2].
Definition table : list (list route) := [[subnet_route; local_route]; [default_route]].

(** A kernel that answers every dump with these datagrams *)
Definition kernel_with (answers : list (option (list Z))) : RouteSocket := {|
  opens_route_socket := true; route_answers _ := Some answers; getpid := 4711;
  if_indextoname n := if n =? 2 then Some [101; 116; 104; 48] else None |}.

Lemma routes_ok : Forall (λ rs, rs ≠ [] ∧ Forall (@route_ok) rs) table.
Proof.
  repeat (constructor || (split; [done|])); try done; try (intros Hin; vm_compute in Hin; set_solver by lia).
Qed.

(** The end of a dump behind routes in one datagram is not seen: it waits for more. *)
Example end_with_routes_waits : @DefaultRoute ip numbers (kernel_with [Some (route_bytes 4711 default_route ++ done_bytes 4711)]) = Ok None.
Proof. vm_compute. reflexivity. Qed.

(** A table that leaves less than twenty bytes of the buffer has no default route. *)
Definition plain_route : route := MkRoute AF_INET RT_TABLE_MAIN (0, replicate 7 0) [].
Definition metric_route : route :=
  MkRoute AF_INET RT_TABLE_MAIN (0, replicate 7 0) (rt_attributes default_route ++ [(6, [100; 0; 0; 0])]).
Example large_table_no_route :
  @DefaultRoute ip numbers (kernel_with (dump 4711 [default_route :: replicate 290 plain_route])) = Ok (Some (v4 192 168 0 1)) ∧
  @DefaultRoute ip numbers (kernel_with (dump 4711 [metric_route :: replicate 290 plain_route])) = Ok (Some (v4 0 0 0 0)).
Proof. split; vm_compute; reflexivity. Qed.

(** A message of only a header at the end of the buffer: the family behind it is read. *)
Example short_message_faults : ∃ buf, length buf = kBufSize ∧
  @routes ip numbers (kernel_with []) (S kBufSize) buf 0 8192 [] = Fault OutOfBounds.
Proof.
  exists ((replicate 292 plain_route ≫= route_bytes 4711) ++ header 16 24 NLM_F_MULTI 0 4711).
  split; [apply Nat.eqb_eq|]; vm_compute; reflexivity.
Qed.
End GatewayExamples.
