(* ===== verification/NatPmp.v ===== *)
(** * The NAT-PMP client

    Models src/maidsafe/transport/nat-pmp/natpmp_client_impl.cc, natpmp_client.cc
    and natpmp_protocol.h: the client asks the gateway for its public address,
    at growing intervals, and then for port mappings from a queue.

    The handlers are bound to the address of the [NatPmpClientImpl] ([this]) and
    wait in [tasks] of the io_service; [run_task] completes one of them, with any
    outcome.  An object is in [impls] from its allocation to its release: using
    the handle of a released one faults.  [sent] lists the buffers given to
    [async_send] and [mapped] the calls of the success callback, newest first. *)

From S2P Require Import Prelude Environment ByteOrder Dispatcher.

Definition kPort : Z := 5351.
Definition kUdp : Z := 1.
Definition kTcp : Z := 2.
Definition kReceiveBufferLength : nat := 512.

(** [Protocol::ResultOpcodes] and the one of [ErrorCodes] that is reported. *)
Inductive opcode :=
  | kResultSuccess | kResultUnsupportedVersion | kResultNotAuthorisedRefused
  | kResultNetworkFailure | kResultOutOfResources | kResultUnsupportedOpcode
  | kResultUndefined | kErrorSourceConflict.

Record MappingRequest := MkMappingRequest {
  length_ : Z;
  buffer : list Z;
  retry_count : Z;
}.

Record MappingResponse `{IpAddress} := MkMappingResponse {
  type : Z;
  result_code : Z;
  private_port : Z;
  public_port : Z;
  epoch : Z;
  lifetime : Z;
  public_address : ip_address;
}.
Arguments MkMappingResponse {_}.

Record Impl `{IpAddress} := MkImpl {
  m_gateway_address_ : ip_address;
  m_public_ip_address_ : ip_address;
  retry_timer_ : list Z;                      (** the intervals it was set to, newest first *)
  socket_ : option bool;                      (** allocated, and whether it is open *)
  endpoint_ : ip_address;
  public_ip_request_ : MappingRequest;
  request_queue_ : list MappingRequest;
  data_ : list Z;
  mappings_ : list (MappingRequest * MappingResponse);
  nat_pmp_map_port_success_cb_ : bool;        (** is set *)
}.
Arguments MkImpl {_}.

Inductive task :=
  | HConnect (this : handle)
  | HRetransmit (this : handle)
  | HSend (this : handle)
  | HReceiveFrom (this : handle)
  | HSendMapping (this : handle) (protocol private_port public_port lifetime : Z).

Inductive outcome `{IpAddress} :=
  | aborted
  | failure
  | success (bytes : list Z) (from : ip_address).
Arguments aborted {_}.
Arguments failure {_}.
Arguments success {_}.

Record Io `{IpAddress} := MkIo {
  client : option handle;                     (** [NatPmpClient::impl_] *)
  impls : gmap handle Impl;
  tasks : list task;
  sent : list (list Z);
  mapped : list (Z * Z * Z);
}.
Arguments MkIo {_}.

Inductive exit := Returned | RuntimeError.

Section natpmp.
Context `{IpAddress} (v4_any : ip_address) (address_v4 : Z → ip_address).

Definition set_timer (l : list Z) (c : Impl) : Impl :=
  MkImpl (m_gateway_address_ c) (m_public_ip_address_ c) l (socket_ c) (endpoint_ c)
    (public_ip_request_ c) (request_queue_ c) (data_ c) (mappings_ c) (nat_pmp_map_port_success_cb_ c).
Definition set_gateway (a : ip_address) (c : Impl) : Impl :=
  MkImpl a (m_public_ip_address_ c) (retry_timer_ c) (socket_ c) (endpoint_ c)
    (public_ip_request_ c) (request_queue_ c) (data_ c) (mappings_ c) (nat_pmp_map_port_success_cb_ c).
Definition set_public (a : ip_address) (c : Impl) : Impl :=
  MkImpl (m_gateway_address_ c) a (retry_timer_ c) (socket_ c) (endpoint_ c)
    (public_ip_request_ c) (request_queue_ c) (data_ c) (mappings_ c) (nat_pmp_map_port_success_cb_ c).
Definition set_socket (v : option bool) (c : Impl) : Impl :=
  MkImpl (m_gateway_address_ c) (m_public_ip_address_ c) (retry_timer_ c) v (endpoint_ c)
    (public_ip_request_ c) (request_queue_ c) (data_ c) (mappings_ c) (nat_pmp_map_port_success_cb_ c).
Definition set_request (r : MappingRequest) (c : Impl) : Impl :=
  MkImpl (m_gateway_address_ c) (m_public_ip_address_ c) (retry_timer_ c) (socket_ c) (endpoint_ c)
    r (request_queue_ c) (data_ c) (mappings_ c) (nat_pmp_map_port_success_cb_ c).
Definition set_queue (l : list MappingRequest) (c : Impl) : Impl :=
  MkImpl (m_gateway_address_ c) (m_public_ip_address_ c) (retry_timer_ c) (socket_ c) (endpoint_ c)
    (public_ip_request_ c) l (data_ c) (mappings_ c) (nat_pmp_map_port_success_cb_ c).
Definition set_mappings (l : list (MappingRequest * MappingResponse)) (c : Impl) : Impl :=
  MkImpl (m_gateway_address_ c) (m_public_ip_address_ c) (retry_timer_ c) (socket_ c) (endpoint_ c)
    (public_ip_request_ c) (request_queue_ c) (data_ c) l (nat_pmp_map_port_success_cb_ c).
Definition set_callback (b : bool) (c : Impl) : Impl :=
  MkImpl (m_gateway_address_ c) (m_public_ip_address_ c) (retry_timer_ c) (socket_ c) (endpoint_ c)
    (public_ip_request_ c) (request_queue_ c) (data_ c) (mappings_ c) b.
(** A datagram arrives in [data_], from [a]. *)
Definition set_received (bytes : list Z) (a : ip_address) (c : Impl) : Impl :=
  MkImpl (m_gateway_address_ c) (m_public_ip_address_ c) (retry_timer_ c) (socket_ c) a
    (public_ip_request_ c) (request_queue_ c)
    (take kReceiveBufferLength bytes ++ drop (length (take kReceiveBufferLength bytes)) (data_ c))
    (mappings_ c) (nat_pmp_map_port_success_cb_ c).

Definition self (this : handle) : M Io Impl := λ s,
  match impls s !! this with Some c => Ok (c, s) | None => Fault OutOfBounds end.
Definition upd (this : handle) (f : Impl → Impl) : M Io unit := λ s,
  match impls s !! this with
  | Some c => Ok (tt, MkIo (client s) (<[this := f c]> (impls s)) (tasks s) (sent s) (mapped s))
  | None => Fault OutOfBounds
  end.
Definition post (t : task) : M Io unit :=
  modify (λ s, MkIo (client s) (impls s) (tasks s ++ [t]) (sent s) (mapped s)).
Definition is_open (c : Impl) : bool := bool_decide (socket_ c = Some true).

(** ** Requests *)

Definition SendMappingRequest (this : handle) (protocol private public life : Z) : M Io unit :=
  post (HSendMapping this protocol private public life).

Definition mapping_request (protocol private public life : Z) : MappingRequest :=
  MkMappingRequest 12 ([0; u8 protocol; 0; 0] ++ htons private ++ htons public ++ htonl life) 0.

Definition DoSendMappingRequest (this : handle) (protocol private public life : Z) : M Io unit :=
  c ← self this;
  when (is_open c) (upd this (λ c,
    set_queue (request_queue_ c ++ [mapping_request protocol private public life]) c)).

Definition Stop (this : handle) : M Io unit :=
  c ← self this;
  when (is_open c) (
    (fix each l := match l with
      | [] => mret tt
      | (request, response) :: l' =>
          (* a char converts to uint32_t with its sign *)
          let protocol := default 0 (buffer request !! 1%nat) in
          SendMappingRequest this (if protocol <? 128 then protocol else u32 (protocol - 256))
            (private_port response) (public_port response) 0;;
          each l'
      end) (mappings_ c);;
    upd this (set_socket None)).

(** [async_send] on the socket. *)
Definition Send (this : handle) (buf : list Z) : M Io unit :=
  c ← self this;
  match socket_ c with
  | None => throw OutOfBounds
  | Some _ =>
      modify (λ s, MkIo (client s) (impls s) (tasks s) (buf :: sent s) (mapped s));;
      post (HSend this)
  end.

Definition SendRequest (this : handle) (req : MappingRequest) : M Io unit :=
  c ← self this;
  when (is_open c) (Send this (take (Z.to_nat (length_ req)) (buffer req))).

Definition SendQueuedRequests (this : handle) : M Io unit :=
  c ← self this;
  when (is_open c) (
    match request_queue_ c with
    | r :: _ => SendRequest this r
    | [] => mret tt
    end).

Definition wait_retry (this : handle) : M Io unit :=
  upd this (λ c, set_timer (milliseconds (250 * retry_count (public_ip_request_ c)) :: retry_timer_ c) c);;
  post (HRetransmit this).

Definition SendPublicAddressRequest (this : handle) : M Io unit :=
  upd this (λ c, set_request
    (MkMappingRequest 2 ([0; 0] ++ drop 2 (buffer (public_ip_request_ c))) 1) c);;
  c ← self this;
  SendRequest this (public_ip_request_ c);;
  wait_retry this.

Definition RetransmitPublicAdddressRequest (this : handle) (ec : bool) : M Io unit :=
  if ec then mret tt
  else
    c ← self this;
    let r := public_ip_request_ c in
    if 9 <=? retry_count r then Stop this
    else when (bool_decide (m_public_ip_address_ c = v4_any)) (
      upd this (set_request (MkMappingRequest (length_ r) (buffer r) (u8 (retry_count r + 1))));;
      c ← self this;
      SendRequest this (public_ip_request_ c);;
      wait_retry this).

(** ** Responses *)

Definition result_opcode (result : Z) : opcode :=
  if result =? 1 then kResultUnsupportedVersion
  else if result =? 2 then kResultNotAuthorisedRefused
  else if result =? 3 then kResultNetworkFailure
  else if result =? 4 then kResultOutOfResources
  else if result =? 5 then kResultUnsupportedOpcode
  else kResultUndefined.

(** [==] of two mappings: the bytes of the requests, the ports of the responses. *)
Definition same_mapping (a b : MappingRequest * MappingResponse) : bool :=
  bool_decide (buffer a.1 = buffer b.1) &&
  (private_port a.2 =? private_port b.2) && (public_port a.2 =? public_port b.2).

(** The response about a mapping. *)
Definition mapping_done (this : handle) (response : MappingResponse) : M Io unit :=
  c ← self this;
  match request_queue_ c with
  | [] => throw OutOfBounds
  | request :: rest =>
      let mapping := (request, response) in
      when (negb (existsb (λ m, same_mapping m mapping) (mappings_ c))) (
        let protocol := default 0 (buffer request !! 1%nat) in
        when (nat_pmp_map_port_success_cb_ c) (modify (λ s,
          MkIo (client s) (impls s) (tasks s) (sent s)
            ((if protocol <? 128 then protocol else u16 (protocol - 256),
              private_port response, public_port response) :: mapped s)));;
        upd this (λ c, set_mappings (mappings_ c ++ [mapping]) c));;
      upd this (set_queue rest);;
      SendQueuedRequests this
  end.

Definition HandleResponse (this : handle) : M Io opcode :=
  c ← self this;
  let buf := data_ c in
  if bool_decide (endpoint_ c = m_gateway_address_ c) then
    result ← liftR (ntohs_at buf 2);
    ep ← liftR (ntohl_at buf 4);
    b0 ← liftR (byte_at buf 0);
    b1 ← liftR (byte_at buf 1);
    if negb (b0 =? 0) then mret kResultUnsupportedVersion
    else if (b1 <? 128) || (130 <? b1) then mret kResultUnsupportedOpcode
    else if negb (result =? 0) then mret (result_opcode result)
    else if b1 =? 128 then
      ip ← liftR (ntohl_at buf 8);
      upd this (set_public (address_v4 ip));;
      SendQueuedRequests this;;
      mret kResultSuccess
    else
      private ← liftR (ntohs_at buf 8);
      public ← liftR (ntohs_at buf 10);
      life ← liftR (ntohl_at buf 12);
      mapping_done this (MkMappingResponse (Z.land b1 0x7f) result private public ep life ip_none);;
      mret kResultSuccess
  else mret kErrorSourceConflict.

(** ** Completion handlers *)

Definition receive (this : handle) : M Io unit :=
  c ← self this;
  match socket_ c with None => throw OutOfBounds | Some _ => post (HReceiveFrom this) end.

Definition HandleSend (this : handle) (o : outcome) : M Io unit :=
  match o with aborted | failure => mret tt | success _ _ => receive this end.

Definition HandleConnect (this : handle) (o : outcome) : M Io unit :=
  match o with
  | aborted => mret tt
  | failure => Stop this
  | success _ _ => SendPublicAddressRequest this
  end.

Definition HandleReceiveFrom (this : handle) (o : outcome) : M Io unit :=
  match o with
  | aborted => mret tt
  | failure => Stop this
  | success bytes from =>
      upd this (set_received bytes from);;
      HandleResponse this;;
      receive this
  end.

Definition run_task (i : nat) (o : outcome) : M Io unit :=
  s ← get;
  match tasks s !! i with
  | None => mret tt
  | Some t =>
      modify (λ s, MkIo (client s) (impls s) (delete i (tasks s)) (sent s) (mapped s));;
      match t with
      | HConnect this => HandleConnect this o
      | HRetransmit this => RetransmitPublicAdddressRequest this
          (match o with success _ _ => false | _ => true end)
      | HSend this => HandleSend this o
      | HReceiveFrom this => HandleReceiveFrom this o
      | HSendMapping this a b c d => DoSendMappingRequest this a b c d
      end
  end.

(** ** The objects *)

(** The constructor; [data_] is not initialised. *)
Definition new_impl (junk : list Z) : Impl :=
  MkImpl ip_none v4_any [] None ip_none (MkMappingRequest 0 (replicate 12 0) 0) [] junk [] false.

(** [route]: the default route, if it can be obtained.  The connection opens
    the socket. *)
Definition Start (this : handle) (route : option ip_address) : M Io exit :=
  c ← self this;
  match socket_ c with
  | Some _ => mret RuntimeError
  | None =>
      match route with
      | None => upd this (set_socket (Some false));; mret RuntimeError
      | Some gateway =>
          upd this (λ c, set_socket (Some true) (set_gateway gateway c));;
          post (HConnect this);;
          mret Returned
      end
  end.

Definition SetMapPortSuccessCallback (this : handle) : M Io unit := upd this (set_callback true).

Definition delete_impl (this : handle) : M Io unit :=
  c ← self this;
  when (match socket_ c with Some _ => true | None => false end) (Stop this);;
  modify (λ s, MkIo (client s) (delete this (impls s)) (tasks s) (sent s) (mapped s)).

(** [NatPmpClient], whose [impl_] is allocated at [h]. *)
Definition ClientStart (h : handle) (junk : list Z) (route : option ip_address) : M Io exit :=
  s ← get;
  match client s with
  | Some _ => mret Returned
  | None =>
      modify (λ s, MkIo (Some h) (<[h := new_impl junk]> (impls s)) (tasks s) (sent s) (mapped s));;
      Start h route
  end.

Definition ClientStop : M Io unit :=
  s ← get;
  match client s with
  | None => mret tt
  | Some h =>
      Stop h;;
      modify (λ s, MkIo None (impls s) (tasks s) (sent s) (mapped s));;
      delete_impl h
  end.

Definition ClientSetMapPortSuccessCallback : M Io unit :=
  s ← get;
  match client s with None => mret tt | Some h => SetMapPortSuccessCallback h end.

Definition MapPort (protocol private public life : Z) : M Io exit :=
  s ← get;
  if negb (protocol =? kTcp) && negb (protocol =? kUdp) then mret RuntimeError
  else match client s with
       | None => mret RuntimeError
       | Some h => SendMappingRequest h protocol private public life;; mret Returned
       end.
End natpmp.

(** ** What the handlers do *)

Section properties.
Context `{IpAddress} (v4_any : ip_address) (address_v4 : Z → ip_address).

Lemma wp_the_impl this s c (Q : Impl → Io → Prop) :
  impls s !! this = Some c → Q c s → wp (self this) s Q.
Proof. intros E. unfold wp, self. by rewrite E. Qed.
Lemma wp_upd_impl this f s c (Q : unit → Io → Prop) :
  impls s !! this = Some c →
  Q tt (MkIo (client s) (<[this := f c]> (impls s)) (tasks s) (sent s) (mapped s)) →
  wp (upd this f) s Q.
Proof. intros E. unfold wp, upd. by rewrite E. Qed.

Ltac look := cbn [impls]; rewrite ?lookup_insert_eq; first [reflexivity|eassumption].
Ltac wp_simple := lazymatch goal with |- wp (when _ _) _ _ => fail | |- wp (if _ then _ else _) _ _ => fail | _ => wp_step end.
Ltac run := repeat first
  [ eapply wp_the_impl; [look|] | eapply wp_upd_impl; [look|] | wp_simple
  | progress cbn [client impls tasks sent mapped] ].

Lemma is_open_true c : socket_ c = Some true → is_open c = true.
Proof. intros E. unfold is_open. by rewrite E. Qed.

(** A client that is asking for the public address, for the [k]-th time. *)
Definition asking (k : Z) (c : Impl) : Prop :=
  socket_ c = Some true ∧ m_public_ip_address_ c = v4_any ∧ mappings_ c = [] ∧
  length_ (public_ip_request_ c) = 2 ∧ take 2 (buffer (public_ip_request_ c)) = [0; 0] ∧
  retry_count (public_ip_request_ c) = k.

Lemma wp_SendRequest this s c r (Q : unit → Io → Prop) :
  impls s !! this = Some c → socket_ c = Some true →
  Q tt (MkIo (client s) (impls s) (tasks s ++ [HSend this])
    (take (Z.to_nat (length_ r)) (buffer r) :: sent s) (mapped s)) →
  wp (SendRequest this r) s Q.
Proof.
  intros E Eo HQ. unfold SendRequest. apply wp_bind, (wp_the_impl _ _ c); [done|].
  rewrite (is_open_true c Eo). unfold when, Send, post. apply wp_bind, (wp_the_impl _ _ c); [done|].
  rewrite Eo. by run.
Qed.

(** The interval before the request number [k]. *)
Definition interval (k : Z) : Z := milliseconds (250 * k).

Lemma retransmit_asks this s c k :
  impls s !! this = Some c → asking k c → 1 ≤ k < 9 →
  wp (RetransmitPublicAdddressRequest v4_any this false) s (λ _ s',
    ∃ c', impls s' !! this = Some c' ∧ asking (k + 1) c' ∧
      sent s' = [0; 0] :: sent s ∧ retry_timer_ c' = interval (k + 1) :: retry_timer_ c ∧
      tasks s' = tasks s ++ [HSend this; HRetransmit this]).
Proof.
  intros E (Eo&Ep&Em&El&Eb&Ek) Hk. unfold RetransmitPublicAdddressRequest, wait_retry, post.
  apply wp_bind, (wp_the_impl _ _ c); [done|]. rewrite Ek, (proj2 (Z.leb_gt 9 k)) by lia.
  rewrite bool_decide_true by done. cbn [when]. run. eapply wp_SendRequest; [look|exact Eo|]. run. unfold asking.
  eexists. split; [look|]. cbn. unfold u8. rewrite Z.mod_small by lia. split_and!; try done; [rewrite El; by f_equal|by rewrite <-app_assoc].
Qed.

(** ** The search for a gateway *)

(** What can happen while no response comes: the connection is made, the retry timer
    expires, a request is sent or not; what waits when the socket closes is aborted. *)
Definition quiet (this : handle) (s : Io) (i : nat) (o : outcome) : Prop :=
  ∃ c t, impls s !! this = Some c ∧ tasks s !! i = Some t ∧
  match t with
  | HConnect _ | HRetransmit _ => ∃ bytes from, o = success bytes from
  | HSend _ => socket_ c = None → o = aborted
  | HReceiveFrom _ => socket_ c = None ∧ o = aborted
  | HSendMapping _ _ _ _ _ => True
  end.
(** [n] handlers run. *)
Inductive quiet_run (this : handle) (s : Io) : nat → Io → Prop :=
  | quiet_start : quiet_run this s 0 s
  | quiet_step n s1 i o s2 : quiet_run this s n s1 → quiet this s1 i o →
      run_task v4_any address_v4 i o s1 = Ok (tt, s2) → quiet_run this s (S n) s2.

(** How many handlers can run before it ends, when [k] requests were sent. *)
Definition weight (k : nat) (t : task) : nat :=
  match t with
  | HConnect _ => 28 | HRetransmit _ => 3 * (9 - k) + 1 | HSend _ => 2 | HReceiveFrom _ => 1 | HSendMapping _ _ _ _ _ => 0
  end.
Definition to_run (k : nat) (l : list task) : nat := sum_list_with (weight k) l.
Definition waiting (t : task) : bool := match t with HConnect _ | HRetransmit _ => true | _ => false end.
Definition own (this : handle) (t : task) : Prop :=
  t = HConnect this ∨ t = HRetransmit this ∨ t = HSend this ∨ t = HReceiveFrom this.

Lemma to_run_delete k l i t : l !! i = Some t → to_run k l = (weight k t + to_run k (delete i l))%nat.
Proof.
  intros Ei. rewrite <-(take_drop_middle l i t Ei) at 1. unfold to_run.
  rewrite delete_take_drop, !sum_list_with_app. cbn. lia.
Qed.
(** Without the wait, the number of requests does not count. *)
Lemma to_run_silent k k' l : filter waiting l = [] → to_run k l = to_run k' l.
Proof.
  unfold to_run. induction l as [|t l IH]; [done|]. rewrite filter_cons. destruct t; cbn; try done; intros E; by rewrite IH.
Qed.

(** [k] requests were sent; [n] handlers ran since [s0]. *)
Record searching (this : handle) (s0 : Io) (timers : list Z) (n k : nat) (s : Io) (c : Impl) : Prop := {
  sg_impl : impls s !! this = Some c;
  sg_sent : sent s = replicate k [0; 0] ++ sent s0;
  sg_timers : retry_timer_ c = reverse (interval <$> seqZ 1 (Z.of_nat k)) ++ timers;
  sg_own : Forall (own this) (tasks s);
  sg_left : (n + to_run k (tasks s) ≤ 28)%nat;
  sg_phase : k = 0%nat ∧ tasks s = [HConnect this] ∧ socket_ c = Some true ∧ m_public_ip_address_ c = v4_any ∧ mappings_ c = [] ∨
    (1 ≤ k ≤ 9)%nat ∧ asking (Z.of_nat k) c ∧ filter waiting (tasks s) = [HRetransmit this] ∨
    k = 9%nat ∧ socket_ c = None ∧ filter waiting (tasks s) = [];
}.

Definition next (this : handle) (s0 : Io) (timers : list Z) (n : nat) (s : Io) : Prop :=
  ∃ k c, searching this s0 timers n k s c.

(** A handler that does nothing, or waits for a response. *)
Lemma searching_drop this s0 timers n k s c i t l : searching this s0 timers n k s c → tasks s !! i = Some t → waiting t = false →
  (1 + to_run k l ≤ weight k t)%nat → Forall (own this) l → filter waiting l = [] →
  searching this s0 timers (S n) k (MkIo (client s) (impls s) (delete i (tasks s) ++ l) (sent s) (mapped s)) c.
Proof.
  intros [E Es Et Ho Hl Hp] Ei Hw Hk Hol El. pose proof (to_run_delete k _ _ _ Ei) as Hd.
  assert (filter waiting (delete i (tasks s) ++ l) = filter waiting (tasks s)) as Ef.
  { rewrite filter_app, El, app_nil_r. by eapply filter_delete_other. }
  split; cbn [impls sent tasks]; try done.
  - apply Forall_app. split; [by apply Forall_delete|done].
  - unfold to_run in *. rewrite sum_list_with_app. lia.
  - rewrite Ef. destruct Hp as [(_&E1&_)|[Hp|Hp]]; [|by right; left|by right; right].
    rewrite E1 in Ei. by destruct i as [|[|]]; simplify_eq/=.
Qed.

Lemma searching_connect this s0 timers n k s c bytes from : searching this s0 timers n k s c → tasks s = [HConnect this] →
  wp (HandleConnect this (success bytes from)) (MkIo (client s) (impls s) [] (sent s) (mapped s)) (λ _ s', next this s0 timers (S n) s').
Proof.
  intros [E Es Et Ho Hl Hp] Ek. rewrite Ek in Hl, Hp. cbn in Hl.
  destruct Hp as [(->&_&Eo&Ep&Em)|[(_&_&Ef)|(_&_&Ef)]]; [|done|done].
  cbn [HandleConnect]. unfold SendPublicAddressRequest, wait_retry, post. run.
  eapply wp_SendRequest; [look|exact Eo|]. run. eexists 1%nat, _. split; cbn [impls sent tasks].
  - look.
  - cbn. by rewrite Es.
  - cbn in *. by rewrite Et.
  - repeat constructor; unfold own; tauto.
  - cbn. lia.
  - right. left. split; [lia|]. by split_and!.
Qed.

Lemma searching_retransmit this s0 timers n k s c i : searching this s0 timers n k s c → tasks s !! i = Some (HRetransmit this) →
  wp (RetransmitPublicAdddressRequest v4_any this false) (MkIo (client s) (impls s) (delete i (tasks s)) (sent s) (mapped s))
    (λ _ s', next this s0 timers (S n) s').
Proof.
  intros [E Es Et Ho Hl Hp] Ei. pose proof (to_run_delete k _ _ _ Ei) as Hd. cbn [weight] in Hd.
  assert (Forall (own this) (delete i (tasks s))) as Ho' by by apply Forall_delete.
  destruct Hp as [(_&E1&_)|[(Hk&Ha&Ef)|(_&_&Ef)]].
  - rewrite E1 in Ei. by destruct i as [|[|]]; simplify_eq/=.
  - destruct (filter_delete_only waiting _ _ _ _ Ei eq_refl Ef) as [_ Ef']. destruct (decide (k = 9%nat)) as [->|Hk9].
    + destruct Ha as (Eo&_&Em&_&_&Ek). unfold RetransmitPublicAdddressRequest. apply wp_bind, (wp_the_impl _ _ c); [done|].
      rewrite Ek. cbn [Z.leb Z.compare Z.of_nat Pos.of_succ_nat]. unfold Stop. apply wp_bind, (wp_the_impl _ _ c); [done|].
      rewrite (is_open_true c Eo), Em. cbn [when]. run. eexists 9%nat, _. split; cbn [impls sent tasks]; [look|done|done|done|lia|].
      right. right. by split_and!.
    + eapply wp_mono; [eapply (retransmit_asks this _ c (Z.of_nat k)); [done|done|lia]|].
      intros _ s' (c'&E'&Ha'&Es'&Et'&Etk). exists (S k), c'. cbn [sent tasks] in *. split; [done| | | | |].
      * by rewrite Es', Es.
      * rewrite Et', Et. replace (Z.of_nat (S k)) with (Z.of_nat k + 1) by lia.
        rewrite seqZ_app, fmap_app, reverse_app by lia. cbn. by replace (1 + Z.of_nat k) with (Z.of_nat k + 1) by lia.
      * rewrite Etk. apply Forall_app. split; [done|]. repeat constructor; unfold own; tauto.
      * pose proof (to_run_silent (S k) k _ Ef') as Hs. unfold to_run in *.
        rewrite Etk, sum_list_with_app, Hs. cbn [sum_list_with weight]. lia.
      * right. left. split; [lia|]. split; [by replace (Z.of_nat (S k)) with (Z.of_nat k + 1) by lia|].
        rewrite Etk, filter_app, Ef'. done.
  - by destruct (filter_nil_not_elem_of waiting _ (HRetransmit this) Ef); [|eapply list_elem_of_lookup_2].
Qed.

Lemma searching_step this s0 timers n s i o : next this s0 timers n s → quiet this s i o →
  wp (run_task v4_any address_v4 i o) s (λ _ s', next this s0 timers (S n) s').
Proof.
  intros (k&c&Hs) (c1&t&E&Ei&Ht). pose proof Hs as [Ec _ _ Ho _ Hp]. rewrite Ec in E. injection E as <-.
  pose proof (proj1 (Forall_lookup _ _) Ho _ _ Ei) as Hown. unfold run_task. apply wp_bind, wp_get. rewrite Ei. apply wp_bind, wp_modify.
  destruct Hown as [->|[->|[->| ->]]]; cbn beta iota.
  - assert (tasks s = [HConnect this] ∧ i = 0%nat) as [El ->].
    { destruct Hp as [(_&E1&_)|[(_&_&Ef)|(_&_&Ef)]].
      - rewrite E1 in Ei |- *. by destruct i as [|[|]].
      - by destruct (filter_delete_only waiting _ _ _ _ Ei eq_refl Ef).
      - by destruct (filter_nil_not_elem_of waiting _ (HConnect this) Ef); [|eapply list_elem_of_lookup_2]. }
    destruct Ht as (bytes&from&->). rewrite El. by eapply searching_connect.
  - destruct Ht as (bytes&from&->). by eapply searching_retransmit.
  - assert (∀ l, (1 + to_run k l ≤ 2)%nat → Forall (own this) l → filter waiting l = [] →
      next this s0 timers (S n) (MkIo (client s) (impls s) (delete i (tasks s) ++ l) (sent s) (mapped s))) as Hd.
    { intros l H1 H2 H3. exists k, c. by eapply searching_drop. }
    assert (next this s0 timers (S n) (MkIo (client s) (impls s) (delete i (tasks s)) (sent s) (mapped s))) as Hd0.
    { rewrite <-(app_nil_r (delete i _)). apply Hd; [cbn; lia|constructor|done]. }
    destruct o as [| |bytes from]; cbn [HandleSend]; [by apply wp_ret|by apply wp_ret|].
    unfold receive, post. apply wp_bind, (wp_the_impl _ _ c); [done|]. destruct (socket_ c) as [b|] eqn:Es; [|by specialize (Ht eq_refl)].
    apply wp_modify. cbn [client impls tasks sent mapped]. apply Hd; [cbn; lia|repeat constructor; unfold own; tauto|done].
  - destruct Ht as [Es ->]. cbn [HandleReceiveFrom]. apply wp_ret. exists k, c.
    rewrite <-(app_nil_r (delete i _)). eapply searching_drop; [done|exact Ei|done|cbn; lia|constructor|done].
Qed.

Lemma quiet_run_next this s s' n timers : next this s timers 0 s → quiet_run this s n s' → next this s timers n s'.
Proof.
  intros Hs. induction 1 as [|n s1 i o s2 _ IH Hq E]; [done|]. exact (wp_det _ _ _ _ _ E (searching_step _ _ _ _ _ _ _ IH Hq)).
Qed.


(** The response to a mapping request, in a buffer with anything behind it. *)
Definition mapping_response (b1 ep private public life : Z) (rest : list Z) : list Z :=
  [0; b1; 0; 0] ++ htonl ep ++ htons private ++ htons public ++ htonl life ++ rest.

(** The argument [protocol] of the success callback. *)
Definition callback_protocol (r : MappingRequest) : Z :=
  let protocol := default 0 (buffer r !! 1%nat) in
  if protocol <? 128 then protocol else u16 (protocol - 256).

(** A mapping response of the gateway (TCP or UDP, result code zero) answers the
    request at the front of the queue: that request leaves the queue, the
    mapping with the ports, the epoch and the lifetime of the response is
    recorded and the callback called, unless an equal mapping is recorded
    already, and the next request of the queue, if there is one, is sent. *)
Theorem natpmp_mapping_recorded this s c r queue b1 ep private public life tail :
  impls s !! this = Some c → endpoint_ c = m_gateway_address_ c →
  request_queue_ c = r :: queue → socket_ c = Some true →
  data_ c = mapping_response b1 ep private public life tail →
  b1 = 129 ∨ b1 = 130 → is_u32 ep → is_u16 private → is_u16 public → is_u32 life →
  let m := (r, MkMappingResponse (b1 - 128) 0 private public ep life ip_none) in
  let known := existsb (λ m', same_mapping m' m) (mappings_ c) in
  wp (HandleResponse address_v4 this) s (λ code s', code = kResultSuccess ∧ ∃ c',
    impls s' !! this = Some c' ∧ request_queue_ c' = queue ∧
    mappings_ c' = mappings_ c ++ (if known then [] else [m]) ∧
    mapped s' = (if known || negb (nat_pmp_map_port_success_cb_ c) then []
                 else [(callback_protocol r, private, public)]) ++ mapped s ∧
    sent s' = match queue with
              | [] => sent s
              | r' :: _ => take (Z.to_nat (length_ r')) (buffer r') :: sent s
              end).
Proof.
  intros E Ee Eq Eo Ed Hb1 Hep Hpr Hpu Hl. cbv zeta.
  set (resp := MkMappingResponse (b1 - 128) 0 private public ep life ip_none).
  assert (wp (mapping_done this resp) s (λ _ s', ∃ c',
    impls s' !! this = Some c' ∧ request_queue_ c' = queue ∧
    mappings_ c' = mappings_ c ++
      (if existsb (λ m', same_mapping m' (r, resp)) (mappings_ c) then [] else [(r, resp)]) ∧
    mapped s' = (if existsb (λ m', same_mapping m' (r, resp)) (mappings_ c) ||
                    negb (nat_pmp_map_port_success_cb_ c) then []
                 else [(callback_protocol r, private, public)]) ++ mapped s ∧
    sent s' = match queue with
              | [] => sent s
              | r' :: _ => take (Z.to_nat (length_ r')) (buffer r') :: sent s
              end)) as Hdone.
  { unfold mapping_done. apply wp_bind, (wp_the_impl _ _ c); [done|]. rewrite Eq. cbv zeta.
    apply wp_bind. eapply (wp_mono _ _ (λ _ s1, ∃ c1, impls s1 !! this = Some c1 ∧
      socket_ c1 = Some true ∧ sent s1 = sent s ∧
      mappings_ c1 = mappings_ c ++
        (if existsb (λ m', same_mapping m' (r, resp)) (mappings_ c) then [] else [(r, resp)]) ∧
      mapped s1 = (if existsb (λ m', same_mapping m' (r, resp)) (mappings_ c) ||
                      negb (nat_pmp_map_port_success_cb_ c) then []
                   else [(callback_protocol r, private, public)]) ++ mapped s)).
    - destruct (existsb _ _); cbn [negb when orb].
      + apply wp_ret. exists c. rewrite app_nil_r. done.
      + apply wp_bind. destruct (nat_pmp_map_port_success_cb_ c); cbn [when negb]; run;
          (eexists; split; [look|split_and!; done]).
    - intros _ s1 (c1&E1&Eo1&Es1&Em1&Ep1). run. unfold SendQueuedRequests.
      eapply wp_bind, wp_the_impl; [look|]. rewrite is_open_true by exact Eo1. cbn [when request_queue_ set_queue].
      destruct queue as [|r' queue].
      + apply wp_ret. eexists. split; [look|]. split_and!; done.
      + eapply wp_SendRequest; [look|exact Eo1|]. eexists. split; [look|].
        cbn [mapped sent]. rewrite Es1. split_and!; done. }
  unfold HandleResponse. apply wp_bind, (wp_the_impl _ _ c); [done|]. rewrite bool_decide_true by done.
  rewrite Ed. unfold mapping_response.
  eapply wp_bind, wp_liftR; [reflexivity|].
  eapply wp_bind, wp_liftR; [apply (ntohl_at_app [0; b1; 0; 0]); done|].
  eapply wp_bind, wp_liftR; [reflexivity|]. eapply wp_bind, wp_liftR; [reflexivity|].
  cbn [Z.eqb negb Z.lor Z.shiftl].
  rewrite (proj2 (Z.ltb_ge b1 128)), (proj2 (Z.ltb_ge 130 b1)) by lia. cbn [orb].
  rewrite (proj2 (Z.eqb_neq b1 128)) by lia. cbn [Z.mul Pos.mul Z.eqb negb Z.lor Z.shiftl Pos.iter].
  eapply wp_bind, wp_liftR; [exact (ntohs_at_app ([0; b1; 0; 0] ++ htonl ep) private _ Hpr)|].
  eapply wp_bind, wp_liftR;
    [exact (ntohs_at_app ([0; b1; 0; 0] ++ htonl ep ++ htons private) public _ Hpu)|].
  eapply wp_bind, wp_liftR;
    [exact (ntohl_at_app ([0; b1; 0; 0] ++ htonl ep ++ htons private ++ htons public) life _ Hl)|].
  replace (Z.land b1 0x7f) with (b1 - 128) by (by destruct Hb1 as [->| ->]).
  apply wp_bind. eapply wp_mono; [exact Hdone|]. intros [] s' Hs'. apply wp_ret. split; [done|exact Hs'].
Qed.

(** Any other datagram changes nothing: one that is not from the gateway, has
    another version, is no response, or reports an error is only logged. *)
Theorem natpmp_response_refused this s c b0 b1 result :
  impls s !! this = Some c → (16 ≤ length (data_ c))%nat →
  data_ c !! 0%nat = Some b0 → data_ c !! 1%nat = Some b1 → ntohs_at (data_ c) 2 = Ok result →
  endpoint_ c ≠ m_gateway_address_ c ∨ b0 ≠ 0 ∨ b1 < 128 ∨ 130 < b1 ∨ result ≠ 0 →
  ∃ code, code ≠ kResultSuccess ∧ HandleResponse address_v4 this s = Ok (code, s).
Proof.
  intros E Hlen E0 E1 E2 Hwrong. unfold HandleResponse, mbind, M_bind, self. rewrite E.
  destruct (decide (endpoint_ c = m_gateway_address_ c)) as [Ee|Ee];
    [rewrite bool_decide_true by done|rewrite bool_decide_false by done; by exists kErrorSourceConflict].
  unfold liftR. rewrite E2.
  destruct (ntohl_at (data_ c) 4) as [e|] eqn:E4.
  2: { exfalso. revert E4. unfold ntohl_at, ntohs_at. rewrite !byte_at_lt by lia. done. }
  unfold byte_at. rewrite E0, E1.
  destruct (Z.eqb_spec b0 0) as [->|]; cbn [negb]; [|by exists kResultUnsupportedVersion].
  destruct (Z.ltb_spec b1 128); cbn [orb]; [by exists kResultUnsupportedOpcode|].
  destruct (Z.ltb_spec 130 b1); [by exists kResultUnsupportedOpcode|].
  destruct (Z.eqb_spec result 0) as [->|]; cbn [negb]; [destruct Hwrong; [done|lia]|].
  exists (result_opcode result). split; [|done]. unfold result_opcode. by repeat case_match.
Qed.

(** What [Stop] posts for the mappings. *)
Definition deletions (this : handle) (l : list (MappingRequest * MappingResponse)) : list task :=
  (λ m, let protocol := default 0 (buffer m.1 !! 1%nat) in
    HSendMapping this (if protocol <? 128 then protocol else u32 (protocol - 256))
      (private_port m.2) (public_port m.2) 0) <$> l.

Lemma Stop_ok this s c :
  impls s !! this = Some c → socket_ c = Some true →
  Stop this s = Ok (tt, MkIo (client s) (<[this := set_socket None c]> (impls s))
    (tasks s ++ deletions this (mappings_ c)) (sent s) (mapped s)).
Proof.
  intros E Eo. unfold Stop, mbind at 1, M_bind at 1, self. rewrite E, (is_open_true c Eo). cbn [when].
  unfold mbind at 1, M_bind at 1.
  match goal with |- match ?each (mappings_ c) s with _ => _ end = _ =>
    assert (∀ l s1, each l s1 = Ok (tt, MkIo (client s1) (impls s1) (tasks s1 ++ deletions this l)
      (sent s1) (mapped s1))) as -> end.
  - induction l as [|[request response] l IH]; intros s1.
    + rewrite app_nil_r. by destruct s1.
    + unfold mbind, M_bind, SendMappingRequest, post, modify in IH |- *. rewrite IH.
      cbn [client impls tasks sent mapped deletions fmap list_fmap fst snd]. by rewrite <-app_assoc.
  - unfold upd. cbn [impls client tasks sent mapped]. by rewrite E.
Qed.

(** Stopping the client removes no mapping from the gateway: the requests to
    delete them are posted, but the socket is closed before they run, and each
    is dropped then; nothing is sent. *)
Theorem natpmp_stop_removes_nothing this s c :
  impls s !! this = Some c → socket_ c = Some true →
  ∃ s', Stop this s = Ok (tt, s') ∧ sent s' = sent s ∧
    tasks s' = tasks s ++ deletions this (mappings_ c) ∧
    ∀ i o t, t ∈ deletions this (mappings_ c) → tasks s' !! i = Some t →
      run_task v4_any address_v4 i o s' =
      Ok (tt, MkIo (client s') (impls s') (delete i (tasks s')) (sent s') (mapped s')).
Proof.
  intros E Eo. eexists. split; [by apply Stop_ok|]. do 2 (split; [done|]).
  intros i o t (m&->&_)%list_elem_of_fmap Hi. cbn [tasks] in Hi.
  unfold run_task, mbind, M_bind, get. cbn [tasks]. rewrite Hi. cbn [modify impls client sent mapped].
  unfold DoSendMappingRequest, mbind, M_bind, self. cbn [impls]. by rewrite lookup_insert_eq.
Qed.

(** A mapping response that answers nothing reads the front of an empty queue. *)
Lemma unsolicited_mapping_faults this s c response :
  impls s !! this = Some c → request_queue_ c = [] →
  mapping_done this response s = Fault OutOfBounds.
Proof. intros E Eq. unfold mapping_done, mbind, M_bind, self. by rewrite E, Eq. Qed.

(** [NatPmpClient::Stop] releases the object that the posted requests use. *)
Lemma stopped_client_dangles h s c protocol private public life i o s' :
  client s = Some h → impls s !! h = Some c → socket_ c = Some true →
  ClientStop s = Ok (tt, s') → tasks s' !! i = Some (HSendMapping h protocol private public life) →
  run_task v4_any address_v4 i o s' = Fault OutOfBounds.
Proof.
  intros Ec E Eo Es Hi. unfold ClientStop, mbind, M_bind, get in Es. rewrite Ec in Es.
  rewrite (Stop_ok h s c E Eo) in Es. unfold modify, delete_impl, mbind, M_bind, self in Es.
  cbn [impls client tasks sent mapped] in Es. rewrite lookup_insert_eq in Es.
  cbn [socket_ set_socket when mret M_ret] in Es. injection Es as <-. cbn [tasks] in Hi.
  unfold run_task, mbind, M_bind, get. cbn [tasks]. rewrite Hi. cbn [modify impls client sent mapped].
  unfold DoSendMappingRequest, mbind, M_bind, self. cbn [impls]. by rewrite lookup_delete_eq.
Qed.

(** A request queued when the public address is known already is not sent: only
    responses send. *)
Lemma late_request_waits this s c protocol private public life :
  impls s !! this = Some c → socket_ c = Some true →
  ∃ s', DoSendMappingRequest this protocol private public life s = Ok (tt, s') ∧
    sent s' = sent s ∧ tasks s' = tasks s.
Proof.
  intros E Eo. unfold DoSendMappingRequest, mbind, M_bind, self. rewrite E, (is_open_true c Eo).
  cbn [when]. unfold upd. rewrite E. eexists. split; [done|]. done.
Qed.
End properties.

Module NatPmpExamples.
Definition simulated : IpAddress := Sim.ip.
#[local] Existing Instance simulated.
Definition any : ip_address := Sim.V4 0 0 0 0.
Definition of_number (z : Z) : ip_address := Sim.V4 (z ≫ 24) (u8 (z ≫ 16)) (u8 (z ≫ 8)) (u8 z).
Definition gateway : ip_address := Sim.V4 192 168 0 1.

(** The client at 1 has connected its socket. *)
Definition connected : Impl :=
  set_socket (Some true) (set_gateway gateway (new_impl any (replicate 512 0))).
Definition io (c : Impl) : Io := MkIo (Some 1%positive) {[ 1%positive := c ]} [] [] [].

(** No response comes: the first of what waits runs each time; nothing can be sent. *)
Definition starting : Io := MkIo (Some 1%positive) {[ 1%positive := connected ]} [HConnect 1%positive] [] [].
Definition silence : list outcome := success [] gateway :: concat (replicate 9 [failure; success [] gateway]).
Definition after (o : outcome) (s : Io) : Io := (from_ok (tt, s) (run_task any of_number 0 o s)).2.
Definition can_follow (o : outcome) (s : Io) : bool :=
  match impls s !! 1%positive, tasks s !! 0%nat, o with
  | Some c, Some (HConnect _ | HRetransmit _), success _ _ => is_ok (run_task any of_number 0 o s)
  | Some c, Some (HSend _), failure => is_open c && is_ok (run_task any of_number 0 o s)
  | _, _, _ => false
  end.
Fixpoint follows (os : list outcome) (s : Io) : bool :=
  match os with [] => true | o :: os => can_follow o s && follows os (after o s) end.

Lemma follows_run os s0 : ∀ n s, quiet_run any of_number 1%positive s0 n s → follows os s = true →
  quiet_run any of_number 1%positive s0 (length os + n) (foldl (λ s o, after o s) s os).
Proof.
  induction os as [|o os IH]; intros n s Hr Hf; [done|]. cbn [follows foldl length] in *. apply andb_true_iff in Hf as [Hc Hf].
  replace (S (length os) + n)%nat with (length os + S n)%nat by lia. apply IH; [|done].
  unfold can_follow in Hc. destruct (impls s !! 1%positive) as [c|] eqn:Ec; [|done].
  assert (∀ t, tasks s !! 0%nat = Some t → quiet 1%positive s 0 o → is_ok (run_task any of_number 0 o s) = true →
    quiet_run any of_number 1%positive s0 (S n) (after o s)) as Hstep.
  { intros t Et Hq Hok. eapply quiet_step; [exact Hr|exact Hq|]. rewrite (from_ok_eq (tt, s) _ Hok). unfold after.
    by destruct (from_ok _ _) as [[] ?]. }
  destruct (tasks s !! 0%nat) as [t|] eqn:Et; [|done].
  destruct t, o as [| |bytes from]; try done; try (apply andb_true_iff in Hc as [Ho%bool_decide_eq_true Hc]);
    (eapply Hstep; [done| |done]); exists c; eexists; (split; [done|]); (split; [done|]); cbn.
  - by exists bytes, from.
  - by exists bytes, from.
  - congruence.
Qed.


(** It asked to map TCP port 80, and the gateway grants port 8080. *)
Definition asked : MappingRequest := mapping_request kTcp 80 80 3600.
Definition answered : Impl :=
  set_received (mapping_response 130 7 80 8080 3600 []) gateway (set_queue [asked] connected).

Lemma natpmp_mapping_recorded_witness :
  wp (HandleResponse of_number 1%positive) (io answered) (λ _ s', ∃ c',
    impls s' !! 1%positive = Some c' ∧ request_queue_ c' = [] ∧
    mappings_ c' = [(asked, MkMappingResponse 2 0 80 8080 7 3600 ip_none)]).
Proof.
  eapply wp_mono.
  - apply (natpmp_mapping_recorded of_number 1%positive (io answered) answered asked [] 130 7 80 8080 3600
      (replicate 496 0)); first [done|by right|by split; vm_compute].
  - intros _ s' (_&c'&E&Eq&Em&_). exists c'. split; [exact E|]. split; [exact Eq|exact Em].
Defined.

Lemma natpmp_response_refused_witness :
  HandleResponse of_number 1%positive (io (set_received [0; 0] any connected)) =
  Ok (kErrorSourceConflict, io (set_received [0; 0] any connected)).
Proof.
  destruct (natpmp_response_refused of_number 1%positive (io (set_received [0; 0] any connected))
    (set_received [0; 0] any connected) 0 0 0) as (code&_&E).
  - done.
  - cbn. lia.
  - done.
  - done.
  - done.
  - by left.
  - rewrite E. vm_compute in E. by injection E as <-.
Defined.

Lemma natpmp_stop_removes_nothing_witness :
  ∃ s', Stop 1%positive (io (set_mappings [(asked, MkMappingResponse 2 0 80 8080 7 3600 ip_none)] connected))
      = Ok (tt, s') ∧ sent s' = [] ∧ length (tasks s') = 1%nat.
Proof.
  destruct (natpmp_stop_removes_nothing any of_number 1%positive
    (io (set_mappings [(asked, MkMappingResponse 2 0 80 8080 7 3600 ip_none)] connected))
    (set_mappings [(asked, MkMappingResponse 2 0 80 8080 7 3600 ip_none)] connected)) as (s'&E&Es&Et&_).
  - done.
  - done.
  - exists s'. split; [exact E|]. split; [exact Es|]. rewrite Et. done.
Defined.
End NatPmpExamples.
