(* ===== verification/MiniUpnp.v ===== *)
(** * miniupnpc: the commands of a UPnP gateway

    Models the part of src/maidsafe/transport/libupnp/ that [Upnp] calls: minixml.c,
    upnpreplyparse.c, parseURL of miniwget.c, soapPostSubmit of minisoap.c,
    simpleUPnPcommand of miniupnpc.c and the commands of upnpcommands.c.  A request
    and its answer are bytes; what the network and the gateway make of a request is
    the class [Network].  Reading or writing outside a buffer is a fault, and so is a
    number that does not fit into an [int]. *)

From stdpp Require Import strings.
From S2P Require Import Prelude Text.

(** ** Characters *)

Definition lit (s : string) : list Z := codes s.
Arguments lit s%_string_scope.
Definition crlf : list Z := [13; 10].
Definition quoted (s : list Z) : list Z := [34] ++ s ++ [34].
Definition INT_MAX : Z := 2147483647.
Definition is_digit (c : Z) : bool := (48 <=? c) && (c <=? 57).

(** ** minixml.c *)

Definition IS_WHITE_SPACE (c : Z) : bool := (c =? 32) || (c =? 9) || (c =? 13) || (c =? 10).

(** [while (!stop( *p->xml)) { p->xml++; if (p->xml >= p->xmlend) return; }], with the
    characters that it passes *)
Fixpoint scan (stop : Z → bool) (xml : list Z) : option (list Z * list Z) :=
  match xml with
  | [] => None
  | c :: xml' => if stop c then Some ([], xml) else prod_map (cons c) id <$> scan stop xml'
  end.

Section minixml.
Context {data : Type} (starteltfunc datafunc : list Z → data → data).
(** The byte at [xmlend], just behind the text *)
Context (past : Res Z).

(** [Ok None]: the end of the buffer is reached *)
Fixpoint parseatt (fuel : nat) (xml : list Z) : Res (option (list Z)) :=
  match fuel with
  | O => Fault OutOfFuel
  | S fuel =>
      match xml with
      | [] => Ok None
      | c :: xml' =>
          if (c =? 47) || (c =? 62) then Ok (Some xml)
          else if IS_WHITE_SPACE c then parseatt fuel xml'
          else
            match scan (λ c, (c =? 61) || IS_WHITE_SPACE c) xml ≫= scan (Z.eqb 61) ∘ snd with
            | None => Ok None
            | Some (_, xml) =>
                match tail xml with
                | [] => past;; Ok None
                | xml =>
                    match scan (λ c, negb (IS_WHITE_SPACE c)) xml with
                    | Some (_, sep :: xml) =>
                        if (sep =? 39) || (sep =? 34) then
                          match scan (Z.eqb sep) xml with
                          | Some (_, xml) => parseatt fuel (tail xml)
                          | None => Ok None
                          end
                        else
                          match scan (λ c, IS_WHITE_SPACE c || (c =? 62) || (c =? 47)) (sep :: xml) with
                          | Some (_, xml) => parseatt fuel (tail xml)
                          | None => Ok None
                          end
                    | _ => Ok None
                    end
                end
            end
      end
  end.

Definition name_end (c : Z) : bool := IS_WHITE_SPACE c || (c =? 62) || (c =? 47).
(** The name of an element without its prefix *)
Fixpoint scan_name (elementname xml : list Z) : Res (option (list Z * list Z)) :=
  match xml with
  | [] => c ← past; Ok (if name_end c then Some (elementname, []) else None)
  | c :: xml' =>
      if name_end c then Ok (Some (elementname, xml))
      else
        match xml' with
        | [] => Ok None
        | d :: xml'' => if d =? 58 then scan_name [] xml'' else scan_name (elementname ++ [c]) xml'
        end
  end.

Fixpoint parseelt (fuel : nat) (xml : list Z) (d : data) : Res data :=
  match fuel with
  | O => Fault OutOfFuel
  | S fuel =>
      match xml with
      | a :: (b :: _) as xml' =>
          if (a =? 60) && negb (b =? 63) then
            name ← scan_name [] xml';
            match name with
            | None => Ok d
            | Some ([], xml) =>
                c ← match xml with c :: _ => Ok c | [] => past end;
                if c =? 47 then
                  match scan (Z.eqb 62) (tail xml) with
                  | Some (_, xml) => parseelt fuel (tail xml) d
                  | None => Ok d
                  end
                else parseelt fuel xml d
            | Some (elementname, xml) =>
                let d := starteltfunc elementname d in
                atts ← parseatt (S (length xml)) xml;
                match atts with
                | None => Ok d
                | Some (c :: xml) =>
                    if c =? 47 then parseelt fuel (c :: xml) d
                    else
                      (* the length leaves out the white space, [xml] has it still *)
                      match scan (λ c, negb (IS_WHITE_SPACE c)) xml ≫= scan (Z.eqb 60) ∘ snd with
                      | None => Ok d
                      | Some (text, xml') =>
                          let i := length text in
                          parseelt fuel xml' (if (0 <? i)%nat then datafunc (take i xml) d else d)
                      end
                | Some [] => Ok d
                end
            end
          else parseelt fuel xml' d
      | _ => Ok d
      end
  end.
End minixml.

(** [xmlsize] is at most the length of the buffer. *)
Definition past_end (xmlstart : list Z) (xmlsize : nat) : Res Z :=
  match xmlstart !! xmlsize with Some c => Ok c | None => Fault OutOfBounds end.
Definition parsexml {data} (starteltfunc datafunc : list Z → data → data) (xmlstart : list Z) (xmlsize : nat) (d : data) : Res data :=
  parseelt starteltfunc datafunc (past_end xmlstart xmlsize) (S xmlsize) (take xmlsize xmlstart) d.

(** ** upnpreplyparse.c *)

(** Names and values, the latest first *)
Record NameValueParserData := MkNameValueParserData {
  head : list (list Z * list Z);
  curelt : list Z;
}.
Definition NameValueParserStartElt (name : list Z) (d : NameValueParserData) : NameValueParserData :=
  MkNameValueParserData (head d) (take 63 name).
Definition NameValueParserGetData (datas : list Z) (d : NameValueParserData) : NameValueParserData :=
  MkNameValueParserData ((c_string (curelt d), take 63 datas) :: head d) (curelt d).
Definition ParseNameValue (buffer : list Z) (bufsize : nat) : Res NameValueParserData :=
  parsexml NameValueParserStartElt NameValueParserGetData buffer bufsize (MkNameValueParserData [] []).
Definition GetValueFromNameValueList (pdata : NameValueParserData) (Name : list Z) : option (list Z) :=
  (c_string ∘ snd ∘ snd) <$> list_find (λ nv, nv.1 = Name) (head pdata).

(** ** sscanf *)

Definition is_space (c : Z) : bool := (c =? 32) || ((9 <=? c) && (c <=? 13)).
Fixpoint skip_space (s : list Z) : list Z :=
  match s with c :: s' => if is_space c then skip_space s' else s | [] => [] end.
(** The number that a text begins with, if it does *)
Fixpoint number (acc : option Z) (s : list Z) : option Z :=
  match s with
  | c :: s' => if is_digit c then number (Some (default 0 acc * 10 + (c - 48))) s' else acc
  | [] => acc
  end.
(** [sscanf(s, "%d", &ret)] *)
Definition sscanf_d (s : list Z) (ret : Z) : Res Z :=
  let s := skip_space s in
  let v := match s with
           | c :: s' => if c =? 45 then Z.opp <$> number None s' else if c =? 43 then number None s' else number None s
           | [] => None
           end in
  match v with
  | None => Ok ret
  | Some v => if (- INT_MAX - 1 <=? v) && (v <=? INT_MAX) then Ok v else Fault OutOfBounds
  end.

(** ** Receiving an answer: miniupnpc.c *)

Definition buffer_size : nat := 4096.
Definition byte_at (buffer : list Z) (i : nat) : Res Z :=
  match buffer !! i with Some c => Ok c | None => Fault OutOfBounds end.

Definition contlenstr : list Z := lit "content-length".
Fixpoint match_header (p2 p : list Z) (n : nat) : Res (option (list Z * nat)) :=
  match p2 with
  | [] => Ok (Some (p, n))
  | c2 :: p2 =>
      match n with
      | O => Ok None
      | S n =>
          match p with
          | [] => Fault OutOfBounds
          | c :: p => if (c2 =? c) || (c2 =? c + 32) then match_header p2 p n else Ok None
          end
      end
  end.
Fixpoint skip_blanks (p : list Z) (n : nat) : Res (option (list Z * nat)) :=
  match p with
  | [] => Fault OutOfBounds
  | c :: p' => if c =? 32 then match n with O => Ok None | S n => skip_blanks p' n end else Ok (Some (p, n))
  end.
Fixpoint content_length (a : Z) (p : list Z) (n : nat) : Res Z :=
  match p with
  | [] => Fault OutOfBounds
  | c :: p =>
      if is_digit c then
        match n with
        | O => Ok (-1)
        | S n =>
            let a := a * 10 + (c - 48) in
            if a <=? INT_MAX then content_length a p n else Fault OutOfBounds
        end
      else Ok a
  end.
Definition getcontentlenfromline (p : list Z) (n : nat) : Res Z :=
  h ← match_header contlenstr p n;
  match h with
  | None | Some (_, O) => Ok (-1)
  | Some ([], _) => Fault OutOfBounds
  | Some (c :: p, S n) =>
      if c =? 58 then
        b ← skip_blanks p n;
        match b with None => Ok (-1) | Some (p, n) => content_length 0 p n end
      else Ok (-1)
  end.

(** The length of the line that begins at [line]; [None] when the [n] bytes end first *)
Fixpoint line_length (fuel : nat) (p : list Z) (n line linelen : nat) : Res (option nat) :=
  match fuel with
  | O => Fault OutOfFuel
  | S fuel =>
      c ← byte_at p (line + linelen);
      if c =? 13 then Ok (Some linelen)
      else if (n <=? line + linelen)%nat then Ok None
      else line_length fuel p n line (S linelen)
  end.
(** [lens] is [( *contentlen, *headerlen)]. *)
Fixpoint header_lines (fuel : nat) (p : list Z) (n line : nat) (lens : Z * Z) : Res (Z * Z) :=
  match fuel with
  | O => Fault OutOfFuel
  | S fuel =>
      if (line <? n)%nat then
        l ← line_length (S n) p n line 0;
        match l with
        | None => Ok lens
        | Some linelen =>
            r ← getcontentlenfromline (drop line p) linelen;
            let lens := if 0 <? r then (r, lens.2) else lens in
            let line := (line + linelen + 2)%nat in
            a ← byte_at p line;
            b ← (if a =? 13 then byte_at p (S line) else Ok 0);
            if (a =? 13) && (b =? 10) then Ok (lens.1, Z.of_nat line + 2)
            else header_lines fuel p n line lens
        end
      else Ok lens
  end.
Definition getContentLengthAndHeaderLength (p : list Z) (n : nat) (lens : Z * Z) : Res (Z * Z) :=
  header_lines (S n) p n 0 lens.

(** The bytes of [c] in the buffer from [i] on *)
Definition write_at (i : nat) (c buffer : list Z) : list Z := take i buffer ++ c ++ drop (i + length c) buffer.
(** The loop around [ReceiveData], which finds the pieces of the answer one by one and
    in the end a closed connection or nothing for five seconds *)
Fixpoint receive (pieces : list (list Z)) (buffer : list Z) (bufsize : nat) (lens : Z * Z) : Res (list Z * nat) :=
  match pieces with
  | [] => Ok (buffer, bufsize)
  | piece :: pieces =>
      match take (buffer_size - bufsize) piece with
      | [] => Ok (buffer, bufsize)
      | c =>
          let buffer := write_at bufsize c buffer in
          let bufsize := (bufsize + length c)%nat in
          lens ← getContentLengthAndHeaderLength buffer bufsize lens;
          if (0 <? lens.1) && (0 <? lens.2) && (lens.1 + lens.2 <=? Z.of_nat bufsize)
          then Ok (buffer, bufsize) else receive pieces buffer bufsize lens
      end
  end.

(** ** Sending a request *)

(** [parseURL]: hostname, port and path *)
Fixpoint strstr (needle s : list Z) : option (list Z) :=
  if bool_decide (take (length needle) s = needle) then Some s
  else match s with _ :: s => strstr needle s | [] => None end.
Definition strchr (c : Z) (s : list Z) : option nat := fst <$> list_find (λ x, x = c) s.
Definition MAXHOSTNAMELEN : nat := 64.
Fixpoint url_port (port : Z) (p2 : list Z) : Z :=
  match p2 with
  | c :: p2 => if is_digit c then url_port (u16 (u16 (port * 10) + (c - 48))) p2 else port
  | [] => port
  end.
Definition parseURL (url : list Z) : option (list Z * Z * list Z) :=
  p1 ← drop 3 <$> strstr (lit "://") url;
  if bool_decide (take 4 url = lit "http") then
    p3 ← strchr 47 p1;
    let at_p3 := (take (MAXHOSTNAMELEN `min` p3) p1, 80, drop p3 p1) in
    match strchr 58 p1 with
    | Some p2 =>
        if (p3 <? p2)%nat then Some at_p3
        else Some (take (MAXHOSTNAMELEN `min` p2) p1, url_port 0 (drop (S p2) p1), drop p3 p1)
    | None => Some at_p3
    end
  else None.

(** [soapPostSubmit]: what it sends, unless the headers overflow their buffer *)
Definition portstr (port : Z) : list Z := if port =? 80 then [] else [58] ++ decimal port.
Definition headers (url host : list Z) (port : Z) (action : list Z) (bodysize : nat) : list Z :=
  lit "POST " ++ url ++ lit " HTTP/1.1" ++ crlf ++
  lit "Host: " ++ host ++ portstr port ++ crlf ++
  lit "User-Agent: maidsafe, UPnP/1.0, MiniUPnPc/1.3" ++ crlf ++
  lit "Content-Length: " ++ decimal (Z.of_nat bodysize) ++ crlf ++
  lit "Content-Type: text/xml" ++ crlf ++
  lit "SOAPAction: " ++ quoted action ++ crlf ++
  lit "Connection: Close" ++ crlf ++
  lit "Cache-Control: no-cache" ++ crlf ++
  lit "Pragma: no-cache" ++ crlf ++ crlf.
Definition soapPostSubmit (url host : list Z) (port : Z) (action body : list Z) : Res (list Z) :=
  let headerbuf := headers url host port action (length body) in
  if (length headerbuf <? 512)%nat then Ok (headerbuf ++ body) else Fault OutOfBounds.

(** The body of a request, in a buffer of 2048 bytes *)
Definition soapbody_size : nat := 2048.
Definition soap_open (action service : list Z) : list Z :=
  lit "<?xml version=" ++ quoted (lit "1.0") ++ lit "?>" ++ crlf ++
  lit "<s:Envelope xmlns:s=" ++ quoted (lit "http://schemas.xmlsoap.org/soap/envelope/") ++
  lit " s:encodingStyle=" ++ quoted (lit "http://schemas.xmlsoap.org/soap/encoding/") ++ lit ">" ++
  lit "<s:Body>" ++
  lit "<u:" ++ action ++ lit " xmlns:u=" ++ quoted service ++ lit ">".
Definition soap_close (action : list Z) : list Z :=
  lit "</u:" ++ action ++ lit "></s:Body></s:Envelope>" ++ crlf.
(** An argument: its name and its value, which may be [NULL] *)
Definition UPNParg : Type := list Z * option (list Z).
Definition argument (arg : UPNParg) : list Z :=
  lit "<" ++ arg.1 ++ lit ">" ++ default [] arg.2 ++ lit "</" ++ arg.1 ++ lit ">".
(** What is written before [p]; [None]: no room is left *)
Fixpoint put_args (args : list UPNParg) (p : list Z) : Res (option (list Z)) :=
  match args with
  | [] => Ok (Some p)
  | arg :: args =>
      if (soapbody_size <=? length p + 100)%nat then Ok None
      else
        let p := p ++ argument arg in
        if (length p <=? soapbody_size)%nat then put_args args p else Fault OutOfBounds
  end.
Definition soap_body (action service : list Z) (args : option (list UPNParg)) : Res (option (list Z)) :=
  match args with
  | None => Ok (Some (take (soapbody_size - 1) (soap_open action service ++ soap_close action)))
  | Some args =>
      p ← put_args args (soap_open action service);
      match p with
      | None => Ok None
      | Some p =>
          let body := p ++ soap_close action in
          if (length body <? soapbody_size)%nat then Ok (Some body) else Fault OutOfBounds
      end
  end.

Class Network := {
  gateway : Type;
  (** a connection to a host and port *)
  connect : list Z → Z → gateway → bool * gateway;
  (** the bytes of a request, sent there; [None]: they are not sent; or the pieces of
      the answer as they arrive, until the connection closes or is silent *)
  submit : list Z → Z → list Z → gateway → option (list (list Z)) * gateway;
  (** what the stack holds where a command has its buffer *)
  stack : gateway → nat → Z;
}.

Section commands.
Context `{Network}.

(** A call that changes the gateway *)
Definition on_gateway {A} (f : gateway → A * gateway) : M gateway A := λ g, Ok (f g).

(** [snprintf] of the SOAPAction, in a buffer of 128 bytes *)
Definition soapact (service action : list Z) : list Z := take 127 (service ++ lit "#" ++ action).

(** Its result, the buffer and [*bufsize] *)
Definition simpleUPnPcommand (url service action : list Z) (args : option (list UPNParg)) (buffer : list Z) : M gateway (Z * list Z * nat) :=
  body ← liftR (soap_body action service args);
  match body with
  | None => mret (-1, buffer, 0%nat)
  | Some body =>
      match parseURL url with
      | None => mret (-1, buffer, buffer_size)
      | Some (hostname, port, path) =>
          connected ← on_gateway (connect hostname port);
          if connected : bool then
            request ← liftR (soapPostSubmit path hostname port (soapact service action) body);
            pieces ← on_gateway (submit hostname port request);
            match pieces with
            | None => mret (-1, buffer, buffer_size)
            | Some pieces =>
                b ← liftR (receive pieces buffer 0 (-1, -1));
                mret (0, b.1, b.2)
            end
          else mret (-1, buffer, 0%nat)
      end
  end.

(** ** upnpcommands.c *)

Definition UPNPCOMMAND_SUCCESS : Z := 0.
Definition UPNPCOMMAND_UNKNOWN_ERROR : Z := -1.
Definition UPNPCOMMAND_INVALID_ARGS : Z := -2.

(** A command's buffer, the request and the answer as names and values; what
    [simpleUPnPcommand] returns is not looked at *)
Definition command (controlURL servicetype action : list Z) (args : option (list UPNParg)) : M gateway NameValueParserData :=
  g ← get;
  r ← simpleUPnPcommand controlURL servicetype action args (stack g <$> seq 0 buffer_size);
  liftR (ParseNameValue r.1.2 r.2).

(** The code of an error in the answer, or else [ret] *)
Definition error_code (pdata : NameValueParserData) (ret : Z) : Res Z :=
  match GetValueFromNameValueList pdata (lit "errorCode") with
  | Some resVal => sscanf_d resVal UPNPCOMMAND_UNKNOWN_ERROR
  | None => Ok ret
  end.

Definition AddPortMappingArgs (extPort inPort inClient : list Z) (desc : option (list Z)) (proto : list Z) (remoteHost : option (list Z)) : list UPNParg :=
  [(lit "NewRemoteHost", remoteHost); (lit "NewExternalPort", Some extPort); (lit "NewProtocol", Some proto);
   (lit "NewInternalPort", Some inPort); (lit "NewInternalClient", Some inClient); (lit "NewEnabled", Some (lit "1"));
   (lit "NewPortMappingDescription", Some (default (lit "libminiupnpc") desc)); (lit "NewLeaseDuration", Some (lit "0"))].
Definition UPNP_AddPortMapping (controlURL servicetype : list Z)
    (extPort inPort inClient desc proto remoteHost : option (list Z)) : M gateway Z :=
  match inPort, inClient, proto, extPort with
  | Some inPort, Some inClient, Some proto, Some extPort =>
      pdata ← command controlURL servicetype (lit "AddPortMapping")
        (Some (AddPortMappingArgs extPort inPort inClient desc proto remoteHost));
      liftR (error_code pdata UPNPCOMMAND_SUCCESS)
  | _, _, _, _ => mret UPNPCOMMAND_INVALID_ARGS
  end.

Definition DeletePortMappingArgs (extPort proto : list Z) (remoteHost : option (list Z)) : list UPNParg :=
  [(lit "NewRemoteHost", remoteHost); (lit "NewExternalPort", Some extPort); (lit "NewProtocol", Some proto)].
Definition UPNP_DeletePortMapping (controlURL servicetype : list Z) (extPort proto remoteHost : option (list Z)) : M gateway Z :=
  match extPort, proto with
  | Some extPort, Some proto =>
      pdata ← command controlURL servicetype (lit "DeletePortMapping") (Some (DeletePortMappingArgs extPort proto remoteHost));
      liftR (error_code pdata UPNPCOMMAND_SUCCESS)
  | _, _ => mret UPNPCOMMAND_INVALID_ARGS
  end.

(** The result and the address, in a buffer of 16 bytes; the arguments are not [NULL] *)
Definition UPNP_GetExternalIPAddress (controlURL servicetype : list Z) : M gateway (Z * list Z) :=
  pdata ← command controlURL servicetype (lit "GetExternalIPAddress") None;
  let p := GetValueFromNameValueList pdata (lit "NewExternalIPAddress") in
  ret ← liftR (error_code pdata (if p is Some _ then UPNPCOMMAND_SUCCESS else UPNPCOMMAND_UNKNOWN_ERROR));
  mret (ret, take 15 (default [] p)).

(** The result and the status, which is asked for together with the uptime *)
Definition UPNP_GetStatusInfo (controlURL servicetype : list Z) : M gateway (Z * list Z) :=
  pdata ← command controlURL servicetype (lit "GetStatusInfo") None;
  let up := GetValueFromNameValueList pdata (lit "NewUptime") in
  let p := GetValueFromNameValueList pdata (lit "NewConnectionStatus") in
  ret ← liftR (error_code pdata (match p, up with Some _, Some _ => UPNPCOMMAND_SUCCESS | _, _ => UPNPCOMMAND_UNKNOWN_ERROR end));
  mret (ret, take 63 (default [] p)).
End commands.

(** ** What the parser reads of a document *)

(** A document as the tags in it, each with the text up to the next; whether they match
    does not matter to the parser. *)
Inductive token :=
  | Instruction (text : list Z)
  | StartTag (prefix name : list Z) (atts : list (list Z * list Z)) (text : list Z)
  | EmptyTag (prefix name : list Z) (atts : list (list Z * list Z)) (text : list Z)
  | EndTag (name text : list Z).
Definition render_name (prefix name : list Z) : list Z :=
  match prefix with [] => name | _ => prefix ++ [58] ++ name end.
Definition render_atts (atts : list (list Z * list Z)) : list Z :=
  concat ((λ a, [32] ++ a.1 ++ [61] ++ quoted a.2) <$> atts).
Definition render_token (t : token) : list Z :=
  match t with
  | Instruction text => [60; 63] ++ text
  | StartTag prefix name atts text => [60] ++ render_name prefix name ++ render_atts atts ++ [62] ++ text
  | EmptyTag prefix name atts text => [60] ++ render_name prefix name ++ render_atts atts ++ [47; 62] ++ text
  | EndTag name text => [60; 47] ++ name ++ [62] ++ text
  end.
Definition render (doc : list token) : list Z := concat (render_token <$> doc).

Definition name_ok (name : list Z) : Prop := name ≠ [] ∧ Forall (λ c, name_end c = false ∧ c ≠ 58 ∧ c ≠ 63) name.
Definition prefix_ok (prefix : list Z) : Prop := Forall (λ c, name_end c = false ∧ c ≠ 58 ∧ c ≠ 63) prefix.
Definition att_ok (a : list Z * list Z) : Prop :=
  a.1 ≠ [] ∧ Forall (λ c, name_end c = false ∧ c ≠ 61) a.1 ∧ Forall (λ c, c ≠ 34) a.2.
Definition text_ok (text : list Z) : Prop := Forall (λ c, c ≠ 60) text.
Definition token_ok (t : token) : Prop :=
  match t with
  | Instruction text => text_ok text
  | StartTag prefix name atts text | EmptyTag prefix name atts text =>
      prefix_ok prefix ∧ name_ok name ∧ Forall att_ok atts ∧ text_ok text
  | EndTag name text => Forall (λ c, c ≠ 62) name ∧ text_ok text
  end.
(** A document does not end in a start tag. *)
Definition ends_ok (doc : list token) : Prop := match last doc with Some (StartTag _ _ _ _) => False | _ => True end.

(** What the callbacks are told: elements that start, with the text behind the tag,
    which has its white space in front but loses as many characters at its end *)
Fixpoint trim (s : list Z) : list Z :=
  match s with c :: s' => if IS_WHITE_SPACE c then trim s' else s | [] => [] end.
Definition shown (text : list Z) : list Z := take (length (trim text)) text.
Definition events (t : token) : list (list Z * list Z) :=
  match t with
  | StartTag _ name _ text => [(name, shown text)]
  | EmptyTag _ name _ _ => [(name, [])]
  | _ => []
  end.

Section parsing.
Context {data : Type} (starteltfunc datafunc : list Z → data → data) (past : Res Z).
Implicit Types (xml w : list Z) (d : data).

Definition notify (d : data) (e : list Z * list Z) : data :=
  let d := starteltfunc e.1 d in match e.2 with [] => d | text => datafunc text d end.

Lemma scan_split stop xml s w : scan stop xml = Some (s, w) → xml = s ++ w ∧ ∃ c w', w = c :: w' ∧ stop c = true.
Proof.
  revert s. induction xml as [|c xml IH]; intros s; cbn; [done|]. destruct (stop c) eqn:Ec.
  - intros [= <- <-]. split; [done|]. by exists c, xml.
  - intros ([s' w']&E&[= -> ->])%fmap_Some. destruct (IH _ E) as [-> Hw]. by split.
Qed.
Lemma scan_app stop s c w : Forall (λ c, stop c = false) s → stop c = true → scan stop (s ++ c :: w) = Some (s, c :: w).
Proof. intros Hs Hc. induction Hs as [|x s Hx Hs IH]; cbn; [by rewrite Hc|]. by rewrite Hx, IH. Qed.

Lemma scan_length stop xml s w : scan stop xml = Some (s, w) → (length w ≤ length xml)%nat ∧ w ≠ [].
Proof. intros (->&c&w'&->&_)%scan_split. rewrite length_app. split; [lia|done]. Qed.
Lemma scan2_length stop1 stop2 xml s w :
  scan stop1 xml ≫= scan stop2 ∘ snd = Some (s, w) → (length w ≤ length xml)%nat ∧ w ≠ [].
Proof.
  intros ([s1 w1]&E1%scan_length&E2)%bind_Some. cbn in E2. apply scan_length in E2. split; [lia|tauto].
Qed.
Lemma tail_length w : w ≠ [] → (length (tail w) < length w)%nat.
Proof. destruct w; cbn; [done|lia]. Qed.

Lemma scan_name_length name xml name' w : scan_name past name xml = Ok (Some (name', w)) → (length w ≤ length xml)%nat.
Proof.
  remember (length xml) as n eqn:En. assert (length xml ≤ n)%nat as Hn by lia. clear En.
  revert name xml Hn. induction n as [|n IH]; intros name [|c xml] Hn; cbn [scan_name length] in *; try lia.
  1-2: unfold mbind, Res_bind; destruct past as [c|]; [|done]; destruct (name_end c); [|done]; intros [= _ <-]; cbn; lia.
  destruct (name_end c); [intros [= _ <-]; cbn; lia|]. destruct xml as [|x xml]; [done|]. cbn in Hn.
  destruct (x =? 58); intros E%IH; cbn; lia.
Qed.

Lemma parseatt_length fuel xml w : parseatt past fuel xml = Ok (Some w) → (length w ≤ length xml)%nat.
Proof.
  revert xml. induction fuel as [|fuel IH]; intros xml; [done|]. cbn [parseatt].
  destruct xml as [|c xml]; [done|]. destruct (_ || _); [by intros [= <-]|]. destruct (IS_WHITE_SPACE c); [intros E%IH; cbn; lia|].
  destruct (scan _ _ ≫= _) as [[s w1]|] eqn:E1; [|done]. apply scan2_length in E1 as [L1 N1]. apply tail_length in N1.
  destruct (tail w1) as [|y w2]; [unfold mbind, Res_bind; by destruct past|].
  destruct (scan _ (y :: w2)) as [[s2 [|sep w3]]|] eqn:E2; try done. apply scan_length in E2 as [L2 N2]. cbn [length] in *.
  destruct (_ || _).
  - destruct (scan _ w3) as [[s4 w4]|] eqn:E4; [|done]. apply scan_length in E4 as [L4 N4%tail_length]. intros E%IH. lia.
  - destruct (scan _ (sep :: w3)) as [[s4 w4]|] eqn:E4; [|done]. apply scan_length in E4 as [L4 N4%tail_length]. cbn [length] in *. intros E%IH. lia.
Qed.

(** Any fuel above the length of the text will do. *)
Lemma parseelt_fuel n m xml d : (length xml < n)%nat → (length xml < m)%nat →
  parseelt starteltfunc datafunc past n xml d = parseelt starteltfunc datafunc past m xml d.
Proof.
  revert m xml d. induction n as [|n IH]; intros m xml d Hn Hm; [lia|]. destruct m as [|m]; [lia|]. cbn [parseelt].
  destruct xml as [|a [|b xml]]; try done. assert (∀ w d, (length w ≤ length (b :: xml))%nat →
    parseelt starteltfunc datafunc past n w d = parseelt starteltfunc datafunc past m w d) as IHw
    by (intros; apply IH; cbn in *; lia). clear IH.
  destruct (_ && _); [|by apply IHw]. unfold mbind, Res_bind.
  destruct (scan_name past [] (b :: xml)) as [[[name w]|]|] eqn:Es; try done. apply scan_name_length in Es.
  destruct name as [|c0 name].
  - destruct (match w with [] => past | c :: _ => Ok c end) as [c|]; [|done].
    destruct (c =? 47); [|by apply IHw]. destruct (scan _ (tail w)) as [[s w']|] eqn:E; [|done]. apply IHw.
    apply scan_length in E as [L N%tail_length]. destruct w; cbn in *; lia.
  - destruct (parseatt past _ w) as [[[|c w']|]|] eqn:Ea; try done. apply parseatt_length in Ea. cbn [length] in *.
    destruct (c =? 47); [apply IHw; cbn; lia|].
    change (λ a, option_bind _ _ _ a) with (λ a : option (list Z * list Z), a ≫= scan (Z.eqb 60) ∘ snd).
    destruct (option_bind _ _ _ _) as [[s w2]|] eqn:E; [|done]. apply IHw. apply scan2_length in E. lia.
Qed.

Definition parse xml d : Res data := parseelt starteltfunc datafunc past (S (length xml)) xml d.

(** Text is passed over, up to a tag. *)
Lemma parse_skip c w d : c ≠ 60 ∨ (∃ w', w = 63 :: w') → parse (c :: w) d = parse w d.
Proof.
  intros Hc. destruct w as [|b w]; [done|]. unfold parse at 1. remember (length (c :: b :: w)) as n eqn:En. cbn [parseelt].
  replace ((c =? 60) && negb (b =? 63)) with false by (destruct Hc as [Hc|(w'&[= -> _])]; lia).
  apply parseelt_fuel; subst n; cbn; lia.
Qed.
Lemma parse_text s w d : text_ok s → parse (s ++ w) d = parse w d.
Proof. induction 1 as [|c s Hc Hs IH]; [done|]. cbn [app]. rewrite parse_skip by by left. exact IH. Qed.

Lemma parse_end name w d : Forall (λ c, c ≠ 62) name → parse ([60; 47] ++ name ++ [62] ++ w) d = parse w d.
Proof.
  intros Hn. unfold parse at 1. cbn [app]. remember (length (60 :: _)) as n eqn:En. cbn [parseelt scan_name]. cbn [name_end Z.eqb Pos.eqb andb orb negb IS_WHITE_SPACE].
  unfold mbind, Res_bind. cbn [tail]. rewrite scan_app; [|eapply Forall_impl; [exact Hn|]; cbn beta; lia|done].
  cbn [tail]. apply parseelt_fuel; subst n; cbn [length]; rewrite ?length_app; cbn [length]; lia.
Qed.

Lemma parse_name elementname name c w : Forall (λ c, name_end c = false ∧ c ≠ 58 ∧ c ≠ 63) name → name_end c = true → c ≠ 58 →
  scan_name past elementname (name ++ c :: w) = Ok (Some (elementname ++ name, c :: w)).
Proof.
  intros Hn Hc Hc'. revert elementname. induction Hn as [|x name (Hx&_&_) Hn IH]; intros e; cbn [app scan_name].
  - by rewrite Hc, app_nil_r.
  - rewrite Hx. specialize (IH (e ++ [x])). rewrite <-app_assoc in IH. cbn [app] in IH.
    destruct Hn as [|y name (_&Hy&_) Hn]; cbn [app] in *.
    + destruct (c =? 58) eqn:?; [lia|exact IH].
    + destruct (y =? 58) eqn:?; [lia|exact IH].
Qed.
Lemma parse_prefix e prefix name c w : prefix ≠ [] → prefix_ok prefix → Forall (λ c, name_end c = false ∧ c ≠ 58 ∧ c ≠ 63) name →
  name_end c = true → c ≠ 58 → scan_name past e (prefix ++ 58 :: name ++ c :: w) = Ok (Some (name, c :: w)).
Proof.
  intros Hp Hok Hn Hc Hc'. revert e. induction Hok as [|x prefix (Hx&_&_) Hok IH]; intros e; [done|]. cbn [app scan_name]. rewrite Hx.
  destruct Hok as [|y prefix (Hy&Hy'&_) Hok]; cbn [app].
  - cbn [Z.eqb Pos.eqb]. by apply parse_name.
  - destruct (y =? 58) eqn:?; [lia|]. by apply IH.
Qed.

Lemma parse_atts atts c w fuel : Forall att_ok atts → c = 47 ∨ c = 62 → (length (render_atts atts ++ c :: w) < fuel)%nat →
  parseatt past fuel (render_atts atts ++ c :: w) = Ok (Some (c :: w)).
Proof.
  intros Ha Hc. revert fuel. induction Ha as [|[n v] atts (Hne&Hn&Hv) Ha IH]; intros fuel Hf.
  { destruct fuel; [cbn in Hf; lia|]. cbn. replace ((c =? 47) || (c =? 62)) with true by lia. done. }
  change (render_atts ((n, v) :: atts)) with (([32] ++ n ++ [61] ++ quoted v) ++ render_atts atts) in *. cbn [fst snd] in *.
  unfold quoted in *. rewrite <-!app_assoc in *. cbn [app] in *. repeat (progress (cbn [length] in Hf; rewrite ?length_app in Hf)).
  destruct fuel as [|[|fuel]]; [lia..|]. cbn [parseatt]. cbn [Z.eqb Pos.eqb orb IS_WHITE_SPACE].
  destruct Hn as [|x n [Hx Hx'] Hn]; [done|]. cbn [app].
  assert ((x =? 47) || (x =? 62) = false ∧ IS_WHITE_SPACE x = false) as [-> Hws] by (unfold name_end in Hx; lia). rewrite Hws.
  change (x :: n ++ 61 :: 34 :: v ++ 34 :: render_atts atts ++ c :: w) with ((x :: n) ++ 61 :: 34 :: v ++ 34 :: render_atts atts ++ c :: w).
  rewrite scan_app; [|constructor; [lia|]; eapply Forall_impl; [exact Hn|]; cbn beta; unfold name_end; lia|done].
  cbn. rewrite scan_app; [|eapply Forall_impl; [exact Hv|]; intros y Hy; cbn in Hy; change ((34 =? y) = false); lia|done]. cbn [tail]. apply IH. 
  repeat (progress (cbn [length] in *; rewrite ?length_app in * )). lia.
Qed.

Lemma trim_app s : ∃ sp, s = sp ++ trim s ∧ Forall (λ c, IS_WHITE_SPACE c = true) sp.
Proof.
  induction s as [|c s (sp&E&Hs)]; [by exists []|]. cbn [trim]. destruct (IS_WHITE_SPACE c) eqn:Ec; [|by exists []].
  exists (c :: sp). cbn. rewrite <-E. by split; [|constructor].
Qed.
(** White space at the start of a text is passed over, and the text is what is left. *)
Lemma scan_text text w : text_ok text →
  scan (λ c, negb (IS_WHITE_SPACE c)) (text ++ 60 :: w) ≫= scan (Z.eqb 60) ∘ snd = Some (trim text, 60 :: w).
Proof.
  intros Ht. destruct (trim_app text) as (sp&E&Hsp). rewrite E in Ht at 1. apply Forall_app in Ht as [_ Ht].
  assert (∀ c, c ≠ 60 → (60 =? c) = false) as H60 by lia.
  rewrite E at 1. rewrite <-app_assoc. destruct (trim text) as [|c t] eqn:Et.
  - cbn [app]. rewrite scan_app; [done| |done]. eapply Forall_impl; [exact Hsp|]. by intros c ->.
  - assert (IS_WHITE_SPACE c = false) as Hc.
    { clear -Et. induction text as [|x s IH]; [done|]. cbn in Et. destruct (IS_WHITE_SPACE x) eqn:Ex; [by apply IH|]. by injection Et as -> _. }
    cbn [app]. rewrite scan_app; [|eapply Forall_impl; [exact Hsp|]; by intros ? ->|by rewrite Hc].
    unfold mbind, option_bind, compose. cbn [snd]. change (c :: t ++ 60 :: w) with ((c :: t) ++ 60 :: w).
    apply scan_app; [|done]. eapply Forall_impl; [exact Ht|]. exact H60.
Qed.

Lemma parse_tag prefix name atts c w d : prefix_ok prefix → name_ok name → Forall att_ok atts → c = 47 ∨ c = 62 →
  parse ([60] ++ render_name prefix name ++ render_atts atts ++ c :: w) d =
  let d := starteltfunc name d in
  if c =? 47 then parse (c :: w) d
  else match scan (λ c, negb (IS_WHITE_SPACE c)) w ≫= scan (Z.eqb 60) ∘ snd with
       | None => Ok d
       | Some (text, xml') => parse xml' (if (0 <? length text)%nat then datafunc (take (length text) w) d else d)
       end.
Proof.
  intros Hp [Hne Hn] Ha Hc. unfold parse at 1. remember (length ([60] ++ _)) as n eqn:En.
  assert (length w < n)%nat as Hw by (subst n; rewrite !length_app; cbn [length]; lia).
  assert (∃ b v, render_name prefix name ++ render_atts atts ++ c :: w = b :: v ∧ b ≠ 63) as (b&v&Ev&Hb).
  { unfold render_name. destruct Hp as [|x prefix (_&_&Hx) _]; [|by exists x, ((prefix ++ [58] ++ name) ++ render_atts atts ++ c :: w)].
    destruct Hn as [|x name (_&_&Hx) _]; [done|]. by exists x, (name ++ render_atts atts ++ c :: w). }
  assert (∃ a v', render_atts atts ++ c :: w = a :: v' ∧ name_end a = true ∧ a ≠ 58) as (a&v'&Ea&Hae&Ha').
  { destruct Ha as [|x atts _ _]; [exists c, w|eexists 32, _; split; [reflexivity|done]]. destruct Hc; subst; by split. }
  assert (scan_name past [] (b :: v) = Ok (Some (name, a :: v'))) as Es.
  { rewrite <-Ev, Ea. unfold render_name. destruct prefix as [|x prefix]; [by apply parse_name|].
    rewrite <-app_assoc. by apply (parse_prefix [] (x :: prefix)). }
  cbn [app]. rewrite Ev. cbn [parseelt]. replace ((60 =? 60) && negb (b =? 63)) with true by lia.
  rewrite Es. rewrite Res_bind_ok. destruct name as [|c0 name]; [done|]. rewrite <-Ea.
  rewrite parse_atts by (done || lia). rewrite Res_bind_ok. cbn zeta.
  destruct (c =? 47).
  - apply parseelt_fuel; cbn [length]; [|lia]. enough (S (length w) < n)%nat by done. subst n. rewrite !length_app. cbn [length]. lia.
  - destruct (_ ≫= _) as [[text xml']|] eqn:E; [|done]. apply scan2_length in E as [E _]. apply parseelt_fuel; cbn [length]; lia.
Qed.

Lemma shown_length text : length (shown text) = length (trim text).
Proof. unfold shown. destruct (trim_app text) as (sp&E&_). rewrite length_take. apply (f_equal length) in E. rewrite length_app in E. lia. Qed.

(** The parser tells of the elements of a document, in order. *)
Lemma parse_document doc d : Forall token_ok doc → ends_ok doc →
  parse (render doc) d = Ok (foldl notify d (concat (events <$> doc))).
Proof.
  intros Hok. revert d. induction Hok as [|t doc Ht Hdoc IH]; intros d He; [done|].
  assert (ends_ok doc) as He' by (unfold ends_ok in *; destruct doc; [done|exact He]).
  change (render (t :: doc)) with (render_token t ++ render doc).
  rewrite fmap_cons. cbn [concat]. rewrite foldl_app. destruct t as [text|p n atts text|p n atts text|n text]; cbn [render_token].
  - cbn [app]. rewrite parse_skip by (right; eauto). rewrite parse_skip by by left. by rewrite parse_text, IH.
  - destruct Ht as (Hp&Hn&Ha&Ht). rewrite <-!app_assoc. cbn [app].
    pose proof (parse_tag p n atts 62 (text ++ render doc) d) as Htag. cbn [app] in Htag. rewrite Htag by eauto. clear Htag. cbn zeta.
    cbn [Z.eqb Pos.eqb]. destruct doc as [|t' doc]; [done|]. assert (∃ w, render (t' :: doc) = 60 :: w) as [w Ew].
    { unfold render. rewrite fmap_cons. cbn [concat]. destruct t'; cbn [render_token app]; eauto. }
    rewrite Ew, scan_text by done. rewrite <-Ew, take_app_le by (rewrite <-shown_length; unfold shown; rewrite length_take; lia).
    fold (shown text). rewrite IH by done. cbn [events foldl]. unfold notify at 3. cbn [fst snd].
    pose proof (shown_length text). destruct (shown text); cbn [length] in *; by rewrite <-H.
  - destruct Ht as (Hp&Hn&Ha&Ht). rewrite <-!app_assoc. cbn [app].
    pose proof (parse_tag p n atts 47 (62 :: text ++ render doc) d) as Htag. cbn [app] in Htag. rewrite Htag by eauto. clear Htag. cbn zeta.
    cbn [Z.eqb Pos.eqb]. rewrite !parse_skip by by left. by rewrite parse_text, IH.
  - destruct Ht as [Hn Ht]. rewrite <-!app_assoc. pose proof (parse_end n (text ++ render doc) d Hn) as Hend.
    cbn [app] in Hend |- *. by rewrite Hend, parse_text, IH.
Qed.
End parsing.

(** ** Requests and answers *)

(** The names and values that a command reads of a document, the latest first *)
Definition add_value (l : list (list Z * list Z)) (e : list Z * list Z) : list (list Z * list Z) :=
  match e.2 with [] => l | text => (c_string (take 63 e.1), take 63 text) :: l end.
Definition named_values (doc : list token) : list (list Z * list Z) := foldl add_value [] (concat (events <$> doc)).
(** The documents that report an error, and those that do not *)
Definition error_codes (doc : list token) : list (list Z) := snd <$> filter (λ nv, nv.1 = lit "errorCode") (named_values doc).
Definition reports (error : option Z) (doc : list token) : Prop :=
  match error with
  | None => error_codes doc = []
  | Some code => 0 < code < 1000 ∧ error_codes doc = [decimal code]
  end.

Lemma notify_values l c es : ∃ c', foldl (notify NameValueParserStartElt NameValueParserGetData) (MkNameValueParserData l c) es =
  MkNameValueParserData (foldl add_value l es) c'.
Proof.
  revert l c. induction es as [|[name text] es IH]; intros l c; [by exists c|]. cbn [foldl].
  unfold notify at 2, add_value at 2. cbn [fst snd]. destruct text; apply IH.
Qed.
(** An answer is parsed, whatever is in the buffer behind it. *)
Lemma ParseNameValue_document pre doc buffer n : text_ok pre → Forall token_ok doc → ends_ok doc →
  n = length (pre ++ render doc) → take n buffer = pre ++ render doc →
  ∃ c, ParseNameValue buffer n = Ok (MkNameValueParserData (named_values doc) c).
Proof.
  intros Hp Hd He Hn Ht. unfold ParseNameValue, parsexml. rewrite Ht, Hn. fold (parse NameValueParserStartElt NameValueParserGetData
    (past_end buffer (length (pre ++ render doc))) (pre ++ render doc) (MkNameValueParserData [] [])).
  rewrite parse_text, parse_document by done. destruct (notify_values [] [] (concat (events <$> doc))) as [c ->]. by exists c.
Qed.
Lemma GetValue_first l c name : GetValueFromNameValueList (MkNameValueParserData l c) name =
  match snd <$> filter (λ nv, nv.1 = name) l with [] => None | v :: _ => Some (c_string v) end.
Proof.
  unfold GetValueFromNameValueList. cbn [head]. induction l as [|nv l IH]; [done|]. cbn [list_find].
  rewrite filter_cons. case_decide; [done|]. rewrite <-IH, <-option_fmap_compose. by destruct (list_find _ l).
Qed.

Lemma sscanf_code code : 0 < code < 1000 → sscanf_d (c_string (decimal code)) UPNPCOMMAND_UNKNOWN_ERROR = Ok code.
Proof.
  intros Hc. assert (forallb (λ n, match sscanf_d (c_string (decimal (Z.of_nat n))) UPNPCOMMAND_UNKNOWN_ERROR with
    Ok v => v =? Z.of_nat n | Fault _ => false end) (seq 1 999) = true) as H by (vm_compute; reflexivity).
  rewrite forallb_forall in H. specialize (H (Z.to_nat code)). rewrite Z2Nat.id in H by lia.
  destruct (sscanf_d _ _) as [v|]; [|by discriminate H; apply in_seq; lia]. f_equal. apply Z.eqb_eq, H, in_seq. lia.
Qed.
Lemma error_code_reports error doc c ret : reports error doc →
  error_code (MkNameValueParserData (named_values doc) c) ret = Ok (default ret error).
Proof.
  unfold reports, error_codes, error_code. rewrite GetValue_first. destruct error as [code|]; [|by intros ->].
  intros [Hc ->]. by apply sscanf_code.
Qed.

(** A request as it should be *)
Definition envelope (action service : list Z) (args : list UPNParg) : list Z :=
  soap_open action service ++ concat (argument <$> args) ++ soap_close action.
Definition post (path host : list Z) (port : Z) (service action body : list Z) : list Z :=
  headers path host port (soapact service action) (length body) ++ body.

Lemma put_args_fits args p : (length p + length (concat (argument <$> args)) + 100 < soapbody_size)%nat →
  put_args args p = Ok (Some (p ++ concat (argument <$> args))).
Proof.
  revert p. induction args as [|arg args IH]; intros p; cbn [put_args fmap list_fmap concat length]; [by rewrite app_nil_r|].
  rewrite length_app. intros Hl. destruct (soapbody_size <=? length p + 100)%nat eqn:E1; [lia|]. cbn zeta.
  destruct (length (p ++ argument arg) <=? soapbody_size)%nat eqn:E2; [|rewrite length_app in E2; lia].
  rewrite IH, <-app_assoc; [done|]. rewrite length_app. unfold fmap in *. lia.
Qed.
Lemma soap_body_fits action service args : (length (envelope action service (default [] args)) + 100 < soapbody_size)%nat →
  soap_body action service args = Ok (Some (envelope action service (default [] args))).
Proof.
  unfold envelope, soap_body. rewrite !length_app. intros Hl. destruct args as [args|]; cbn [default from_option] in *.
  - rewrite put_args_fits by (unfold id in *; lia). rewrite Res_bind_ok. unfold id in *.
    destruct (_ <? soapbody_size)%nat eqn:E; [by rewrite <-app_assoc|]. rewrite !length_app in E. lia.
  - cbn [fmap list_fmap concat app length] in *. rewrite take_ge; [done|]. rewrite length_app. lia.
Qed.

Section answers.
Context `{Network}.
Implicit Types (g : gateway) (error : option Z).

(** The complete answer to a request, a document behind the lines of the HTTP header *)
Definition answered error (buffer : list Z) (pieces : list (list Z)) : Prop :=
  ∃ pre doc buffer', text_ok pre ∧ Forall token_ok doc ∧ ends_ok doc ∧ reports error doc ∧
  receive pieces buffer 0 (-1, -1) = Ok (buffer', length (pre ++ render doc)) ∧
  take (length (pre ++ render doc)) buffer' = pre ++ render doc.

(** The gateway takes the connection and the request, and answers. *)
Definition serves g (host : list Z) (port : Z) (request : list Z) (Q : option Z → gateway → Prop) : Prop :=
  ∃ g1 pieces g2 error, connect host port g = (true, g1) ∧ submit host port request g1 = (Some pieces, g2) ∧
  answered error (stack g <$> seq 0 buffer_size) pieces ∧ Q error g2.

Lemma command_served g url service action args host port path Q :
  parseURL url = Some (host, port, path) →
  let body := envelope action service (default [] args) in
  (length body + 100 < soapbody_size)%nat →
  (length (headers path host port (soapact service action) (length body)) < 512)%nat →
  serves g host port (post path host port service action body) Q →
  ∃ pdata error g', command url service action args g = Ok (pdata, g') ∧
  (∀ ret, error_code pdata ret = Ok (default ret error)) ∧ error ≠ Some 0 ∧ Q error g'.
Proof.
  intros Hu body Hb Hh (g1&pieces&g2&error&Ec&Es&(pre&doc&buffer'&Hp&Hd&He&Hr&Er&Et)&HQ).
  destruct (ParseNameValue_document pre doc buffer' _ Hp Hd He eq_refl Et) as [c Ep].
  exists (MkNameValueParserData (named_values doc) c), error, g2. split; [|split; [|split; [|exact HQ]]].
  - unfold command, simpleUPnPcommand, mbind, M_bind, get, liftR, on_gateway. rewrite soap_body_fits by done.
    fold body. rewrite Hu, Ec. unfold soapPostSubmit. cbn zeta. rewrite (proj2 (Nat.ltb_lt _ _)) by done.
    fold (post path host port service action body). rewrite Es, Er. unfold mret, M_ret. cbn [fst snd]. by rewrite Ep.
  - intros ret. by apply error_code_reports.
  - intros ->. destruct Hr as [Hr _]. lia.
Qed.
End answers.

(** ** Sizes *)

Lemma parseURL_bounds url host port path : parseURL url = Some (host, port, path) →
  (length host ≤ MAXHOSTNAMELEN)%nat ∧ is_u16 port.
Proof.
  assert (∀ p p2, is_u16 p → is_u16 (url_port p p2)) as Hport.
  { intros p p2. revert p. induction p2 as [|c p2 IH]; intros p Hp; [done|]. cbn. case_match; [|done]. apply IH.
    unfold is_u16, u16. mod_lia. }
  unfold parseURL. generalize MAXHOSTNAMELEN. intros m (p1&_&E)%bind_Some. case_bool_decide; [|done]. apply bind_Some in E as (p3&_&E).
  destruct (strchr 58 p1) as [p2|]; [case_match|]; injection E as <- <- _; rewrite length_take; (split; [lia|]); try done.
  by apply Hport.
Qed.

(** The length of a text of constants *)
Ltac literal_lengths :=
  repeat match goal with
  | |- context [length (lit ?s)] => let n := eval vm_compute in (length (lit s)) in change (length (lit s)) with n
  | |- context [length crlf] => change (length crlf) with 2%nat
  end.
Lemma headers_fit (path host : list Z) port (service action body : list Z) : (length path ≤ 100)%nat → (length host ≤ MAXHOSTNAMELEN)%nat →
  is_u16 port → (length service ≤ 64)%nat → (length action ≤ 20)%nat → (length body < soapbody_size)%nat →
  (length (headers path host port (soapact service action) (length body)) < 512)%nat.
Proof.
  intros Hp Hh Hport Hs Ha Hb. assert (length (soapact service action) ≤ 85)%nat as Hact.
  { unfold soapact. rewrite length_take, !length_app. literal_lengths. lia. }
  destruct (decimal_codes 3 (Z.of_nat (length body))) as [Hd _]; [change (10 ^ Z.of_nat 4) with 10000; unfold soapbody_size in Hb; lia|].
  destruct (decimal_codes 4 port) as [Hd' _]; [change (10 ^ Z.of_nat 5) with 100000; unfold is_u16 in Hport; lia|].
  unfold headers, quoted. set (D := decimal (Z.of_nat (length body))) in *.
  assert (length (portstr port) ≤ 7)%nat as Hd'' by (unfold portstr; case_match; cbn; lia).
  clearbody D. rewrite !length_app. literal_lengths.
  unfold MAXHOSTNAMELEN in Hh. cbn [length]. lia.
Qed.
Lemma envelope_fits action service args : (length action ≤ 20)%nat → (length service ≤ 64)%nat →
  (length (concat (argument <$> args)) ≤ 1300)%nat → (length (envelope action service args) + 100 < soapbody_size)%nat.
Proof.
  intros Ha Hs Hargs. unfold envelope, soap_open, soap_close, quoted, soapbody_size. set (A := concat _) in *. clearbody A.
  rewrite !length_app. literal_lengths. cbn [length]. lia.
Qed.

(** ** What the other side reads of a request *)

(** A request's body as a document *)
Definition argument_doc (arg : UPNParg) : list token := [StartTag [] arg.1 [] (default [] arg.2); EndTag arg.1 []].
Definition envelope_doc (action service : list Z) (args : list UPNParg) : list token :=
  [Instruction (lit "xml version=" ++ quoted (lit "1.0") ++ lit "?>" ++ crlf);
   StartTag (lit "s") (lit "Envelope")
     [(lit "xmlns:s", lit "http://schemas.xmlsoap.org/soap/envelope/");
      (lit "s:encodingStyle", lit "http://schemas.xmlsoap.org/soap/encoding/")] [];
   StartTag (lit "s") (lit "Body") [] [];
   StartTag (lit "u") action [(lit "xmlns:u", service)] []] ++
  concat (argument_doc <$> args) ++
  [EndTag (lit "u:" ++ action) []; EndTag (lit "s:Body") []; EndTag (lit "s:Envelope") crlf].

Lemma render_app doc doc' : render (doc ++ doc') = render doc ++ render doc'.
Proof. unfold render. by rewrite fmap_app, concat_app. Qed.
Lemma render_args args : Forall (λ arg : UPNParg, arg.1 ≠ []) args →
  render (concat (argument_doc <$> args)) = concat (argument <$> args).
Proof.
  induction 1 as [|[n v] args Hn _ IH]; [done|]. rewrite !fmap_cons. cbn [concat]. rewrite render_app, IH. f_equal.
  unfold argument_doc, argument, render. cbn [fmap list_fmap concat render_token render_name render_atts fst snd].
  rewrite ?app_nil_r, <-?app_assoc. cbn [app]. by rewrite <-?app_assoc.
Qed.
Lemma render_envelope action service args : Forall (λ arg : UPNParg, arg.1 ≠ []) args →
  render (envelope_doc action service args) = envelope action service args.
Proof.
  intros Ha. unfold envelope_doc, envelope. rewrite !render_app, render_args by done. set (A := concat (argument <$> args)). clearbody A.
  unfold render, soap_open, soap_close. cbn [fmap list_fmap concat render_token]. unfold render_atts. cbn [fmap list_fmap concat fst snd].
  unfold quoted. rewrite ?app_nil_r, <-?app_assoc. cbn. by rewrite <-?app_assoc.
Qed.

Definition argument_ok (arg : UPNParg) : Prop := name_ok arg.1 ∧ text_ok (default [] arg.2).
#[export] Instance token_ok_dec t : Decision (token_ok t).
Proof. unfold token_ok, prefix_ok, name_ok, att_ok, text_ok. destruct t; apply _. Defined.
#[export] Instance name_ok_dec name : Decision (name_ok name).
Proof. unfold name_ok. apply _. Defined.
#[export] Instance text_ok_dec text : Decision (text_ok text).
Proof. unfold text_ok. apply _. Defined.
Ltac literal_ok := refine (bool_decide_unpack _ _); vm_compute; exact I.

Lemma text_ok_app s t : text_ok s → text_ok t → text_ok (s ++ t).
Proof. intros. by apply Forall_app. Qed.
Lemma decimal_text_ok z : - 10 ^ 20 < z < 10 ^ 20 → text_ok (decimal z).
Proof.
  intros Hz. destruct (decimal_codes 19 z) as [_ Hd]; [exact Hz|]. eapply Forall_impl; [exact Hd|]. unfold numeral. cbn. lia.
Qed.

Lemma envelope_doc_ok action service args : name_ok action → Forall (λ c, c ≠ 34) service → Forall argument_ok args →
  Forall token_ok (envelope_doc action service args) ∧ ends_ok (envelope_doc action service args).
Proof.
  intros Ha Hs Hargs. split.
  - unfold envelope_doc. rewrite !Forall_app. split_and!.
    + constructor; [literal_ok|]. constructor; [literal_ok|]. constructor; [literal_ok|]. constructor; [|done].
      split; [literal_ok|]. split; [exact Ha|]. split; [|by constructor]. constructor; [|done]. split; [done|]. split; [literal_ok|exact Hs].
    + induction Hargs as [|arg args [Hn Ht] _ IH]; [done|]. rewrite fmap_cons. cbn [concat]. apply Forall_app. split; [|exact IH].
      constructor; [split; [by constructor|]; split; [exact Hn|]; split; [by constructor|exact Ht]|]. constructor; [|done]. split; [|by constructor]. eapply Forall_impl; [apply Hn|]. intros c (Hc&_).
      unfold name_end in Hc. lia.
    + constructor; [|constructor; [literal_ok|constructor; [literal_ok|done]]]. split; [|by constructor].
      apply Forall_app. split; [literal_ok|]. eapply Forall_impl; [apply Ha|]. intros c (Hc&_). unfold name_end in Hc. lia.
  - unfold ends_ok, envelope_doc. rewrite app_assoc, last_app. done.
Qed.

Lemma headers_text_ok (path host : list Z) port (action : list Z) bodysize : text_ok path → text_ok host → is_u16 port → text_ok action →
  (bodysize < soapbody_size)%nat → text_ok (headers path host port action bodysize).
Proof.
  intros Hp Hh Hport Ha Hb. assert (text_ok (decimal (Z.of_nat bodysize))) as Hd.
  { apply decimal_text_ok. unfold soapbody_size in Hb. lia. }
  assert (text_ok (portstr port)) as Hd'.
  { unfold portstr. case_match; [by constructor|]. apply text_ok_app; [literal_ok|]. apply decimal_text_ok. unfold is_u16 in Hport. lia. }
  unfold headers, quoted. set (D := decimal _) in *. set (P := portstr port) in *. clearbody D P.
  repeat apply text_ok_app; try assumption; literal_ok.
Qed.

(** A parser of requests: the elements with their text, the latest first *)
Definition element_started (name : list Z) (l : list (list Z * list Z)) : list (list Z * list Z) := (name, []) :: l.
Definition element_text (text : list Z) (l : list (list Z * list Z)) : list (list Z * list Z) :=
  match l with (name, _) :: l => (name, text) :: l | [] => [] end.
Definition read_elements (s : list Z) : Res (list (list Z * list Z)) :=
  parsexml element_started element_text (s ++ [0]) (length s) [].

Lemma read_elements_document pre doc : text_ok pre → Forall token_ok doc → ends_ok doc →
  read_elements (pre ++ render doc) = Ok (reverse (concat (events <$> doc))).
Proof.
  intros Hp Hd He. unfold read_elements, parsexml. rewrite take_app_length.
  fold (parse element_started element_text (past_end ((pre ++ render doc) ++ [0]) (length (pre ++ render doc))) (pre ++ render doc) []).
  rewrite parse_text, parse_document by done. f_equal. rewrite <-(app_nil_r (reverse _)). generalize (@nil (list Z * list Z)). 
  induction (concat (events <$> doc)) as [|[n t] es IH]; intros l; [done|]. cbn [foldl].
  rewrite IH, reverse_cons, <-app_assoc. by destruct t.
Qed.

Lemma args_events args :
  concat (events <$> concat (argument_doc <$> args)) = (λ arg : UPNParg, (arg.1, shown (default [] arg.2))) <$> args.
Proof. induction args as [|arg args IH]; [done|]. rewrite !fmap_cons. cbn [concat argument_doc]. rewrite fmap_app, concat_app, IH. done. Qed.

(** The elements of a request: its action, and the arguments with their values *)
Lemma request_read path host port service action args : text_ok path → text_ok host → is_u16 port → 
  name_ok action → text_ok action → Forall (λ c, c ≠ 34) service → text_ok service → Forall argument_ok args →
  (length (envelope action service args) < soapbody_size)%nat →
  read_elements (post path host port service action (envelope action service args)) =
  Ok (reverse ([(lit "Envelope", []); (lit "Body", []); (action, [])] ++ ((λ arg : UPNParg, (arg.1, shown (default [] arg.2))) <$> args))).
Proof.
  intros Hp Hh Hport Ha Ha' Hs Hs' Hargs Hl. unfold post.
  destruct (envelope_doc_ok action service args) as [Hd He]; [done..|]. pose proof (headers_text_ok path host port
    (soapact service action) (length (envelope action service args)) Hp Hh Hport) as Hhead.
  rewrite <-render_envelope at 2; [|eapply Forall_impl; [exact Hargs|]; by intros ? [[? ?] ?]].
  rewrite read_elements_document; [| |done..].
  - do 2 f_equal. unfold envelope_doc. rewrite !fmap_app, !concat_app, args_events. cbn [fmap list_fmap concat events app]. by rewrite app_nil_r.
  - apply Hhead; [|done]. unfold soapact. apply Forall_take. repeat apply text_ok_app; try assumption. literal_ok.
Qed.

(** ** What a command reads of an answer *)

(** The value under a name: the last element of that name that has a text *)
Definition is_named (name : list Z) (e : list Z * list Z) : Prop := e.2 ≠ [] ∧ c_string (take 63 e.1) = name.
#[export] Instance is_named_dec name e : Decision (is_named name e).
Proof. apply _. Defined.
Definition value_in (name : list Z) (doc : list token) : option (list Z) :=
  (λ e, c_string (take 63 e.2)) <$> last (filter (is_named name) (concat (events <$> doc))).

Lemma named_values_last name es :
  match snd <$> filter (λ nv, nv.1 = name) (foldl add_value [] es) with [] => None | v :: _ => Some (c_string v) end =
  (λ e, c_string (take 63 e.2)) <$> last (filter (is_named name) es).
Proof.
  induction es as [|[n t] es IH] using rev_ind; [done|]. rewrite foldl_snoc, filter_app, filter_cons. unfold add_value at 1. cbn [snd fst].
  destruct t as [|x t].
  { rewrite decide_False by (by intros [? _]). by rewrite filter_nil, app_nil_r. }
  rewrite filter_cons. cbn [fst]. unfold is_named at 2. cbn [fst snd]. case_decide as Hn.
  - rewrite decide_True by done. by rewrite filter_nil, last_snoc.
  - rewrite decide_False by (by intros [_ ?]). by rewrite filter_nil, app_nil_r.
Qed.


(** ** Examples *)

Module MiniUpnpExamples.

Definition http_error : list Z := lit "HTTP/1.1 500 Internal Server Error" ++ crlf ++ crlf.
(** The answer to a request that is refused *)
Definition refusal : list token :=
  [Instruction (lit "xml version=" ++ quoted (lit "1.0") ++ lit "?>" ++ crlf);
   StartTag (lit "s") (lit "Envelope") [(lit "xmlns:s", lit "http://schemas.xmlsoap.org/soap/envelope/")] crlf;
   StartTag (lit "s") (lit "Fault") [] crlf;
   StartTag [] (lit "errorCode") [] (lit "718"); EndTag (lit "errorCode") crlf;
   EmptyTag [] (lit "errorDescription") [] crlf;
   EndTag (lit "s:Fault") crlf; EndTag (lit "s:Envelope") crlf].
Definition refused : list Z := http_error ++ render refusal.

Example refusal_code : value_in (lit "errorCode") refusal = Some (lit "718").
Proof. vm_compute. reflexivity. Qed.

(** The length of a text leaves out the white space in front of it, its beginning does
    not: the end of the text is lost. *)
Example spaced_code_cut : GetValueFromNameValueList
  (from_ok (MkNameValueParserData [] []) (ParseNameValue (lit "<errorCode>  718</errorCode>") 28)) (lit "errorCode") = Some (lit "  7").
Proof. vm_compute. reflexivity. Qed.

(** A buffer that is full and ends behind the [=] of an attribute is read past its end. *)
Example full_buffer_overread : ParseNameValue (lit "<a b=") 5 = Fault OutOfBounds.
Proof. vm_compute. reflexivity. Qed.

(** An error with the code 0 counts as success. *)
Example error_zero_succeeds : error_code (MkNameValueParserData [(lit "errorCode", lit "0")] []) UPNPCOMMAND_SUCCESS = Ok UPNPCOMMAND_SUCCESS.
Proof. vm_compute. reflexivity. Qed.
End MiniUpnpExamples.
