(* ===== verification/Upnp.v ===== *)
(** * The UPnP client

    Models src/maidsafe/transport/upnp/mini_upnp_client_impl.cc and upnp_client.cc: a
    list of port mappings, kept in step with the table of an internet gateway
    device.  The commands are those of [MiniUpnp]; the discovery of a device is the
    class [Igd], and [IgdLaws] describes a gateway that answers: what it makes of the
    requests that the client sends. *)

From stdpp Require Import strings.
From S2P Require Import Prelude Text Environment Contact MiniUpnp.

Class Igd `{Network} := {
  (** [upnpDiscover] and [UPNP_GetValidIGD]: its result, 1 for a connected device, and
      what controlURL and servicetype are then *)
  igd_discover : gateway → (Z * list Z * list Z) * gateway;
}.

Inductive ProtocolType := kUdp | kTcp.
#[export] Instance ProtocolType_eq_dec : EqDecision ProtocolType.
Proof. solve_decision. Defined.

Record PortMapping := MkPortMapping {
  internal_port : Z;
  external_port : Z;
  protocol : ProtocolType;
  enabled : bool;
}.
Definition new_mapping (port : Z) (p : ProtocolType) : PortMapping := MkPortMapping port port p false.

Record UpnpIgdClientImpl `{Network} := MkUpnpIgdClientImpl {
  is_initialised_ : bool;
  has_services_ : bool;
  (** [upnp_urls_.controlURL] and [igd_data_.servicetype] *)
  controlURL : list Z;
  servicetype : list Z;
  port_mappings_ : list PortMapping;
  igd : gateway;
}.
Arguments MkUpnpIgdClientImpl {_}.

Definition kClientName : list Z := lit "maidsafe/transport".
Definition protocol_name (p : ProtocolType) : list Z := match p with kTcp => lit "TCP" | kUdp => lit "UDP" end.
Definition status_connected : list Z := lit "Connected".

Section client.
Context `{IpAddress} `{!IpText} `{Igd}.

Definition new_client (g : gateway) : UpnpIgdClientImpl := MkUpnpIgdClientImpl false false [] [] [] g.
Definition set_mappings (l : list PortMapping) (s : UpnpIgdClientImpl) : UpnpIgdClientImpl :=
  MkUpnpIgdClientImpl (is_initialised_ s) (has_services_ s) (controlURL s) (servicetype s) l (igd s).
Definition set_igd (g : gateway) (s : UpnpIgdClientImpl) : UpnpIgdClientImpl :=
  MkUpnpIgdClientImpl (is_initialised_ s) (has_services_ s) (controlURL s) (servicetype s) (port_mappings_ s) g.
(** A command of miniupnpc *)
Definition on_igd {A} (m : M gateway A) : M UpnpIgdClientImpl A := zoom igd set_igd m.

Definition IsAsync : bool := false.
Definition HasServices : M UpnpIgdClientImpl bool := gets has_services_.

Definition DiscoverDevices : M UpnpIgdClientImpl unit :=
  r ← on_igd (on_gateway igd_discover);
  modify (λ s, MkUpnpIgdClientImpl (is_initialised_ s) (r.1.1 =? 1) r.1.2 r.2 (port_mappings_ s) (igd s)).

Definition InitControlPoint : M UpnpIgdClientImpl bool :=
  s ← get;
  if is_initialised_ s then mret false
  else
    DiscoverDevices;;
    modify (λ s, MkUpnpIgdClientImpl true (has_services_ s) (controlURL s) (servicetype s) (port_mappings_ s) (igd s));;
    mret true.

(** The position of the mapping *)
Definition same_key (port : Z) (p : ProtocolType) (pm : PortMapping) : Prop := external_port pm = port ∧ protocol pm = p.
#[export] Instance same_key_dec port p pm : Decision (same_key port p pm).
Proof. apply _. Defined.
Definition PortMappingExists (port : Z) (p : ProtocolType) (l : list PortMapping) : option nat :=
  fst <$> list_find (same_key port p) l.

Definition set_enabled (b : bool) (pm : PortMapping) : PortMapping :=
  MkPortMapping (internal_port pm) (external_port pm) (protocol pm) b.

(** The internal client is an address that nothing was assigned to. *)
Definition AddPortMapping (mapping : PortMapping) : M UpnpIgdClientImpl bool :=
  s ← get;
  let found := PortMappingExists (external_port mapping) (protocol mapping) (port_mappings_ s) in
  let pm := default (length (port_mappings_ s)) found in
  when (bool_decide (found = None)) (modify (set_mappings (port_mappings_ s ++ [mapping])));;
  if has_services_ s then
    res ← on_igd (UPNP_AddPortMapping (controlURL s) (servicetype s)
      (Some (decimal (external_port mapping))) (Some (decimal (internal_port mapping)))
      (Some (ip_to_string ip_none)) (Some kClientName) (Some (protocol_name (protocol mapping))) None);
    modify (λ s, set_mappings (alter (set_enabled (res =? UPNPCOMMAND_SUCCESS)) pm (port_mappings_ s)) s);;
    mret (res =? UPNPCOMMAND_SUCCESS)
  else mret false.

Definition DeletePortMapping (port : Z) (p : ProtocolType) : M UpnpIgdClientImpl bool :=
  s ← get;
  match PortMappingExists port p (port_mappings_ s) with
  | Some i =>
      ok ← (if from_option enabled false (port_mappings_ s !! i) then
              res ← on_igd (UPNP_DeletePortMapping (controlURL s) (servicetype s)
                (Some (decimal port)) (Some (protocol_name p)) None);
              mret (res =? UPNPCOMMAND_SUCCESS)
            else mret true);
      modify (λ s, set_mappings (delete i (port_mappings_ s)) s);;
      mret ok
  | None => mret false
  end.

Fixpoint delete_all (fuel : nat) (result : bool) : M UpnpIgdClientImpl bool :=
  match fuel with
  | O => throw OutOfFuel
  | S fuel =>
      s ← get;
      match port_mappings_ s with
      | [] => mret result
      | pm :: _ => ok ← DeletePortMapping (external_port pm) (protocol pm); delete_all fuel (result && ok)
      end
  end.
Definition DeleteAllPortMappings : M UpnpIgdClientImpl bool :=
  s ← get; delete_all (S (length (port_mappings_ s))) true.
(** The destructor *)
Definition destroy : M UpnpIgdClientImpl unit := DeleteAllPortMappings;; mret tt.

Definition GetExternalIpAddress : M UpnpIgdClientImpl (list Z) :=
  s ← get;
  if has_services_ s then
    r ← on_igd (UPNP_GetExternalIPAddress (controlURL s) (servicetype s));
    mret (if r.1 =? UPNPCOMMAND_SUCCESS then r.2 else [])
  else mret [].

Definition IsUpnpIgdConnected (controlURL servicetype : list Z) : M gateway bool :=
  r ← UPNP_GetStatusInfo controlURL servicetype;
  mret (bool_decide (r.2 = status_connected)).

(** The [n] mappings from the [i]-th on *)
Fixpoint refresh (n i : nat) : M UpnpIgdClientImpl unit :=
  match n with
  | O => mret tt
  | S n =>
      s ← get;
      match port_mappings_ s !! i with
      | Some pm =>
          if has_services_ s then AddPortMapping pm;; mret tt
          else modify (set_mappings (alter (set_enabled false) i (port_mappings_ s)))
      | None => mret tt
      end;;
      refresh n (S i)
  end.
Definition RefreshCallback : M UpnpIgdClientImpl unit :=
  s ← get;
  connected ← (if has_services_ s then on_igd (IsUpnpIgdConnected (controlURL s) (servicetype s)) else mret false);
  when (negb connected) DiscoverDevices;;
  refresh (length (port_mappings_ s)) 0.

(** ** UpnpIgdClient *)
Definition Client_AddPortMapping (port : Z) (p : ProtocolType) : M UpnpIgdClientImpl bool :=
  AddPortMapping (new_mapping port p).
Definition Client_DeletePortMapping (port : Z) (p : ProtocolType) : M UpnpIgdClientImpl bool := DeletePortMapping port p.

Inductive op :=
  | OpInit
  | OpAdd (port : Z) (p : ProtocolType)
  | OpDelete (port : Z) (p : ProtocolType)
  | OpGetExternalIpAddress
  | OpRefresh.                    (** from a timer that starts when the client is initialised *)
Definition run_op (o : op) : M UpnpIgdClientImpl unit :=
  match o with
  | OpInit => InitControlPoint;; mret tt
  | OpAdd port p => Client_AddPortMapping port p;; mret tt
  | OpDelete port p => Client_DeletePortMapping port p;; mret tt
  | OpGetExternalIpAddress => GetExternalIpAddress;; mret tt
  | OpRefresh => s ← get; when (is_initialised_ s) RefreshCallback
  end.
Fixpoint run_ops (os : list op) : M UpnpIgdClientImpl unit :=
  match os with [] => mret tt | o :: os => run_op o;; run_ops os end.
End client.

(** ** A gateway that answers *)

Definition is_int (z : Z) : Prop := - 2 ^ 31 ≤ z < 2 ^ 31.
Definition key (port : Z) (p : ProtocolType) : list Z * list Z := (decimal port, protocol_name p).

(** The one gateway that the discovery finds.  While it is [reachable] it takes
    connections and requests and answers them in full: a request is performed, or an
    error is reported and nothing changes.  Its table has the external ports and
    protocols of the mappings, which have no lease. *)
Class IgdLaws `{IpAddress} `{!IpText} `{Igd} := {
  igd_url : list Z;
  igd_service : list Z;
  igd_host : list Z;
  igd_port : Z;
  igd_path : list Z;
  igd_url_ok : parseURL igd_url = Some (igd_host, igd_port, igd_path);
  igd_path_short : (length igd_path ≤ 100)%nat;
  igd_service_short : (length igd_service ≤ 64)%nat;
  address_short : (length (ip_to_string ip_none) ≤ 45)%nat;
  reachable : gateway → Prop;
  mapped : gateway → gset (list Z * list Z);
  (** what the gateway may refuse *)
  refuses_add : list Z * list Z → gateway → Prop;
  refuses_delete : list Z * list Z → gateway → Prop;
  discover_finds g : (igd_discover g).1.1.1 = 1 → (igd_discover g).1.1.2 = igd_url ∧ (igd_discover g).1.2 = igd_service;
  discover_reachable g : reachable g → reachable (igd_discover g).2;
  discover_mapped g : mapped (igd_discover g).2 = mapped g;
  request (action : list Z) (args : list UPNParg) : list Z :=
    post igd_path igd_host igd_port igd_service action (envelope action igd_service args);
  serves_add external internal p g : is_int external → is_int internal → reachable g →
    serves g igd_host igd_port
      (request (lit "AddPortMapping") (AddPortMappingArgs (decimal external) (decimal internal) (ip_to_string ip_none)
        (Some kClientName) (protocol_name p) None))
      (λ error g', reachable g' ∧
        if error is Some _ then mapped g' = mapped g ∧ refuses_add (key external p) g
        else mapped g' = {[key external p]} ∪ mapped g);
  serves_delete external p g : is_int external → reachable g →
    serves g igd_host igd_port
      (request (lit "DeletePortMapping") (DeletePortMappingArgs (decimal external) (protocol_name p) None))
      (λ error g', reachable g' ∧
        if error is Some _ then mapped g' = mapped g ∧ refuses_delete (key external p) g
        else mapped g' = mapped g ∖ {[key external p]});
  serves_query action g : action ∈ [lit "GetExternalIPAddress"; lit "GetStatusInfo"] → reachable g →
    serves g igd_host igd_port (request action []) (λ _ g', reachable g' ∧ mapped g' = mapped g);
}.
(** A gateway that lets its client replace and delete the mappings it has. *)
Class IgdWilling `{IgdLaws} : Prop := {
  replaces k g : k ∈ mapped g → ¬ refuses_add k g;
  deletes k g : k ∈ mapped g → ¬ refuses_delete k g;
}.

(** ** What the commands do *)

Lemma number_length z : is_int z → (length (decimal z) ≤ 11)%nat.
Proof. intros Hz. unfold is_int in Hz. apply (decimal_codes 9). change (10 ^ Z.of_nat 10) with 10000000000. lia. Qed.
Lemma protocol_length p : length (protocol_name p) = 3%nat.
Proof. by destruct p. Qed.
Lemma add_args_short external internal client p : is_int external → is_int internal → (length client ≤ 45)%nat →
  (length (concat (argument <$> AddPortMappingArgs (decimal external) (decimal internal) client (Some kClientName) (protocol_name p) None)) ≤ 1300)%nat.
Proof.
  intros He Hi Hc. pose proof (number_length external He). pose proof (number_length internal Hi). pose proof (protocol_length p).
  unfold AddPortMappingArgs, argument, kClientName. cbn [fmap list_fmap concat default from_option fst snd id].
  rewrite !length_app. literal_lengths. cbn [length]. lia.
Qed.
Lemma delete_args_short external p : is_int external →
  (length (concat (argument <$> DeletePortMappingArgs (decimal external) (protocol_name p) None)) ≤ 1300)%nat.
Proof.
  intros He. pose proof (number_length external He). pose proof (protocol_length p).
  unfold DeletePortMappingArgs, argument. cbn [fmap list_fmap concat default from_option fst snd id].
  rewrite !length_app. literal_lengths. cbn [length]. lia.
Qed.

Section calls.
Context `{IgdLaws}.

Lemma command_runs g action args Q : (length action ≤ 20)%nat → (length (concat (argument <$> default [] args)) ≤ 1300)%nat →
  serves g igd_host igd_port (request action (default [] args)) Q →
  ∃ pdata error g', command igd_url igd_service action args g = Ok (pdata, g') ∧
  (∀ ret, error_code pdata ret = Ok (default ret error)) ∧ error ≠ Some 0 ∧ Q error g'.
Proof.
  intros Ha Hargs Hs. destruct (parseURL_bounds _ _ _ _ igd_url_ok) as [Hh Hp].
  pose proof (envelope_fits action igd_service (default [] args) Ha igd_service_short Hargs) as Hl.
  eapply command_served; [apply igd_url_ok|exact Hl| |exact Hs].
  apply headers_fit; auto using igd_path_short, igd_service_short. lia.
Qed.

Lemma add_runs external internal p g : is_int external → is_int internal → reachable g → ∃ ret g',
  UPNP_AddPortMapping igd_url igd_service (Some (decimal external)) (Some (decimal internal)) (Some (ip_to_string ip_none))
    (Some kClientName) (Some (protocol_name p)) None g = Ok (ret, g') ∧ reachable g' ∧
  (if ret =? UPNPCOMMAND_SUCCESS then mapped g' = {[key external p]} ∪ mapped g
   else mapped g' = mapped g ∧ refuses_add (key external p) g).
Proof.
  intros He Hi Hr. pose proof (serves_add external internal p g He Hi Hr) as Hs.
  apply (command_runs g _ (Some _)) in Hs as (pdata&error&g'&E&Hret&Hz&Hr'&Hm).
  - unfold UPNP_AddPortMapping, mbind, M_bind, liftR. rewrite E, Hret. eexists _, g'. split; [reflexivity|]. split; [exact Hr'|].
    destruct error as [code|]; [|exact Hm]. change (default _ (Some code)) with code.
    destruct (code =? UPNPCOMMAND_SUCCESS) eqn:Ez; [|exact Hm]. destruct Hz. f_equal. by apply Z.eqb_eq in Ez.
  - vm_compute. lia.
  - apply add_args_short; [done|done|apply address_short].
Qed.
Lemma delete_runs external p g : is_int external → reachable g → ∃ ret g',
  UPNP_DeletePortMapping igd_url igd_service (Some (decimal external)) (Some (protocol_name p)) None g = Ok (ret, g') ∧ reachable g' ∧
  (if ret =? UPNPCOMMAND_SUCCESS then mapped g' = mapped g ∖ {[key external p]}
   else mapped g' = mapped g ∧ refuses_delete (key external p) g).
Proof.
  intros He Hr. pose proof (serves_delete external p g He Hr) as Hs.
  apply (command_runs g _ (Some _)) in Hs as (pdata&error&g'&E&Hret&Hz&Hr'&Hm).
  - unfold UPNP_DeletePortMapping, mbind, M_bind, liftR. rewrite E, Hret. eexists _, g'. split; [reflexivity|]. split; [exact Hr'|].
    destruct error as [code|]; [|exact Hm]. change (default _ (Some code)) with code.
    destruct (code =? UPNPCOMMAND_SUCCESS) eqn:Ez; [|exact Hm]. destruct Hz. f_equal. by apply Z.eqb_eq in Ez.
  - vm_compute. lia.
  - by apply delete_args_short.
Qed.
Lemma query_runs action g : action ∈ [lit "GetExternalIPAddress"; lit "GetStatusInfo"] → reachable g → ∃ pdata g' error,
  command igd_url igd_service action None g = Ok (pdata, g') ∧ reachable g' ∧ mapped g' = mapped g ∧
  ∀ ret, error_code pdata ret = Ok (default ret error).
Proof.
  intros Ha Hr. pose proof (serves_query action g Ha Hr) as Hs.
  apply (command_runs g action None) in Hs as (pdata&error&g'&E&Hret&_&Hr'&Hm); [by exists pdata, g', error| |cbn; lia].
  repeat (apply elem_of_cons in Ha as [->|Ha]; [vm_compute; lia|]). by apply elem_of_nil in Ha.
Qed.
Lemma address_runs g : reachable g → ∃ r g', UPNP_GetExternalIPAddress igd_url igd_service g = Ok (r, g') ∧ reachable g' ∧ mapped g' = mapped g.
Proof.
  intros Hr. destruct (query_runs (lit "GetExternalIPAddress") g) as (pdata&g'&error&E&Hr'&Hm&Hret); [set_solver|done|].
  unfold UPNP_GetExternalIPAddress, mbind, M_bind, liftR. rewrite E. cbn zeta. rewrite Hret. eauto.
Qed.
Lemma status_runs g : reachable g → ∃ b g', IsUpnpIgdConnected igd_url igd_service g = Ok (b, g') ∧ reachable g' ∧ mapped g' = mapped g.
Proof.
  intros Hr. destruct (query_runs (lit "GetStatusInfo") g) as (pdata&g'&error&E&Hr'&Hm&Hret); [set_solver|done|].
  unfold IsUpnpIgdConnected, UPNP_GetStatusInfo, mbind, M_bind, liftR. rewrite E. cbn zeta. rewrite Hret. eauto.
Qed.
End calls.

(** ** The list and the table *)

Section tracking.
Context `{IgdLaws}.
Implicit Types (s : UpnpIgdClientImpl) (l : list PortMapping) (m pm : PortMapping).

Definition mkey pm : list Z * list Z := key (external_port pm) (protocol pm).
Definition keys l : list (list Z * list Z) := mkey <$> l.
Definition enabled_keys l : gset (list Z * list Z) := list_to_set (keys (filter (λ pm, enabled pm = true) l)).

Lemma same_key_iff m pm : same_key (external_port m) (protocol m) pm ↔ mkey pm = mkey m.
Proof.
  unfold same_key, mkey, key. split; [by intros [-> ->]|]. intros [= E1%(inj decimal) E2]. split; [done|].
  by destruct (protocol pm), (protocol m).
Qed.

Lemma keys_split i pm l : l !! i = Some pm → ∃ l1 l2, l = l1 ++ pm :: l2 ∧ i = length l1.
Proof. intros E. exists (take i l), (drop (S i) l). rewrite take_drop_middle, length_take_le; [done| |done]. apply lookup_lt_Some in E. lia. Qed.
Lemma exists_Some m i l : PortMappingExists (external_port m) (protocol m) l = Some i →
  ∃ pm, l !! i = Some pm ∧ mkey pm = mkey m.
Proof.
  unfold PortMappingExists. intros ([j pm]&(E&Hk&_)%list_find_Some&->)%fmap_Some. exists pm.
  split; [done|]. by apply same_key_iff.
Qed.
Lemma exists_None m l : PortMappingExists (external_port m) (protocol m) l = None → mkey m ∉ keys l.
Proof.
  unfold PortMappingExists. intros Hn%fmap_None%list_find_None (pm&Ek&Hin)%list_elem_of_fmap.
  rewrite Forall_forall in Hn. apply (Hn pm Hin). by apply same_key_iff.
Qed.

Lemma enabled_keys_app l1 l2 : enabled_keys (l1 ++ l2) = enabled_keys l1 ∪ enabled_keys l2.
Proof. unfold enabled_keys, keys. by rewrite filter_app, fmap_app, list_to_set_app_L. Qed.
Lemma enabled_keys_cons pm l : enabled_keys (pm :: l) = (if enabled pm then {[mkey pm]} else ∅) ∪ enabled_keys l.
Proof. unfold enabled_keys, keys. rewrite filter_cons. destruct (enabled pm); cbn; set_solver. Qed.
Lemma enabled_keys_in l x : x ∈ enabled_keys l → x ∈ keys l.
Proof.
  unfold enabled_keys, keys. rewrite elem_of_list_to_set, !list_elem_of_fmap.
  intros (pm&->&[_ Hin]%list_elem_of_filter). by exists pm.
Qed.

#[local] Typeclasses Opaque enabled_keys mkey.

(** A mapping that is in the list once *)
Lemma nodup_middle l1 pm l2 : NoDup (keys (l1 ++ pm :: l2)) →
  mkey pm ∉ enabled_keys l1 ∧ mkey pm ∉ enabled_keys l2 ∧ NoDup (keys (l1 ++ l2)).
Proof.
  unfold keys. rewrite !fmap_app, fmap_cons, !NoDup_app, NoDup_cons. intros (N1&Hd&Hpm&N2).
  split_and!; try done.
  - intros Hin%enabled_keys_in. apply (Hd _ Hin). left.
  - by intros Hin%enabled_keys_in.
  - intros x Hx Hx'. apply (Hd x Hx). by right.
Qed.

(** The list with [m] in it, enabled or not *)
Definition upsert m (b : bool) l : list PortMapping :=
  match PortMappingExists (external_port m) (protocol m) l with
  | Some i => alter (set_enabled b) i l
  | None => l ++ [set_enabled b m]
  end.

Lemma upsert_spec m b l : NoDup (keys l) →
  NoDup (keys (upsert m b l)) ∧
  enabled_keys (upsert m b l) = (if b then {[mkey m]} else ∅) ∪ (enabled_keys l ∖ {[mkey m]}).
Proof.
  intros Hnd. unfold upsert. destruct (PortMappingExists _ _ l) as [i|] eqn:E.
  - apply exists_Some in E as (pm&Ei&Ek). apply keys_split in Ei as (l1&l2&->&->).
    assert (alter (set_enabled b) (length l1) (l1 ++ pm :: l2) = l1 ++ set_enabled b pm :: l2) as ->.
    { rewrite alter_app_r_alt, Nat.sub_diag by done. done. }
    split; [unfold keys in *; by rewrite fmap_app, fmap_cons in *|].
    destruct (nodup_middle _ _ _ Hnd) as (N1&N2&_).
    rewrite !enabled_keys_app, !enabled_keys_cons. change (mkey (set_enabled b pm)) with (mkey pm).
    change (enabled (set_enabled b pm)) with b. rewrite Ek in N1, N2 |- *. 
    destruct b, (enabled pm); set_solver +N1 N2.
  - apply exists_None in E. split.
    + unfold keys in *. rewrite fmap_app. apply NoDup_app. split; [done|]. split; [|by apply NoDup_singleton].
      by intros x Hx ->%list_elem_of_singleton.
    + rewrite enabled_keys_app, enabled_keys_cons. change (enabled (set_enabled b m)) with b.
      change (mkey (set_enabled b m)) with (mkey m). assert (mkey m ∉ enabled_keys l) by (by intros ?%enabled_keys_in).
      change (enabled_keys []) with (∅ : gset (list Z * list Z)). destruct b; set_solver.
Qed.

(** The commands go to the same gateway. *)
Definition same_igd s s' : Prop :=
  is_initialised_ s' = is_initialised_ s ∧ has_services_ s' = has_services_ s ∧ controlURL s' = controlURL s ∧ servicetype s' = servicetype s.
Definition at_igd s : Prop := controlURL s = igd_url ∧ servicetype s = igd_service.
Definition ports_ok pm : Prop := is_int (external_port pm) ∧ is_int (internal_port pm).

Lemma AddPortMapping_runs m s : reachable (igd s) → (has_services_ s = true → at_igd s) → ports_ok m →
  enabled m = false ∨ PortMappingExists (external_port m) (protocol m) (port_mappings_ s) ≠ None →
  ∃ r s', AddPortMapping m s = Ok (r, s') ∧ same_igd s s' ∧ reachable (igd s') ∧
  if has_services_ s then
    port_mappings_ s' = upsert m r (port_mappings_ s) ∧
    if r then mapped (igd s') = {[mkey m]} ∪ mapped (igd s)
    else mapped (igd s') = mapped (igd s) ∧ refuses_add (mkey m) (igd s)
  else mapped (igd s') = mapped (igd s) ∧ (port_mappings_ s' = port_mappings_ s ∨
    port_mappings_ s' = port_mappings_ s ++ [m] ∧ mkey m ∉ keys (port_mappings_ s) ∧ enabled m = false).
Proof.
  intros Hr Hurl [He Hi] Hm. unfold AddPortMapping, upsert, when, mbind, M_bind, get, on_igd, zoom, modify, mret, M_ret.
  destruct (add_runs (external_port m) (internal_port m) (protocol m) (igd s) He Hi Hr) as (ret&g'&E&Hr'&Hmap).
  destruct (PortMappingExists _ _ _) as [i|] eqn:Ex.
  - rewrite bool_decide_false by done. destruct (has_services_ s) eqn:Es; cbn beta iota.
    + destruct (Hurl eq_refl) as [-> ->]. rewrite E. eexists _, _. split; [reflexivity|]. by destruct (ret =? _).
    + eexists _, _. split; [reflexivity|]. split; [done|]. split; [done|]. split; [done|by left].
  - rewrite bool_decide_true by done. cbn beta iota. cbn [has_services_ set_mappings igd].
    destruct Hm as [Hm|Hm]; [|done]. destruct (has_services_ s) eqn:Es; cbn beta iota.
    + destruct (Hurl eq_refl) as [Eu Ev]. cbn [controlURL servicetype igd set_mappings]. rewrite Eu, Ev, E.
      eexists _, _. split; [reflexivity|]. split; [done|]. split; [exact Hr'|].
      cbn [port_mappings_ set_mappings set_igd igd default]. rewrite alter_app_r_alt, Nat.sub_diag by done.
      split; [done|]. by destruct (ret =? _).
    + eexists _, _. split; [reflexivity|]. split; [done|]. split; [done|]. split; [done|]. right. split; [done|].
      split; [by apply exists_None|done].
Qed.

Lemma DeletePortMapping_runs m s : reachable (igd s) → is_int (external_port m) → (enabled_keys (port_mappings_ s) ≠ ∅ → at_igd s) →
  ∃ r s', DeletePortMapping (external_port m) (protocol m) s = Ok (r, s') ∧ same_igd s s' ∧ reachable (igd s') ∧
  (PortMappingExists (external_port m) (protocol m) (port_mappings_ s) = None ∧ r = false ∧ s' = s ∨
   ∃ l1 pm l2, port_mappings_ s = l1 ++ pm :: l2 ∧ mkey pm = mkey m ∧ port_mappings_ s' = l1 ++ l2 ∧
     if enabled pm then
       if r then mapped (igd s') = mapped (igd s) ∖ {[mkey m]}
       else mapped (igd s') = mapped (igd s) ∧ refuses_delete (mkey m) (igd s)
     else r = true ∧ mapped (igd s') = mapped (igd s)).
Proof.
  intros Hr He Hurl. unfold DeletePortMapping, mbind, M_bind, get, on_igd, zoom, modify, mret, M_ret.
  destruct (PortMappingExists _ _ _) as [i|] eqn:E; [|eexists _, _; split; [reflexivity|]; split; [done|]; split; [done|by left]].
  apply exists_Some in E as (pm&Ei&Ek). rewrite Ei. cbn [from_option]. pose proof Ei as (l1&l2&El&->)%keys_split.
  assert (delete (length l1) (port_mappings_ s) = l1 ++ l2) as Ed by by rewrite El, delete_middle.
  destruct (enabled pm) eqn:Een.
  - destruct Hurl as [-> ->]; [rewrite El, enabled_keys_app, enabled_keys_cons, Een; set_solver|].
    destruct (delete_runs (external_port m) (protocol m) (igd s) He Hr) as (ret&g'&E&Hr'&Hmap). rewrite E.
    eexists _, _. split; [reflexivity|]. split; [done|]. split; [exact Hr'|].
    right. exists l1, pm, l2. split; [done|]. split; [done|]. split; [exact Ed|]. rewrite Een. by destruct (ret =? _).
  - eexists _, _. split; [reflexivity|]. split; [done|]. split; [done|]. right. exists l1, pm, l2. rewrite Een. by split_and!.
Qed.

(** Each mapping is there once, what it says is enabled is in the table, and the
    commands go to the gateway. *)
Record tracked s : Prop := {
  tracked_reachable : reachable (igd s);
  tracked_url : has_services_ s = true → at_igd s;
  tracked_ports : Forall ports_ok (port_mappings_ s);
  tracked_keys : NoDup (keys (port_mappings_ s));
  tracked_enabled : enabled_keys (port_mappings_ s) ⊆ mapped (igd s);
}.
(** Between the operations, mappings are enabled only while there is a gateway. *)
Record settled s : Prop := {
  settled_enabled : has_services_ s = false → enabled_keys (port_mappings_ s) = ∅;
  settled_services : is_initialised_ s = false → has_services_ s = false;
}.

Lemma alter_out i l : l !! i = None → alter (set_enabled false) i l = l.
Proof. intros Ei. apply list_eq. intros j. rewrite list_lookup_alter. case_decide; [subst; by rewrite Ei|done]. Qed.
Lemma ports_alter b i l : Forall ports_ok l → Forall ports_ok (alter (set_enabled b) i l).
Proof. intros Hl. apply Forall_alter; [done|]. by intros pm _ Hpm. Qed.
Lemma ports_upsert m b l : ports_ok m → Forall ports_ok l → Forall ports_ok (upsert m b l).
Proof.
  intros Hm Hl. unfold upsert. destruct (PortMappingExists _ _ l); [by apply ports_alter|].
  apply Forall_app. split; [done|]. by constructor.
Qed.
Lemma at_same s s' : same_igd s s' → at_igd s → at_igd s'.
Proof. intros (_&_&Eu&Ev). unfold at_igd. by rewrite Eu, Ev. Qed.
Lemma url_same s s' : same_igd s s' → (has_services_ s = true → at_igd s) → has_services_ s' = true → at_igd s'.
Proof. intros Hs Hu Hh. pose proof Hs as (_&Eh&_). rewrite Eh in Hh. eapply at_same; [exact Hs|]. by apply Hu. Qed.
Lemma settled_at s : tracked s → settled s → enabled_keys (port_mappings_ s) ≠ ∅ → at_igd s.
Proof. intros Ht Hs He. apply tracked_url; [done|]. destruct (has_services_ s) eqn:E; [done|]. by destruct He; apply settled_enabled. Qed.

Lemma disabled_app l1 pm l2 b : enabled_keys (l1 ++ set_enabled b pm :: l2) =
  enabled_keys l1 ∪ ((if b then {[mkey pm]} else ∅) ∪ enabled_keys l2).
Proof. by rewrite enabled_keys_app, enabled_keys_cons. Qed.

Lemma tracked_add m s : tracked s → ports_ok m → enabled m = false ∨ PortMappingExists (external_port m) (protocol m) (port_mappings_ s) ≠ None →
  ∃ r s', AddPortMapping m s = Ok (r, s') ∧ tracked s' ∧ same_igd s s' ∧ (enabled m = false → settled s → settled s').
Proof.
  intros [Hr Hu Hp Hk He] Hok Hm. destruct (AddPortMapping_runs m s Hr Hu Hok Hm) as (r&s'&E&Hsame&Hr'&Hs).
  exists r, s'. split; [exact E|]. pose proof (url_same _ _ Hsame Hu) as Hu'. 
  assert (has_services_ s = false → enabled m = false → enabled_keys (port_mappings_ s') = enabled_keys (port_mappings_ s)) as Hoff.
  { intros Eh Hf. rewrite Eh in Hs. destruct Hs as [_ [->|(->&_&_)]]; [done|]. rewrite enabled_keys_app, enabled_keys_cons, Hf.
    change (enabled_keys []) with (∅ : gset (list Z * list Z)). set_solver. }
  split; [|split; [exact Hsame|]].
  2:{ pose proof Hsame as (Ei&Eh&_). intros Hf [Hs1 Hs2]. split; rewrite ?Ei, Eh; [|done]. intros Ehf. rewrite Hoff by done. by apply Hs1. }
  destruct (has_services_ s) eqn:Eh.
  - destruct Hs as [El Hmap]. destruct (upsert_spec m r _ Hk) as [Hn Hup].
    split; [done|done|rewrite El; by apply ports_upsert|by rewrite El|]. rewrite El, Hup.
    destruct r; [rewrite Hmap|rewrite (proj1 Hmap)]; set_solver +He.
  - destruct Hs as [Eg [El|(El&Hin&Hf)]].
    + by split; rewrite ?El, ?Eg.
    + rewrite El in Hoff. split; rewrite ?El, ?Eg, ?Hoff by done; try done.
      * apply Forall_app. split; [done|]. by constructor.
      * unfold keys in *. rewrite fmap_app. apply NoDup_app. split; [done|]. split; [|by apply NoDup_singleton].
        by intros x Hx ->%list_elem_of_singleton.
Qed.
Lemma tracked_delete m s : tracked s → settled s → is_int (external_port m) →
  ∃ r s', DeletePortMapping (external_port m) (protocol m) s = Ok (r, s') ∧ tracked s' ∧ settled s'.
Proof.
  intros Ht Hs Hm. pose proof (settled_at s Ht Hs) as Hat. destruct Ht as [Hr Hu Hp Hk He].
  destruct (DeletePortMapping_runs m s Hr Hm Hat) as (r&s'&E&Hsame&Hr'&Hd). exists r, s'. split; [exact E|].
  pose proof (url_same _ _ Hsame Hu) as Hu'. pose proof Hsame as (Ei&Eh&_). destruct Hs as [Hs1 Hs2].
  destruct Hd as [(_&_&->)|(l1&pm&l2&El&Ek&El'&Hg)]; [by split|]. rewrite El in Hp, Hk, He, Hs1.
  destruct (nodup_middle _ _ _ Hk) as (N1&N2&Hnd). rewrite enabled_keys_app, enabled_keys_cons in He, Hs1.
  split; [|split; rewrite ?Ei, Eh; [|done]; intros Ehf; rewrite El', enabled_keys_app; specialize (Hs1 Ehf); set_solver +Hs1].
  apply Forall_app in Hp as [Hp1 Hp2]. apply Forall_cons in Hp2 as [_ Hp2].
  split; [done|done|rewrite El'; by apply Forall_app|by rewrite El'|]. rewrite El', enabled_keys_app.
  rewrite Ek in *. destruct (enabled pm); [destruct r; [rewrite Hg|rewrite (proj1 Hg)]|rewrite (proj2 Hg)]; set_solver +He N1 N2.
Qed.
Lemma tracked_discover s : tracked s → ∃ s', DiscoverDevices s = Ok (tt, s') ∧ tracked s' ∧ port_mappings_ s' = port_mappings_ s ∧
  mapped (igd s') = mapped (igd s) ∧ is_initialised_ s' = is_initialised_ s.
Proof.
  intros [Hr Hu Hp Hk He]. unfold DiscoverDevices, mbind, M_bind, on_igd, zoom, on_gateway, modify.
  pose proof (discover_mapped (igd s)) as Hd. pose proof (discover_reachable (igd s) Hr) as Hr'.
  pose proof (discover_finds (igd s)) as Hf. destruct (igd_discover (igd s)) as [[[res url] service] g]. cbn in *.
  eexists. split; [reflexivity|]. split; [|by split]. split; cbn; rewrite ?Hd; try done. intros Hres. apply Hf. lia.
Qed.

(** Without a gateway, a refresh disables all mappings. *)
Lemma refresh_off n i s : has_services_ s = false → length (port_mappings_ s) = (i + n)%nat →
  refresh n i s = Ok (tt, set_mappings (take i (port_mappings_ s) ++ (set_enabled false <$> drop i (port_mappings_ s))) s).
Proof.
  revert i s. induction n as [|n IH]; intros i s Hs Hl; cbn [refresh].
  - rewrite drop_ge, take_ge by lia. cbn. rewrite app_nil_r. by destruct s.
  - unfold mbind, M_bind, get. destruct (lookup_lt_is_Some_2 (port_mappings_ s) i) as [pm Ei]; [lia|]. rewrite Ei, Hs. cbn [modify].
    pose proof Ei as (l1&l2&El&->)%keys_split. rewrite IH; [|done|cbn; rewrite length_alter; lia]. f_equal. f_equal. unfold set_mappings. cbn.
    f_equal. rewrite El, alter_app_r_alt, Nat.sub_diag by done. cbn.
    rewrite !take_app, !drop_app, take_ge, drop_ge, Nat.sub_succ_l, Nat.sub_diag by lia. cbn. 
    rewrite (take_ge l1), (drop_ge l1) by lia. cbn. by rewrite <-app_assoc, app_nil_r.
Qed.
Lemma enabled_keys_off l : enabled_keys (set_enabled false <$> l) = ∅.
Proof. induction l as [|pm l IH]; [done|]. rewrite fmap_cons, enabled_keys_cons, IH. set_solver. Qed.

Lemma tracked_refresh n i s : tracked s → has_services_ s = true →
  ∃ s', refresh n i s = Ok (tt, s') ∧ tracked s' ∧ has_services_ s' = true ∧ is_initialised_ s' = is_initialised_ s.
Proof.
  revert i s. induction n as [|n IH]; intros i s Hs Hh; [by exists s|]. cbn [refresh]. unfold mbind, M_bind, get.
  destruct (port_mappings_ s !! i) as [pm|] eqn:Ei; [|by apply IH]. rewrite Hh.
  destruct (tracked_add pm s Hs) as (r&s'&E&Hs'&(Ein&Eh&_)&_).
  - eapply Forall_lookup_1; [by apply tracked_ports|exact Ei].
  - right. intros Hn%exists_None. apply Hn, list_elem_of_fmap. exists pm. split; [done|]. by eapply list_elem_of_lookup_2.
  - rewrite E. cbn. rewrite <-Ein. apply IH; [done|]. by rewrite Eh.
Qed.
Lemma tracked_refreshes s : tracked s → is_initialised_ s = true → ∃ s', refresh (length (port_mappings_ s)) 0 s = Ok (tt, s') ∧ tracked s' ∧ settled s'.
Proof.
  intros Hs Hi. destruct (has_services_ s) eqn:Eh.
  - destruct (tracked_refresh (length (port_mappings_ s)) 0 s Hs Eh) as (s'&E&Hs'&Eh'&Ei'). exists s'. split; [exact E|]. split; [done|].
    split; rewrite ?Eh', ?Ei', ?Hi; done.
  - rewrite refresh_off by done. rewrite take_0, drop_0. cbn [app]. eexists. split; [reflexivity|]. destruct Hs as [Hr Hu Hp Hk He].
    assert (keys (set_enabled false <$> port_mappings_ s) = keys (port_mappings_ s)) as Ek by (unfold keys; by rewrite <-list_fmap_compose).
    assert (Forall ports_ok (set_enabled false <$> port_mappings_ s)) as Hp' by (by apply Forall_fmap).
    pose proof (enabled_keys_off (port_mappings_ s)) as Ee. set (l := set_enabled false <$> port_mappings_ s) in *. clearbody l.
    split; [split|split]; cbn [port_mappings_ set_mappings igd has_services_ is_initialised_]; by rewrite ?Ek, ?Ee, ?Hi.
Qed.

(** What a refresh begins with *)
Definition rediscover : M UpnpIgdClientImpl unit :=
  s ← get;
  connected ← (if has_services_ s then on_igd (IsUpnpIgdConnected (controlURL s) (servicetype s)) else mret false);
  when (negb connected) DiscoverDevices.
Lemma tracked_rediscover s : tracked s → is_initialised_ s = true → ∃ s', rediscover s = Ok (tt, s') ∧ tracked s' ∧
  is_initialised_ s' = true ∧ port_mappings_ s' = port_mappings_ s.
Proof.
  intros Ht Hi. unfold rediscover, mbind, M_bind, get, on_igd, zoom. destruct (has_services_ s) eqn:Eh.
  - destruct Ht as [Hr Hu Hp Hk He]. destruct (Hu Eh) as [Eu Ev]. destruct (status_runs (igd s) Hr) as (b&g'&E&Hr'&Hm).
    rewrite Eu, Ev, E. assert (tracked (set_igd g' s)) as Ht by (split; cbn; rewrite ?Hm; done).
    destruct b; cbn [when negb]; [by exists (set_igd g' s)|].
    destruct (tracked_discover _ Ht) as (s'&->&Ht'&El&_&Ei). exists s'. by rewrite Ei, El.
  - destruct (tracked_discover s Ht) as (s'&E&Ht'&El&_&Ei). exists s'. cbn [mret M_ret when negb]. by rewrite E, Ei, El.
Qed.
Lemma RefreshCallback_runs s : tracked s → is_initialised_ s = true → ∃ s', RefreshCallback s = Ok (tt, s') ∧ tracked s' ∧ settled s'.
Proof.
  intros Ht Hi. destruct (tracked_rediscover s Ht Hi) as (s1&E1&Ht1&Hi1&El). destruct (tracked_refreshes s1 Ht1 Hi1) as (s'&E&Hs').
  exists s'. split; [|exact Hs']. rewrite <-E, El. unfold rediscover, RefreshCallback, mbind, M_bind, get in *.
  destruct (has_services_ s); [destruct (on_igd _ s) as [[c s2]|]; [|done]|cbn [mret M_ret] in *]; by rewrite E1.
Qed.

(** The ports of an operation are numbers of the type [int]. *)
Definition op_ok (o : op) : Prop := match o with OpAdd port _ | OpDelete port _ => is_int port | _ => True end.

Lemma tracked_op o s : op_ok o → tracked s → settled s → ∃ s', run_op o s = Ok (tt, s') ∧ tracked s' ∧ settled s'.
Proof.
  intros Ho Ht Hs. destruct o as [|port p|port p| |]; cbn [run_op op_ok] in *.
  - unfold InitControlPoint, mbind, M_bind, get. destruct (is_initialised_ s) eqn:Ei; [by exists s|].
    destruct (tracked_discover s Ht) as (s'&->&[Hr Hu Hp Hk He]&El&_). cbn. eexists. split; [reflexivity|]. split; [by split|].
    split; cbn; [|done]. intros _. rewrite El. apply (settled_enabled s Hs), (settled_services s Hs), Ei.
  - destruct (tracked_add (new_mapping port p) s Ht) as (r&s'&E&Ht'&_&Hs'); [by split|by left|]. exists s'. split; [|by split; [|apply Hs']].
    unfold Client_AddPortMapping, mbind, M_bind. by rewrite E.
  - destruct (tracked_delete (new_mapping port p) s Ht Hs Ho) as (r&s'&E&Hs'). exists s'. split; [|done].
    unfold Client_DeletePortMapping, mbind, M_bind. cbn in E. by rewrite E.
  - unfold GetExternalIpAddress, mbind, M_bind, get. destruct (has_services_ s) eqn:Eh; [|by exists s].
    destruct Ht as [Hr Hu Hp Hk He]. destruct (Hu Eh) as [Eu Ev]. destruct (address_runs (igd s) Hr) as (r&g'&E&Hr'&Hm).
    unfold on_igd, zoom. rewrite Eu, Ev, E. cbn. eexists. split; [reflexivity|]. destruct Hs as [Hs1 Hs2].
    by split; split; cbn; rewrite ?Hm.
  - unfold mbind, M_bind, get. destruct (is_initialised_ s) eqn:Ei; [|by exists s]. cbn [when].
    by apply RefreshCallback_runs.
Qed.
Lemma tracked_new g : reachable g → tracked (new_client g) ∧ settled (new_client g).
Proof. intros Hr. split; split; cbn; try done. by apply NoDup_nil. Qed.
Lemma tracked_ops os s : Forall op_ok os → tracked s → settled s → ∃ s', run_ops os s = Ok (tt, s') ∧ tracked s' ∧ settled s'.
Proof.
  intros Hos. revert s. induction Hos as [|o os Ho _ IH]; intros s Ht Hs; [by exists s|].
  destruct (tracked_op o s Ho Ht Hs) as (s1&E1&Ht1&Hs1). destruct (IH s1 Ht1 Hs1) as (s'&E&H'). exists s'. split; [|exact H'].
  cbn [run_ops]. unfold mbind, M_bind. by rewrite E1.
Qed.
Lemma tracked_mapped s pm : tracked s → pm ∈ port_mappings_ s → enabled pm = true →
  (decimal (external_port pm), protocol_name (protocol pm)) ∈ mapped (igd s).
Proof.
  intros Ht Hin Hen. apply (tracked_enabled s Ht). unfold enabled_keys. rewrite elem_of_list_to_set. apply list_elem_of_fmap.
  exists pm. split; [done|]. by apply list_elem_of_filter.
Qed.


(** What the gateway has is from before, in [T], or enabled in the list. *)
Record held (T : gset (list Z * list Z)) s : Prop := {
  held_tracked : tracked s;
  held_settled : settled s;
  held_mapped : mapped (igd s) ⊆ T ∪ enabled_keys (port_mappings_ s);
}.

Context `{!IgdWilling}.
Implicit Types T : gset (list Z * list Z).

Lemma held_add T m s : held T s → ports_ok m → enabled m = false → ∃ r s', AddPortMapping m s = Ok (r, s') ∧ held T s'.
Proof.
  intros [Ht Hs Hm] Hp Hf. destruct (tracked_add m s Ht Hp (or_introl Hf)) as (r&s'&E&Ht'&_&Hs'). exists r, s'. split; [exact E|].
  split; [exact Ht'|by apply Hs'|]. clear Ht' Hs'.
  destruct (AddPortMapping_runs m s (tracked_reachable s Ht) (tracked_url s Ht) Hp (or_introl Hf)) as (r1&s1&E1&_&_&Hr).
  rewrite E in E1. injection E1 as <- <-. destruct (has_services_ s).
  - destruct Hr as [El Hr]. rewrite El, (proj2 (upsert_spec m _ _ (tracked_keys _ Ht))). destruct r.
    + rewrite Hr, (union_comm_L {[mkey m]} (_ ∖ _)), difference_union_L. set_solver +Hm.
    + destruct Hr as [-> Href]. assert (mkey m ∉ mapped (igd s)) by (by intros ?%replaces). set_solver.
  - destruct Hr as [-> [->|(->&_&_)]]; [done|]. rewrite enabled_keys_app. set_solver +Hm.
Qed.

Lemma held_delete T m s : held T s → is_int (external_port m) → ∃ r s', DeletePortMapping (external_port m) (protocol m) s = Ok (r, s') ∧
  held T s' ∧ (mkey m ∈ keys (port_mappings_ s) → r = true ∧ (length (port_mappings_ s') < length (port_mappings_ s))%nat).
Proof.
  intros [Ht Hs Hm] Hp. destruct (tracked_delete m s Ht Hs Hp) as (r&s'&E&Ht'&Hs'). exists r, s'. split; [exact E|].
  destruct (DeletePortMapping_runs m s (tracked_reachable s Ht) Hp (settled_at s Ht Hs)) as (r1&s1&E1&_&_&Hr).
  rewrite E in E1. injection E1 as <- <-.
  destruct Hr as [(Hn%exists_None&->&->)|(l1&pm&l2&El&Ek&El'&Hg)]; [by split; [|intros Hin]|].
  pose proof (tracked_keys s Ht) as Hk. pose proof (tracked_enabled s Ht) as He. rewrite El in Hk, He, Hm.
  destruct (nodup_middle _ _ _ Hk) as (N1&N2&_). rewrite !enabled_keys_app, !enabled_keys_cons, Ek in *.
  assert (r = true ∧ mapped (igd s') ⊆ T ∪ (enabled_keys l1 ∪ enabled_keys l2)) as [-> Hsub].
  { destruct (enabled pm).
    - destruct r; [split; [done|rewrite Hg; set_solver +Hm]|]. destruct Hg as [_ Href].
      exfalso. apply (deletes (mkey m) (igd s)); [set_solver +He|exact Href].
    - destruct Hg as [-> ->]. split; [done|]. set_solver +Hm. }
  split; [by split; [..|rewrite El', enabled_keys_app]|]. intros _. split; [done|]. rewrite El, El', !length_app. cbn. lia.
Qed.

Lemma held_op T o s : o ≠ OpRefresh → op_ok o → held T s → ∃ s', run_op o s = Ok (tt, s') ∧ held T s'.
Proof.
  intros Hne Ho Hh. pose proof Hh as [Ht Hs Hm]. destruct o as [|port p|port p| |]; cbn [op_ok] in Ho; try done.
  - destruct (tracked_op OpInit s I Ht Hs) as (s'&E&Ht'&Hs'). exists s'. split; [exact E|]. split; [done..|].
    cbn [run_op] in E. unfold InitControlPoint, mbind, M_bind, get in E. destruct (is_initialised_ s); [by injection E as <-|].
    destruct (tracked_discover s Ht) as (s1&E1&_&El&Em&_). rewrite E1 in E. injection E as <-. cbn. by rewrite Em, El.
  - destruct (held_add T (new_mapping port p) s Hh) as (r&s'&E&Hs'); [by split|done|]. exists s'. split; [|done].
    cbn [run_op]. unfold Client_AddPortMapping, mbind, M_bind. by rewrite E.
  - destruct (held_delete T (new_mapping port p) s Hh Ho) as (r&s'&E&Hs'&_). exists s'. split; [|done].
    cbn [run_op]. unfold Client_DeletePortMapping, mbind, M_bind. cbn in E. by rewrite E.
  - destruct (tracked_op OpGetExternalIpAddress s I Ht Hs) as (s'&E&Ht'&Hs'). exists s'. split; [exact E|]. split; [done..|].
    cbn [run_op] in E. unfold GetExternalIpAddress, mbind, M_bind, get, on_igd, zoom in E.
    destruct (has_services_ s) eqn:Eh; [|by injection E as <-]. destruct (tracked_url s Ht Eh) as [Eu Ev].
    destruct (address_runs (igd s) (tracked_reachable s Ht)) as (r&g'&Er&_&Em). rewrite Eu, Ev, Er in E. injection E as <-.
    cbn. by rewrite Em.
Qed.
Lemma held_ops T os s : OpRefresh ∉ os → Forall op_ok os → held T s → ∃ s', run_ops os s = Ok (tt, s') ∧ held T s'.
Proof.
  intros Hno Hos. revert s. induction Hos as [|o os Ho _ IH]; intros s Hs; [by exists s|].
  apply not_elem_of_cons in Hno as [Hne%not_eq_sym Hno].
  destruct (held_op T o s) as (s1&E1&Hs1); [done..|]. destruct (IH Hno s1 Hs1) as (s'&E&H'). exists s'. split; [|exact H'].
  cbn [run_ops]. unfold mbind, M_bind. by rewrite E1.
Qed.
Lemma held_delete_all T fuel s : (length (port_mappings_ s) < fuel)%nat → held T s →
  ∃ s', delete_all fuel true s = Ok (true, s') ∧ port_mappings_ s' = [] ∧ mapped (igd s') ⊆ T.
Proof.
  revert s. induction fuel as [|fuel IH]; intros s Hl Hs; [lia|]. cbn [delete_all]. unfold mbind, M_bind, get.
  destruct (port_mappings_ s) as [|pm l] eqn:El.
  - exists s. split; [done|]. split; [done|]. destruct Hs as [_ _ Hm]. rewrite El in Hm.
    change (enabled_keys []) with (∅ : gset (list Z * list Z)) in Hm. set_solver +Hm.
  - pose proof (tracked_ports s (held_tracked T s Hs)) as Hp. rewrite El in Hp. apply Forall_cons in Hp as [[Hp _] _].
    destruct (held_delete T pm s Hs Hp) as (r&s1&E&Hs1&Hr). destruct Hr as [-> Hr]; [rewrite El; by left|].
    rewrite E. apply IH; [rewrite El in Hr; cbn in *; lia|exact Hs1].
Qed.

End tracking.

(** ** Examples *)

Module UpnpExamples.
#[local] Existing Instances Sim.ip ContactExamples.text.

(** A gateway with room for [gw_room] mappings, on a network that may be unplugged *)
Record gw := MkGw { gw_plugged : bool; gw_room : nat; gw_table : gset (list Z * list Z) }.
Definition gw_add (k : list Z * list Z) (g : gw) : bool * gw :=
  if bool_decide (k ∈ gw_table g) || bool_decide (size (gw_table g) < gw_room g)%nat
  then (true, MkGw (gw_plugged g) (gw_room g) ({[k]} ∪ gw_table g)) else (false, g).
Definition gw_delete (k : list Z * list Z) (g : gw) : bool * gw :=
  if bool_decide (k ∈ gw_table g)
  then (true, MkGw (gw_plugged g) (gw_room g) (gw_table g ∖ {[k]})) else (false, g).

(** Its answers *)
Definition http_ok : list Z := lit "HTTP/1.1 200 OK" ++ crlf ++ lit "Content-Type: text/xml" ++ crlf ++ crlf.
Definition in_envelope (doc : list token) : list token :=
  [StartTag (lit "s") (lit "Envelope") [] crlf; StartTag (lit "s") (lit "Body") [] []] ++ doc ++
  [EndTag (lit "s:Body") []; EndTag (lit "s:Envelope") crlf].
Definition value_doc (v : list Z * list Z) : list token := [StartTag [] v.1 [] v.2; EndTag v.1 crlf].
Definition done_doc (values : list (list Z * list Z)) : list token :=
  in_envelope ([StartTag (lit "u") (lit "Response") [] crlf] ++ concat (value_doc <$> values) ++ [EndTag (lit "u:Response") []]).
Definition error_doc (code : Z) : list token :=
  in_envelope ([StartTag (lit "s") (lit "Fault") [] []; StartTag [] (lit "UPnPError") [] []] ++
    value_doc (lit "errorCode", decimal code) ++ [EndTag (lit "UPnPError") []; EndTag (lit "s:Fault") []]).
Definition answer (doc : list token) : list (list Z) := [http_ok; render doc].

(** It reads a request with the parser. *)
Definition value_of (name : list Z) (es : list (list Z * list Z)) : list Z :=
  default [] ((snd ∘ snd) <$> list_find (λ e, e.1 = name) es).
Definition perform (es : list (list Z * list Z)) (g : gw) : list token * gw :=
  let k := (value_of (lit "NewExternalPort") es, value_of (lit "NewProtocol") es) in
  if bool_decide (lit "AddPortMapping" ∈ es.*1) then
    (if (gw_add k g).1 then done_doc [] else error_doc 728, (gw_add k g).2)
  else if bool_decide (lit "DeletePortMapping" ∈ es.*1) then
    (if (gw_delete k g).1 then done_doc [] else error_doc 714, (gw_delete k g).2)
  else (done_doc [(lit "NewConnectionStatus", status_connected); (lit "NewUptime", lit "7"); (lit "NewExternalIPAddress", lit "8.8.8.8")], g).
#[export] Instance gw_network : Network := {|
  gateway := gw;
  connect host port g := (gw_plugged g, g);
  submit host port request g :=
    match read_elements request with
    | Ok es => (Some (answer (perform es g).1), (perform es g).2)
    | Fault _ => (None, g)
    end;
  stack g i := 0;
|}.
Definition home_url : list Z := lit "http://10.0.0.1:5000/ctl/IPConn".
Definition home_service : list Z := lit "urn:schemas-upnp-org:service:WANIPConnection:1".
#[export] Instance gw_igd : @Igd gw_network := {|
  igd_discover := λ g : @gateway gw_network, (if gw_plugged g then (1, home_url, home_service) else (0, [], []), g);
|}.

(** The answers that it gives arrive in full. *)
Definition empty_buffer : list Z := replicate buffer_size 0.
Definition received (pieces : list (list Z)) : list Z := (from_ok ([], 0%nat) (receive pieces empty_buffer 0 (-1, -1))).1.
Definition arrives (error : option Z) (doc : list token) : Prop :=
  Forall token_ok doc ∧ ends_ok doc ∧ reports error doc ∧
  receive (answer doc) empty_buffer 0 (-1, -1) = Ok (received (answer doc), length (http_ok ++ render doc)) ∧
  take (length (http_ok ++ render doc)) (received (answer doc)) = http_ok ++ render doc.
Lemma arrives_answered error doc (g : @gateway gw_network) : arrives error doc →
  answered error (stack g <$> seq 0 buffer_size) (answer doc).
Proof.
  intros (Hd&He&Hr&Er&Et). exists http_ok, doc, (received (answer doc)). change (stack g <$> seq 0 buffer_size) with empty_buffer.
  split; [literal_ok|]. by split_and!.
Qed.
Lemma arrives_done : arrives None (done_doc []).
Proof. split_and!; [literal_ok|done| | |]; vm_compute; reflexivity. Qed.
Lemma arrives_values : arrives None (done_doc [(lit "NewConnectionStatus", status_connected); (lit "NewUptime", lit "7"); (lit "NewExternalIPAddress", lit "8.8.8.8")]).
Proof. split_and!; [literal_ok|done| | |]; vm_compute; reflexivity. Qed.
Lemma arrives_error code : code = 714 ∨ code = 728 → arrives (Some code) (error_doc code).
Proof. intros [-> | ->]; (split_and!; [literal_ok|done|split; [done|]| |]); vm_compute; reflexivity. Qed.

(** What it reads of a request *)
Lemma shown_numeral s : Forall numeral s → shown s = s.
Proof.
  intros Hs. unfold shown. destruct Hs as [|c s Hc Hs]; [done|]. cbn [trim].
  replace (IS_WHITE_SPACE c) with false by (unfold numeral, IS_WHITE_SPACE in *; lia). by rewrite take_ge.
Qed.
Lemma shown_decimal z : is_int z → shown (decimal z) = decimal z.
Proof. intros Hz. unfold is_int in Hz. apply shown_numeral, (decimal_codes 9). change (10 ^ Z.of_nat 10) with 10000000000. lia. Qed.
Lemma decimal_ok z : is_int z → text_ok (decimal z).
Proof. intros Hz. unfold is_int in Hz. apply decimal_text_ok. lia. Qed.
Definition home_path : list Z := lit "/ctl/IPConn".
Definition home_host : list Z := lit "10.0.0.1".
Definition home_request (action : list Z) (args : list UPNParg) : list Z :=
  post home_path home_host 5000 home_service action (envelope action home_service args).

Lemma home_read action args : bool_decide (action ∈ [lit "AddPortMapping"; lit "DeletePortMapping"; lit "GetExternalIPAddress"; lit "GetStatusInfo"]) →
  Forall argument_ok args → (length (concat (argument <$> args)) ≤ 1300)%nat →
  read_elements (home_request action args) =
  Ok (reverse ([(lit "Envelope", []); (lit "Body", []); (action, [])] ++ ((λ arg : UPNParg, (arg.1, shown (default [] arg.2))) <$> args))).
Proof.
  intros Ha%bool_decide_unpack Hargs Hl. 
  assert (name_ok action ∧ text_ok action ∧ (length action ≤ 20)%nat) as (Hn&Ht&Hl').
  { repeat (apply elem_of_cons in Ha as [->|Ha]; [split_and!; [literal_ok|literal_ok|vm_compute; lia]|]). by apply elem_of_nil in Ha. }
  assert (length home_service ≤ 64)%nat as Hs by (vm_compute; lia). pose proof (envelope_fits action home_service args Hl' Hs Hl) as Hf.
  assert (text_ok home_path) as Hp by literal_ok. assert (text_ok home_host) as Hh by literal_ok.
  assert (Forall (λ c, c ≠ 34) home_service ∧ text_ok home_service) as [Hq Hs'] by (split; literal_ok).
  assert (is_u16 5000) as Hport by (unfold is_u16; lia).
  assert (length (envelope action home_service args) < soapbody_size)%nat as Hf' by (clear -Hf; lia).
  exact (request_read home_path home_host 5000 home_service action args Hp Hh Hport Hn Ht Hq Hs' Hargs Hf').
Qed.

(** A request is carried out and answered. *)
Lemma home_serves action args es (Q : option Z → @gateway gw_network → Prop) g : gw_plugged g = true →
  read_elements (home_request action args) = Ok es →
  (∃ error, arrives error (perform es g).1 ∧ Q error (perform es g).2) →
  serves g home_host 5000 (home_request action args) Q.
Proof.
  intros Hg Hr (error&Ha&HQ). exists g, (answer (perform es g).1), (perform es g).2, error. cbn [connect submit gw_network].
  rewrite Hr, Hg. split; [done|]. split; [done|]. split; [by apply arrives_answered|done].
Qed.

(** The elements of a request, by their names *)
Ltac elements_of es := unfold es, key; generalize decimal protocol_name; intros; vm_compute; reflexivity.

Lemma home_add external internal p (g : gw) : is_int external → is_int internal → gw_plugged g = true →
  serves g home_host 5000 (home_request (lit "AddPortMapping") (AddPortMappingArgs (decimal external) (decimal internal)
    (ip_to_string ip_none) (Some kClientName) (protocol_name p) None))
  (λ error g', gw_plugged g' = true ∧
     if error is Some _ then gw_table g' = gw_table g ∧ key external p ∉ gw_table g
     else gw_table g' = {[key external p]} ∪ gw_table g).
Proof.
  intros He Hi Hg. eapply home_serves; [exact Hg|apply home_read|].
  - done.
  - pose proof (decimal_ok external He). pose proof (decimal_ok internal Hi).
    repeat (constructor; [split; [literal_ok|first [assumption|literal_ok|by destruct p; literal_ok]]|]). constructor.
  - by apply add_args_short; [..|vm_compute; lia].
  - unfold AddPortMappingArgs. cbn [fmap list_fmap fst snd default from_option id]. rewrite !shown_decimal by done.
    assert (shown (protocol_name p) = protocol_name p) as -> by (by destruct p). set (es := reverse _).
    assert (perform es g = (if (gw_add (key external p) g).1 then done_doc [] else error_doc 728, (gw_add (key external p) g).2)) as ->.
    { unfold perform. assert (bool_decide (lit "AddPortMapping" ∈ es.*1) = true) as -> by elements_of es.
      assert ((value_of (lit "NewExternalPort") es, value_of (lit "NewProtocol") es) = key external p) as -> by elements_of es. done. }
    cbn [fst snd]. unfold gw_add. destruct (bool_decide _ || bool_decide _) eqn:E; cbn [fst snd].
    + exists None. split; [apply arrives_done|]. done.
    + exists (Some 728). split; [apply arrives_error; by right|]. split; [done|]. split; [done|].
      intros Hin. rewrite bool_decide_true in E; done.
Qed.
Lemma home_delete external p (g : gw) : is_int external → gw_plugged g = true →
  serves g home_host 5000 (home_request (lit "DeletePortMapping") (DeletePortMappingArgs (decimal external) (protocol_name p) None))
  (λ error g', gw_plugged g' = true ∧
     if error is Some _ then gw_table g' = gw_table g ∧ key external p ∉ gw_table g
     else gw_table g' = gw_table g ∖ {[key external p]}).
Proof.
  intros He Hg. eapply home_serves; [exact Hg|apply home_read|].
  - done.
  - pose proof (decimal_ok external He).
    repeat (constructor; [split; [literal_ok|first [assumption|literal_ok|by destruct p; literal_ok]]|]). constructor.
  - by apply delete_args_short.
  - unfold DeletePortMappingArgs. cbn [fmap list_fmap fst snd default from_option id]. rewrite !shown_decimal by done.
    assert (shown (protocol_name p) = protocol_name p) as -> by (by destruct p). set (es := reverse _).
    assert (perform es g = (if (gw_delete (key external p) g).1 then done_doc [] else error_doc 714, (gw_delete (key external p) g).2)) as ->.
    { unfold perform. assert (bool_decide (lit "AddPortMapping" ∈ es.*1) = false) as -> by elements_of es.
      assert (bool_decide (lit "DeletePortMapping" ∈ es.*1) = true) as -> by elements_of es.
      assert ((value_of (lit "NewExternalPort") es, value_of (lit "NewProtocol") es) = key external p) as -> by elements_of es. done. }
    cbn [fst snd]. unfold gw_delete. destruct (bool_decide _) eqn:E; cbn [fst snd].
    + exists None. split; [apply arrives_done|]. done.
    + exists (Some 714). split; [apply arrives_error; by left|]. split; [done|]. split; [done|].
      intros Hin. rewrite bool_decide_true in E; done.
Qed.
Lemma home_query action (g : gw) : action ∈ [lit "GetExternalIPAddress"; lit "GetStatusInfo"] → gw_plugged g = true →
  serves g home_host 5000 (home_request action []) (λ _ g', gw_plugged g' = true ∧ gw_table g' = gw_table g).
Proof.
  intros Ha Hg. eapply home_serves; [exact Hg|apply home_read|].
  - apply bool_decide_pack. do 2 right. exact Ha.
  - constructor.
  - cbn. lia.
  - exists None. repeat (apply elem_of_cons in Ha as [->|Ha]; [split; [apply arrives_values|done]|]). by apply elem_of_nil in Ha.
Qed.

#[export] Instance gw_laws : IgdLaws.
Proof.
  refine {| igd_url := home_url; igd_service := home_service; igd_host := home_host; igd_port := 5000; igd_path := home_path;
    reachable := λ g : @gateway gw_network, gw_plugged g = true; mapped := gw_table : @gateway gw_network → _;
    refuses_add := λ k (g : @gateway gw_network), k ∉ gw_table g; refuses_delete := λ k (g : @gateway gw_network), k ∉ gw_table g |}.
  1: vm_compute; reflexivity.
  1-3: vm_compute; lia.
  - intros g. cbn. by destruct (gw_plugged g).
  - done.
  - done.
  - intros. by apply home_add.
  - intros. by apply home_delete.
  - intros. by apply home_query.
Defined.
#[export] Instance gw_willing : IgdWilling.
Proof. by split; intros k g Hin Hn. Qed.

Definition home : @gateway gw_network := MkGw true 2 {[([55], [85; 68; 80])]}.
Definition requests : list op := [OpAdd 80 kTcp; OpInit; OpAdd 5483 kUdp; OpAdd 5483 kTcp; OpAdd 81 kUdp; OpDelete 81 kUdp; OpGetExternalIpAddress].

Definition final {A} (r : Res (A * UpnpIgdClientImpl)) : option (list PortMapping * list (list Z * list Z)) :=
  match r with Ok (_, s) => Some (port_mappings_ s, elements (gw_table (igd s))) | _ => None end.

(** A mapping asked for before a device was found is listed and never registered; the
    header says it is scheduled for registration with future services.  One that did not
    fit is listed and not enabled. *)
Example early_mapping_unregistered :
  final (run_ops requests (new_client home)) =
  Some ([MkPortMapping 80 80 kTcp false; MkPortMapping 5483 5483 kUdp true; MkPortMapping 5483 5483 kTcp false],
        [([55], [85; 68; 80]); ([53; 52; 56; 51], [85; 68; 80])]).
Proof. vm_compute. reflexivity. Qed.

Lemma requests_ok : Forall op_ok requests.
Proof. repeat (constructor; [cbn; unfold is_int; lia|]). constructor. Qed.

(** The cable is pulled. *)
Definition unplugged (s : UpnpIgdClientImpl) : UpnpIgdClientImpl :=
  set_igd (MkGw false (gw_room (igd s)) (gw_table (igd s)) : @gateway gw_network) s.
(** A gateway that cannot be reached cannot report an error: the mapping counts as
    enabled. *)
Example unreachable_enabled :
  final ((run_ops [OpInit];; modify unplugged;; run_ops [OpAdd 5483 kUdp]) (new_client home)) =
  Some ([MkPortMapping 5483 5483 kUdp true], [([55], [85; 68; 80])]).
Proof. vm_compute. reflexivity. Qed.
(** Nor does the client notice that it deletes nothing. *)
Example unreachable_deleted :
  (r ← (run_ops [OpInit; OpAdd 5483 kUdp];; modify unplugged;; DeleteAllPortMappings) (new_client home); Ok r.1) = Ok true ∧
  final ((run_ops [OpInit; OpAdd 5483 kUdp];; modify unplugged;; DeleteAllPortMappings) (new_client home)) =
  Some ([], [([55], [85; 68; 80]); ([53; 52; 56; 51], [85; 68; 80])]).
Proof. split; vm_compute; reflexivity. Qed.
(** A refresh that finds no device forgets that a mapping is in the table: destroying
    the client leaves it there. *)
Example refresh_forgets :
  final ((run_ops [OpInit; OpAdd 5483 kUdp];; modify unplugged;; RefreshCallback;; DeleteAllPortMappings) (new_client home)) =
  Some ([], [([55], [85; 68; 80]); ([53; 52; 56; 51], [85; 68; 80])]).
Proof. vm_compute. reflexivity. Qed.
End UpnpExamples.
