(* ===== verification/UpnpControlPoint.v ===== *)
(** * The UPnP client over libupnp

    Models src/maidsafe/transport/upnp/upnp_client_impl.cc, the asynchronous
    implementation of the UPnP client, which the build leaves out: a control point that
    follows the devices and services that come and go and keeps its port mappings on
    every service that is connected.  The SDK, libupnp, is the class [Libupnp]; a
    document of it is a DOM tree.  Services are shared objects: they are in a store and
    addressed by handles, and a root device by the number it got in the list. *)

From stdpp Require Import strings.
From S2P Require Import Prelude Text ByteOrder.
From S2P Require Upnp.

#[local] Existing Instance Upnp.ProtocolType_eq_dec.

(** ** Documents *)

(** What the code uses of a node: whether it is an element, its name, its local name and
    value, which can be NULL, and its children *)
Inductive Node := MkNode (element : bool) (nm : list Z) (local : option (list Z)) (value : option (list Z)) (children : list Node).
Definition is_element (n : Node) : bool := let 'MkNode b _ _ _ _ := n in b.
Definition node_name (n : Node) : list Z := let 'MkNode _ s _ _ _ := n in s.
Definition local_name (n : Node) : option (list Z) := let 'MkNode _ _ s _ _ := n in s.
Definition node_value (n : Node) : option (list Z) := let 'MkNode _ _ _ v _ := n in v.
Definition child_nodes (n : Node) : list Node := let 'MkNode _ _ _ _ l := n in l.
(** The value of the first child; nothing if there is no child *)
Definition content (n : Node) : option (option (list Z)) := node_value <$> head (child_nodes n).

(** There is one client, so its handle is not an argument of the calls it makes. *)
Class Libupnp := {
  sdk : Type;
  action : Type;
  UpnpInit : sdk → bool * sdk;
  UpnpFinish : sdk → sdk;
  UpnpRegisterClient : sdk → option Z * sdk;
  UpnpUnRegisterClient : Z → sdk → sdk;
  UpnpSearchAsync : Z → list Z → sdk → sdk;
  (** name, type of the service, arguments *)
  UpnpMakeAction : list Z → list Z → list (list Z * list Z) → option action;
  (** control URL, type of the service; the response if it succeeds *)
  UpnpSendAction : list Z → list Z → action → sdk → option (option Node) * sdk;
  UpnpSendActionAsync : list Z → list Z → action → sdk → bool * sdk;
  UpnpSubscribeAsync : list Z → Z → sdk → bool * sdk;
  UpnpDownloadXmlDoc : list Z → sdk → option (option Node);
  UpnpResolveURL : list Z → list Z → option (list Z);
  UpnpGetServerIpAddress : sdk → list Z;
  UpnpGetServerPort : sdk → Z;
  (** of the base library *)
  StrToLwr : list Z → list Z;
  epoch_time : nat → Z;                        (** the [i]-th reading *)
}.

(** ** Data *)

Record Service := MkService {
  service_type : list Z;
  service_id : list Z;
  scpd_url : list Z;
  control_url : list Z;
  event_sub_url : list Z;
  enabled : bool;
  status_requested : bool;
  subscription_requested : bool;
  subscription_id : list Z;
  subscription_expires : Z;
  parent_root_device : option nat;
}.
Definition new_service : Service := MkService [] [] [] [] [] false false false [] 0 None.

(** With handles of services *)
Inductive Device := MkDevice (device_type friendly_name manufacturer model_name unique_device_name : list Z)
  (services : list nat) (devices : list Device).
Definition device_type (d : Device) : list Z := let 'MkDevice t _ _ _ _ _ _ := d in t.
Definition unique_device_name (d : Device) : list Z := let 'MkDevice _ _ _ _ u _ _ := d in u.
Definition services (d : Device) : list nat := let 'MkDevice _ _ _ _ _ l _ := d in l.
Definition devices (d : Device) : list Device := let 'MkDevice _ _ _ _ _ _ l := d in l.
Definition new_device : Device := MkDevice [] [] [] [] [] [] [].

Record RootDevice := MkRootDevice { rd_id : nat; details : Device; expires : Z; location : list Z }.

Record PortMapping := MkPortMapping {
  internal_port : Z;
  external_port : Z;
  protocol : Upnp.ProtocolType;
  pm_enabled : bool;
  last_refresh : gmap (list Z) Z;
}.
Definition new_mapping (port : Z) (p : Upnp.ProtocolType) : PortMapping := MkPortMapping port port p false ∅.

(** [OnNewMapping], [OnLostMapping], [OnFailedMapping] *)
Inductive notification := NewMapping | LostMapping | FailedMapping.

Record UpnpIgdClientImpl `{Libupnp} := MkUpnpIgdClientImpl {
  is_initialised_ : bool;
  is_registered_ : bool;
  handle_ : Z;
  timer_ : list (Z * Upnp.ProtocolType * list Z);   (** calls of [RefreshPortMappingCallback] to come *)
  root_devices_ : list RootDevice;
  port_mappings_ : list PortMapping;
  services_cache_ : list nat;
  callbacks : bool * bool * bool;                   (** new, lost and failed mappings: whether they are set *)
  store : gmap nat Service;
  allocated : nat;                                  (** services *)
  roots_added : nat;
  times_read : nat;
  notified : list (notification * Z * Upnp.ProtocolType);   (** newest first *)
  sdk_ : sdk;
}.
Arguments MkUpnpIgdClientImpl {_}.

Definition kIgdDeviceType : list Z := codes "urn:schemas-upnp-org:device:InternetGatewayDevice:1"%string.
Definition kWanIpServiceType : list Z := codes "urn:schemas-upnp-org:service:WANIPConnection:1"%string.
Definition kWanPppServiceType : list Z := codes "urn:schemas-upnp-org:service:WANPPPConnection:1"%string.
Definition kSearchTime : Z := 2.
Definition kLeaseDuration : Z := 900.
Definition kRefreshThreshold : Z := 10.
Definition kClientName : list Z := codes "maidsafe/transport"%string.

Section control_point.
Context `{Libupnp}.
Implicit Types s : UpnpIgdClientImpl.

Definition set_initialised (b : bool) s : UpnpIgdClientImpl :=
  MkUpnpIgdClientImpl b (is_registered_ s) (handle_ s) (timer_ s) (root_devices_ s) (port_mappings_ s) (services_cache_ s) (callbacks s) (store s) (allocated s) (roots_added s) (times_read s) (notified s) (sdk_ s).
Definition set_registered (b : bool) (h : Z) s : UpnpIgdClientImpl :=
  MkUpnpIgdClientImpl (is_initialised_ s) b h (timer_ s) (root_devices_ s) (port_mappings_ s) (services_cache_ s) (callbacks s) (store s) (allocated s) (roots_added s) (times_read s) (notified s) (sdk_ s).
Definition set_timer (l : list (Z * Upnp.ProtocolType * list Z)) s : UpnpIgdClientImpl :=
  MkUpnpIgdClientImpl (is_initialised_ s) (is_registered_ s) (handle_ s) l (root_devices_ s) (port_mappings_ s) (services_cache_ s) (callbacks s) (store s) (allocated s) (roots_added s) (times_read s) (notified s) (sdk_ s).
Definition set_roots (l : list RootDevice) s : UpnpIgdClientImpl :=
  MkUpnpIgdClientImpl (is_initialised_ s) (is_registered_ s) (handle_ s) (timer_ s) l (port_mappings_ s) (services_cache_ s) (callbacks s) (store s) (allocated s) (roots_added s) (times_read s) (notified s) (sdk_ s).
Definition add_root (d : Device) (e : Z) (loc : list Z) s : UpnpIgdClientImpl :=
  MkUpnpIgdClientImpl (is_initialised_ s) (is_registered_ s) (handle_ s) (timer_ s) (root_devices_ s ++ [MkRootDevice (roots_added s) d e loc]) (port_mappings_ s) (services_cache_ s) (callbacks s) (store s) (allocated s) (S (roots_added s)) (times_read s) (notified s) (sdk_ s).
Definition set_mappings (l : list PortMapping) s : UpnpIgdClientImpl :=
  MkUpnpIgdClientImpl (is_initialised_ s) (is_registered_ s) (handle_ s) (timer_ s) (root_devices_ s) l (services_cache_ s) (callbacks s) (store s) (allocated s) (roots_added s) (times_read s) (notified s) (sdk_ s).
Definition set_cache (l : list nat) s : UpnpIgdClientImpl :=
  MkUpnpIgdClientImpl (is_initialised_ s) (is_registered_ s) (handle_ s) (timer_ s) (root_devices_ s) (port_mappings_ s) l (callbacks s) (store s) (allocated s) (roots_added s) (times_read s) (notified s) (sdk_ s).
Definition set_callbacks (c : bool * bool * bool) s : UpnpIgdClientImpl :=
  MkUpnpIgdClientImpl (is_initialised_ s) (is_registered_ s) (handle_ s) (timer_ s) (root_devices_ s) (port_mappings_ s) (services_cache_ s) c (store s) (allocated s) (roots_added s) (times_read s) (notified s) (sdk_ s).
Definition set_store (m : gmap nat Service) s : UpnpIgdClientImpl :=
  MkUpnpIgdClientImpl (is_initialised_ s) (is_registered_ s) (handle_ s) (timer_ s) (root_devices_ s) (port_mappings_ s) (services_cache_ s) (callbacks s) m (allocated s) (roots_added s) (times_read s) (notified s) (sdk_ s).
Definition set_allocated (n : nat) s : UpnpIgdClientImpl :=
  MkUpnpIgdClientImpl (is_initialised_ s) (is_registered_ s) (handle_ s) (timer_ s) (root_devices_ s) (port_mappings_ s) (services_cache_ s) (callbacks s) (store s) n (roots_added s) (times_read s) (notified s) (sdk_ s).
Definition set_times_read (n : nat) s : UpnpIgdClientImpl :=
  MkUpnpIgdClientImpl (is_initialised_ s) (is_registered_ s) (handle_ s) (timer_ s) (root_devices_ s) (port_mappings_ s) (services_cache_ s) (callbacks s) (store s) (allocated s) (roots_added s) n (notified s) (sdk_ s).
Definition set_notified (l : list (notification * Z * Upnp.ProtocolType)) s : UpnpIgdClientImpl :=
  MkUpnpIgdClientImpl (is_initialised_ s) (is_registered_ s) (handle_ s) (timer_ s) (root_devices_ s) (port_mappings_ s) (services_cache_ s) (callbacks s) (store s) (allocated s) (roots_added s) (times_read s) l (sdk_ s).
Definition set_sdk (k : sdk) s : UpnpIgdClientImpl :=
  MkUpnpIgdClientImpl (is_initialised_ s) (is_registered_ s) (handle_ s) (timer_ s) (root_devices_ s) (port_mappings_ s) (services_cache_ s) (callbacks s) (store s) (allocated s) (roots_added s) (times_read s) (notified s) k.

Definition new_client (k : sdk) : UpnpIgdClientImpl :=
  MkUpnpIgdClientImpl false false 0 [] [] [] [] (false, false, false) ∅ 0 0 0 [] k.

(** ** Calls of the libraries *)

Definition on_sdk {A} (f : sdk → A * sdk) : M UpnpIgdClientImpl A := λ s,
  let '(a, k) := f (sdk_ s) in Ok (a, set_sdk k s).
Definition get_epoch_time : M UpnpIgdClientImpl Z := λ s,
  Ok (epoch_time (times_read s), set_times_read (S (times_read s)) s).
(** A name that must not be NULL *)
Definition lwr (o : option (list Z)) : M UpnpIgdClientImpl (list Z) :=
  match o with Some n => mret (StrToLwr n) | None => throw OutOfBounds end.
Definition not_null (o : option (list Z)) : M UpnpIgdClientImpl (list Z) :=
  match o with Some n => mret n | None => throw OutOfBounds end.
Definition each {A} (f : A → M UpnpIgdClientImpl unit) : list A → M UpnpIgdClientImpl unit :=
  fix each l := match l with [] => mret tt | x :: l => f x;; each l end.
(** A loop over the children of a node with what it computes *)
Definition each_node {A} (f : A → Node → M UpnpIgdClientImpl A) : A → list Node → M UpnpIgdClientImpl A :=
  fix each_node a l := match l with [] => mret a | n :: l => a ← f a n; each_node a l end.

Definition deref (h : nat) : M UpnpIgdClientImpl Service :=
  s ← get; match store s !! h with Some srv => mret srv | None => throw OutOfBounds end.
Definition update (h : nat) (f : Service → Service) : M UpnpIgdClientImpl unit :=
  srv ← deref h; modify (λ s, set_store (<[h := f srv]> (store s)) s).
Definition allocate (srv : Service) : M UpnpIgdClientImpl nat := λ s,
  Ok (allocated s, set_allocated (S (allocated s)) (set_store (<[allocated s := srv]> (store s)) s)).

Definition notify (n : notification) (port : Z) (p : Upnp.ProtocolType) : M UpnpIgdClientImpl unit := modify (λ s,
  set_notified ((n, port, p) :: notified s) s).
Definition OnNewMapping port p : M UpnpIgdClientImpl unit := s ← get; when (callbacks s).1.1 (notify NewMapping port p).
Definition OnLostMapping port p : M UpnpIgdClientImpl unit := s ← get; when (callbacks s).1.2 (notify LostMapping port p).
Definition OnFailedMapping port p : M UpnpIgdClientImpl unit := s ← get; when (callbacks s).2 (notify FailedMapping port p).
Definition SetNewMappingCallback (b : bool) : M UpnpIgdClientImpl unit :=
  modify (λ s, set_callbacks (b, (callbacks s).1.2, (callbacks s).2) s).
Definition SetLostMappingCallback (b : bool) : M UpnpIgdClientImpl unit :=
  modify (λ s, set_callbacks ((callbacks s).1.1, b, (callbacks s).2) s).
Definition SetFailedMappingCallback (b : bool) : M UpnpIgdClientImpl unit :=
  modify (λ s, set_callbacks ((callbacks s).1.1, (callbacks s).1.2, b) s).

Definition ResolveUrl (base_url rel_url : list Z) : list Z := default rel_url (UpnpResolveURL base_url rel_url).

(** ** Descriptions of devices and services *)

(** The text of an element, and whether it has children *)
Definition element_value (n : Node) : list Z * bool :=
  match content n with Some v => (default [] v, true) | None => ([], false) end.
Definition is_name (n : Node) (name : string) : bool := bool_decide (StrToLwr (node_name n) = codes name).

Definition set_service_type v srv := MkService v (service_id srv) (scpd_url srv) (control_url srv) (event_sub_url srv)
  (enabled srv) (status_requested srv) (subscription_requested srv) (subscription_id srv) (subscription_expires srv) (parent_root_device srv).
Definition set_service_id v srv := MkService (service_type srv) v (scpd_url srv) (control_url srv) (event_sub_url srv)
  (enabled srv) (status_requested srv) (subscription_requested srv) (subscription_id srv) (subscription_expires srv) (parent_root_device srv).
Definition set_scpd_url v srv := MkService (service_type srv) (service_id srv) v (control_url srv) (event_sub_url srv)
  (enabled srv) (status_requested srv) (subscription_requested srv) (subscription_id srv) (subscription_expires srv) (parent_root_device srv).
Definition set_control_url v srv := MkService (service_type srv) (service_id srv) (scpd_url srv) v (event_sub_url srv)
  (enabled srv) (status_requested srv) (subscription_requested srv) (subscription_id srv) (subscription_expires srv) (parent_root_device srv).
Definition set_event_sub_url v srv := MkService (service_type srv) (service_id srv) (scpd_url srv) (control_url srv) v
  (enabled srv) (status_requested srv) (subscription_requested srv) (subscription_id srv) (subscription_expires srv) (parent_root_device srv).

(** With the service it fills in, which nothing else refers to yet *)
Definition ParseServiceDescription (node : Node) (location : list Z) : bool * Service :=
  foldl (λ '(res, srv) n,
    if is_element n then
      let '(value, has) := element_value n in
      (res || has,
       if is_name n "servicetype"%string then set_service_type value srv
       else if is_name n "serviceid"%string then set_service_id value srv
       else if is_name n "scpdurl"%string then set_scpd_url (ResolveUrl location value) srv
       else if is_name n "controlurl"%string then set_control_url (ResolveUrl location value) srv
       else if is_name n "eventsuburl"%string then set_event_sub_url (ResolveUrl location value) srv
       else srv)
    else (res, srv)) (false, new_service) (child_nodes node).

Definition add_service (h : nat) (d : Device) : Device :=
  let 'MkDevice t f m n u l ds := d in MkDevice t f m n u (l ++ [h]) ds.
Definition add_device (d2 d : Device) : Device :=
  let 'MkDevice t f m n u l ds := d in MkDevice t f m n u l (ds ++ [d2]).
(** The fields of a device that are text *)
Definition set_text (n : Node) (value : list Z) (d : Device) : Device :=
  let 'MkDevice t f m md u l ds := d in
  if is_name n "devicetype"%string then MkDevice value f m md u l ds
  else if is_name n "friendlyname"%string then MkDevice t value m md u l ds
  else if is_name n "manufacturer"%string then MkDevice t f value md u l ds
  else if is_name n "modelname"%string then MkDevice t f m value u l ds
  else if is_name n "udn"%string then MkDevice t f m md (StrToLwr value) l ds
  else d.

Fixpoint ParseDeviceDescription (node : Node) (location : list Z) {struct node} : M UpnpIgdClientImpl (bool * Device) :=
  match node with
  | MkNode _ _ _ _ nodes =>
      each_node (λ '(res, d) n,
        if is_element n then
          let '(value, has) := element_value n in
          d ← (if is_name n "devicelist"%string then
                 match n with
                 | MkNode _ _ _ _ nodes2 =>
                     each_node (λ d n2,
                       if is_name n2 "device"%string then
                         r ← ParseDeviceDescription n2 location;
                         mret (if r.1 : bool then add_device r.2 d else d)
                       else mret d) d nodes2
                 end
               else if is_name n "servicelist"%string then
                 each_node (λ d n2,
                   if is_name n2 "service"%string then
                     let r := ParseServiceDescription n2 location in
                     h ← allocate r.2;
                     mret (if r.1 then add_service h d else d)
                   else mret d) d (child_nodes n)
               else mret (set_text n value d));
          mret (res || has, d)
        else mret (res, d)) (false, new_device) nodes
  end.

(** ** Services *)

Definition set_enabled (b : bool) srv := MkService (service_type srv) (service_id srv) (scpd_url srv) (control_url srv) (event_sub_url srv)
  b (status_requested srv) (subscription_requested srv) (subscription_id srv) (subscription_expires srv) (parent_root_device srv).
Definition set_status_requested (b : bool) srv := MkService (service_type srv) (service_id srv) (scpd_url srv) (control_url srv) (event_sub_url srv)
  (enabled srv) b (subscription_requested srv) (subscription_id srv) (subscription_expires srv) (parent_root_device srv).
Definition set_subscription (b : bool) (id : list Z) (e : Z) srv := MkService (service_type srv) (service_id srv) (scpd_url srv) (control_url srv) (event_sub_url srv)
  (enabled srv) (status_requested srv) b id e (parent_root_device srv).
Definition set_parent (rd : nat) srv := MkService (service_type srv) (service_id srv) (scpd_url srv) (control_url srv) (event_sub_url srv)
  (enabled srv) (status_requested srv) (subscription_requested srv) (subscription_id srv) (subscription_expires srv) (Some rd).

Fixpoint find_cached (f : Service → bool) (l : list nat) : M UpnpIgdClientImpl (option nat) :=
  match l with
  | [] => mret None
  | h :: l => srv ← deref h; if f srv then mret (Some h) else find_cached f l
  end.
Definition GetCachedServiceByControlUrl (url : list Z) : M UpnpIgdClientImpl (option nat) :=
  s ← get; find_cached (λ srv, bool_decide (control_url srv = url)) (services_cache_ s).
Definition GetCachedServiceByEventSubUrl (url : list Z) : M UpnpIgdClientImpl (option nat) :=
  s ← get; find_cached (λ srv, bool_decide (event_sub_url srv = url)) (services_cache_ s).
Definition GetCachedServiceBySubscriptionId (sid : list Z) : M UpnpIgdClientImpl (option nat) :=
  s ← get; find_cached (λ srv, bool_decide (subscription_id srv = sid)) (services_cache_ s).

Definition active s : bool := is_registered_ s && is_initialised_ s.

Definition RequestServiceStatusInfo (h : nat) : M UpnpIgdClientImpl unit :=
  s ← get;
  assertb (active s);;
  srv ← deref h;
  match UpnpMakeAction (codes "GetStatusInfo"%string) (service_type srv) [] with
  | None => mret tt
  | Some a =>
      res ← on_sdk (UpnpSendActionAsync (control_url srv) (service_type srv) a);
      when res (update h (set_status_requested true))
  end.

Definition wan_service (srv : Service) : bool :=
  bool_decide (StrToLwr (service_type srv) = StrToLwr kWanIpServiceType) ||
  bool_decide (StrToLwr (service_type srv) = StrToLwr kWanPppServiceType).
Definition cache_service (rd h : nat) : M UpnpIgdClientImpl unit :=
  srv ← deref h;
  when (wan_service srv) (
    modify (λ s, set_cache (services_cache_ s ++ [h]) s);;
    update h (set_parent rd);;
    when (negb (enabled srv) && negb (status_requested srv)) (RequestServiceStatusInfo h)).
(** [dev_stack], the last device first *)
Fixpoint visit (fuel rd : nat) (dev_stack : list Device) : M UpnpIgdClientImpl unit :=
  match dev_stack, fuel with
  | [], _ => mret tt
  | _ :: _, O => throw OutOfFuel
  | curr_dev :: dev_stack, S fuel =>
      each (cache_service rd) (services curr_dev);;
      visit fuel rd (rev (devices curr_dev) ++ dev_stack)
  end.
Fixpoint device_count (d : Device) : nat :=
  match d with MkDevice _ _ _ _ _ _ ds => S (sum_list (map device_count ds)) end.
Definition UpdateServicesCache : M UpnpIgdClientImpl unit :=
  modify (set_cache []);;
  s ← get;
  each (λ rd, visit (device_count (details rd)) (rd_id rd) [details rd]) (root_devices_ s).

(** ** Port mappings *)

Definition mapping_at (i : nat) : M UpnpIgdClientImpl PortMapping :=
  s ← get; match port_mappings_ s !! i with Some pm => mret pm | None => throw OutOfBounds end.
Definition update_mapping (i : nat) (f : PortMapping → PortMapping) : M UpnpIgdClientImpl unit :=
  modify (λ s, set_mappings (alter f i (port_mappings_ s)) s).
Definition set_mapping (b : bool) (m : gmap (list Z) Z) (pm : PortMapping) : PortMapping :=
  MkPortMapping (internal_port pm) (external_port pm) (protocol pm) b m.

Definition PortMappingExists (port : Z) (p : Upnp.ProtocolType) (l : list PortMapping) : option nat :=
  fst <$> list_find (λ pm, external_port pm = port ∧ protocol pm = p) l.

Definition GetServerIpAddress : M UpnpIgdClientImpl (list Z) :=
  gets (λ s, if is_initialised_ s then UpnpGetServerIpAddress (sdk_ s) else []).
Definition GetServerPort : M UpnpIgdClientImpl Z := gets (λ s, if is_initialised_ s then UpnpGetServerPort (sdk_ s) else 0).

(** [operator[]] adds what is not in the map yet. *)
Definition AddPortMappingToService (h i : nat) : M UpnpIgdClientImpl bool :=
  s ← get;
  if negb (active s) then mret false
  else
    srv ← deref h;
    if negb (enabled srv) then mret false
    else
      mapping ← mapping_at i;
      let url := control_url srv in
      let last := default 0 (last_refresh mapping !! url) in
      update_mapping i (set_mapping (pm_enabled mapping) (<[url := last]> (last_refresh mapping)));;
      now ← get_epoch_time;
      if u32 (u32 (now - kLeaseDuration) + kRefreshThreshold) <? last then mret true
      else
        ip ← GetServerIpAddress;
        match UpnpMakeAction (codes "AddPortMapping"%string) (service_type srv)
          [(codes "NewRemoteHost"%string, []);
           (codes "NewExternalPort"%string, decimal (external_port mapping));
           (codes "NewProtocol"%string, Upnp.protocol_name (protocol mapping));
           (codes "NewInternalPort"%string, decimal (internal_port mapping));
           (codes "NewInternalClient"%string, ip);
           (codes "NewEnabled"%string, codes "1"%string);
           (codes "NewPortMappingDescription"%string, kClientName);
           (codes "NewLeaseDuration"%string, decimal kLeaseDuration)] with
        | None => mret false
        | Some a =>
            res ← on_sdk (UpnpSendAction url (service_type srv) a);
            match res with
            | Some _ =>
                when (negb (pm_enabled mapping)) (OnNewMapping (external_port mapping) (protocol mapping));;
                now ← get_epoch_time;
                update_mapping i (set_mapping true (<[url := now]> (last_refresh mapping)));;
                modify (λ s, set_timer (timer_ s ++ [(external_port mapping, protocol mapping, url)]) s);;
                mret true
            | None =>
                when (negb (pm_enabled mapping)) (OnFailedMapping (external_port mapping) (protocol mapping));;
                mret false
            end
        end.

(** The services that the [i]-th mapping is on *)
Fixpoint on_services (i : nat) (l : list nat) (num : nat) : M UpnpIgdClientImpl nat :=
  match l with
  | [] => mret num
  | h :: l =>
      srv ← deref h;
      b ← (if enabled srv then AddPortMappingToService h i else mret false);
      on_services i l (if b : bool then S num else num)
  end.
Definition update_port_mapping (i : nat) : M UpnpIgdClientImpl unit :=
  s ← get;
  num ← on_services i (services_cache_ s) 0;
  when (num =? 0)%nat (
    pm ← mapping_at i;
    when (pm_enabled pm) (OnLostMapping (external_port pm) (protocol pm));;
    update_mapping i (set_mapping false ∅)).
Definition UpdatePortMappings : M UpnpIgdClientImpl unit :=
  s ← get;
  when (active s) (each update_port_mapping (seq 0 (length (port_mappings_ s)))).

Definition AddPortMapping (mapping : PortMapping) : M UpnpIgdClientImpl bool :=
  s ← get;
  match PortMappingExists (external_port mapping) (protocol mapping) (port_mappings_ s) with
  | Some _ => mret false
  | None => modify (set_mappings (port_mappings_ s ++ [mapping]));; UpdatePortMappings;; mret true
  end.

Definition DeletePortMappingFromService (h : nat) (mapping : PortMapping) : M UpnpIgdClientImpl bool :=
  s ← get;
  if negb (active s) then mret false
  else
    srv ← deref h;
    if negb (enabled srv) then mret false
    else
      match UpnpMakeAction (codes "DeletePortMapping"%string) (service_type srv)
        [(codes "NewRemoteHost"%string, []);
         (codes "NewExternalPort"%string, decimal (external_port mapping));
         (codes "NewProtocol"%string, Upnp.protocol_name (protocol mapping))] with
      | None => mret false
      | Some a =>
          res ← on_sdk (UpnpSendAction (control_url srv) (service_type srv) a);
          mret (bool_decide (is_Some res))
      end.
Definition DeletePortMapping (port : Z) (p : Upnp.ProtocolType) : M UpnpIgdClientImpl bool :=
  s ← get;
  match PortMappingExists port p (port_mappings_ s) with
  | Some i =>
      pm ← mapping_at i;
      when (pm_enabled pm) (each (λ h, DeletePortMappingFromService h pm;; mret tt) (services_cache_ s));;
      modify (λ s, set_mappings (delete i (port_mappings_ s)) s);;
      mret true
  | None => mret false
  end.
Fixpoint delete_all (fuel : nat) (result : bool) : M UpnpIgdClientImpl bool :=
  match fuel with
  | O => throw OutOfFuel
  | S fuel =>
      s ← get;
      match port_mappings_ s with
      | [] => mret result
      | pm :: _ => ok ← DeletePortMapping (external_port pm) (protocol pm); delete_all fuel (result && ok)
      end
  end.
Definition DeleteAllPortMappings : M UpnpIgdClientImpl bool :=
  s ← get; delete_all (S (length (port_mappings_ s))) true.

Definition RefreshPortMappingCallback (port : Z) (p : Upnp.ProtocolType) (url : list Z) : M UpnpIgdClientImpl unit :=
  s ← get;
  if negb (active s) then mret tt
  else
    match PortMappingExists port p (port_mappings_ s) with
    | None => mret tt
    | Some i =>
        service ← GetCachedServiceByControlUrl url;
        match service with
        | Some h => AddPortMappingToService h i;; mret tt
        | None => UpdatePortMappings
        end
    end.

(** ** Life cycle *)

Definition IsAsync : bool := true.
Definition HasServices : M UpnpIgdClientImpl bool := gets (λ s, (0 <? length (services_cache_ s))%nat).

Definition Init : M UpnpIgdClientImpl bool :=
  s ← get;
  if is_initialised_ s then mret false
  else
    ok ← on_sdk UpnpInit;
    if ok : bool then modify (set_initialised true);; mret true else mret false.
Definition Finish : M UpnpIgdClientImpl unit :=
  modify (λ s, set_registered false (handle_ s) (set_initialised false s));;
  modify (λ s, set_sdk (UpnpFinish (sdk_ s)) s).
Definition Register : M UpnpIgdClientImpl bool :=
  s ← get;
  assertb (is_initialised_ s);;
  if is_registered_ s then mret false
  else
    r ← on_sdk UpnpRegisterClient;
    match r with Some h => modify (set_registered true h);; mret true | None => mret false end.
Definition UnRegister : M UpnpIgdClientImpl unit :=
  s ← get;
  assertb (active s);;
  modify (λ s, set_sdk (UpnpUnRegisterClient (handle_ s) (sdk_ s)) s);;
  modify (set_registered false 0).
Definition DiscoverDevices : M UpnpIgdClientImpl unit :=
  s ← get;
  assertb (active s);;
  modify (λ s, set_sdk (UpnpSearchAsync kSearchTime (codes "upnp:rootdevice"%string) (sdk_ s)) s);;
  modify (λ s, set_sdk (UpnpSearchAsync kSearchTime kIgdDeviceType (sdk_ s)) s).
Definition InitControlPoint : M UpnpIgdClientImpl bool :=
  ok ← Init;
  if negb ok then mret false
  else
    ok ← Register;
    if negb ok then mret false else DiscoverDevices;; mret true.
(** The destructor *)
Definition destroy : M UpnpIgdClientImpl unit :=
  modify (set_timer []);;
  s ← get;
  when (is_registered_ s) (DeleteAllPortMappings;; UnRegister);;
  modify (set_roots []);;
  Finish.

(** The children of the answer, if it has the name *)
Definition answer (response : option Node) (name : string) : M UpnpIgdClientImpl (list Node) :=
  match response ≫= λ doc, head (child_nodes doc) with
  | Some node => resp_name ← lwr (local_name node); mret (if bool_decide (resp_name = codes name) then child_nodes node else [])
  | None => mret []
  end.
Definition GetExternalIpAddress : M UpnpIgdClientImpl (list Z) :=
  s ← get;
  if negb (active s) then mret []
  else
    match services_cache_ s with
    | [] => mret []
    | h :: _ =>
        srv ← deref h;
        match UpnpMakeAction (codes "GetExternalIPAddress"%string) (service_type srv) [] with
        | None => mret []
        | Some a =>
            res ← on_sdk (UpnpSendAction (control_url srv) (service_type srv) a);
            match res with
            | Some response =>
                nodes ← answer response "getexternalipaddressresponse";
                each_node (λ ip n,
                  nodename ← lwr (local_name n);
                  if bool_decide (nodename = codes "newexternalipaddress"%string) then
                    match content n with Some v => not_null v | None => mret ip end
                  else mret ip) [] nodes
            | None => mret []
            end
        end
    end.

(** ** Root devices *)

Definition RootDeviceExists (udn loc : list Z) (l : list RootDevice) : option nat :=
  fst <$> list_find (λ rd, unique_device_name (details rd) = udn ∧ location rd = loc) l.
Definition UpdateRootDevice (i : nat) (e : Z) : M UpnpIgdClientImpl unit :=
  modify (λ s, set_roots (alter (λ rd, MkRootDevice (rd_id rd) (details rd) e (location rd)) i (root_devices_ s)) s).
Definition AddRootDevice (d : Device) (e : Z) (loc : list Z) : M UpnpIgdClientImpl bool :=
  s ← get;
  match RootDeviceExists (unique_device_name d) loc (root_devices_ s) with
  | Some i => UpdateRootDevice i e;; mret false
  | None => modify (add_root d e loc);; UpdateServicesCache;; mret true
  end.
Definition DeleteRootDevice (udn loc : list Z) : M UpnpIgdClientImpl bool :=
  s ← get;
  match RootDeviceExists udn loc (root_devices_ s) with
  | Some i =>
      modify (λ s, set_roots (delete i (root_devices_ s)) s);;
      UpdateServicesCache;;
      UpdatePortMappings;;
      mret true
  | None => mret false
  end.

(** The children of the root of a description, up to the device.  At the element
    URLBase the loop does not advance. *)
Fixpoint describe (fuel : nat) (e : Z) (loc : list Z) (nodes : list Node) : M UpnpIgdClientImpl unit :=
  match nodes, fuel with
  | [], _ => mret tt
  | _ :: _, O => throw OutOfFuel
  | n :: nodes', S fuel =>
      if is_name n "urlbase" then
        match content n with
        | Some v => loc ← not_null v; describe fuel e loc nodes
        | None => describe fuel e loc nodes
        end
      else if is_name n "device" then
        r ← ParseDeviceDescription n loc;
        when (r.1 && bool_decide (StrToLwr (device_type r.2) = StrToLwr kIgdDeviceType)) (AddRootDevice r.2 e loc;; mret tt)
      else describe fuel e loc nodes'
  end.

(** ** Events *)

Inductive event :=
  | EvAlive (error : bool) (device_id loc : list Z) (exp : Z)   (** or a result of the search *)
  | EvByeBye (error : bool) (device_id loc : list Z)
  | EvActionComplete (error : bool) (url : list Z) (result : option Node)
  | EvReceived (sid : list Z) (changed : option Node)
  | EvSubscribeComplete (error : bool) (publisher sid : list Z) (timeout : Z)   (** or a renewal *)
  | EvUnsubscribeComplete (error : bool) (publisher sid : list Z)
  | EvOther.

Definition ProcessDiscoveryEvent (ev : event) : M UpnpIgdClientImpl unit :=
  s ← get;
  if negb (active s) then mret tt
  else
    match ev with
    | EvAlive false device_id loc exp =>
        now ← get_epoch_time;
        let e := u32 (now + u32 exp) in
        s ← get;
        match RootDeviceExists device_id loc (root_devices_ s) with
        | Some i => UpdateRootDevice i e
        | None =>
            match UpnpDownloadXmlDoc loc (sdk_ s) with
            | Some (Some doc) =>
                match head (child_nodes doc) with
                | Some root =>
                    when (is_name root "root") (describe (S (length (child_nodes root))) e loc (child_nodes root))
                | None => mret tt
                end
            | _ => mret tt
            end
        end
    | EvByeBye false device_id loc => DeleteRootDevice device_id loc;; mret tt
    | _ => mret tt
    end.

Definition is_connected (v : list Z) : bool := bool_decide (StrToLwr v = codes "connected"%string).

(** A service that answers that it is connected *)
Definition service_connected (h : nat) : M UpnpIgdClientImpl unit :=
  update h (set_enabled true);;
  srv ← deref h;
  when (negb (bool_decide (event_sub_url srv = []))) (
    match parent_root_device srv with
    | None => throw AssertionFailed
    | Some rd =>
        s ← get;
        match list_find (λ r, rd_id r = rd) (root_devices_ s) with
        | None => throw OutOfBounds
        | Some (_, r) =>
            now ← get_epoch_time;
            res ← on_sdk (UpnpSubscribeAsync (event_sub_url srv) (DataSize (u32 (expires r - now))));
            when res (update h (λ srv, set_subscription true [] (subscription_expires srv) srv))
        end
    end);;
  UpdatePortMappings.
Definition ProcessActionEvent (error : bool) (url : list Z) (result : option Node) : M UpnpIgdClientImpl unit :=
  s ← get;
  if negb (active s) || error then mret tt
  else
    service ← GetCachedServiceByControlUrl url;
    match service, result ≫= λ doc, head (child_nodes doc) with
    | Some h, Some node =>
        resp_name ← lwr (local_name node);
        when (bool_decide (resp_name = codes "getstatusinforesponse"%string)) (
          update h (set_status_requested false);;
          connected ← each_node (λ b n,
            nodename ← lwr (local_name n);
            mret (b || bool_decide (nodename = codes "newconnectionstatus"%string) &&
              match content n with Some (Some v) => is_connected v | _ => false end)) false (child_nodes node);
          when connected (service_connected h))
    | _, _ => mret tt
    end.

(** A variable of a property set; whether the service changed *)
Definition changed_variable (h : nat) (update_needed : bool) (n : Node) : M UpnpIgdClientImpl bool :=
  name ← lwr (local_name n);
  if bool_decide (name = codes "connectionstatus"%string) then
    let connected := is_connected match content n with Some (Some v) => v | _ => [] end in
    srv ← deref h;
    if eqb (enabled srv) connected then mret update_needed
    else update h (set_enabled connected);; mret true
  else mret update_needed.
Definition ProcessChangeEvent (sid : list Z) (changed : option Node) : M UpnpIgdClientImpl unit :=
  s ← get;
  if negb (active s) then mret tt
  else
    service ← GetCachedServiceBySubscriptionId sid;
    update_needed ← (
      match service, changed ≫= λ doc, head (child_nodes doc) with
      | Some h, Some node =>
          if bool_decide (child_nodes node = []) then mret false
          else
            name ← lwr (local_name node);
            if bool_decide (name = codes "propertyset"%string) then
              each_node (λ b n,
                name ← lwr (local_name n);
                if bool_decide (name = codes "property"%string) then each_node (changed_variable h) b (child_nodes n) else mret b)
                false (child_nodes node)
            else mret false
      | _, _ => mret false
      end);
    when update_needed UpdatePortMappings.

Definition ProcessSubscriptionEvent (ev : event) : M UpnpIgdClientImpl unit :=
  s ← get;
  if negb (active s) then mret tt
  else
    match ev with
    | EvSubscribeComplete false publisher sid timeout =>
        service ← GetCachedServiceByEventSubUrl publisher;
        match service with
        | Some h =>
            srv ← deref h;
            when (subscription_requested srv) (
              now ← get_epoch_time;
              update h (set_subscription false sid (u32 (now + u32 timeout))))
        | None => mret tt
        end
    | EvUnsubscribeComplete false publisher sid =>
        service ← GetCachedServiceByEventSubUrl publisher;
        match service with
        | Some h =>
            srv ← deref h;
            when (bool_decide (subscription_id srv = sid)) (update h (λ srv, set_subscription false [] (subscription_expires srv) srv))
        | None => mret tt
        end
    | _ => mret tt
    end.

Definition EventCallback (ev : event) : M UpnpIgdClientImpl unit :=
  match ev with
  | EvAlive _ _ _ _ | EvByeBye _ _ _ => ProcessDiscoveryEvent ev
  | EvActionComplete error url result => ProcessActionEvent error url result
  | EvReceived sid changed => ProcessChangeEvent sid changed
  | EvSubscribeComplete _ _ _ _ | EvUnsubscribeComplete _ _ _ => ProcessSubscriptionEvent ev
  | EvOther => mret tt
  end.

(** ** Runs *)

Inductive op :=
  | OpInit
  | OpAdd (port : Z) (p : Upnp.ProtocolType)
  | OpDelete (port : Z) (p : Upnp.ProtocolType)
  | OpGetExternalIpAddress
  | OpEvent (ev : event)
  | OpTimer (i : nat).                     (** the [i]-th call that the timer has *)
Definition run_op (o : op) : M UpnpIgdClientImpl unit :=
  match o with
  | OpInit => InitControlPoint;; mret tt
  | OpAdd port p => AddPortMapping (new_mapping port p);; mret tt
  | OpDelete port p => DeletePortMapping port p;; mret tt
  | OpGetExternalIpAddress => GetExternalIpAddress;; mret tt
  | OpEvent ev => EventCallback ev
  | OpTimer i =>
      s ← get;
      match timer_ s !! i with
      | Some (port, p, url) =>
          modify (λ s, set_timer (delete i (timer_ s)) s);;
          RefreshPortMappingCallback port p url
      | None => mret tt
      end
  end.
Fixpoint run_ops (os : list op) : M UpnpIgdClientImpl unit :=
  match os with [] => mret tt | o :: os => run_op o;; run_ops os end.
End control_point.

(** ** What the operations leave alone *)

Section frames.
Context `{Libupnp}.
Implicit Types (s : UpnpIgdClientImpl) (srv : Service) (h : nat) (pm : PortMapping).

Definition key pm : Z * Upnp.ProtocolType := (external_port pm, protocol pm).

(** What a user of the client knows from the notifications *)
Fixpoint status (k : Z * Upnp.ProtocolType) (log : list (notification * Z * Upnp.ProtocolType)) : bool :=
  match log with
  | [] => false
  | (n, port, p) :: log =>
      if bool_decide ((port, p) = k)
      then match n with NewMapping => true | LostMapping => false | FailedMapping => status k log end
      else status k log
  end.
(** Only an inactive mapping becomes active or fails, only an active one is lost. *)
Fixpoint consistent (log : list (notification * Z * Upnp.ProtocolType)) : Prop :=
  match log with
  | [] => True
  | (n, port, p) :: log =>
      status (port, p) log = match n with LostMapping => true | _ => false end ∧ consistent log
  end.
Record told s : Prop := {
  told_log : consistent (notified s);
  told_status pm : pm ∈ port_mappings_ s → pm_enabled pm = status (key pm) (notified s);
  told_listed k : status k (notified s) = true → k ∈ key <$> port_mappings_ s;
}.
Definition all_callbacks s : Prop := callbacks s = (true, true, true).

(** The services are the same and have their types. *)
Definition same_services (m m' : gmap nat Service) : Prop := ∀ h, service_type <$> m' !! h = service_type <$> m !! h.
Definition same_parents (m m' : gmap nat Service) : Prop := ∀ h, parent_root_device <$> m' !! h = parent_root_device <$> m !! h.

Record frame s s' : Prop := {
  fr_initialised : is_initialised_ s' = is_initialised_ s;
  fr_registered : is_registered_ s' = is_registered_ s;
  fr_roots : root_devices_ s' = root_devices_ s;
  fr_added : roots_added s' = roots_added s;
  fr_cache : services_cache_ s' = services_cache_ s;
  fr_callbacks : callbacks s' = callbacks s;
  fr_keys : key <$> port_mappings_ s' = key <$> port_mappings_ s;
  fr_allocated : allocated s' = allocated s;
  fr_services : same_services (store s) (store s');
  fr_parents : same_parents (store s) (store s');
  fr_told : NoDup (key <$> port_mappings_ s) → all_callbacks s → told s → told s';
}.
#[export] Instance frame_refl : Reflexive frame.
Proof. by split. Qed.
#[export] Instance frame_trans : Transitive frame.
Proof.
  intros s1 s2 s3 [] []. split; try congruence.
  unfold all_callbacks in *. intros Hnd Hc Ht. apply fr_told1; [congruence|congruence|]. by apply fr_told0.
Qed.

(** A state that differs in nothing but the timer, the clock and the SDK *)
Lemma frame_same s s' : is_initialised_ s' = is_initialised_ s → is_registered_ s' = is_registered_ s →
  root_devices_ s' = root_devices_ s → roots_added s' = roots_added s → services_cache_ s' = services_cache_ s →
  callbacks s' = callbacks s → port_mappings_ s' = port_mappings_ s → allocated s' = allocated s → store s' = store s →
  notified s' = notified s → frame s s'.
Proof.
  intros E1 E2 E3 E4 E5 E6 E7 E8 E9 E10. split; try congruence.
  intros _ _ []. split; rewrite ?E10, ?E7; done.
Qed.

Definition known h s : Prop := is_Some (store s !! h).
Lemma known_frame h s s' : frame s s' → known h s → known h s'.
Proof.
  intros Hf. unfold known. pose proof (fr_services _ _ Hf h) as E.
  destruct (store s !! h), (store s' !! h); cbn in E; done || by intros [? ?].
Qed.

Lemma wp_deref h s (Q : Service → UpnpIgdClientImpl → Prop) : known h s → (∀ srv, store s !! h = Some srv → Q srv s) → wp (deref h) s Q.
Proof. intros [srv E] HQ. unfold wp, deref, mbind, M_bind, get. rewrite E. by apply HQ. Qed.
(** An update that keeps the type and the parent *)
Lemma wp_update h f s : known h s →
  (∀ srv, service_type (f srv) = service_type srv ∧ parent_root_device (f srv) = parent_root_device srv) →
  wp (update h f) s (λ _ s', frame s s').
Proof.
  intros Hh Hf. unfold update. apply wp_bind, wp_deref; [done|]. intros srv E. apply wp_modify.
  assert (∀ A (g : Service → A), g (f srv) = g srv → ∀ h', g <$> <[h:=f srv]> (store s) !! h' = g <$> store s !! h') as Hg.
  { intros A g Eg h'. destruct (decide (h' = h)) as [->|]; rewrite ?lookup_insert_eq, ?lookup_insert_ne by done; [|done].
    rewrite E. cbn. by rewrite Eg. }
  split; try reflexivity.
  - intros h'. apply (Hg _ service_type), Hf.
  - intros h'. apply (Hg _ parent_root_device), Hf.
  - intros _ _ []. by split.
Qed.
Lemma wp_on_sdk {A} (f : sdk → A * sdk) s (Q : A → UpnpIgdClientImpl → Prop) :
  (∀ a k, f (sdk_ s) = (a, k) → Q a (set_sdk k s)) → wp (on_sdk f) s Q.
Proof. intros HQ. unfold wp, on_sdk. destruct (f (sdk_ s)) as [a k]. by apply HQ. Qed.
Lemma wp_frame_trans {A} (m : M UpnpIgdClientImpl A) s0 s : frame s0 s → wp m s (λ _ s', frame s s') → wp m s (λ _ s', frame s0 s').
Proof. intros Hf Hw. eapply wp_mono; [exact Hw|]. intros a s' Hs'. exact (frame_trans _ _ _ Hf Hs'). Qed.

Lemma wp_find_cached f l s : (∀ h, h ∈ l → known h s) → wp (find_cached f l) s (λ o s', s' = s ∧ ∀ h, o = Some h → h ∈ l).
Proof.
  induction l as [|h l IH]; intros Hl; cbn [find_cached]; [by apply wp_ret|]. apply wp_bind, wp_deref; [apply Hl; by left|].
  intros srv E. destruct (f srv); [apply wp_ret; split; [done|]; intros ? [= <-]; by left|].
  eapply wp_mono; [apply IH; intros; apply Hl; by right|]. intros o s' [-> Ho]. split; [done|]. intros h' Hh'. right. by apply Ho.
Qed.

Lemma wp_RequestServiceStatusInfo h s : active s = true → known h s → wp (RequestServiceStatusInfo h) s (λ _ s', frame s s').
Proof.
  intros Ha Hh. unfold RequestServiceStatusInfo. do 3 wp_step. apply wp_assertb; [done|]. apply wp_bind, wp_deref; [done|].
  intros srv _. destruct (UpnpMakeAction _ _ _); [|apply wp_ret; reflexivity]. apply wp_bind, wp_on_sdk. intros b k _.
  assert (frame s (set_sdk k s)) as Hf by by apply frame_same. apply wp_when; intros _; [|exact Hf].
  eapply wp_frame_trans; [exact Hf|]. apply wp_update; [by eapply known_frame|done].
Qed.

(** ** A mapping that changes *)

Lemma key_alter f i (l : list PortMapping) : (∀ pm, key (f pm) = key pm) → key <$> alter f i l = key <$> l.
Proof.
  intros Hf. apply list_eq. intros j. rewrite !list_lookup_fmap, list_lookup_alter. case_decide; [subst|done].
  destruct (l !! j); cbn; [by rewrite Hf|done].
Qed.
Lemma elem_of_alter f i (l : list PortMapping) pm x : x ∈ alter f i l → l !! i = Some pm → x = f pm ∨ ∃ j, j ≠ i ∧ l !! j = Some x.
Proof.
  intros [j Ej]%list_elem_of_lookup Ei. rewrite list_lookup_alter in Ej. case_decide; [subst|right; by exists j].
  rewrite Ei in Ej. left. by injection Ej.
Qed.
(** The [i]-th mapping gets a new status, with the notification of it. *)
Lemma frame_mapping i pm s s' b m log : port_mappings_ s !! i = Some pm →
  is_initialised_ s' = is_initialised_ s → is_registered_ s' = is_registered_ s →
  root_devices_ s' = root_devices_ s → roots_added s' = roots_added s → services_cache_ s' = services_cache_ s →
  callbacks s' = callbacks s → allocated s' = allocated s → store s' = store s →
  port_mappings_ s' = alter (set_mapping b m) i (port_mappings_ s) → notified s' = log ++ notified s →
  (all_callbacks s → log = if eqb (pm_enabled pm) b then [] else [(if b then NewMapping else LostMapping, external_port pm, protocol pm)]) →
  frame s s'.
Proof.
  intros Ei E1 E2 E3 E4 E5 E6 E7 E8 E9 E10 Hlog. split; try congruence.
  - rewrite E9. by apply key_alter.
  - intros Hnd Hc [Hl Hs Hk]. rewrite (Hlog Hc) in E10. clear Hlog.
    assert (pm_enabled pm = status (key pm) (notified s)) as Epm by (apply Hs; by eapply list_elem_of_lookup_2).
    assert (∀ x j, j ≠ i → port_mappings_ s !! j = Some x → key x ≠ key pm) as Hne.
    { intros x j Hj Ex Ek. apply Hj. eapply NoDup_lookup; [exact Hnd| |]; rewrite list_lookup_fmap; [by rewrite Ex|]. rewrite Ei. cbn. by rewrite Ek. }
    assert (∀ k, status k (notified s') = if bool_decide (key pm = k) then b else status k (notified s)) as Hst.
    { intros k. rewrite E10. case_bool_decide as Hx.
      - subst k. destruct (pm_enabled pm), b; cbn [eqb app status]; try (by rewrite <-Epm); by rewrite bool_decide_true.
      - destruct (eqb (pm_enabled pm) b); cbn [app status]; [done|]. by rewrite bool_decide_false. }
    split.
    + rewrite E10. destruct (pm_enabled pm), b; cbn [eqb app consistent]; try done; split; done || (rewrite <-Epm; done).
    + intros x Hx. rewrite E9 in Hx. rewrite Hst. eapply elem_of_alter in Hx as [->|(j&Hj&Ex)]; [| |exact Ei].
      * by rewrite bool_decide_true.
      * rewrite bool_decide_false by (intros Hk'; by apply (Hne x j)). apply Hs. by eapply list_elem_of_lookup_2.
    + intros k. rewrite Hst, E9, key_alter by done. case_bool_decide as Hx; [|apply Hk]. intros _. subst k.
      apply list_elem_of_fmap. exists pm. split; [done|]. by eapply list_elem_of_lookup_2.
Qed.

Lemma wp_mapping_at i s (Q : PortMapping → UpnpIgdClientImpl → Prop) : (i < length (port_mappings_ s))%nat →
  (∀ pm, port_mappings_ s !! i = Some pm → Q pm s) → wp (mapping_at i) s Q.
Proof.
  intros Hi HQ. unfold wp, mapping_at, mbind, M_bind, get. destruct (port_mappings_ s !! i) as [pm|] eqn:E; [by apply HQ|].
  apply lookup_ge_None in E. lia.
Qed.
Lemma wp_get_epoch_time s (Q : Z → UpnpIgdClientImpl → Prop) :
  (∀ t, Q t (set_times_read (S (times_read s)) s)) → wp get_epoch_time s Q.
Proof. intros HQ. apply HQ. Qed.

Lemma frame_length s s' : frame s s' → length (port_mappings_ s') = length (port_mappings_ s).
Proof. intros Hf. rewrite <-(length_fmap key), (fr_keys _ _ Hf). apply length_fmap. Qed.
Lemma active_frame s s' : frame s s' → active s' = active s.
Proof. intros []. unfold active. congruence. Qed.

(** A mapping that stays as it is, and one that becomes active *)
Lemma frame_refreshed i pm m s : port_mappings_ s !! i = Some pm →
  frame s (set_mappings (alter (set_mapping (pm_enabled pm) m) i (port_mappings_ s)) s).
Proof. intros Ei. eapply (frame_mapping i pm s _ (pm_enabled pm) m []); try done. intros _. by rewrite eqb_reflx. Qed.
Lemma frame_activated i pm m n t l s : port_mappings_ s !! i = Some pm → (all_callbacks s → n = if pm_enabled pm then [] else [(NewMapping, external_port pm, protocol pm)]) →
  frame s (set_timer l (set_mappings (alter (set_mapping true m) i (port_mappings_ s)) (set_times_read t (set_notified (n ++ notified s) s)))).
Proof. intros Ei Hn. eapply (frame_mapping i pm s _ true m n); try done. intros Hc. rewrite Hn by done. by destruct (pm_enabled pm). Qed.
Lemma frame_failed pm n s : pm ∈ port_mappings_ s → pm_enabled pm = false →
  (all_callbacks s → n = [(FailedMapping, external_port pm, protocol pm)]) → frame s (set_notified (n ++ notified s) s).
Proof.
  intros Hin Hpm Hn. split; try done. intros _ Hc [Hl Hs Hk]. rewrite (Hn Hc).
  assert (∀ k, status k ([(FailedMapping, external_port pm, protocol pm)] ++ notified s) = status k (notified s)) as Hst.
  { intros k. cbn. by case_bool_decide. }
  split.
  - cbn. split; [|done]. by rewrite <-Hpm, (Hs _ Hin).
  - intros x Hx. cbn [notified set_notified]. rewrite Hst. by apply Hs.
  - intros k. cbn [notified set_notified]. rewrite Hst. apply Hk.
Qed.
Lemma frame_lost i pm n s : port_mappings_ s !! i = Some pm →
  (all_callbacks s → n = if pm_enabled pm then [(LostMapping, external_port pm, protocol pm)] else []) →
  frame s (set_mappings (alter (set_mapping false ∅) i (port_mappings_ s)) (set_notified (n ++ notified s) s)).
Proof. intros Ei Hn. eapply (frame_mapping i pm s _ false ∅ n); try done. intros Hc. rewrite Hn by done. by destruct (pm_enabled pm). Qed.

(** A callback that may be set *)
Lemma wp_on_notification (b : UpnpIgdClientImpl → bool) n port p s (Q : unit → UpnpIgdClientImpl → Prop) :
  Q tt (set_notified ((if b s then [(n, port, p)] else []) ++ notified s) s) → wp (s ← get; when (b s) (notify n port p)) s Q.
Proof. intros HQ. do 2 wp_step. apply wp_when; intros E; rewrite E in HQ; [exact HQ|]. by destruct s. Qed.

Lemma wp_AddPortMappingToService h i s : known h s → (i < length (port_mappings_ s))%nat →
  wp (AddPortMappingToService h i) s (λ _ s', frame s s').
Proof.
  intros Hh Hi. unfold AddPortMappingToService. do 2 wp_step. apply wp_if; intros _; [by apply wp_ret|].
  apply wp_bind, wp_deref; [done|]. intros srv _. apply wp_if; intros _; [by apply wp_ret|].
  apply wp_bind, wp_mapping_at; [done|]. intros pm Ei. cbv zeta. apply wp_bind. unfold update_mapping at 1. apply wp_modify. cbn beta.
  set (m1 := <[control_url srv := _]> _). set (s1 := set_mappings _ s). assert (frame s s1) as F1 by by apply frame_refreshed.
  assert (port_mappings_ s1 !! i = Some (set_mapping (pm_enabled pm) m1 pm)) as E1.
  { cbn. rewrite list_lookup_alter, decide_True by done. by rewrite Ei. }
  eapply wp_frame_trans; [exact F1|]. apply wp_bind, wp_get_epoch_time. intros now. cbn beta.
  apply wp_if; intros _; [apply wp_ret; by apply frame_same|]. wp_step. unfold GetServerIpAddress. apply wp_gets.
  destruct (UpnpMakeAction _ _ _); [|apply wp_ret; by apply frame_same]. apply wp_bind, wp_on_sdk. intros [res|] k _.
  - wp_step. apply wp_when; intros En.
    + apply (wp_on_notification (λ s, (callbacks s).1.1)). apply wp_bind, wp_get_epoch_time. intros t. cbn beta. unfold update_mapping.
      do 3 wp_step. wp_steps. etransitivity; [|eapply (frame_activated i (set_mapping (pm_enabled pm) m1 pm)
        _ (if (callbacks s1).1.1 then [(NewMapping, external_port pm, protocol pm)] else []) _ _ (set_sdk k (set_times_read (S (times_read s1)) s1)))]; [by apply frame_same|exact E1|].
      intros Hc. cbn. destruct (pm_enabled pm); [done|]. by unfold all_callbacks in Hc; cbn in Hc; rewrite Hc.
    + apply wp_bind, wp_get_epoch_time. intros t. cbn beta. unfold update_mapping. wp_steps.
      etransitivity; [|eapply (frame_activated i (set_mapping (pm_enabled pm) m1 pm) _ [] _ _ (set_sdk k (set_times_read (S (times_read s1)) s1)))];
        [by apply frame_same|exact E1|]. intros _. cbn. by destruct (pm_enabled pm).
  - wp_step. apply wp_when; intros En.
    + apply (wp_on_notification (λ s, (callbacks s).2)). apply wp_ret.
      etransitivity; [|eapply (frame_failed (set_mapping (pm_enabled pm) m1 pm)
        (if (callbacks s1).2 then [(FailedMapping, external_port pm, protocol pm)] else []) (set_sdk k (set_times_read (S (times_read s1)) s1)))]; [by apply frame_same| | |].
      * by eapply list_elem_of_lookup_2.
      * cbn. by destruct (pm_enabled pm).
      * intros Hc. cbn. by unfold all_callbacks in Hc; cbn in Hc; rewrite Hc.
    + apply wp_ret. by apply frame_same.
Qed.

Definition known_cache s : Prop := ∀ h, h ∈ services_cache_ s → known h s.
Lemma known_cache_frame s s' : frame s s' → known_cache s → known_cache s'.
Proof. intros Hf Hc h. rewrite (fr_cache _ _ Hf). intros Hin. eapply known_frame; [done|by apply Hc]. Qed.
#[local] Hint Resolve known_frame known_cache_frame : core.

Lemma wp_on_services i l num s : (∀ h, h ∈ l → known h s) → (i < length (port_mappings_ s))%nat →
  wp (on_services i l num) s (λ _ s', frame s s').
Proof.
  revert num s. induction l as [|h l IH]; intros num s Hl Hi; cbn [on_services]; [by apply wp_ret|].
  apply wp_bind, wp_deref; [apply Hl; by left|]. intros srv _. apply wp_bind.
  assert (∀ b s', frame s s' → wp (on_services i l (if b : bool then S num else num)) s' (λ _ s'', frame s s'')) as Hrest.
  { intros b s' Hf. eapply wp_frame_trans; [exact Hf|]. apply IH; [|by rewrite (frame_length _ _ Hf)].
    intros h' Hh'. eapply known_frame; [exact Hf|]. apply Hl. by right. }
  destruct (enabled srv); [|apply wp_ret; by apply (Hrest false)].
  eapply wp_mono; [apply wp_AddPortMappingToService; [apply Hl; by left|done]|]. apply Hrest.
Qed.
Lemma wp_update_port_mapping i s : known_cache s → (i < length (port_mappings_ s))%nat →
  wp (update_port_mapping i) s (λ _ s', frame s s').
Proof.
  intros Hc Hi. unfold update_port_mapping. do 3 wp_step. eapply wp_mono; [apply wp_on_services; [exact Hc|done]|].
  intros num s1 F1. apply wp_when; intros _; [|exact F1]. eapply wp_frame_trans; [exact F1|].
  apply wp_bind, wp_mapping_at; [by rewrite (frame_length _ _ F1)|]. intros pm Ei. wp_step. unfold update_mapping.
  apply wp_when; intros En.
  - apply (wp_on_notification (λ s, (callbacks s).1.2)). apply wp_modify. apply (frame_lost i pm (if (callbacks s1).1.2 then [(LostMapping, external_port pm, protocol pm)] else []) s1); [done|].
    intros Hcb. unfold all_callbacks in Hcb. by rewrite Hcb, En.
  - apply wp_modify. apply (frame_lost i pm [] s1); [done|]. by rewrite En.
Qed.
Lemma wp_each_frame {A} (f : A → M UpnpIgdClientImpl unit) l s :
  (∀ x s', x ∈ l → frame s s' → wp (f x) s' (λ _ s'', frame s' s'')) → wp (each f l) s (λ _ s', frame s s').
Proof.
  intros Hf. assert (∀ s', frame s s' → wp (each f l) s' (λ _ s'', frame s' s'')) as Hw; [|by apply Hw].
  induction l as [|x l IH]; intros s' Hs'; cbn; [by apply wp_ret|]. apply wp_bind.
  eapply wp_mono; [apply Hf; [by left|done]|]. intros ? s1 F1. eapply wp_frame_trans; [exact F1|].
  apply IH; [intros; apply Hf; [by right|done]|]. by etransitivity.
Qed.
Lemma wp_UpdatePortMappings s : known_cache s → wp UpdatePortMappings s (λ _ s', frame s s').
Proof.
  intros Hc. unfold UpdatePortMappings. do 2 wp_step. apply wp_when; intros _; [|reflexivity]. apply wp_each_frame.
  intros i s' [_ Hi]%elem_of_seq Hf. apply wp_update_port_mapping; [by eapply known_cache_frame|]. rewrite (frame_length _ _ Hf). lia.
Qed.
Lemma wp_cached (m : M UpnpIgdClientImpl (option nat)) f s (Q : option nat → UpnpIgdClientImpl → Prop) :
  m = (s ← get; find_cached f (services_cache_ s)) → known_cache s →
  (∀ o, (∀ h, o = Some h → h ∈ services_cache_ s) → Q o s) → wp m s Q.
Proof.
  intros -> Hc HQ. do 2 wp_step. eapply wp_mono; [by apply wp_find_cached|]. intros o s' [-> Ho]. by apply HQ.
Qed.

Lemma exists_lt port p l i : PortMappingExists port p l = Some i → (i < length l)%nat ∧ (port, p) ∈ key <$> l.
Proof.
  unfold PortMappingExists. intros ([j pm]&(E&[<- <-]&_)%list_find_Some&->)%fmap_Some. split; [by eapply lookup_lt_Some|].
  apply list_elem_of_fmap. exists pm. split; [done|]. by eapply list_elem_of_lookup_2.
Qed.
Lemma exists_not port p l : PortMappingExists port p l = None → (port, p) ∉ key <$> l.
Proof.
  unfold PortMappingExists. intros Hn%fmap_None%list_find_None (pm&[= -> ->]&Hin)%list_elem_of_fmap.
  rewrite Forall_forall in Hn. by apply (Hn pm Hin).
Qed.

Lemma wp_RefreshPortMappingCallback port p url s : known_cache s → wp (RefreshPortMappingCallback port p url) s (λ _ s', frame s s').
Proof.
  intros Hc. unfold RefreshPortMappingCallback. do 2 wp_step. apply wp_if; intros _; [by apply wp_ret|].
  destruct (PortMappingExists _ _ _) as [i|] eqn:Ei; [|by apply wp_ret]. apply exists_lt in Ei as [Hi _].
  apply wp_bind. eapply wp_cached; [reflexivity|done|]. intros [h|] Ho; [|by apply wp_UpdatePortMappings].
  apply wp_bind. eapply wp_mono; [apply wp_AddPortMappingToService; [by apply Hc, Ho|done]|]. intros ? s' Hf. by apply wp_ret.
Qed.
Lemma wp_DeletePortMappingFromService h pm s : known h s → wp (DeletePortMappingFromService h pm) s (λ _ s', frame s s').
Proof.
  intros Hh. unfold DeletePortMappingFromService. do 2 wp_step. apply wp_if; intros _; [by apply wp_ret|].
  apply wp_bind, wp_deref; [done|]. intros srv _. apply wp_if; intros _; [by apply wp_ret|].
  destruct (UpnpMakeAction _ _ _); [|by apply wp_ret]. apply wp_bind, wp_on_sdk. intros o k _. apply wp_ret. by apply frame_same.
Qed.

(** ** The cache of services *)

(** What does not concern the services *)
Record loose s s' : Prop := {
  lo_initialised : is_initialised_ s' = is_initialised_ s;
  lo_registered : is_registered_ s' = is_registered_ s;
  lo_callbacks : callbacks s' = callbacks s;
  lo_keys : key <$> port_mappings_ s' = key <$> port_mappings_ s;
  lo_told : NoDup (key <$> port_mappings_ s) → all_callbacks s → told s → told s';
}.
#[export] Instance loose_refl : Reflexive loose.
Proof. by split. Qed.
#[export] Instance loose_trans : Transitive loose.
Proof.
  intros s1 s2 s3 [] []. split; try congruence. unfold all_callbacks in *. intros Hnd Hc Ht. apply lo_told1; [congruence|congruence|].
  by apply lo_told0.
Qed.
Lemma frame_loose s s' : frame s s' → loose s s'.
Proof. by intros []. Qed.
Lemma loose_same s s' : is_initialised_ s' = is_initialised_ s → is_registered_ s' = is_registered_ s → callbacks s' = callbacks s →
  port_mappings_ s' = port_mappings_ s → notified s' = notified s → loose s s'.
Proof. intros E1 E2 E3 E4 E5. split; try congruence. intros _ _ []. by split; rewrite ?E4, ?E5. Qed.
Lemma active_loose s s' : loose s s' → active s' = active s.
Proof. intros []. unfold active. congruence. Qed.

Fixpoint all_services (d : Device) : list nat :=
  match d with MkDevice _ _ _ _ _ hs ds => hs ++ concat (map all_services ds) end.
Lemma elem_of_concat {A B} (f : A → list B) l b : b ∈ concat (f <$> l) ↔ ∃ a, a ∈ l ∧ b ∈ f a.
Proof.
  rewrite list_elem_of_In, in_concat. split.
  - intros (x&Hx&Hb). apply list_elem_of_In, list_elem_of_fmap in Hx as (a&->&Ha). exists a. split; [done|by apply list_elem_of_In].
  - intros (a&Ha&Hb). exists (f a). split; apply list_elem_of_In; [by apply list_elem_of_fmap_2|done].
Qed.
Lemma all_services_eq d : all_services d = services d ++ concat (all_services <$> devices d).
Proof. by destruct d. Qed.
Lemma device_count_eq d : device_count d = S (sum_list (device_count <$> devices d)).
Proof. by destruct d. Qed.

Definition wan h s : Prop := ∃ srv, store s !! h = Some srv ∧ wan_service srv = true.
Lemma wan_same h s s' : same_services (store s) (store s') → wan h s ↔ wan h s'.
Proof.
  intros Hs. pose proof (Hs h) as E. unfold wan, wan_service.
  destruct (store s !! h) as [srv|], (store s' !! h) as [srv'|]; cbn in E; try done.
  injection E as E. split; intros (x&[= <-]&Hx); eexists; (split; [done|]); [by rewrite E|by rewrite <-E].
Qed.

(** A cached service is of a root device that is there, its parent. *)
Definition live s : Prop := ∀ h, h ∈ services_cache_ s →
  ∃ srv rd, store s !! h = Some srv ∧ wan_service srv = true ∧ rd ∈ root_devices_ s ∧ h ∈ all_services (details rd) ∧
    parent_root_device srv = Some (rd_id rd).

(** Services are put in the cache. *)
Record caching s s' : Prop := {
  ca_loose : loose s s';
  ca_roots : root_devices_ s' = root_devices_ s;
  ca_added : roots_added s' = roots_added s;
  ca_allocated : allocated s' = allocated s;
  ca_services : same_services (store s) (store s');
  ca_cache h : h ∈ services_cache_ s → h ∈ services_cache_ s';
  ca_live : live s → live s';
}.
#[export] Instance caching_refl : Reflexive caching.
Proof. split; try done. Qed.
#[export] Instance caching_trans : Transitive caching.
Proof.
  intros s1 s2 s3 [] []. split; try congruence.
  - by etransitivity.
  - auto.
  - auto.
Qed.
Lemma known_same h s s' : same_services (store s) (store s') → known h s → known h s'.
Proof. intros Hs. unfold known. pose proof (Hs h) as E. destruct (store s !! h), (store s' !! h); cbn in E; done || by intros [? ?]. Qed.

Lemma frame_caching s s' : frame s s' → caching s s'.
Proof.
  intros Hf. pose proof Hf as []. split; try done; [intros h; by rewrite fr_cache0|].
  intros Hl h Hh. rewrite fr_cache0 in Hh. destruct (Hl h Hh) as (srv&rd&E&Hw&Hrd&Hin&Hp). rewrite fr_roots0.
  pose proof (fr_parents0 h) as Ep. destruct (proj1 (wan_same h s s' fr_services0)) as (srv'&E'&Hw'); [by exists srv|].
  exists srv', rd. split_and!; try done. rewrite E, E' in Ep. cbn in Ep. congruence.
Qed.

Lemma wp_cache_service rd h s : active s = true → rd ∈ root_devices_ s → h ∈ all_services (details rd) → known h s →
  wp (cache_service (rd_id rd) h) s (λ _ s', caching s s' ∧ (wan h s → h ∈ services_cache_ s')).
Proof.
  intros Ha Hrd Hin Hh. unfold cache_service. apply wp_bind, wp_deref; [done|]. intros srv E. apply wp_when; intros Hw.
  2: { split; [reflexivity|]. intros (srv'&E'&Hw'). congruence. }
  apply wp_bind, wp_modify. cbn beta. set (s1 := set_cache _ s). apply wp_bind. unfold update at 1.
  apply wp_bind, wp_deref; [done|]. intros srv1 E1. assert (srv1 = srv) as -> by (cbn in E1; congruence). apply wp_modify.
  set (s2 := set_store _ s1). assert (caching s s2 ∧ h ∈ services_cache_ s2) as [C2 Hin2].
  { split; [|cbn; apply elem_of_app; right; by apply list_elem_of_singleton]. split; try done.
    - by apply loose_same.
    - intros h'. cbn. destruct (decide (h' = h)) as [->|]; rewrite ?lookup_insert_eq, ?lookup_insert_ne by done; [|done]. by rewrite E.
    - intros h' Hh'. cbn. apply elem_of_app. by left.
    - intros Hl h' Hh'. cbn in Hh' |- *. destruct (decide (h' = h)) as [->|Hne].
      + rewrite lookup_insert_eq. exists (set_parent (rd_id rd) srv), rd. split_and!; try done.
      + rewrite lookup_insert_ne by done. apply elem_of_app in Hh' as [Hh'|Hh'%list_elem_of_singleton]; [by apply Hl|done]. }
  apply wp_when; intros _; [|by split].
  eapply wp_mono; [apply wp_RequestServiceStatusInfo|].
  - rewrite <-Ha. by apply active_loose, (ca_loose _ _ C2).
  - eapply known_same; [apply (ca_services _ _ C2)|done].
  - intros ? s' Hf. pose proof (frame_caching _ _ Hf) as Cf. split; [by etransitivity|]. intros _. by apply (ca_cache _ _ Cf).
Qed.

Lemma wp_each_caching {A} (f : A → M UpnpIgdClientImpl unit) (hs : A → list nat) l s : active s = true →
  (∀ x s', x ∈ l → caching s s' → active s' = true → wp (f x) s' (λ _ s'', caching s' s'' ∧ ∀ h, h ∈ hs x → wan h s' → h ∈ services_cache_ s'')) →
  wp (each f l) s (λ _ s', caching s s' ∧ ∀ x h, x ∈ l → h ∈ hs x → wan h s → h ∈ services_cache_ s').
Proof.
  intros Ha Hf. assert (∀ s', caching s s' → active s' = true →
    wp (each f l) s' (λ _ s'', caching s' s'' ∧ ∀ x h, x ∈ l → h ∈ hs x → wan h s' → h ∈ services_cache_ s'')) as Hw; [|by apply Hw].
  clear Ha. induction l as [|x l IH]; intros s' Hs' Ha; cbn.
  { apply wp_ret. split; [reflexivity|]. by intros ? ? ?%elem_of_nil. }
  apply wp_bind. eapply wp_mono; [apply Hf; [by left|done|done]|]. intros ? s1 [C1 H1].
  assert (active s1 = true) as Ha1 by (rewrite <-Ha; apply active_loose, (ca_loose _ _ C1)).
  eapply wp_mono; [apply IH; [intros; apply Hf; [by right|done|done]|by etransitivity|done]|].
  intros ? s2 [C2 H2]. split; [by etransitivity|]. intros y h [->|Hy]%elem_of_cons Hh Hwan.
  - by apply (ca_cache _ _ C2), H1.
  - eapply H2; [done|done|]. by apply (wan_same h s' s1 (ca_services _ _ C1)).
Qed.

Lemma sum_list_app' l k : sum_list (l ++ k) = (sum_list l + sum_list k)%nat.
Proof. induction l as [|x l IH]; [done|]. cbn. lia. Qed.
Lemma wp_visit fuel rd stack s : active s = true → rd ∈ root_devices_ s →
  (∀ d h, d ∈ stack → h ∈ all_services d → h ∈ all_services (details rd) ∧ known h s) →
  (sum_list (device_count <$> stack) ≤ fuel)%nat →
  wp (visit fuel (rd_id rd) stack) s (λ _ s', caching s s' ∧ ∀ d h, d ∈ stack → h ∈ all_services d → wan h s → h ∈ services_cache_ s').
Proof.
  revert stack s. induction fuel as [|fuel IH]; intros [|d stack] s Ha Hrd Hst Hfuel.
  - apply wp_ret. split; [reflexivity|]. by intros ? ? ?%elem_of_nil.
  - cbn in Hfuel. rewrite device_count_eq in Hfuel. lia.
  - apply wp_ret. split; [reflexivity|]. by intros ? ? ?%elem_of_nil.
  - cbn [visit]. cbn in Hfuel. rewrite device_count_eq in Hfuel. apply wp_bind.
    assert (∀ h, h ∈ services d → h ∈ all_services (details rd) ∧ known h s) as Hd.
    { intros h Hh. apply (Hst d); [by left|]. rewrite all_services_eq. apply elem_of_app. by left. }
    eapply wp_mono; [apply (wp_each_caching _ (λ h, [h])); [done|]|].
    + intros h s' Hh C1 Ha1. destruct (Hd h Hh) as [Hin Hk]. eapply wp_mono; [apply wp_cache_service|]; [done|by rewrite (ca_roots _ _ C1)|done| |].
      * by eapply known_same; [apply (ca_services _ _ C1)|].
      * intros ? s'' [C2 H2]. split; [done|]. by intros h' ->%list_elem_of_singleton.
    + intros ? s1 [C1 H1]. assert (active s1 = true) as Ha1 by (rewrite <-Ha; apply active_loose, (ca_loose _ _ C1)).
      eapply wp_mono; [apply IH|]; [done|by rewrite (ca_roots _ _ C1)| | |].
      * intros d' h [Hd'|Hd']%elem_of_app Hh.
        -- assert (h ∈ all_services d) as Hhd.
           { rewrite all_services_eq. apply elem_of_app. right. apply list_elem_of_In in Hd'. apply in_rev, list_elem_of_In in Hd'.
             apply elem_of_concat. by exists d'. }
           destruct (Hst d h) as [Hin Hk]; [by left|done|]. split; [done|]. by eapply known_same; [apply (ca_services _ _ C1)|].
        -- destruct (Hst d' h) as [Hin Hk]; [by right|done|]. split; [done|]. by eapply known_same; [apply (ca_services _ _ C1)|].
      * rewrite fmap_app, sum_list_app'. assert (sum_list (device_count <$> rev (devices d)) = sum_list (device_count <$> devices d)) as ->; [|lia].
        clear. induction (devices d) as [|x l IHl]; [done|]. cbn [rev]. rewrite fmap_app, sum_list_app', IHl. cbn. lia.
      * intros ? s2 [C2 H2]. split; [by etransitivity|]. intros d' h [->|Hd']%elem_of_cons Hh Hwan.
        -- rewrite all_services_eq in Hh. apply elem_of_app in Hh as [Hh|(d2&Hd2&Hl')%elem_of_concat].
           ++ apply (ca_cache _ _ C2), (H1 h h); [done|by apply list_elem_of_singleton|done].
           ++ apply (H2 d2); [|done|by apply (wan_same h s s1 (ca_services _ _ C1))]. apply elem_of_app. left.
              apply list_elem_of_In, in_rev. rewrite rev_involutive. by apply list_elem_of_In.
        -- apply (H2 d'); [apply elem_of_app; by right|done|]. by apply (wan_same h s s1 (ca_services _ _ C1)).
Qed.

Definition handles_known s : Prop := ∀ rd h, rd ∈ root_devices_ s → h ∈ all_services (details rd) → known h s.
(** The cache has the services of the two kinds of every root device. *)
Definition complete s : Prop := ∀ rd h, rd ∈ root_devices_ s → h ∈ all_services (details rd) → wan h s → h ∈ services_cache_ s.

Lemma wp_UpdateServicesCache s : active s = true → handles_known s →
  wp UpdateServicesCache s (λ _ s', loose s s' ∧ root_devices_ s' = root_devices_ s ∧ roots_added s' = roots_added s ∧
    allocated s' = allocated s ∧ same_services (store s) (store s') ∧ live s' ∧ complete s').
Proof.
  intros Ha Hk. unfold UpdateServicesCache. do 2 wp_step. do 2 wp_step. set (s0 := set_cache [] s).
  assert (live s0) as L0 by (intros h Hh; by apply elem_of_nil in Hh).
  eapply wp_mono; [apply (wp_each_caching _ (λ rd, all_services (details rd))); [exact Ha|]|].
  - intros rd s' Hrd C1 Ha1. eapply wp_mono; [apply wp_visit; [done|by rewrite (ca_roots _ _ C1)| |cbn; lia]|].
    + intros d h ->%list_elem_of_singleton Hh. split; [done|]. eapply known_same; [apply (ca_services _ _ C1)|]. by apply (Hk rd).
    + intros ? s'' [C2 H2]. split; [done|]. intros h Hh. apply (H2 (details rd)); [by apply list_elem_of_singleton|done].
  - intros ? s' [C H1]. pose proof C as []. split_and!; try done; [|by apply ca_live0|].
    + etransitivity; [|exact ca_loose0]. by apply loose_same.
    + intros rd h Hrd Hh Hw. rewrite ca_roots0 in Hrd. apply (H1 rd h Hrd Hh). by apply (wan_same h s0 s' ca_services0).
Qed.

(** ** The invariant *)

Record sound s : Prop := {
  sd_flags : is_registered_ s = true → is_initialised_ s = true;
  sd_fresh h : known h s → (h < allocated s)%nat;
  sd_handles : handles_known s;
  sd_live : live s;
  sd_complete : complete s;
  sd_keys : NoDup (key <$> port_mappings_ s);
}.
Lemma sound_cache s : sound s → known_cache s.
Proof. intros [_ _ _ Hl _ _] h Hh. destruct (Hl h Hh) as (srv&_&E&_). by exists srv. Qed.
Lemma fresh_same s s' : same_services (store s) (store s') → allocated s' = allocated s →
  (∀ h, known h s → (h < allocated s)%nat) → ∀ h, known h s' → (h < allocated s')%nat.
Proof. intros Hs -> Hf h Hh. apply Hf. eapply known_same; [|exact Hh]. intros h'. by rewrite (Hs h'). Qed.
Lemma sound_frame s s' : sound s → frame s s' → sound s'.
Proof.
  intros [Hf Hfr Hh Hl Hc Hk] F. pose proof (frame_caching _ _ F) as C. pose proof F as []. split.
  - by rewrite fr_registered0, fr_initialised0.
  - by eapply fresh_same.
  - intros rd h Hrd Hin. rewrite fr_roots0 in Hrd. eapply known_frame; [exact F|]. by apply (Hh rd).
  - by apply (ca_live _ _ C).
  - intros rd h Hrd Hin Hw. rewrite fr_roots0 in Hrd. rewrite fr_cache0. apply (Hc rd); [done|done|]. by apply (wan_same h s s' fr_services0).
  - by rewrite fr_keys0.
Qed.

(** What an operation ensures: the invariant, and that the notifications stay true *)
Definition kept s s' : Prop := sound s' ∧ loose s s'.
Lemma kept_frame s s' : sound s → frame s s' → kept s s'.
Proof. intros Hs F. split; [by eapply sound_frame|by apply frame_loose]. Qed.
Lemma wp_kept_frame {A} (m : M UpnpIgdClientImpl A) s : sound s → wp m s (λ _ s', frame s s') → wp m s (λ _ s', kept s s').
Proof. intros Hs Hm. eapply wp_mono; [exact Hm|]. intros ? s' F. by apply kept_frame. Qed.
Lemma kept_trans s1 s2 s3 : kept s1 s2 → kept s2 s3 → kept s1 s3.
Proof. intros [_ L1] [S L2]. split; [done|]. by etransitivity. Qed.

(** After a change of the root devices *)
Lemma wp_UpdateServicesCache_sound s0 s : active s = true → loose s0 s → (is_registered_ s = true → is_initialised_ s = true) →
  (∀ h, known h s → (h < allocated s)%nat) → handles_known s → NoDup (key <$> port_mappings_ s) →
  wp UpdateServicesCache s (λ _ s', kept s0 s').
Proof.
  intros Ha L0 Hf Hfr Hh Hk. eapply wp_mono; [by apply wp_UpdateServicesCache|].
  intros ? s' (L&Er&_&Ea&Es&Hl&Hc). split; [|by etransitivity]. pose proof L as []. split; try done.
  - by rewrite lo_registered0, lo_initialised0.
  - by eapply fresh_same.
  - intros rd h Hrd Hin. rewrite Er in Hrd. eapply known_same; [exact Es|]. by apply (Hh rd).
  - by rewrite lo_keys0.
Qed.

(** ** Descriptions *)

Lemma Node_ind' (P : Node → Prop) :
  (∀ b n l v nodes, Forall P nodes → P (MkNode b n l v nodes)) → ∀ n, P n.
Proof.
  intros HP. fix IH 1. intros [b n l v nodes]. apply HP. induction nodes as [|x nodes IHn]; constructor; [apply IH|exact IHn].
Qed.
(** Services are allocated, and nothing else happens. *)
Record parsing s s' : Prop := {
  pa_loose : loose s s';
  pa_roots : root_devices_ s' = root_devices_ s;
  pa_cache : services_cache_ s' = services_cache_ s;
  pa_store h : known h s → store s' !! h = store s !! h;
  pa_fresh : (∀ h, known h s → (h < allocated s)%nat) → ∀ h, known h s' → (h < allocated s')%nat;
  pa_allocated : (allocated s ≤ allocated s')%nat;
}.
#[export] Instance parsing_refl : Reflexive parsing.
Proof. split; try done. Qed.
Lemma parsing_known s s' h : parsing s s' → known h s → known h s'.
Proof. intros Hp Hk. unfold known. by rewrite (pa_store _ _ Hp). Qed.
#[export] Instance parsing_trans : Transitive parsing.
Proof.
  intros s1 s2 s3 P1 P2. pose proof P1 as []. pose proof P2 as []. split; try congruence; try lia.
  - by etransitivity.
  - intros h Hh. rewrite pa_store1, pa_store0 by (done || by eapply parsing_known). done.
  - auto.
Qed.
Definition described (s0 : UpnpIgdClientImpl) (d : Device) s : Prop := parsing s0 s ∧ ∀ h, h ∈ all_services d → known h s.
Lemma described_trans s0 s1 d s : parsing s0 s1 → described s1 d s → described s0 d s.
Proof. intros P [P' Hd]. split; [by etransitivity|done]. Qed.

Lemma wp_each_node {A} (f : A → Node → M UpnpIgdClientImpl A) (I : A → UpnpIgdClientImpl → Prop) a l s :
  I a s → (∀ a s n, n ∈ l → I a s → wp (f a n) s I) → wp (each_node f a l) s I.
Proof.
  revert a s. induction l as [|n l IH]; intros a s Ha Hf; cbn; [by apply wp_ret|]. apply wp_bind.
  eapply wp_mono; [apply Hf; [by left|done]|]. intros a' s' Ha'. apply IH; [done|]. intros; apply Hf; [by right|done].
Qed.
Lemma set_text_services n v d : all_services (set_text n v d) = all_services d.
Proof. destruct d. unfold set_text. by repeat destruct (is_name _ _). Qed.
Lemma add_service_services h d : ∀ h', h' ∈ all_services (add_service h d) → h' = h ∨ h' ∈ all_services d.
Proof. intros h'. destruct d. cbn. rewrite !elem_of_app, list_elem_of_singleton. tauto. Qed.
Lemma add_device_services d2 d : ∀ h, h ∈ all_services (add_device d2 d) → h ∈ all_services d2 ∨ h ∈ all_services d.
Proof.
  intros h. destruct d. cbn. rewrite map_app, concat_app, !elem_of_app. cbn. rewrite app_nil_r. tauto.
Qed.
Lemma wp_allocate srv s (Q : nat → UpnpIgdClientImpl → Prop) : (∀ h, known h s → (h < allocated s)%nat) →
  (∀ h s', parsing s s' → known h s' → Q h s') → wp (allocate srv) s Q.
Proof.
  intros Hf HQ. unfold wp, allocate. apply HQ; [|unfold known; cbn; rewrite lookup_insert_eq; eauto].
  assert (¬ known (allocated s) s) as Hn by (intros Hk%Hf; lia). split; try done; cbn; try lia.
  - by apply loose_same.
  - intros h Hh. cbn. apply lookup_insert_ne. by intros <-.
  - intros _ h. unfold known. cbn. destruct (decide (h = allocated s)) as [->|Hne]; [lia|]. rewrite lookup_insert_ne by done.
    intros Hk%Hf. lia.
Qed.

Lemma wp_ParseDeviceDescription node loc s : (∀ h, known h s → (h < allocated s)%nat) →
  wp (ParseDeviceDescription node loc) s (λ r s', described s r.2 s').
Proof.
  revert s. cut ((λ n, ∀ s, (∀ h, known h s → (h < allocated s)%nat) → wp (ParseDeviceDescription n loc) s (λ r s', described s r.2 s')) node ∧
    Forall (λ n, ∀ s, (∀ h, known h s → (h < allocated s)%nat) → wp (ParseDeviceDescription n loc) s (λ r s', described s r.2 s')) (child_nodes node)); [tauto|].
  induction node as [b nm l v nodes IH] using Node_ind'. split; [|eapply Forall_impl; [exact IH|]; by intros ? [? _]].
  intros s Hfr. cbn [ParseDeviceDescription].
  eapply (wp_each_node _ (λ r s', described s r.2 s')); [split; [reflexivity|]; intros h Hh; cbn in Hh; by apply elem_of_nil in Hh|].
  intros [res d] s1 n Hn [P1 Hd]. cbn [snd] in Hd. pose proof (pa_fresh _ _ P1 Hfr) as Hfr1.
  destruct (is_element n); [|by apply wp_ret]. destruct (element_value n) as [value has]. apply wp_bind.
  rewrite Forall_forall in IH. specialize (IH n Hn) as [_ IH]. rewrite Forall_forall in IH.
  eapply (wp_mono _ _ (λ d s', described s d s')).
  2: { intros d' s2 H2. by apply wp_ret. }
  destruct (is_name n "devicelist"); [|destruct (is_name n "servicelist")].
  - destruct n as [b2 nm2 l2 v2 nodes2]. cbn [child_nodes] in IH. apply (wp_each_node _ (λ d s', described s d s')); [by split|].
    intros d1 s2 n2 Hn2 [P2 Hd2]. destruct (is_name n2 "device"); [|by apply wp_ret]. apply wp_bind.
    eapply wp_mono; [apply IH; [done|by apply (pa_fresh _ _ P2)]|]. intros [ok d2] s3 [P3 Hd3]. apply wp_ret.
    assert (parsing s s3) as P by by etransitivity. split; [done|]. cbn [fst snd] in *.
    destruct ok; intros h; [intros [Hh|Hh]%add_device_services; [by apply Hd3|]|intros Hh]; (eapply parsing_known; [exact P3|by apply Hd2]).
  - apply (wp_each_node _ (λ d s', described s d s')); [by split|].
    intros d1 s2 n2 Hn2 [P2 Hd2]. destruct (is_name n2 "service"); [|by apply wp_ret]. apply wp_bind, wp_allocate; [by apply (pa_fresh _ _ P2)|].
    intros h s3 P3 Hk. apply wp_ret. split; [by etransitivity|].
    destruct (ParseServiceDescription n2 loc).1; intros h'; [intros [->|Hh]%add_service_services; [done|]|intros Hh]; (eapply parsing_known; [exact P3|by apply Hd2]).
  - apply wp_ret. split; [done|]. by rewrite set_text_services.
Qed.

Lemma sound_parsing s s' : sound s → parsing s s' → sound s'.
Proof.
  intros Hs P. pose proof Hs as [Hf Hfr Hh Hl Hc Hk]. pose proof P as [L Er Ec Est Efr _]. pose proof L as []. split.
  - by rewrite lo_registered0, lo_initialised0.
  - by apply Efr.
  - intros rd h Hrd Hin. rewrite Er in Hrd. eapply parsing_known; [exact P|]. by apply (Hh rd).
  - intros h Hin. rewrite Ec in Hin. rewrite Er, Est by by apply (sound_cache s Hs). by apply Hl.
  - intros rd h Hrd Hin (srv&E&Hw). rewrite Er in Hrd. rewrite Ec. apply (Hc rd h Hrd Hin). exists srv.
    by rewrite <-Est by by apply (Hh rd).
  - by rewrite lo_keys0.
Qed.

(** ** Root devices *)

Definition same_root (r1 r2 : RootDevice) : Prop := rd_id r1 = rd_id r2 ∧ details r1 = details r2.
(** Root devices that differ in their time only *)
Lemma sound_roots s l : sound s → (∀ rd, rd ∈ l → ∃ rd', rd' ∈ root_devices_ s ∧ same_root rd rd') →
  (∀ rd, rd ∈ root_devices_ s → ∃ rd', rd' ∈ l ∧ same_root rd rd') → sound (set_roots l s).
Proof.
  intros [Hf Hfr Hh Hl Hc Hk] H1 H2. split; try done.
  - intros rd h Hrd Hin. destruct (H1 rd Hrd) as (rd'&Hrd'&_&Ed). rewrite Ed in Hin. by apply (Hh rd').
  - intros h Hin. destruct (Hl h Hin) as (srv&rd&E&Hw&Hrd&Hd&Hp). destruct (H2 rd Hrd) as (rd'&Hrd'&Ei&Ed).
    exists srv, rd'. split_and!; try done; [by rewrite <-Ed|by rewrite <-Ei].
  - intros rd h Hrd Hin Hw. destruct (H1 rd Hrd) as (rd'&Hrd'&_&Ed). rewrite Ed in Hin. by apply (Hc rd').
Qed.
Lemma wp_UpdateRootDevice i e s : sound s → wp (UpdateRootDevice i e) s (λ _ s', kept s s').
Proof.
  intros Hs. unfold UpdateRootDevice. apply wp_modify. split; [|by apply loose_same]. apply sound_roots; [done| |].
  - intros rd [j Ej]%list_elem_of_lookup. rewrite list_lookup_alter in Ej. case_decide; [subst|exists rd; split; [by eapply list_elem_of_lookup_2|done]].
    apply fmap_Some in Ej as (rd'&E&->). exists rd'. split; [by eapply list_elem_of_lookup_2|done].
  - intros rd [j Ej]%list_elem_of_lookup. destruct (decide (i = j)) as [->|Hne].
    + eexists. split; [eapply list_elem_of_lookup_2; rewrite list_lookup_alter, decide_True, Ej by done; done|done].
    + exists rd. split; [eapply list_elem_of_lookup_2; by rewrite list_lookup_alter, decide_False by done|done].
Qed.
Lemma wp_AddRootDevice d e loc s : sound s → active s = true → (∀ h, h ∈ all_services d → known h s) →
  wp (AddRootDevice d e loc) s (λ _ s', kept s s').
Proof.
  intros Hs Ha Hd. pose proof Hs as [Hf Hfr Hh Hl Hc Hk]. unfold AddRootDevice. do 2 wp_step. destruct (RootDeviceExists _ _ _).
  - apply wp_bind. eapply wp_mono; [by apply wp_UpdateRootDevice|]. intros ? s' H'. by apply wp_ret.
  - do 3 wp_step. eapply wp_mono; [apply (wp_UpdateServicesCache_sound s)|]; try done.
    + by apply loose_same.
    + intros rd h [Hrd|Hrd%list_elem_of_singleton]%elem_of_app Hin; [by apply (Hh rd)|subst rd; by apply Hd].
Qed.
Lemma wp_DeleteRootDevice udn loc s : sound s → active s = true → wp (DeleteRootDevice udn loc) s (λ _ s', kept s s').
Proof.
  intros Hs Ha. pose proof Hs as [Hf Hfr Hh Hl Hc Hk]. unfold DeleteRootDevice. do 2 wp_step. destruct (RootDeviceExists _ _ _) as [i|].
  2: { apply wp_ret. by apply kept_frame. }
  do 3 wp_step. eapply wp_mono; [apply (wp_UpdateServicesCache_sound s)|]; try done.
  - by apply loose_same.
  - intros rd h Hrd Hin. apply (Hh rd); [|done]. cbn in Hrd. apply list_elem_of_lookup in Hrd as [j Ej]. rewrite list_lookup_delete in Ej.
    destruct (decide (j < i)%nat); by eapply list_elem_of_lookup_2.
  - intros ? s1 K1. apply wp_bind. eapply wp_mono; [apply wp_UpdatePortMappings, sound_cache, K1|]. intros ? s2 F2. apply wp_ret.
    eapply kept_trans; [exact K1|]. apply kept_frame; [apply K1|done].
Qed.

(** ** Documents that do not make the client fail *)

Fixpoint named (n : Node) : bool :=
  match n with
  | MkNode _ _ l _ nodes =>
      match l with
      | Some x => negb (bool_decide (StrToLwr x = codes "newexternalipaddress"%string) && bool_decide (node_value <$> head nodes = Some None))
      | None => false
      end && forallb named nodes
  end.
Definition document_named (o : option Node) : bool := match o with Some doc => forallb named (child_nodes doc) | None => true end.
(** A description without the element URLBase *)
Definition describable (doc : Node) : bool :=
  match head (child_nodes doc) with Some root => forallb (λ n, negb (is_name n "urlbase")) (child_nodes root) | None => true end.

Lemma named_elim n : named n = true → (∃ x, local_name n = Some x ∧ (StrToLwr x = codes "newexternalipaddress"%string → content n ≠ Some None)) ∧
  Forall (λ n, named n = true) (child_nodes n).
Proof.
  destruct n as [b nm [x|] v nodes]; [|done]. cbn [named local_name child_nodes]. intros [H1 H2]%andb_true_iff. split.
  - exists x. split; [done|]. intros Hx Hc. unfold content in Hc. cbn in Hc. rewrite bool_decide_true in H1 by done. cbn in H1.
    by rewrite bool_decide_true in H1.
  - apply Forall_forall. intros n Hn. rewrite forallb_forall in H2. by apply H2, list_elem_of_In.
Qed.
Lemma document_head o node : document_named o = true → (o ≫= λ doc, head (child_nodes doc)) = Some node → named node = true.
Proof.
  destruct o as [doc|]; [|done]. cbn. rewrite forallb_forall. intros Hd E. apply Hd, list_elem_of_In.
  destruct (child_nodes doc); [done|]. injection E as ->. by left.
Qed.
Lemma wp_lwr n s (Q : list Z → UpnpIgdClientImpl → Prop) : named n = true → (∀ x, local_name n = Some x → Q (StrToLwr x) s) → wp (lwr (local_name n)) s Q.
Proof. intros [(x&E&_) _]%named_elim HQ. rewrite E. apply wp_ret. by apply HQ. Qed.
Lemma wp_answer o name s (Q : list Node → UpnpIgdClientImpl → Prop) : document_named o = true →
  (∀ l, Forall (λ n, named n = true) l → Q l s) → wp (answer o name) s Q.
Proof.
  intros Ho HQ. unfold answer. destruct (o ≫= _) as [node|] eqn:E; [|apply wp_ret; apply HQ; constructor].
  pose proof (document_head _ _ Ho E) as Hn. apply wp_bind, wp_lwr; [done|]. intros x _. apply wp_ret. apply HQ.
  case_bool_decide; [|constructor]. by apply named_elim.
Qed.

Class LibupnpLaws : Prop := {
  answers_named url t a k o k' : UpnpSendAction url t a k = (Some o, k') → document_named o = true;
  descriptions_ok loc k doc : UpnpDownloadXmlDoc loc k = Some (Some doc) → describable doc = true;
}.
Context `{!LibupnpLaws}.

Lemma wp_GetExternalIpAddress s : known_cache s → wp GetExternalIpAddress s (λ _ s', frame s s').
Proof.
  intros Hc. unfold GetExternalIpAddress. do 2 wp_step. apply wp_if; intros _; [by apply wp_ret|].
  destruct (services_cache_ s) as [|h l] eqn:El; [by apply wp_ret|]. apply wp_bind, wp_deref; [apply Hc; rewrite El; by left|].
  intros srv _. destruct (UpnpMakeAction _ _ _); [|by apply wp_ret]. apply wp_bind, wp_on_sdk. intros [o|] k E; [|apply wp_ret; by apply frame_same].
  apply wp_bind, wp_answer; [by eapply answers_named|]. intros nodes Hn. rewrite Forall_forall in Hn.
  apply (wp_each_node _ (λ _ s', frame s s')); [by apply frame_same|]. intros ip s' n Hin Hf. pose proof (Hn n Hin) as Hnn.
  apply wp_bind, wp_lwr; [done|]. intros x Ex. case_bool_decide as Hx; [|by apply wp_ret].
  destruct (content n) as [[v|]|] eqn:Ec; [by apply wp_ret| |by apply wp_ret].
  apply named_elim in Hnn as [(x'&Ex'&Hc') _]. rewrite Ex in Ex'. injection Ex' as <-. by apply Hc' in Hx.
Qed.

Lemma wp_describe fuel e loc nodes s : (length nodes < fuel)%nat → forallb (λ n, negb (is_name n "urlbase")) nodes = true →
  sound s → active s = true → wp (describe fuel e loc nodes) s (λ _ s', kept s s').
Proof.
  revert nodes. induction fuel as [|fuel IH]; intros [|n nodes] Hf Hu Hs Ha; cbn [length] in Hf; try lia; cbn [describe].
  { apply wp_ret. by apply kept_frame. }
  cbn [forallb] in Hu. apply andb_true_iff in Hu as [Hn Hu]. apply negb_true_iff in Hn. rewrite Hn.
  destruct (is_name n "device"); [|apply IH; by (done || lia)].
  apply wp_bind. eapply wp_mono; [apply wp_ParseDeviceDescription, Hs|]. intros [ok d] s1 [P1 Hd]. cbn [fst snd] in *.
  pose proof (sound_parsing _ _ Hs P1) as Hs1. assert (kept s s1) as K1 by (split; [done|apply P1]).
  apply wp_when; intros _; [|exact K1]. apply wp_bind. eapply wp_mono; [apply wp_AddRootDevice; [done| |done]|].
  - rewrite <-Ha. apply active_loose, P1.
  - intros ? s2 K2. apply wp_ret. by eapply kept_trans.
Qed.

Lemma wp_ProcessDiscoveryEvent ev s : sound s → wp (ProcessDiscoveryEvent ev) s (λ _ s', kept s s').
Proof.
  intros Hs. assert (kept s s) as K0 by by apply kept_frame. unfold ProcessDiscoveryEvent. do 2 wp_step.
  destruct (active s) eqn:Ha; cbn [negb]; [|by apply wp_ret]. destruct ev as [[] id loc exp|[] id loc| | | | |]; try by apply wp_ret.
  - apply wp_bind, wp_get_epoch_time. intros now. cbv zeta. set (s1 := set_times_read _ s).
    assert (frame s s1) as F1 by by apply frame_same. assert (kept s s1) as K1 by by apply kept_frame. pose proof K1 as [S1 _].
    do 2 wp_step. destruct (RootDeviceExists _ _ _) as [i|].
    + eapply wp_mono; [by apply wp_UpdateRootDevice|]. intros ? s' K'. by eapply kept_trans.
    + destruct (UpnpDownloadXmlDoc _ _) as [[doc|]|] eqn:Ed; [|by apply wp_ret|by apply wp_ret]. apply descriptions_ok in Ed. unfold describable in Ed.
      destruct (head (child_nodes doc)) as [root|]; [|by apply wp_ret]. apply wp_when; intros _; [|exact K1].
      eapply wp_mono; [apply wp_describe; [lia|done|done|]|].
      * rewrite <-Ha. by apply active_frame.
      * intros ? s' K'. by eapply kept_trans.
  - apply wp_bind. eapply wp_mono; [by apply wp_DeleteRootDevice|]. intros ? s' K'. by apply wp_ret.
Qed.

(** ** Events of services *)

Lemma cached_known h s : sound s → h ∈ services_cache_ s → known h s.
Proof. intros Hs. by apply sound_cache. Qed.
Lemma wp_service_connected h s : sound s → h ∈ services_cache_ s → wp (service_connected h) s (λ _ s', frame s s').
Proof.
  intros Hs Hh. unfold service_connected. apply wp_bind. eapply wp_mono; [apply wp_update; [by apply cached_known|done]|].
  intros ? s1 F1. pose proof (sound_frame _ _ Hs F1) as S1. eapply wp_frame_trans; [exact F1|].
  assert (h ∈ services_cache_ s1) as Hh1 by by rewrite (fr_cache _ _ F1). destruct (sd_live _ S1 h Hh1) as (srv&rd&E&_&Hrd&_&Hp).
  apply wp_bind, wp_deref; [by exists srv|]. intros srv' E'. rewrite E in E'. injection E' as <-. apply wp_bind. rewrite Hp.
  eapply (wp_mono _ _ (λ _ s2, frame s1 s2)).
  2: { intros ? s2 F2. eapply wp_frame_trans; [exact F2|]. apply wp_UpdatePortMappings, sound_cache. by eapply sound_frame. }
  apply wp_when; intros _; [|reflexivity]. do 2 wp_step. destruct (list_find _ _) as [[i r]|] eqn:Er.
  2: { apply list_find_None in Er. rewrite Forall_forall in Er. by apply (Er rd) in Hrd. }
  apply wp_bind, wp_get_epoch_time. intros now. apply wp_bind, wp_on_sdk. intros b k _.
  assert (frame s1 (set_sdk k (set_times_read (S (times_read s1)) s1))) as F2 by by apply frame_same.
  apply wp_when; intros _; [|exact F2]. eapply wp_frame_trans; [exact F2|]. apply wp_update; [|done]. eapply known_frame; [exact F2|].
  by apply cached_known.
Qed.

Lemma wp_ProcessActionEvent error url result s : sound s → document_named result = true →
  wp (ProcessActionEvent error url result) s (λ _ s', frame s s').
Proof.
  intros Hs Hd. unfold ProcessActionEvent. do 2 wp_step. apply wp_if; intros _; [by apply wp_ret|].
  apply wp_bind. eapply wp_cached; [reflexivity|by apply sound_cache|]. intros [h|] Ho; [|by apply wp_ret].
  destruct (result ≫= _) as [node|] eqn:E; [|by apply wp_ret]. pose proof (document_head _ _ Hd E) as Hn. specialize (Ho h eq_refl).
  apply wp_bind, wp_lwr; [done|]. intros x _. apply wp_when; intros _; [|reflexivity].
  apply wp_bind. eapply wp_mono; [apply wp_update; [by apply cached_known|done]|]. intros ? s1 F1. eapply wp_frame_trans; [exact F1|].
  apply wp_bind. eapply (wp_mono _ _ (λ _ s2, s2 = s1)).
  - apply (wp_each_node _ (λ _ s2, s2 = s1)); [done|]. intros b s2 n Hin ->. apply wp_bind, wp_lwr.
    { apply named_elim in Hn as [_ Hn]. rewrite Forall_forall in Hn. by apply Hn. }
    intros y _. by apply wp_ret.
  - intros b s2 ->. apply wp_when; intros _; [|reflexivity]. apply wp_service_connected; [by eapply sound_frame|].
    by rewrite (fr_cache _ _ F1).
Qed.

Lemma wp_ProcessChangeEvent sid changed s : sound s → document_named changed = true →
  wp (ProcessChangeEvent sid changed) s (λ _ s', frame s s').
Proof.
  intros Hs Hd. unfold ProcessChangeEvent. do 2 wp_step. apply wp_if; intros _; [by apply wp_ret|].
  apply wp_bind. eapply wp_cached; [reflexivity|by apply sound_cache|]. intros o Ho. apply wp_bind.
  eapply (wp_mono _ _ (λ _ s1, frame s s1)).
  2: { intros b s1 F1. apply wp_when; intros _; [|exact F1]. eapply wp_frame_trans; [exact F1|].
       apply wp_UpdatePortMappings. eapply known_cache_frame; [exact F1|by apply sound_cache]. }
  destruct o as [h|]; [|by apply wp_ret]. destruct (changed ≫= _) as [node|] eqn:E; [|by apply wp_ret].
  pose proof (document_head _ _ Hd E) as Hn. specialize (Ho h eq_refl). pose proof (proj2 (named_elim _ Hn)) as Hns. rewrite Forall_forall in Hns.
  apply wp_if; intros _; [by apply wp_ret|]. apply wp_bind, wp_lwr; [done|]. intros x _. apply wp_if; intros _; [|by apply wp_ret].
  apply (wp_each_node _ (λ _ s', frame s s')); [reflexivity|]. intros b s1 n Hin F1. specialize (Hns n Hin).
  apply wp_bind, wp_lwr; [done|]. intros y _. apply wp_if; intros _; [|by apply wp_ret].
  apply named_elim in Hns as [_ Hns]. rewrite Forall_forall in Hns.
  apply (wp_each_node _ (λ _ s', frame s s')); [exact F1|]. intros b' s2 n' Hin' F2. unfold changed_variable.
  assert (known h s2) as Hk by (eapply known_frame; [exact F2|by apply cached_known]).
  apply wp_bind, wp_lwr; [by apply Hns|]. intros z _. apply wp_if; intros _; [|by apply wp_ret]. cbv zeta.
  apply wp_bind, wp_deref; [done|]. intros srv _. apply wp_if; intros _; [by apply wp_ret|]. apply wp_bind.
  eapply wp_mono; [by apply wp_update|]. intros ? s3 F3. apply wp_ret. by etransitivity.
Qed.

Lemma wp_ProcessSubscriptionEvent ev s : sound s → wp (ProcessSubscriptionEvent ev) s (λ _ s', frame s s').
Proof.
  intros Hs. unfold ProcessSubscriptionEvent. do 2 wp_step. apply wp_if; intros _; [by apply wp_ret|].
  destruct ev as [| | | |[] p sid t|[] p sid|]; try by apply wp_ret.
  - apply wp_bind. eapply wp_cached; [reflexivity|by apply sound_cache|]. intros [h|] Ho; [|by apply wp_ret].
    assert (known h s) as Hk by (apply cached_known; auto). apply wp_bind, wp_deref; [done|]. intros srv _. apply wp_when; intros _; [|reflexivity].
    apply wp_bind, wp_get_epoch_time. intros now. eapply wp_frame_trans; [by apply (frame_same _ (set_times_read (S (times_read s)) s))|]. by apply wp_update.
  - apply wp_bind. eapply wp_cached; [reflexivity|by apply sound_cache|]. intros [h|] Ho; [|by apply wp_ret].
    assert (known h s) as Hk by (apply cached_known; auto). apply wp_bind, wp_deref; [done|]. intros srv _. apply wp_when; intros _; [|reflexivity].
    by apply wp_update.
Qed.

(** ** Operations *)

Definition op_ok (o : op) : bool :=
  match o with
  | OpEvent (EvActionComplete _ _ result) => document_named result
  | OpEvent (EvReceived _ changed) => document_named changed
  | _ => true
  end.
Definition deletes (o : op) : bool := match o with OpDelete _ _ => true | _ => false end.

(** What an operation ensures: the notifications stay true if it deletes nothing. *)
Definition step_kept (del : bool) s s' : Prop :=
  sound s' ∧ callbacks s' = callbacks s ∧ (del = false → all_callbacks s → told s → told s').
Lemma step_kept_kept del s s' : sound s → kept s s' → step_kept del s s'.
Proof. intros Hs [S' L]. split; [done|]. split; [apply L|]. intros _. apply (lo_told _ _ L), Hs. Qed.
Lemma wp_InitControlPoint s : sound s → wp InitControlPoint s (λ _ s', kept s s' ∨ sound s' ∧ callbacks s' = callbacks s ∧
  port_mappings_ s' = port_mappings_ s ∧ notified s' = notified s).
Proof.
  intros Hs. assert (kept s s) as K0 by by apply kept_frame. unfold InitControlPoint, Init. apply wp_bind. do 2 wp_step.
  destruct (is_initialised_ s) eqn:Ei; [do 2 (apply wp_ret || (apply wp_if; intros)); by try left|].
  assert (is_registered_ s = false) as Er by (destruct (is_registered_ s) eqn:E; [apply Hs in E; congruence|done]).
  apply wp_bind, wp_on_sdk. intros [] k _; [|apply wp_ret; apply wp_ret; left; apply kept_frame; [done|by apply frame_same]].
  do 2 wp_step. wp_step. cbn [negb]. apply wp_bind. unfold Register. do 2 wp_step. apply wp_bind, wp_assertb; [done|].
  cbn. rewrite Er. apply wp_bind, wp_on_sdk. intros [h|] k' _.
  - do 3 wp_step. cbn [negb]. apply wp_bind. unfold DiscoverDevices. do 2 wp_step. apply wp_bind, wp_assertb; [done|]. wp_steps.
    right. split; [|done]. destruct Hs as []. by split.
  - apply wp_ret. cbn [negb]. apply wp_ret. right. split; [|done]. destruct Hs as []. split; try done.
Qed.

Lemma sound_mappings l s : sound s → NoDup (key <$> l) → sound (set_mappings l s).
Proof. intros [] Hl. by split. Qed.
Lemma wp_AddPortMapping port p s : sound s → wp (AddPortMapping (new_mapping port p)) s (λ _ s', step_kept false s s').
Proof.
  intros Hs. unfold AddPortMapping. do 2 wp_step. destruct (PortMappingExists _ _ _) as [i|] eqn:E.
  { apply wp_ret. apply step_kept_kept; [done|]. by apply kept_frame. }
  apply exists_not in E. do 2 wp_step. set (s1 := set_mappings _ s).
  assert (sound s1) as S1.
  { apply sound_mappings; [done|]. rewrite fmap_app. apply NoDup_app. split; [apply Hs|]. split; [|apply NoDup_singleton].
    by intros x Hx ->%list_elem_of_singleton. }
  apply wp_bind. eapply wp_mono; [by apply wp_UpdatePortMappings, sound_cache|]. intros ? s2 F2. apply wp_ret.
  split; [by eapply sound_frame|]. split; [apply F2|]. intros _ Hc [Hl Hst Hk]. apply (fr_told _ _ F2); [apply S1|done|]. split.
  - done.
  - intros pm [Hpm|Hpm%list_elem_of_singleton]%elem_of_app; [by apply Hst|]. subst pm. cbn. destruct (status _ _) eqn:Es; [|done].
    by apply Hk in Es.
  - intros k Hs'. unfold s1. cbn [port_mappings_ set_mappings]. rewrite fmap_app. apply elem_of_app. left. by apply Hk.
Qed.
Lemma wp_DeletePortMapping port p s : sound s → wp (DeletePortMapping port p) s (λ b s', step_kept true s s' ∧
  is_registered_ s' = is_registered_ s ∧
  ((port, p) ∈ key <$> port_mappings_ s → (length (port_mappings_ s') < length (port_mappings_ s))%nat)).
Proof.
  intros Hs. unfold DeletePortMapping. do 2 wp_step. destruct (PortMappingExists _ _ _) as [i|] eqn:E.
  2: { apply wp_ret. split; [apply step_kept_kept; [done|]; by apply kept_frame|]. split; [done|]. by intros Hin%exists_not. }
  apply exists_lt in E as [Hi _]. apply wp_bind, wp_mapping_at; [done|]. intros pm _. apply wp_bind.
  eapply (wp_mono _ _ (λ _ s1, frame s s1)).
  - apply wp_when; intros _; [|reflexivity]. apply wp_each_frame. intros h s' Hh Hf. apply wp_bind.
    eapply wp_mono; [apply wp_DeletePortMappingFromService; eapply known_frame; [exact Hf|by apply cached_known]|].
    intros ? s'' Hf'. by apply wp_ret.
  - intros ? s1 F1. do 2 wp_step. apply wp_ret. pose proof (sound_frame _ _ Hs F1) as S1. split_and!.
    + split; [|split; [apply F1|done]]. apply sound_mappings; [done|]. eapply sublist_NoDup; [apply S1|]. rewrite list_fmap_delete. apply sublist_delete.
    + apply F1.
    + intros _. cbn. rewrite length_delete by (apply lookup_lt_is_Some_2; by rewrite (frame_length _ _ F1)). rewrite (frame_length _ _ F1). lia.
Qed.

Lemma wp_delete_all fuel b s : sound s → (length (port_mappings_ s) < fuel)%nat →
  wp (delete_all fuel b) s (λ _ s', sound s' ∧ port_mappings_ s' = [] ∧ is_registered_ s' = is_registered_ s).
Proof.
  revert b s. induction fuel as [|fuel IH]; intros b s Hs Hf; [lia|]. cbn [delete_all]. do 2 wp_step.
  destruct (port_mappings_ s) as [|pm l] eqn:El; [by apply wp_ret|]. apply wp_bind.
  eapply wp_mono; [by apply wp_DeletePortMapping|]. intros ok s1 ([S1 _]&Er&Hl). rewrite <-Er. apply IH; [done|].
  rewrite El in Hl. cbn in Hf. specialize (Hl ltac:(by left)). cbn in Hl. lia.
Qed.
Lemma wp_control_point_destroy s : sound s → wp destroy s (λ _ s', is_initialised_ s' = false ∧ is_registered_ s' = false ∧ root_devices_ s' = []).
Proof.
  intros Hs. unfold destroy. do 2 wp_step. do 2 wp_step. apply wp_bind. set (s1 := set_timer [] s).
  assert (sound s1) as S1 by (eapply sound_frame; [exact Hs|by apply frame_same]).
  eapply (wp_mono _ _ (λ _ _, True)).
  2: { intros ? s2 _. by wp_steps. }
  apply wp_when; intros Hr; [|done]. apply wp_bind. unfold DeleteAllPortMappings. do 2 wp_step.
  eapply wp_mono; [apply wp_delete_all; [done|lia]|]. intros ? s2 (S2&_&Er). unfold UnRegister. do 2 wp_step.
  apply wp_bind, wp_assertb; [|by wp_steps]. unfold active.
  rewrite Er, Hr. cbn. apply S2. congruence.
Qed.

Lemma wp_run_op o s : op_ok o = true → sound s → wp (run_op o) s (λ _ s', step_kept (deletes o) s s').
Proof.
  intros Ho Hs. assert (∀ (m : M UpnpIgdClientImpl unit), wp m s (λ _ s', frame s s') → wp m s (λ _ s', step_kept (deletes o) s s')) as Hfr.
  { intros m Hm. eapply wp_mono; [exact Hm|]. intros ? s' F. by apply step_kept_kept, kept_frame. }
  destruct o as [|port p|port p| |ev|i]; cbn [run_op deletes] in *.
  - apply wp_bind. eapply wp_mono; [by apply wp_InitControlPoint|]. intros ? s' [K|(S'&Ec&Em&En)]; apply wp_ret; [by apply step_kept_kept|].
    split; [done|]. split; [done|]. intros _ _ []. split; by rewrite ?Em, ?En.
  - apply wp_bind. eapply wp_mono; [by apply wp_AddPortMapping|]. intros ? s' K. by apply wp_ret.
  - apply wp_bind. eapply wp_mono; [by apply wp_DeletePortMapping|]. intros ? s' [K _]. by apply wp_ret.
  - apply Hfr, wp_bind. eapply wp_mono; [by apply wp_GetExternalIpAddress, sound_cache|]. intros ? s' F. by apply wp_ret.
  - destruct ev as [e id loc exp|e id loc|e url result|sid changed|e p sid t|e p sid|]; cbn [EventCallback op_ok] in *.
    1, 2: eapply wp_mono; [by apply wp_ProcessDiscoveryEvent|]; intros ? s' K; by apply step_kept_kept.
    + by apply Hfr, wp_ProcessActionEvent.
    + by apply Hfr, wp_ProcessChangeEvent.
    + by apply Hfr, wp_ProcessSubscriptionEvent.
    + by apply Hfr, wp_ProcessSubscriptionEvent.
    + apply Hfr. by apply wp_ret.
  - apply Hfr. do 2 wp_step. destruct (timer_ s !! i) as [[[port p] url]|]; [|by apply wp_ret]. do 2 wp_step.
    eapply wp_frame_trans; [by apply (frame_same _ (set_timer (delete i (timer_ s)) s))|].
    apply wp_RefreshPortMappingCallback. exact (sound_cache s Hs).
Qed.
Lemma wp_run_ops os s : forallb op_ok os = true → sound s → wp (run_ops os) s (λ _ s', step_kept (existsb deletes os) s s').
Proof.
  revert s. induction os as [|o os IH]; intros s Ho Hs; cbn [run_ops].
  { apply wp_ret. by apply step_kept_kept, kept_frame. }
  cbn in Ho. apply andb_true_iff in Ho as [Ho Hos]. apply wp_bind. eapply wp_mono; [by apply wp_run_op|]. intros ? s1 (S1&C1&T1).
  eapply wp_mono; [by apply IH|]. intros ? s2 (S2&C2&T2). split; [done|]. split; [congruence|]. cbn [existsb].
  intros [Hd1 Hd2]%orb_false_iff Hc Ht. apply T2; [done|unfold all_callbacks in *; congruence|]. by apply T1.
Qed.

Lemma sound_new_client c k : sound (set_callbacks c (new_client k)).
Proof.
  split; cbn; try done.
  - unfold known. cbn. intros h. rewrite lookup_empty. by intros [].
  - intros rd h Hrd. by apply elem_of_nil in Hrd.
  - intros h Hh. by apply elem_of_nil in Hh.
  - intros rd h Hrd. by apply elem_of_nil in Hrd.
  - by apply NoDup_nil.
Qed.



(** Where a description has the element URLBase before a device, it is never left. *)
Theorem url_base_never_returns pre n post e loc s : Forall (λ n, is_name n "urlbase" = false ∧ is_name n "device" = false) pre →
  is_name n "urlbase" = true → content n ≠ Some None → ∀ fuel, describe fuel e loc (pre ++ n :: post) s = Fault OutOfFuel.
Proof.
  intros Hpre Hn Hc fuel. revert pre loc Hpre. induction fuel as [|fuel IH]; intros pre loc Hpre; [by destruct pre|].
  destruct pre as [|x pre]; cbn [app describe].
  - rewrite Hn. destruct (content n) as [[v|]|] eqn:E; [|done|].
    + apply (IH [] v). constructor.
    + apply (IH [] loc). constructor.
  - apply Forall_cons in Hpre as [[H1 H2] Hpre]. rewrite H1, H2. by apply IH.
Qed.
End frames.

(** ** Examples *)

Module ControlPointExamples.

Record sim := MkSim { reachable : bool; sent : list (list Z * list Z) }.
Definition lower (c : Z) : Z := if (65 <=? c) && (c <=? 90) then c + 32 else c.

Definition elem (name : string) (nodes : list Node) : Node := MkNode true (codes name) (Some (codes name)) None nodes.
Definition leaf (name value : string) : Node :=
  elem name [MkNode false (codes "#text"%string) (Some (codes "#text"%string)) (Some (codes value)) []].
Definition wan_device : Node := elem "device" [leaf "deviceType" "urn:schemas-upnp-org:device:WANConnectionDevice:1";
  elem "serviceList" [elem "service" [leaf "serviceType" "urn:schemas-upnp-org:service:WANIPConnection:1";
    leaf "controlURL" "ctl"; leaf "eventSubURL" "evt"]]].
Definition igd_device : Node := elem "device" [leaf "deviceType" "urn:schemas-upnp-org:device:InternetGatewayDevice:1";
  leaf "UDN" "uuid:ABC"; elem "deviceList" [wan_device]].
Definition description : Node := elem "document" [elem "root" [leaf "specVersion" "1"; igd_device]].

(** A network with one gateway; between two readings of the clock ten minutes pass. *)
#[export] Instance libupnp : Libupnp := {|
  sdk := sim;
  action := list Z;
  UpnpInit k := (true, k);
  UpnpFinish k := k;
  UpnpRegisterClient k := (Some 7, k);
  UpnpUnRegisterClient _ k := k;
  UpnpSearchAsync _ _ k := k;
  UpnpMakeAction name _ _ := Some name;
  UpnpSendAction url _ a k := if reachable k then (Some None, MkSim true ((url, a) :: sent k)) else (None, k);
  UpnpSendActionAsync url _ a k := (reachable k, MkSim (reachable k) ((url, a) :: sent k));
  UpnpSubscribeAsync _ _ k := (true, k);
  UpnpDownloadXmlDoc loc _ := if bool_decide (loc = codes "http://gw/"%string) then Some (Some description) else None;
  UpnpResolveURL base rel := Some (base ++ rel);
  UpnpGetServerIpAddress _ := codes "192.168.0.7"%string;
  UpnpGetServerPort _ := 49152;
  StrToLwr l := lower <$> l;
  epoch_time i := 1000000 + 600 * Z.of_nat i;
|}.
#[export] Instance libupnp_laws : LibupnpLaws.
Proof.
  split.
  - intros url t a k o k' E. cbn in E. destruct (reachable k); [|done]. by injection E as <- _.
  - intros loc k doc. cbn [UpnpDownloadXmlDoc libupnp]. case_bool_decide; [|done]. intros [= <-]. vm_compute. reflexivity.
Qed.

Definition idle : sdk := (MkSim true [] : @sdk libupnp).
Definition gw : list Z := codes "http://gw/"%string.
Definition connected_answer : Node := elem "document" [elem "GetStatusInfoResponse" [leaf "NewConnectionStatus" "Connected"]].
Definition disconnected : Node := elem "document" [elem "propertyset" [elem "property" [leaf "ConnectionStatus" "Disconnected"]]].
Definition calls : list op := [OpInit; OpAdd 5483 Upnp.kUdp; OpEvent (EvAlive false (codes "uuid:abc"%string) gw 1800);
  OpEvent (EvActionComplete false (gw ++ codes "ctl"%string) (Some connected_answer));
  OpEvent (EvSubscribeComplete false (gw ++ codes "evt"%string) (codes "sid"%string) 300); OpTimer 0;
  OpEvent (EvReceived (codes "sid"%string) (Some disconnected)); OpAdd 80 Upnp.kTcp].

Definition run (os : list op) : Res (unit * UpnpIgdClientImpl) := run_ops os (set_callbacks (true, true, true) (new_client idle)).
Definition see {A} (f : UpnpIgdClientImpl → A) (r : Res (unit * UpnpIgdClientImpl)) : option A :=
  match r with Ok (_, s) => Some (f s) | Fault _ => None end.

(** A mapping becomes active with the service, is refreshed and lost with it. *)
Example mapping_follows_service :
  see notified (run calls) = Some [(LostMapping, 5483, Upnp.kUdp); (NewMapping, 5483, Upnp.kUdp)] ∧
  see (λ s, length (services_cache_ s)) (run calls) = Some 1%nat ∧
  see (λ s, (λ x, x.2) <$> sent (sdk_ s)) (run calls) =
    Some [codes "AddPortMapping"%string; codes "AddPortMapping"%string; codes "GetStatusInfo"%string].
Proof. split_and!; vm_compute; reflexivity. Qed.


(** The name of a device is kept in lower case and compared as it comes: a device whose
    name has upper case letters stays in the list when it goes. *)
Definition goodbye (id : string) : list op := [OpInit; OpEvent (EvAlive false (codes "uuid:ABC"%string) gw 1800);
  OpEvent (EvByeBye false (codes id) gw)].
Example device_never_leaves :
  see (λ s, length (root_devices_ s)) (run (goodbye "uuid:ABC")) = Some 1%nat ∧
  see (λ s, length (root_devices_ s)) (run (goodbye "uuid:abc")) = Some 0%nat.
Proof. split; vm_compute; reflexivity. Qed.

(** A refresh that fails leaves the mapping active, tells nobody and is not tried again. *)
Definition unplug (s : UpnpIgdClientImpl) : UpnpIgdClientImpl := set_sdk (MkSim false [] : @sdk libupnp) s.
Example failed_refresh_unnoticed :
  see (λ s, (pm_enabled <$> port_mappings_ s, timer_ s, notified s))
    ((run_ops (take 4 calls);; modify unplug;; run_ops [OpTimer 0]) (set_callbacks (true, true, true) (new_client idle))) =
  Some ([true], [], [(NewMapping, 5483, Upnp.kUdp)]).
Proof. vm_compute. reflexivity. Qed.
End ControlPointExamples.
