(* ===== verification/UdpTransport.v ===== *)
(** * Messages in single datagrams

    Models src/maidsafe/transport/udp_transport.cc and udp_request.cc.  A message
    is its length in four bytes, an identifier, the identifier of the message it
    replies to (zero for none), and its bytes.  A message that expects a reply
    is kept in [outstanding_requests_] until the reply comes or time is up.

    Handlers wait in [tasks] until [run] takes one, in any order; in the
    strand they run one at a time.  A socket is the handle of its object, open
    or not.  What the transport signals is in [signals], newest first; the
    application's reply is the parameter [respond].  The identifiers are copied
    as the machine represents them. *)

From S2P Require Import Prelude Environment ByteOrder Transport Dispatcher.
From S2P Require Shared.

Definition is_u64 (z : Z) : Prop := 0 ≤ z < 18446744073709551616.

(** The representation of a [uint64_t] in memory. *)
Class Native := {
  to_native : Z → list Z;
  from_native : list Z → Z;
}.
Class NativeLaws `{Native} : Prop := {
  length_to_native z : length (to_native z) = 8%nat;
  to_native_ok z : bytes_ok (to_native z);
  native_round_trip z : is_u64 z → from_native (to_native z) = z;
  from_native_u64 l : is_u64 (from_native l);
}.

Record UdpRequest `{IpAddress} := MkUdpRequest {
  Data : list Z;
  RequestEndpoint : endpoint;
  ReplyTimeout : Z;
  ReplyToId : Z;
}.
Arguments MkUdpRequest {_}.

Inductive task `{IpAddress} :=
  | TDoSend (request : UdpRequest)
  | TCloseSocket (socket : handle)
  | THandleRead (socket : handle)
  | TDispatchMessage (data : list Z) (info : endpoint) (reply_to_id : Z)
  | THandleTimeout (request_id : Z).

Inductive signal `{IpAddress} :=
  | SError (condition : TransportCondition) (remote : endpoint)
  | SMessageReceived (data : list Z) (info : endpoint).

Record UdpTransport `{Environment} := MkUdpTransport {
  listening_port_ : Z;
  socket_ : option handle;
  sockets : gmap handle bool;                  (** is open *)
  next_request_id_ : Z;
  outstanding_requests_ : gmap Z UdpRequest;
  tasks : list task;
  signals : list signal;
  world : World;
}.
Arguments MkUdpTransport {_}.

Definition kMaxTransportMessageSize : Z := 65535.

Section udp.
Context `{Environment} `{Native} (respond : list Z → endpoint → list Z * Z).

(** The constructor; [now] is the time since the epoch in microseconds. *)
Definition new_transport (now : Z) (w : World) : UdpTransport :=
  let id := Z.lor (u64 (0 ≪ 32)) (Z.land now 0xffffffff) in
  MkUdpTransport 0 None ∅ (if id =? 0 then id + 1 else id) ∅ [] [] w.

Definition set_port (v : Z) (s : UdpTransport) : UdpTransport :=
  MkUdpTransport v (socket_ s) (sockets s) (next_request_id_ s) (outstanding_requests_ s)
    (tasks s) (signals s) (world s).
Definition set_socket (v : option handle) (s : UdpTransport) : UdpTransport :=
  MkUdpTransport (listening_port_ s) v (sockets s) (next_request_id_ s) (outstanding_requests_ s)
    (tasks s) (signals s) (world s).
Definition set_sockets (v : gmap handle bool) (s : UdpTransport) : UdpTransport :=
  MkUdpTransport (listening_port_ s) (socket_ s) v (next_request_id_ s) (outstanding_requests_ s)
    (tasks s) (signals s) (world s).
Definition set_next_id (v : Z) (s : UdpTransport) : UdpTransport :=
  MkUdpTransport (listening_port_ s) (socket_ s) (sockets s) v (outstanding_requests_ s)
    (tasks s) (signals s) (world s).
Definition set_outstanding (v : gmap Z UdpRequest) (s : UdpTransport) : UdpTransport :=
  MkUdpTransport (listening_port_ s) (socket_ s) (sockets s) (next_request_id_ s) v
    (tasks s) (signals s) (world s).
Definition set_tasks (v : list task) (s : UdpTransport) : UdpTransport :=
  MkUdpTransport (listening_port_ s) (socket_ s) (sockets s) (next_request_id_ s)
    (outstanding_requests_ s) v (signals s) (world s).
Definition set_signals (v : list signal) (s : UdpTransport) : UdpTransport :=
  MkUdpTransport (listening_port_ s) (socket_ s) (sockets s) (next_request_id_ s)
    (outstanding_requests_ s) (tasks s) v (world s).
Definition set_world (v : World) (s : UdpTransport) : UdpTransport :=
  MkUdpTransport (listening_port_ s) (socket_ s) (sockets s) (next_request_id_ s)
    (outstanding_requests_ s) (tasks s) (signals s) v.

Definition post (t : task) : M UdpTransport unit := modify (λ s, set_tasks (tasks s ++ [t]) s).
Definition signal_ (e : signal) : M UdpTransport unit := modify (λ s, set_signals (e :: signals s) s).
Definition open_at (h : handle) (s : UdpTransport) : bool := default false (sockets s !! h).

(** The current socket; using a null pointer faults. *)
Definition current : M UdpTransport handle := λ s,
  match socket_ s with Some h => Ok (h, s) | None => Fault OutOfBounds end.

Definition StartRead : M UdpTransport unit :=
  h ← current; s ← get;
  assertb (open_at h s);;
  post (THandleRead h).

Definition StopListening : M UdpTransport unit :=
  s ← get;
  (match socket_ s with Some h => post (TCloseSocket h) | None => mret tt end);;
  modify (set_port 0).

(** [h] is a new object; what the operating system says to opening and binding it, and
    the port it is bound to. *)
Definition StartListening (ep : endpoint) (h : handle) (open_ec bind_ec : bool) (bound : Z) :
    M UdpTransport TransportCondition :=
  s ← get;
  if negb (listening_port_ s =? 0) then mret kAlreadyStarted
  else if ep_port ep =? 0 then mret kInvalidPort
  else
    StopListening;;
    modify (λ s, set_socket (Some h) (set_sockets (<[h := false]> (sockets s)) s));;
    if open_ec then mret kInvalidAddress
    else
      modify (λ s, set_sockets (<[h := true]> (sockets s)) s);;
      if bind_ec then mret kBindError
      else
        modify (set_port bound);;
        StartRead;;
        mret kSuccess.

Definition Bootstrap : M UdpTransport TransportCondition := mret kSuccess.

Definition Send (data : list Z) (ep : endpoint) (timeout : Z) : M UdpTransport unit :=
  if kMaxTransportMessageSize <? DataSize (Z.of_nat (length data)) then
    signal_ (SError kMessageSizeTooLarge ep)
  else post (TDoSend (MkUdpRequest data ep timeout 0)).

(** The three buffers of a datagram, one behind the other. *)
Definition wire (request_id : Z) (request : UdpRequest) : list Z :=
  size_bytes (DataSize (Z.of_nat (length (Data request)))) ++
  to_native request_id ++ to_native (ReplyToId request) ++ Data request.

(** [send_to] fails on a socket that is not open. *)
Definition send_bytes (h : handle) (ep : endpoint) (bytes : list Z) : M UdpTransport bool :=
  s ← get;
  if open_at h s then zoom world set_world (send_to ep bytes) else mret true.

(** Opening a socket for sending, unless there is one; whether the request can go on. *)
Definition open_for (request : UdpRequest) (h : handle) (open_ec bind_ec : bool) :
    M UdpTransport bool :=
  s ← get;
  match socket_ s with
  | Some _ => mret true
  | None =>
      modify (λ s, set_socket (Some h) (set_sockets (<[h := false]> (sockets s)) s));;
      if open_ec then
        modify (set_socket None);;
        signal_ (SError kInvalidAddress (RequestEndpoint request));;
        mret false
      else
        modify (λ s, set_sockets (<[h := true]> (sockets s)) s);;
        if bind_ec then
          (* the last reference to the socket goes *)
          modify (λ s, set_socket None (set_sockets (delete h (sockets s)) s));;
          signal_ (SError kBindError (RequestEndpoint request));;
          mret false
        else StartRead;; mret true
  end.

(** [next_request_id_++], skipping zero *)
Definition new_request_id : M UdpTransport Z :=
  s ← get;
  let id := next_request_id_ s in
  modify (set_next_id (let next := u64 (id + 1) in if next =? 0 then next + 1 else next));;
  mret id.

Definition DoSend (request : UdpRequest) (h : handle) (open_ec bind_ec : bool) : M UdpTransport unit :=
  go ← open_for request h open_ec bind_ec;
  when go (
    request_id ← new_request_id;
    socket ← current;
    ec ← send_bytes socket (RequestEndpoint request) (wire request_id request);
    if ec : bool then signal_ (SError kSendFailure (RequestEndpoint request))
    else
      when (negb (ReplyTimeout request =? kImmediateTimeout)) (
        modify (λ s, set_outstanding (<[request_id := request]> (outstanding_requests_ s)) s);;
        post (THandleTimeout request_id))).

Definition CloseSocket (h : handle) : M UdpTransport unit :=
  modify (λ s, set_sockets (<[h := false]> (sockets s)) s).

(** What [HandleRead] makes of the bytes that were transferred: the message, its
    identifier and the one it replies to. *)
Definition parse (bytes : list Z) : Res (option (list Z * Z * Z)) :=
  if (20 <=? length bytes)%nat then
    b0 ← byte_at bytes 0; b1 ← byte_at bytes 1; b2 ← byte_at bytes 2; b3 ← byte_at bytes 3;
    let size := size_of_bytes b0 b1 b2 b3 in
    if u64 (20 + u64 size) =? Z.of_nat (length bytes) then
      mret (Some (take (Z.to_nat size) (drop 20 bytes),
        from_native (take 8 (drop 4 bytes)), from_native (take 8 (drop 12 bytes))))
    else mret None
  else mret None.

(** [received]: the bytes and the sender, or an error. *)
Definition HandleRead (socket : handle) (received : option (list Z * endpoint)) :
    M UdpTransport unit :=
  s ← get;
  when (open_at socket s) (
    match received with
    | None => StartRead
    | Some (bytes, sender) =>
        p ← liftR (parse bytes);
        match p with
        | None => StartRead
        | Some (data, request_id, reply_to_id) =>
            if negb (reply_to_id =? 0) then
              match outstanding_requests_ s !! reply_to_id with
              | None => mret tt
              | Some _ =>
                  modify (λ s, set_outstanding (delete reply_to_id (outstanding_requests_ s)) s);;
                  post (TDispatchMessage data sender request_id);;
                  StartRead
              end
            else post (TDispatchMessage data sender request_id);; StartRead
        end
    end).

Definition DispatchMessage (data : list Z) (info : endpoint) (reply_to_id : Z) : M UdpTransport unit :=
  signal_ (SMessageReceived data info);;
  let '(response, response_timeout) := respond data info in
  when (negb (bool_decide (response = []))) (
    post (TDoSend (MkUdpRequest response info response_timeout reply_to_id))).

Definition HandleTimeout (request_id : Z) (ec : bool) : M UdpTransport unit :=
  s ← get;
  when (negb ec) (
    match outstanding_requests_ s !! request_id with
    | None => mret tt
    | Some request =>
        modify (λ s, set_outstanding (delete request_id (outstanding_requests_ s)) s);;
        signal_ (SError kReceiveTimeout (RequestEndpoint request))
    end).

(** What the operating system has to say to the task that runs. *)
Record circumstances := MkCircumstances {
  c_handle : handle; c_open_ec : bool; c_bind_ec : bool;
  c_received : option (list Z * endpoint);
  c_ec : bool;
}.

Definition run_one (t : task) (c : circumstances) : M UdpTransport unit :=
  match t with
  | TDoSend request => DoSend request (c_handle c) (c_open_ec c) (c_bind_ec c)
  | TCloseSocket h => CloseSocket h
  | THandleRead h => HandleRead h (c_received c)
  | TDispatchMessage data info id => DispatchMessage data info id
  | THandleTimeout id => HandleTimeout id (c_ec c)
  end.

(** The [i]-th task runs. *)
Definition run (i : nat) (c : circumstances) : M UdpTransport unit :=
  s ← get;
  match tasks s !! i with
  | None => mret tt
  | Some t => modify (set_tasks (delete i (tasks s)));; run_one t c
  end.
End udp.

(** ** The format *)

Section format.
Context `{Environment} `{!Native} `{!NativeLaws}.

(** A message fits its datagram: what [DoSend] puts together, [HandleRead] takes
    apart into the same bytes, the identifier it was sent under and the one it
    replies to. *)
Theorem udp_message_round_trip id (request : UdpRequest) :
  is_u64 id → is_u64 (ReplyToId request) → Z.of_nat (length (Data request)) ≤ kMaxTransportMessageSize →
  parse (wire id request) = Ok (Some (Data request, id, ReplyToId request)).
Proof.
  intros Hid Hreply Hlen. unfold kMaxTransportMessageSize in Hlen. unfold parse, wire.
  rewrite DataSize_small by lia. set (n := Z.of_nat (length (Data request))) in *.
  rewrite !length_app, length_size_bytes, !length_to_native.
  rewrite (proj2 (Nat.leb_le 20 _)) by lia.
  destruct (size_bytes n) as [|b0 [|b1 [|b2 [|b3 []]]]] eqn:En; try discriminate (f_equal length En).
  cbn [app byte_at lookup list_lookup mbind Res_bind Nat.add].
  rewrite (size_bytes_round_trip n) by (done || lia).
  unfold u64 at 2. rewrite (Z.mod_small n) by lia. unfold u64. rewrite Z.mod_small by lia.
  rewrite (proj2 (Z.eqb_eq _ _)) by lia. unfold mret, Res_ret. cbn [drop].
  pose proof (length_to_native id) as L1. pose proof (length_to_native (ReplyToId request)) as L2.
  set (ids := to_native (ReplyToId request)) in *. set (i := to_native id) in *. set (data := Data request) in *.
  assert (take (Z.to_nat n) (drop 16 (i ++ ids ++ data)) = data) as ->.
  { rewrite app_assoc, drop_app_length' by (rewrite length_app; lia). apply take_ge. lia. }
  rewrite drop_0. assert (take 8 (i ++ ids ++ data) = i) as -> by (by rewrite take_app_length').
  assert (take 8 (drop 8 (i ++ ids ++ data)) = ids) as ->.
  { by rewrite drop_app_length', take_app_length'. }
  unfold i, ids. by rewrite !native_round_trip.
Qed.

(** [HandleRead] can take any datagram. *)
Lemma parse_total bytes : bytes_ok bytes → Z.of_nat (length bytes) ≤ 65535 → ∃ p, parse bytes = Ok p ∧
  match p with Some (data, _, _) => length bytes = (20 + length data)%nat | None => True end.
Proof.
  intros Hb Hmax. unfold parse. destruct (20 <=? length bytes)%nat eqn:Elen; [|by exists None].
  apply Nat.leb_le in Elen. rewrite !byte_at_lt by lia. cbn [mbind Res_bind].
  assert (∀ i, (i < length bytes)%nat → is_u8 (bytes !!! i)) as Hu.
  { intros i Hi. by apply (Forall_lookup_1 _ _ i _ Hb), list_lookup_lookup_total_lt. }
  rewrite size_of_bytes_value by (apply Hu; lia).
  match goal with |- context [DataSize ?z] => set (size := DataSize z) end.
  assert (-2147483648 ≤ size < 2147483648) as Hs by (unfold size, DataSize; mod_lia).
  destruct (u64 (20 + u64 size) =? Z.of_nat (length bytes)) eqn:E; [|by exists None].
  apply Z.eqb_eq in E. eexists. split; [reflexivity|]. cbn.
  rewrite length_take, length_drop. destruct (decide (0 ≤ size)).
  - unfold u64 in E. rewrite (Z.mod_small size), Z.mod_small in E by lia. lia.
  - unfold u64 in E. exfalso.
    assert (size `mod` 18446744073709551616 = size + 18446744073709551616) as Em.
    { rewrite <-(Z.mod_add size 1) by lia. apply Z.mod_small. lia. }
    rewrite Em in E. replace (20 + (size + 18446744073709551616)) with
      (20 + size + 1 * 18446744073709551616) in E by lia. rewrite Z.mod_add in E by lia.
    destruct (decide (size < -20)).
    + rewrite <-(Z.mod_add _ 1), Z.mod_small in E by lia. lia.
    + rewrite Z.mod_small in E by lia. lia.
Qed.
End format.

(** ** Runs *)

Section runs.
Context `{Environment} `{!Native} (respond : list Z → endpoint → list Z * Z).

Inductive event :=
  | ESend (data : list Z) (ep : endpoint) (timeout : Z)
  | EListen (ep : endpoint) (h : handle) (open_ec bind_ec : bool) (bound : Z)
  | EStopListening
  | ERun (i : nat) (c : circumstances).

Definition step (e : event) : M UdpTransport unit :=
  match e with
  | ESend data ep timeout => Send data ep timeout
  | EListen ep h open_ec bind_ec bound => StartListening ep h open_ec bind_ec bound;; mret tt
  | EStopListening => StopListening
  | ERun i c => run respond i c
  end.

(** The wait for a reply is only aborted when the request is gone: its timer is
    destroyed with it. *)
Definition event_ok (e : event) (s : UdpTransport) : Prop :=
  match e with
  | ERun i c => ∀ id, tasks s !! i = Some (THandleTimeout id) → c_ec c = true →
      outstanding_requests_ s !! id = None
  | _ => True
  end.

Inductive reachable : UdpTransport → Prop :=
  | reachable_new now w : reachable (new_transport now w)
  | reachable_step s e s' :
      reachable s → event_ok e s → step e s = Ok (tt, s') → reachable s'.

(** *** No request is forgotten *)

Definition timed (s : UdpTransport) : Prop :=
  next_request_id_ s ≠ 0 ∧
  ∀ id r, outstanding_requests_ s !! id = Some r →
    id ≠ 0 ∧ ReplyTimeout r ≠ kImmediateTimeout ∧ THandleTimeout id ∈ tasks s.

Lemma timed_tasks s l : timed s → (∀ id, THandleTimeout id ∈ tasks s → THandleTimeout id ∈ l) →
  timed (set_tasks l s).
Proof. intros [Hn Ht] Hl. split; [done|]. intros id r (?&?&?)%Ht. eauto. Qed.

Lemma timed_post t : preserves timed (post t).
Proof.
  apply preserves_modify. intros s Hs. apply timed_tasks; [done|]. intros. apply elem_of_app. by left.
Qed.

(** Everything but the tasks, the requests and the next identifier. *)
Lemma timed_modify f :
  (∀ s, next_request_id_ (f s) = next_request_id_ s ∧
    outstanding_requests_ (f s) = outstanding_requests_ s ∧ tasks (f s) = tasks s) →
  preserves timed (modify f).
Proof. intros Hf. apply preserves_modify. intros s. unfold timed. by destruct (Hf s) as (->&->&->). Qed.

Lemma timed_delete id :
  preserves timed (modify (λ s, set_outstanding (delete id (outstanding_requests_ s)) s)).
Proof.
  apply preserves_modify. intros s [Hn Ht]. split; [done|]. cbn. intros id' r [_ Hl]%lookup_delete_Some.
  by apply Ht in Hl.
Qed.

Lemma timed_current : preserves timed current.
Proof. intros s a s'. unfold current. destruct (socket_ s); [|done]. by intros [= _ <-]. Qed.

Lemma timed_send_bytes h ep bytes : preserves timed (send_bytes h ep bytes).
Proof.
  unfold send_bytes. apply preserves_bind; [preserves|intros x]. destruct (open_at _ _); [|preserves].
  intros s a s' (w&_&->)%zoom_inv. done.
Qed.

#[local] Hint Resolve timed_post timed_current timed_send_bytes timed_delete : core.
Ltac timed := repeat first [ solve [auto] | apply timed_modify; done | preserves_step ].

Lemma timed_StartRead : preserves timed StartRead.
Proof. unfold StartRead. timed. Qed.
Lemma timed_StopListening : preserves timed StopListening.
Proof. unfold StopListening. timed. Qed.
#[local] Hint Resolve timed_StartRead timed_StopListening : core.

Lemma timed_new_request_id s id s' :
  new_request_id s = Ok (id, s') → timed s → timed s' ∧ id ≠ 0.
Proof.
  intros E [Hn Ht]. injection E as <- <-. split; [|done]. split; [|exact Ht].
  cbn. unfold u64. case_match; [|lia]. mod_lia.
Qed.

Lemma timed_DoSend request h open_ec bind_ec : preserves timed (DoSend request h open_ec bind_ec).
Proof.
  intros s [] s' (go&s1&E1&E)%M_bind_inv Hs.
  assert (timed s1) as Hs1.
  { revert E1 Hs. generalize s go s1. change (preserves timed (open_for request h open_ec bind_ec)).
    unfold open_for, signal_. timed. }
  clear E1 Hs. destruct go; [|by injection E as <-]. cbn [when] in E.
  apply M_bind_inv in E as (id&s2&E2&E). apply timed_new_request_id in E2 as [Hs2 Hid]; [|done].
  apply M_bind_inv in E as (so&s3&E3&E). pose proof (timed_current _ _ _ E3 Hs2) as Hs3. clear E3.
  apply M_bind_inv in E as (ec&s4&E4&E). pose proof (timed_send_bytes _ _ _ _ _ _ E4 Hs3) as Hs4. clear E4. destruct ec.
  { revert E Hs4. generalize s4 tt s'. change (preserves timed (signal_ (SError kSendFailure (RequestEndpoint request)))).
    unfold signal_. timed. }
  destruct (ReplyTimeout request =? kImmediateTimeout) eqn:Et; cbn [negb when] in E; [by injection E as <-|].
  apply Z.eqb_neq in Et. injection E as <-. destruct Hs4 as [Hn Ht]. split; [exact Hn|]. cbn.
  intros id' r. destruct (decide (id' = id)) as [->|].
  - rewrite lookup_insert_eq. intros [= <-]. split_and!; [done..|]. apply elem_of_app. right. by left.
  - rewrite lookup_insert_ne by done. intros (?&?&?)%Ht. split_and!; [done..|]. apply elem_of_app. by left.
Qed.

Lemma timed_HandleRead so received : preserves timed (HandleRead so received).
Proof.
  unfold HandleRead. timed.
Qed.

Lemma timed_HandleTimeout id ec s s' :
  (∀ i r, outstanding_requests_ s !! i = Some r → i ≠ id → THandleTimeout i ∈ tasks s) →
  next_request_id_ s ≠ 0 →
  (∀ i r, outstanding_requests_ s !! i = Some r → i ≠ 0 ∧ ReplyTimeout r ≠ kImmediateTimeout) →
  (ec = true → outstanding_requests_ s !! id = None) →
  HandleTimeout id ec s = Ok (tt, s') → timed s'.
Proof.
  intros Ht Hn Hr Hec E. apply M_bind_inv in E as (x&s1&[= <- <-]&E).
  assert (outstanding_requests_ s !! id = None → timed s) as Hnone.
  { intros Hid. split; [done|]. intros i r Hi. destruct (Hr _ _ Hi). split_and!; [done..|].
    apply (Ht _ _ Hi). congruence. }
  destruct ec; cbn [negb when] in E; [injection E as <-; auto|].
  destruct (outstanding_requests_ s !! id) as [r|] eqn:El; [|injection E as <-; auto].
  injection E as <-. split; [exact Hn|]. cbn. intros i r' [Hne Hi]%lookup_delete_Some.
  destruct (Hr _ _ Hi). split_and!; [done..|]. by apply (Ht _ _ Hi).
Qed.

Lemma timed_step e s s' : event_ok e s → step e s = Ok (tt, s') → timed s → timed s'.
Proof.
  intros He E Hs. destruct e as [data ep t|ep h oe be bound| |i c]; cbn [step] in E.
  - assert (preserves timed (Send data ep t)) as Hp by (unfold Send, signal_; timed).
    exact (Hp _ _ _ E Hs).
  - assert (preserves timed (StartListening ep h oe be bound;; mret tt)) as Hp
      by (unfold StartListening; timed).
    exact (Hp _ _ _ E Hs).
  - exact (timed_StopListening _ _ _ E Hs).
  - apply M_bind_inv in E as (x&s1&[= <- <-]&E). destruct (tasks s !! i) as [t|] eqn:Ei;
      [|by injection E as <-].
    apply M_bind_inv in E as ([]&s1&[= <-]&E).
    assert ((∀ id, t ≠ THandleTimeout id) → timed (set_tasks (delete i (tasks s)) s)) as Hs1.
    { intros Hne. apply timed_tasks; [done|]. intros id Hid. apply elem_of_delete; [done|].
      rewrite Ei. intros [= ->]. by apply (Hne id). }
    destruct t as [request|h|h|data info id|id]; cbn [run_one] in E; try specialize (Hs1 ltac:(done)).
    + exact (timed_DoSend _ _ _ _ _ _ _ E Hs1).
    + by injection E as <-.
    + exact (timed_HandleRead _ _ _ _ _ E Hs1).
    + assert (preserves timed (DispatchMessage respond data info id)) as Hp
        by (unfold DispatchMessage, signal_; timed).
      exact (Hp _ _ _ E Hs1).
    + destruct Hs as [Hn Ht]. eapply timed_HandleTimeout; [..|exact E]; cbn.
      * intros j r (_&_&Hj)%Ht Hjd. apply elem_of_delete; [done|]. rewrite Ei. congruence.
      * done.
      * by intros j r (?&?&_)%Ht.
      * by apply (He id).
Qed.

(** C16: No request that expects a reply is forgotten: whatever datagrams come, in
    whatever order tasks run and calls are made, as long as a request is
    outstanding its timer is pending, and when that expires the request is
    removed and a timeout with its endpoint is signalled. *)
Theorem udp_requests_resolved s id request :
  reachable s → outstanding_requests_ s !! id = Some request →
  ∃ i, tasks s !! i = Some (THandleTimeout id) ∧
    ∀ c, c_ec c = false → ∃ s', run respond i c s = Ok (tt, s') ∧
      outstanding_requests_ s' = delete id (outstanding_requests_ s) ∧
      signals s' = SError kReceiveTimeout (RequestEndpoint request) :: signals s.
Proof.
  intros Hs Hl. assert (timed s) as [_ Ht].
  { clear Hl. induction Hs as [now w|s e s' _ IH He E].
    - split; [|by intros ?? Hl]. cbn. case_match; lia.
    - by eapply timed_step. }
  apply Ht in Hl as Hl'. destruct Hl' as (_&_&[i Hi]%list_elem_of_lookup). exists i. split; [done|].
  intros c Hc. eexists. split.
  - unfold run, mbind, M_bind, get. rewrite Hi. cbn [modify run_one]. unfold HandleTimeout, mbind, M_bind, get.
    rewrite Hc. cbn [negb when outstanding_requests_ set_tasks]. rewrite Hl. reflexivity.
  - done.
Qed.

(** *** A late reply ends the reading *)

(** There is a socket and nothing reads from it. *)
Definition deaf (s : UdpTransport) : Prop :=
  is_Some (socket_ s) ∧ ∀ h, THandleRead h ∉ tasks s.

Lemma deaf_post t : (∀ h, t ≠ THandleRead h) → preserves deaf (post t).
Proof.
  intros Ht. apply preserves_modify. intros s [Hs Hr]. split; [done|]. cbn.
  intros h [Hin|Hin]%elem_of_app; [by apply (Hr h)|]. apply list_elem_of_singleton in Hin. by apply (Ht h).
Qed.

Lemma deaf_modify f : (∀ s, socket_ (f s) = socket_ s ∧ tasks (f s) = tasks s) → preserves deaf (modify f).
Proof. intros Hf. apply preserves_modify. intros s. unfold deaf. by destruct (Hf s) as [-> ->]. Qed.

Lemma deaf_open_for request h oe be : preserves deaf (open_for request h oe be).
Proof.
  intros s b s' E Hs. apply M_bind_inv in E as (x&s1&[= <- <-]&E). destruct Hs as [[g Hg] Hr].
  rewrite Hg in E. injection E as _ <-. by split.
Qed.

Lemma deaf_send_bytes h ep bytes : preserves deaf (send_bytes h ep bytes).
Proof.
  unfold send_bytes. apply preserves_bind; [preserves|intros x]. destruct (open_at _ _); [|preserves].
  intros s a s' (w&_&->)%zoom_inv. done.
Qed.

Lemma deaf_current : preserves deaf current.
Proof. intros s a s'. unfold current. destruct (socket_ s); [|done]. by intros [= _ <-]. Qed.

Ltac deaf := repeat first
  [ apply deaf_open_for | apply deaf_send_bytes | apply deaf_current | apply deaf_post; done
  | apply deaf_modify; done | preserves_step ].

Definition not_listening (e : event) : Prop := match e with EListen _ _ _ _ _ => False | _ => True end.

Lemma deaf_step e : not_listening e → preserves deaf (step e).
Proof.
  intros He. destruct e as [data ep t|ep h oe be bound| |i c]; cbn [step]; [|done|..].
  - unfold Send, signal_. deaf.
  - unfold StopListening. deaf.
  - intros s [] s' E Hs. apply M_bind_inv in E as (x&s1&[= <- <-]&E).
    destruct (tasks s !! i) as [t|] eqn:Ei; [|by injection E as <-].
    apply M_bind_inv in E as ([]&s1&[= <-]&E).
    assert (deaf (set_tasks (delete i (tasks s)) s)) as Hs1.
    { destruct Hs as [Hs Hr]. split; [done|]. intros h Hin. apply (Hr h).
      eapply elem_of_submseteq; [exact Hin|]. apply sublist_submseteq, sublist_delete. }
    assert (preserves deaf (run_one respond t c)) as Hp; [|exact (Hp _ _ _ E Hs1)].
    destruct t as [request|h|h|data info id|id]; cbn [run_one].
    + unfold DoSend, new_request_id, signal_. deaf.
    + unfold CloseSocket. deaf.
    + destruct Hs as [_ Hr]. exfalso. apply (Hr h). by apply list_elem_of_lookup_2 in Ei.
    + unfold DispatchMessage, signal_. deaf.
    + unfold HandleTimeout, signal_. deaf.
Qed.

(** What may follow, short of listening anew. *)
Inductive later : UdpTransport → UdpTransport → Prop :=
  | later_refl s : later s s
  | later_step s s1 e s' : later s s1 → not_listening e → step e s1 = Ok (tt, s') → later s s'.

Lemma deaf_later s s' : later s s' → deaf s → deaf s'.
Proof.
  induction 1 as [|s s1 e s' _ IH He E]; [done|]. intros Hs. exact (deaf_step e He _ _ _ E (IH Hs)).
Qed.

(** A reply that comes when its request is not outstanding (it timed out, or the
    reply is a duplicate or forged) is ignored, but the read is not started
    again: if it was the only one, nothing is read from the socket ever after,
    whatever is sent, until the transport listens anew. *)
Theorem udp_late_reply_ends_reading s i h data id reply_to_id bytes sender oh oe be ec :
  tasks s !! i = Some (THandleRead h) → open_at h s = true → is_Some (socket_ s) →
  (∀ j h', tasks s !! j = Some (THandleRead h') → j = i) →
  parse bytes = Ok (Some (data, id, reply_to_id)) → reply_to_id ≠ 0 →
  outstanding_requests_ s !! reply_to_id = None →
  ∃ s1, run respond i (MkCircumstances oh oe be (Some (bytes, sender)) ec) s = Ok (tt, s1) ∧
    signals s1 = signals s ∧
    ∀ s2, later s1 s2 → is_Some (socket_ s2) ∧ ∀ h', THandleRead h' ∉ tasks s2.
Proof.
  intros Hi Hopen Hsock Honly Hp Hreply Hout. exists (set_tasks (delete i (tasks s)) s). split_and!.
  - unfold run, mbind, M_bind, get. rewrite Hi. cbn [modify run_one c_received].
    unfold HandleRead, mbind, M_bind, get. change (open_at h (set_tasks (delete i (tasks s)) s)) with (open_at h s).
    rewrite Hopen. cbn [when]. unfold liftR. rewrite Hp.
    rewrite (proj2 (Z.eqb_neq _ _) Hreply). cbn [negb outstanding_requests_ set_tasks]. by rewrite Hout.
  - done.
  - intros s2 Hl. apply (deaf_later _ _ Hl).
    split; [done|]. cbn. intros h' [j Hj]%list_elem_of_lookup. destruct (decide (j < i)%nat).
    + rewrite list_lookup_delete_lt in Hj by done. apply Honly in Hj. lia.
    + rewrite list_lookup_delete_ge in Hj by lia. apply Honly in Hj. lia.
Qed.

(** *** A conversation *)

Context `{!NativeLaws}.

Lemma DoSend_sends request h g oe be s :
  socket_ s = Some h → open_at h s = true → (∀ l, send_error l = false) →
  ReplyTimeout request ≠ kImmediateTimeout →
  ∃ s', DoSend request g oe be s = Ok (tt, s') ∧
    socket_ s' = Some h ∧ sockets s' = sockets s ∧ signals s' = signals s ∧
    tasks s' = tasks s ++ [THandleTimeout (next_request_id_ s)] ∧
    outstanding_requests_ s' = <[next_request_id_ s := request]> (outstanding_requests_ s) ∧
    w_sent (world s') =
      Datagram _ (RequestEndpoint request) (wire (next_request_id_ s) request) :: w_sent (world s).
Proof.
  intros Hs Ho Hse Ht. eexists. split; [|shelve]. unfold DoSend, open_for, new_request_id, current, send_bytes,
    post, mbind, M_bind, get, modify, mret, M_ret, zoom, send_to. rewrite Hs. cbn [when].
  cbn [socket_ set_next_id]. rewrite Hs. change (open_at h (set_next_id _ s)) with (open_at h s). rewrite Ho, Hse.
  apply Z.eqb_neq in Ht. rewrite Ht. cbn [negb when]. reflexivity.
  Unshelve. done.
Qed.

(** Once listening has stopped, the transport keeps its closed socket: every
    message fails, as no other socket is opened for it. *)
Lemma send_after_stop_fails request h g oe be s :
  socket_ s = Some h → open_at h s = false →
  ∃ s', DoSend request g oe be s = Ok (tt, s') ∧ socket_ s' = Some h ∧ sockets s' = sockets s ∧
    signals s' = SError kSendFailure (RequestEndpoint request) :: signals s.
Proof.
  intros Hs Ho. eexists. split; [|shelve]. unfold DoSend, open_for, new_request_id, current, send_bytes,
    signal_, mbind, M_bind, get, modify, mret, M_ret. rewrite Hs. cbn [when].
  cbn [socket_ set_next_id]. rewrite Hs. change (open_at h (set_next_id _ s)) with (open_at h s).
  rewrite Ho. reflexivity.
  Unshelve. done.
Qed.

Lemma HandleRead_takes h s bytes sender data id reply_to_id :
  socket_ s = Some h → open_at h s = true → parse bytes = Ok (Some (data, id, reply_to_id)) →
  reply_to_id = 0 ∨ is_Some (outstanding_requests_ s !! reply_to_id) →
  ∃ s', HandleRead h (Some (bytes, sender)) s = Ok (tt, s') ∧
    socket_ s' = Some h ∧ sockets s' = sockets s ∧ signals s' = signals s ∧ world s' = world s ∧
    next_request_id_ s' = next_request_id_ s ∧
    tasks s' = tasks s ++ [TDispatchMessage data sender id; THandleRead h] ∧
    outstanding_requests_ s' =
      (if reply_to_id =? 0 then outstanding_requests_ s else delete reply_to_id (outstanding_requests_ s)).
Proof.
  intros Hs Ho Hp Hr. unfold HandleRead, StartRead, current, post, mbind, M_bind, get, modify, liftR.
  rewrite Ho. cbn [when]. rewrite Hp. destruct (Z.eqb_spec reply_to_id 0) as [->|Hne]; cbn [negb].
  - cbn [socket_ set_tasks]. rewrite Hs. change (open_at h (set_tasks _ s)) with (open_at h s). rewrite Ho.
    eexists. split; [reflexivity|]. cbn. rewrite <-app_assoc. done.
  - destruct Hr as [?|[r Er]]; [done|]. rewrite Er. cbn [socket_ set_tasks set_outstanding]. rewrite Hs.
    change (open_at h (set_tasks _ (set_outstanding _ s))) with (open_at h s). rewrite Ho.
    eexists. split; [reflexivity|]. cbn. rewrite <-app_assoc. done.
Qed.

(** A conversation of two transports over a network that delivers: the request
    arrives as it was sent, the application's response goes back under the
    request's identifier and arrives as it was given; the request is then
    outstanding no more and its timer, should it still expire, reports nothing. *)
Theorem udp_conversation a b ha hb data timeout ep_a ep_b response response_timeout g oe be :
  socket_ a = Some ha → open_at ha a = true → socket_ b = Some hb → open_at hb b = true →
  (∀ l, send_error l = false) →
  is_u64 (next_request_id_ a) → next_request_id_ a ≠ 0 → is_u64 (next_request_id_ b) →
  Z.of_nat (length data) ≤ kMaxTransportMessageSize → timeout ≠ kImmediateTimeout →
  respond data ep_a = (response, response_timeout) → response ≠ [] →
  response_timeout ≠ kImmediateTimeout →
  Z.of_nat (length response) ≤ kMaxTransportMessageSize →
  let request := MkUdpRequest data ep_b timeout 0 in
  let reply := MkUdpRequest response ep_a response_timeout (next_request_id_ a) in
  ∃ a1 b1 b2 b3 a2,
    DoSend request g oe be a = Ok (tt, a1) ∧
    w_sent (world a1) = Datagram _ ep_b (wire (next_request_id_ a) request) :: w_sent (world a) ∧
    HandleRead hb (Some (wire (next_request_id_ a) request, ep_a)) b = Ok (tt, b1) ∧
    tasks b1 = tasks b ++ [TDispatchMessage data ep_a (next_request_id_ a); THandleRead hb] ∧
    DispatchMessage respond data ep_a (next_request_id_ a) b1 = Ok (tt, b2) ∧
    signals b2 = SMessageReceived data ep_a :: signals b ∧
    tasks b2 = tasks b1 ++ [TDoSend reply] ∧
    DoSend reply g oe be b2 = Ok (tt, b3) ∧
    w_sent (world b3) = Datagram _ ep_a (wire (next_request_id_ b) reply) :: w_sent (world b) ∧
    HandleRead ha (Some (wire (next_request_id_ b) reply, ep_b)) a1 = Ok (tt, a2) ∧
    tasks a2 = tasks a1 ++ [TDispatchMessage response ep_b (next_request_id_ b); THandleRead ha] ∧
    outstanding_requests_ a2 = delete (next_request_id_ a) (outstanding_requests_ a) ∧
    HandleTimeout (next_request_id_ a) false a2 = Ok (tt, a2).
Proof.
  intros Ha Hoa Hb Hob Hnet Hida Hnz Hidb Hlen Ht Hresp Hne Hrt Hrlen. cbv zeta.
  set (request := MkUdpRequest data ep_b timeout 0).
  set (reply := MkUdpRequest response ep_a response_timeout (next_request_id_ a)).
  destruct (DoSend_sends request ha g oe be a) as (a1&Ea1&Hs1&Hk1&_&Ht1&Hu1&Hw1); [done..|].
  destruct (HandleRead_takes hb b (wire (next_request_id_ a) request) ep_a data (next_request_id_ a) 0)
    as (b1&Eb1&Hsb1&Hkb1&Hgb1&Hwb1&Hnb1&Htb1&Hub1); [done|done|by apply udp_message_round_trip|by left|].
  assert (DispatchMessage respond data ep_a (next_request_id_ a) b1 = Ok (tt,
    set_tasks (tasks b1 ++ [TDoSend reply]) (set_signals (SMessageReceived data ep_a :: signals b1) b1))) as Eb2.
  { unfold DispatchMessage, signal_, post, mbind, M_bind, modify. rewrite Hresp.
    rewrite bool_decide_false by done. reflexivity. }
  set (b2 := set_tasks _ _) in Eb2.
  destruct (DoSend_sends reply hb g oe be b2) as (b3&Eb3&_&_&_&_&_&Hw3);
    [exact Hsb1|by rewrite <-Hob; unfold open_at; cbn; rewrite Hkb1|done|done|].
  destruct (HandleRead_takes ha a1 (wire (next_request_id_ b) reply) ep_b response (next_request_id_ b)
    (next_request_id_ a)) as (a2&Ea2&_&_&_&_&_&Hta2&Hua2).
  - done.
  - rewrite <-Hoa. unfold open_at. by rewrite Hk1.
  - by apply udp_message_round_trip.
  - right. rewrite Hu1, lookup_insert_eq. by eexists.
  - exists a1, b1, b2, b3, a2.
    assert (outstanding_requests_ a2 = delete (next_request_id_ a) (outstanding_requests_ a)) as Hua.
    { by rewrite Hua2, (proj2 (Z.eqb_neq _ _) Hnz), Hu1, delete_insert_eq. }
    split_and!; try done.
    + unfold b2. cbn. by rewrite Hgb1.
    + rewrite Hw3. unfold b2. cbn. by rewrite Hnb1, Hwb1.
    + unfold HandleTimeout, mbind, M_bind, get. cbn [negb when]. by rewrite Hua, lookup_delete_eq.
Qed.
End runs.

Module UdpExamples.
Import Shared.Demo.

(** A little-endian machine. *)
Fixpoint little (n : nat) (z : Z) : list Z :=
  match n with O => [] | S n' => z `mod` 256 :: little n' (z / 256) end.
Definition of_little (l : list Z) : Z := foldr (λ b acc, b + 256 * acc) 0 l.

Lemma little_round_trip n : ∀ z, of_little (little n z) = z `mod` 256 ^ Z.of_nat n.
Proof.
  induction n as [|n IH]; intros z; [by rewrite Z.mod_1_r|].
  cbn [little of_little foldr]. change (foldr _ 0 (little n (z / 256))) with (of_little (little n (z / 256))).
  rewrite IH, Nat2Z.inj_succ, Z.pow_succ_r by lia.
  rewrite Z.rem_mul_r by lia. lia.
Qed.

#[export] Instance little_endian : Native := {|
  to_native := little 8;
  from_native l := u64 (of_little l) |}.
#[export] Instance little_endian_laws : NativeLaws.
Proof.
  split.
  - done.
  - intros z. unfold to_native, little_endian. generalize 8%nat. intros n. revert z.
    induction n as [|n IH]; intros z; constructor; [cbv beta; unfold is_u8; mod_lia|apply IH].
  - intros z Hz. unfold from_native, to_native, little_endian. rewrite little_round_trip.
    unfold u64. cbn. by rewrite !Z.mod_small by (unfold is_u64 in Hz; rewrite ?Z.mod_small; lia).
  - intros l. unfold from_native, little_endian, is_u64, u64. mod_lia.
Qed.

Definition w0 : World := MkWorld _ 0 0 [].
Definition echo (data : list Z) (_ : endpoint) : list Z * Z := (data, 5000000).

Lemma udp_message_round_trip_witness :
  parse (wire 7 (MkUdpRequest [1; 2; 3] (remote 2) 0 5)) = Ok (Some ([1; 2; 3], 7, 5)).
Proof. apply (udp_message_round_trip 7 (MkUdpRequest [1; 2; 3] (remote 2) 0 5)); done. Defined.

(** A transport that listens on the socket 1. *)
Definition listening (requests : gmap Z UdpRequest) : UdpTransport :=
  MkUdpTransport 5000 (Some 1%positive) {[ 1%positive := true ]} 8 requests [THandleRead 1%positive] [] w0.

(** A message was sent at the client. *)
Definition calm : circumstances := MkCircumstances 1%positive false false None false.
Definition first : UdpTransport := new_transport 41 w0.
Definition after (e : event) (s : UdpTransport) : UdpTransport := (from_ok (tt, s) (step echo e s)).2.
Definition second : UdpTransport := after (ESend [1; 2; 3] (remote 2) 5000000) first.
Definition third : UdpTransport := after (ERun 0 calm) second.

Lemma udp_reachable_after e s :
  reachable echo s → event_ok e s → is_ok (step echo e s) = true → reachable echo (after e s).
Proof.
  intros Hs He E. eapply reachable_step; [exact Hs|exact He|].
  rewrite (from_ok_eq (tt, s) _ E). unfold after. by destruct (from_ok _ _) as [[] ?].
Qed.

Lemma third_reachable : reachable echo third.
Proof.
  apply udp_reachable_after; [apply udp_reachable_after; [apply reachable_new|exact I|vm_compute; reflexivity]|..].
  - intros id _ E. discriminate E.
  - vm_compute. reflexivity.
Qed.

Lemma udp_requests_resolved_witness :
  ∃ i s', tasks third !! i = Some (THandleTimeout 41) ∧ run echo i calm third = Ok (tt, s') ∧
    outstanding_requests_ s' = delete 41 (outstanding_requests_ third).
Proof.
  destruct (udp_requests_resolved echo third 41 (MkUdpRequest [1; 2; 3] (remote 2) 5000000 0))
    as (i&Hi&Hrun).
  - exact third_reachable.
  - vm_compute. reflexivity.
  - destruct (Hrun calm) as (s'&E&Eo&_); [reflexivity|]. exists i, s'. split; [exact Hi|]. split; [exact E|exact Eo].
Defined.

Lemma udp_late_reply_ends_reading_witness :
  ∃ s1, run echo 0 (MkCircumstances 1%positive false false
      (Some (wire 3 (MkUdpRequest [1; 2] (remote 2) 0 7), remote 2)) false) (listening ∅) = Ok (tt, s1) ∧
    tasks s1 = [].
Proof.
  destruct (udp_late_reply_ends_reading echo (listening ∅) 0 1%positive [1; 2] 3 7
    (wire 3 (MkUdpRequest [1; 2] (remote 2) 0 7)) (remote 2) 1%positive false false false) as (s1&E&_&Hl).
  - reflexivity.
  - reflexivity.
  - by eexists.
  - intros [|j] h' E; [reflexivity|discriminate E].
  - vm_compute. reflexivity.
  - lia.
  - reflexivity.
  - exists s1. split; [exact E|].
    destruct (Hl s1 (later_refl _ s1)) as [_ Hr].
    assert (Ok (tt, set_tasks [] (listening ∅)) = Ok (tt, s1)) as E1 by (rewrite <-E; reflexivity).
    by injection E1 as <-.
Defined.

Lemma udp_conversation_witness :
  ∃ a1 b1, DoSend (MkUdpRequest [1; 2; 3] (remote 2) 5000000 0) 9%positive false false (listening ∅) = Ok (tt, a1) ∧
    HandleRead 1%positive (Some (wire 8 (MkUdpRequest [1; 2; 3] (remote 2) 5000000 0), remote 3)) (listening ∅)
      = Ok (tt, b1) ∧
    tasks b1 = [THandleRead 1%positive; TDispatchMessage [1; 2; 3] (remote 3) 8; THandleRead 1%positive].
Proof.
  destruct (udp_conversation echo (listening ∅) (listening ∅) 1%positive 1%positive [1; 2; 3] 5000000
    (remote 3) (remote 2) [1; 2; 3] 5000000 9%positive false false) as (a1&b1&_&_&_&Ea&_&Eb&Et&_);
    try done.
  exists a1, b1. split; [exact Ea|]. split; [exact Eb|]. rewrite Et. reflexivity.
Defined.
End UdpExamples.
