(* ===== verification/TcpConnection.v ===== *)
(** * Messages over TCP

    Models src/maidsafe/transport/tcp_connection.cc: one conversation over a TCP
    socket, with the same framing as [Connection].

    As there, handlers wait in [handlers] until [complete] runs one, in any
    order.  A read fills the whole buffer it was given or fails, and a write
    writes everything or fails (asio::async_read, asio::async_write): the outcome
    and the bytes are arguments of [complete].  [written] lists what was given
    to async_write, and [signals] what the transport is told, newest first. *)

From S2P Require Import Prelude Environment ByteOrder Transport.
From S2P Require Shared.

Inductive handler :=
  | HConnect | HReadSize | HReadData (off n : nat) | HWrite
  | HCheckTimeout
  | HDispatchMessage | HStartWrite | HClose.

Inductive signal :=
  | SError (condition : TransportCondition)
  | SRemoveConnection
  | SMessageReceived (message : list Z).

#[export] Instance tcp_handler_eq_dec : EqDecision handler.
Proof. solve_decision. Defined.

Record TcpConnection `{Environment} := MkTcpConnection {
  transport_ : bool;                          (** can be locked *)
  is_open : bool;                             (** the socket *)
  timer_ : ptime;
  response_deadline_ : ptime;
  size_buffer_ : list Z;
  data_buffer_ : list Z;
  data_size_ : Z;
  data_received_ : Z;
  timeout_for_response_ : Z;
  world : World;
  handlers : list handler;
  written : list (list Z);
  signals : list signal;
}.
Arguments MkTcpConnection {_}.

Definition kMaxTransportChunkSize : Z := 65536.
Definition kMaxTransportMessageSize : Z := 67108864.

(** binary32: the 24 leading bits of an integer, to nearest, ties to even. *)
Definition round24 (p : Z) : Z :=
  let e := Z.max 0 (Z.log2 p - 23) in
  let q := p / 2 ^ e in
  let r := p mod 2 ^ e in
  let up := (2 ^ e <? 2 * r) || ((2 ^ e =? 2 * r) && Z.odd q) in
  (if up then q + 1 else q) * 2 ^ e.
(** the float [0.01f], times 2^30 *)
Definition kTimeoutFactor : Z := 10737418.
(** [static_cast<int64_t>(size * kTimeoutFactor)] *)
Definition scaled (size : Z) : Z := round24 (round24 size * kTimeoutFactor) / 2 ^ 30.

Section tcp.
Context `{Environment} (respond : list Z → list Z * Z).

Definition new_connection (w : World) : TcpConnection :=
  MkTcpConnection true false not_a_date_time not_a_date_time (replicate 4 0) [] 0 0
    kDefaultInitialTimeout w [] [] [].

Definition set_open (v : bool) (c : TcpConnection) : TcpConnection :=
  MkTcpConnection (transport_ c) v (timer_ c) (response_deadline_ c) (size_buffer_ c) (data_buffer_ c)
    (data_size_ c) (data_received_ c) (timeout_for_response_ c) (world c) (handlers c) (written c) (signals c).
Definition set_timer (v : ptime) (c : TcpConnection) : TcpConnection :=
  MkTcpConnection (transport_ c) (is_open c) v (response_deadline_ c) (size_buffer_ c) (data_buffer_ c)
    (data_size_ c) (data_received_ c) (timeout_for_response_ c) (world c) (handlers c) (written c) (signals c).
Definition set_response_deadline (v : ptime) (c : TcpConnection) : TcpConnection :=
  MkTcpConnection (transport_ c) (is_open c) (timer_ c) v (size_buffer_ c) (data_buffer_ c)
    (data_size_ c) (data_received_ c) (timeout_for_response_ c) (world c) (handlers c) (written c) (signals c).
Definition set_size_buffer (v : list Z) (c : TcpConnection) : TcpConnection :=
  MkTcpConnection (transport_ c) (is_open c) (timer_ c) (response_deadline_ c) v (data_buffer_ c)
    (data_size_ c) (data_received_ c) (timeout_for_response_ c) (world c) (handlers c) (written c) (signals c).
Definition set_data_buffer (v : list Z) (c : TcpConnection) : TcpConnection :=
  MkTcpConnection (transport_ c) (is_open c) (timer_ c) (response_deadline_ c) (size_buffer_ c) v
    (data_size_ c) (data_received_ c) (timeout_for_response_ c) (world c) (handlers c) (written c) (signals c).
Definition set_data_size (v : Z) (c : TcpConnection) : TcpConnection :=
  MkTcpConnection (transport_ c) (is_open c) (timer_ c) (response_deadline_ c) (size_buffer_ c) (data_buffer_ c)
    v (data_received_ c) (timeout_for_response_ c) (world c) (handlers c) (written c) (signals c).
Definition set_data_received (v : Z) (c : TcpConnection) : TcpConnection :=
  MkTcpConnection (transport_ c) (is_open c) (timer_ c) (response_deadline_ c) (size_buffer_ c) (data_buffer_ c)
    (data_size_ c) v (timeout_for_response_ c) (world c) (handlers c) (written c) (signals c).
Definition set_timeout_for_response (v : Z) (c : TcpConnection) : TcpConnection :=
  MkTcpConnection (transport_ c) (is_open c) (timer_ c) (response_deadline_ c) (size_buffer_ c) (data_buffer_ c)
    (data_size_ c) (data_received_ c) v (world c) (handlers c) (written c) (signals c).
Definition set_world (v : World) (c : TcpConnection) : TcpConnection :=
  MkTcpConnection (transport_ c) (is_open c) (timer_ c) (response_deadline_ c) (size_buffer_ c) (data_buffer_ c)
    (data_size_ c) (data_received_ c) (timeout_for_response_ c) v (handlers c) (written c) (signals c).
Definition set_handlers (v : list handler) (c : TcpConnection) : TcpConnection :=
  MkTcpConnection (transport_ c) (is_open c) (timer_ c) (response_deadline_ c) (size_buffer_ c) (data_buffer_ c)
    (data_size_ c) (data_received_ c) (timeout_for_response_ c) (world c) v (written c) (signals c).
Definition set_written (v : list (list Z)) (c : TcpConnection) : TcpConnection :=
  MkTcpConnection (transport_ c) (is_open c) (timer_ c) (response_deadline_ c) (size_buffer_ c) (data_buffer_ c)
    (data_size_ c) (data_received_ c) (timeout_for_response_ c) (world c) (handlers c) v (signals c).
Definition set_signals (v : list signal) (c : TcpConnection) : TcpConnection :=
  MkTcpConnection (transport_ c) (is_open c) (timer_ c) (response_deadline_ c) (size_buffer_ c) (data_buffer_ c)
    (data_size_ c) (data_received_ c) (timeout_for_response_ c) (world c) (handlers c) (written c) v.

Definition post (h : handler) : M TcpConnection unit := modify (λ c, set_handlers (handlers c ++ [h]) c).
Definition signal_ (e : signal) : M TcpConnection unit := modify (λ c, set_signals (e :: signals c) c).
Definition now : M TcpConnection ptime := zoom world set_world Now.
Definition expires_at (t : ptime) : M TcpConnection unit := modify (set_timer t).
Definition expires_from_now (d : Z) : M TcpConnection unit := t ← now; expires_at (ptime_add t d).
(** [std::min] *)
Definition ptime_min (a b : ptime) : ptime := if ptime_ltb b a then b else a.

Definition DoClose : M TcpConnection unit :=
  modify (set_open false);;
  c ← get;
  when (transport_ c) (signal_ SRemoveConnection).

Definition CloseOnError (error : TransportCondition) : M TcpConnection unit :=
  c ← get;
  when (transport_ c) (signal_ (SError error));;
  DoClose.

(** [ec]: an error other than [operation_aborted]. *)
Definition CheckTimeout (ec : bool) : M TcpConnection unit :=
  if ec then modify (set_open false)
  else
    c ← get;
    when (is_open c) (
      t ← now;
      if ptime_leb (timer_ c) t then modify (set_open false) else post HCheckTimeout).

Definition StartReadSize : M TcpConnection unit :=
  c ← get;
  assertb (is_open c);;
  post HReadSize;;
  t ← now;
  modify (λ c, set_response_deadline (ptime_add t (timeout_for_response_ c)) c);;
  modify (λ c, set_timer (ptime_min (response_deadline_ c) (ptime_add t kStallTimeout)) c).

Definition resize (n : nat) (l : list Z) : list Z := take n l ++ replicate (n - length l) 0.

Definition StartReadData : M TcpConnection unit :=
  c ← get;
  assertb (is_open c);;
  let buffer_size := u64 (data_received_ c +
    Z.min kMaxTransportChunkSize (u64 (data_size_ c - data_received_ c))) in
  modify (λ c, set_data_buffer (resize (Z.to_nat buffer_size) (data_buffer_ c)) c);;
  let off := Z.to_nat (data_received_ c) in
  post (HReadData off (Z.to_nat buffer_size - off));;
  t ← now;
  modify (λ c, set_timer (ptime_min (response_deadline_ c) (ptime_add t kStallTimeout)) c).

Definition HandleReadSize (ec : bool) : M TcpConnection unit :=
  CheckTimeout false;;
  c ← get;
  if negb (is_open c) then CloseOnError kReceiveTimeout
  else if ec then CloseOnError kReceiveFailure
  else
    b0 ← liftR (byte_at (size_buffer_ c) 0);
    b1 ← liftR (byte_at (size_buffer_ c) 1);
    b2 ← liftR (byte_at (size_buffer_ c) 2);
    b3 ← liftR (byte_at (size_buffer_ c) 3);
    modify (set_data_size (u64 (size_of_bytes b0 b1 b2 b3)));;
    modify (set_data_received 0);;
    StartReadData.

Definition HandleReadData (ec : bool) (length : Z) : M TcpConnection unit :=
  CheckTimeout false;;
  c ← get;
  if negb (is_open c) then CloseOnError kReceiveTimeout
  else if ec then CloseOnError kReceiveFailure
  else
    modify (λ c, set_data_received (u64 (data_received_ c + length)) c);;
    c ← get;
    if data_received_ c =? data_size_ c then
      expires_at pos_infin;;
      post HDispatchMessage
    else StartReadData.

Definition EncodeData (data : list Z) : M TcpConnection unit :=
  modify (set_size_buffer (size_bytes (DataSize (Z.of_nat (length data)))));;
  modify (set_data_buffer data).

(** [open_ec]: the socket cannot be opened for connecting. *)
Definition StartConnect (open_ec : bool) : M TcpConnection unit :=
  c ← get;
  assertb (negb (is_open c));;
  modify (set_open (negb open_ec));;
  post HConnect;;
  expires_from_now kDefaultInitialTimeout.

Definition StartWrite : M TcpConnection unit :=
  c ← get;
  assertb (is_open c);;
  let tm_out := milliseconds (Z.max (scaled (Z.of_nat (length (data_buffer_ c))))
                                    (total_milliseconds kMinTimeout)) in
  modify (λ c, set_written ((size_buffer_ c ++ data_buffer_ c) :: written c) c);;
  post HWrite;;
  expires_from_now tm_out;;
  CheckTimeout false.

Definition HandleConnect (ec : bool) : M TcpConnection unit :=
  c ← get;
  if negb (is_open c) then CloseOnError kSendTimeout
  else if ec then CloseOnError kSendFailure
  else StartWrite.

Definition HandleWrite (ec : bool) : M TcpConnection unit :=
  c ← get;
  if negb (is_open c) then CloseOnError kSendTimeout
  else if ec then CloseOnError kSendFailure
  else if negb (timeout_for_response_ c =? kImmediateTimeout) then StartReadSize
  else DoClose.

Definition DispatchMessage : M TcpConnection unit :=
  c ← get;
  when (transport_ c) (
    signal_ (SMessageReceived (data_buffer_ c));;
    let '(response, response_timeout) := respond (data_buffer_ c) in
    let msg_size := DataSize (Z.of_nat (length response)) in
    if bool_decide (response = []) || (kMaxTransportMessageSize <? msg_size) then post HClose
    else
      EncodeData response;;
      modify (set_timeout_for_response response_timeout);;
      post HStartWrite).

(** [StartReceiving] and [StartSending], in the strand. *)
Definition StartReceiving : M TcpConnection unit := StartReadSize;; CheckTimeout false.

Definition StartSending (data : list Z) (timeout : Z) (open_ec : bool) : M TcpConnection unit :=
  EncodeData data;;
  modify (set_timeout_for_response timeout);;
  StartConnect open_ec.

(** ** Running a handler *)

(** [bytes]: what was transferred. *)
Definition run_handler (h : handler) (ec : bool) (bytes : list Z) : M TcpConnection unit :=
  match h with
  | HConnect => HandleConnect ec
  | HReadSize =>
      modify (λ c, set_size_buffer (bytes ++ drop (length bytes) (size_buffer_ c)) c);;
      HandleReadSize ec
  | HReadData off _ =>
      modify (λ c, set_data_buffer
        (take off (data_buffer_ c) ++ bytes ++ drop (off + length bytes) (data_buffer_ c)) c);;
      HandleReadData ec (Z.of_nat (length bytes))
  | HWrite => HandleWrite ec
  | HCheckTimeout => CheckTimeout ec
  | HDispatchMessage => DispatchMessage
  | HStartWrite => StartWrite
  | HClose => DoClose
  end.

Definition complete (i : nat) (ec : bool) (bytes : list Z) : M TcpConnection unit :=
  c ← get;
  match handlers c !! i with
  | Some h =>
      modify (set_handlers (delete i (handlers c)));;
      run_handler h ec bytes
  | None => mret tt
  end.

(** What asio promises of the operation that completes. *)
Definition fits (h : handler) (ec : bool) (bytes : list Z) : Prop :=
  bytes_ok bytes ∧
  match h with
  | HReadSize => if ec then (length bytes ≤ 4)%nat else length bytes = 4%nat
  | HReadData _ n => if ec then (length bytes ≤ n)%nat else length bytes = n
  | _ => True
  end.
End tcp.

(** ** One conversation *)

Section conversation.
Context `{Environment} (respond : list Z → list Z * Z).

(** The handlers of the conversation itself. *)
Definition talking (h : handler) : bool :=
  match h with HCheckTimeout | HClose => false | _ => true end.
Definition talks (c : TcpConnection) : list handler := filter talking (handlers c).
Definition messages (c : TcpConnection) : list (list Z) :=
  omap (λ e, match e with SMessageReceived m => Some m | _ => None end) (signals c).
Definition errors (c : TcpConnection) : list TransportCondition :=
  omap (λ e, match e with SError e => Some e | _ => None end) (signals c).

(** The same but for times and timers, and perhaps closed. *)
Record same (c c' : TcpConnection) : Prop := {
  same_talks : talks c' = talks c;
  same_size : size_buffer_ c' = size_buffer_ c;
  same_data : data_buffer_ c' = data_buffer_ c;
  same_data_size : data_size_ c' = data_size_ c;
  same_received : data_received_ c' = data_received_ c;
  same_signals : signals c' = signals c;
  same_transport : transport_ c' = transport_ c;
  same_closing : HClose ∈ handlers c → HClose ∈ handlers c';
  same_open : is_open c' = true → is_open c = true;
}.

Lemma same_refl c : same c c.
Proof. by split. Qed.
Lemma tcp_same_trans c1 c2 c3 : same c1 c2 → same c2 c3 → same c1 c3.
Proof. intros [] []. split; solve [congruence|auto]. Qed.

Lemma talks_app l c : talks (set_handlers (handlers c ++ l) c) = talks c ++ filter talking l.
Proof. unfold talks. cbn. by rewrite filter_app. Qed.

Lemma CheckTimeout_same ec c c' : CheckTimeout ec c = Ok (tt, c') → same c c'.
Proof.
  unfold CheckTimeout. destruct ec; [intros [= <-]; by split|].
  intros (x&c1&[= <- <-]&E)%M_bind_inv. destruct (is_open c); cbn [when] in E;
    [|injection E as <-; apply same_refl].
  apply M_bind_inv in E as (t&c1&[= <- <-]&E). destruct (ptime_leb _ _); injection E as <-.
  - by split.
  - split; try done; cbn; [unfold talks; cbn; rewrite filter_app; by rewrite app_nil_r|].
    intros. apply elem_of_app. by left.
Qed.

(** After an error the conversation is over. *)
Lemma CloseOnError_ends e c c' : CloseOnError e c = Ok (tt, c') →
  is_open c' = false ∧ talks c' = talks c ∧ transport_ c' = transport_ c ∧
  signals c' = (if transport_ c then [SRemoveConnection; SError e] else []) ++ signals c.
Proof.
  intros (x&c1&[= <- <-]&E)%M_bind_inv. unfold when in E. destruct (transport_ c) eqn:Et.
  - apply M_bind_inv in E as ([]&c1&[= <-]&E). apply M_bind_inv in E as ([]&c1&[= <-]&E).
    apply M_bind_inv in E as (y&c1&[= <- <-]&E). cbn [transport_ set_open set_signals] in E. rewrite Et in E.
    injection E as <-. done.
  - apply M_bind_inv in E as ([]&c1&[= <-]&E). apply M_bind_inv in E as ([]&c1&[= <-]&E).
    apply M_bind_inv in E as (y&c1&[= <- <-]&E). cbn [transport_ set_open] in E. rewrite Et in E.
    injection E as <-. done.
Qed.

Lemma DoClose_ends c c' : DoClose c = Ok (tt, c') →
  is_open c' = false ∧ talks c' = talks c ∧ transport_ c' = transport_ c ∧
  signals c' = (if transport_ c then [SRemoveConnection] else []) ++ signals c.
Proof.
  intros ([]&c1&[= <-]&E)%M_bind_inv. apply M_bind_inv in E as (y&c1&[= <- <-]&E).
  cbn [transport_ set_open] in E. destruct (transport_ c) eqn:Et; injection E as <-; done.
Qed.

(** An operation that goes on reading, writing or connecting starts one handler. *)
Record begun (h : handler) (c c' : TcpConnection) : Prop := {
  begun_talks : talks c' = talks c ++ [h];
  begun_signals : signals c' = signals c;
  begun_transport : transport_ c' = transport_ c;
}.

Lemma StartReadSize_begun c c' : StartReadSize c = Ok (tt, c') →
  is_open c = true ∧ is_open c' = true ∧ begun HReadSize c c' ∧ size_buffer_ c' = size_buffer_ c.
Proof.
  intros (x&c1&[= <- <-]&E)%M_bind_inv. apply M_bind_inv in E as (y&c1&Ea&E).
  unfold assertb in Ea. destruct (is_open c) eqn:Eo; [|done]. injection Ea as _ <-.
  injection E as <-. cbn. repeat split; try done. unfold talks. cbn. by rewrite filter_app.
Qed.

Lemma StartReadData_begun c c' : StartReadData c = Ok (tt, c') →
  let size := u64 (data_received_ c +
    Z.min kMaxTransportChunkSize (u64 (data_size_ c - data_received_ c))) in
  let off := Z.to_nat (data_received_ c) in
  is_open c = true ∧ is_open c' = true ∧ begun (HReadData off (Z.to_nat size - off)) c c' ∧
  data_buffer_ c' = resize (Z.to_nat size) (data_buffer_ c) ∧
  data_size_ c' = data_size_ c ∧ data_received_ c' = data_received_ c.
Proof.
  intros (x&c1&[= <- <-]&E)%M_bind_inv. apply M_bind_inv in E as (y&c1&Ea&E).
  unfold assertb in Ea. destruct (is_open c) eqn:Eo; [|done]. injection Ea as _ <-.
  injection E as <-. cbv zeta. split; [done|]. cbn. repeat split; try done. unfold talks. cbn. by rewrite filter_app.
Qed.

Lemma StartWrite_begun c c' : StartWrite c = Ok (tt, c') →
  is_open c = true ∧ begun HWrite c c'.
Proof.
  intros (x&c1&[= <- <-]&E)%M_bind_inv. apply M_bind_inv in E as (y&c1&Ea&E).
  unfold assertb in Ea. destruct (is_open c) eqn:Eo; [|done]. injection Ea as _ <-. split; [done|].
  apply M_bind_inv in E as ([]&c1&[= <-]&E). apply M_bind_inv in E as ([]&c1&[= <-]&E).
  apply M_bind_inv in E as ([]&c1&[= <-]&E). apply CheckTimeout_same in E as [Et _ _ _ _ Es Etr _ _].
  split; [|by rewrite Es|by rewrite Etr]. rewrite Et. unfold talks. cbn. by rewrite filter_app.
Qed.

Lemma DispatchMessage_begun c c' : DispatchMessage respond c = Ok (tt, c') →
  (transport_ c = false ∧ c' = c) ∨
  (transport_ c = true ∧ transport_ c' = true ∧ is_open c' = is_open c ∧
    signals c' = SMessageReceived (data_buffer_ c) :: signals c ∧
    (talks c' = talks c ∧ HClose ∈ handlers c' ∨ talks c' = talks c ++ [HStartWrite])).
Proof.
  intros (x&c1&[= <- <-]&E)%M_bind_inv. destruct (transport_ c) eqn:Et; cbn [when] in E;
    [|injection E as <-; by left]. right.
  apply M_bind_inv in E as ([]&c1&[= <-]&E). destruct (respond _) as [response t].
  destruct (_ || _); injection E as <-; cbn.
  - repeat split; try done. left. unfold talks. cbn. rewrite filter_app, app_nil_r. split; [done|].
    apply elem_of_app. right. by left.
  - repeat split; try done. right. unfold talks. cbn. by rewrite filter_app.
Qed.

(** A handler of the conversation starts the next one or ends the conversation. *)
Definition moves (c c' : TcpConnection) : Prop :=
  transport_ c' = transport_ c ∧
  ((∃ h, talks c' = talks c ++ [h] ∧ errors c' = errors c) ∨
   (talks c' = talks c ∧ (length (errors c') ≤ length (errors c) + 1)%nat ∧
    (transport_ c' = true → SRemoveConnection ∈ signals c' ∨ HClose ∈ handlers c'))).

Lemma errors_signals c c' : signals c' = signals c → errors c' = errors c.
Proof. unfold errors. by intros ->. Qed.

Lemma moves_begun h c c' : begun h c c' → moves c c'.
Proof. intros [? ? ?]. split; [done|]. left. exists h. split; [done|]. by apply errors_signals. Qed.

Lemma moves_eq c c1 c' :
  talks c1 = talks c → signals c1 = signals c → transport_ c1 = transport_ c → moves c1 c' → moves c c'.
Proof. intros Et Es%errors_signals Etr Hm. unfold moves in *. by rewrite Et, Es, Etr in Hm. Qed.

Lemma moves_same c c1 c' : same c c1 → moves c1 c' → moves c c'.
Proof. intros []. by apply moves_eq. Qed.

Lemma tcp_CloseOnError_moves e c c' : CloseOnError e c = Ok (tt, c') → moves c c'.
Proof.
  intros (_&Et&Etr&Es)%CloseOnError_ends. split; [done|]. right. split; [done|]. unfold errors. rewrite Es, Etr.
  destruct (transport_ c); cbn; split; try lia; try done. intros _. left. by left.
Qed.

Lemma tcp_DoClose_moves c c' : DoClose c = Ok (tt, c') → moves c c'.
Proof.
  intros (_&Et&Etr&Es)%DoClose_ends. split; [done|]. right. split; [done|]. unfold errors. rewrite Es, Etr.
  destruct (transport_ c); cbn; split; try lia; try done. intros _. left. by left.
Qed.

Lemma moves_StartReadData c c' : StartReadData c = Ok (tt, c') → moves c c'.
Proof. intros (_&_&Hb&_)%StartReadData_begun. by eapply moves_begun. Qed.
Lemma moves_StartReadSize c c' : StartReadSize c = Ok (tt, c') → moves c c'.
Proof. intros (_&_&Hb&_)%StartReadSize_begun. by eapply moves_begun. Qed.
Lemma moves_StartWrite c c' : StartWrite c = Ok (tt, c') → moves c c'.
Proof. intros (_&Hb)%StartWrite_begun. by eapply moves_begun. Qed.

Lemma moves_DispatchMessage c c' : DispatchMessage respond c = Ok (tt, c') → moves c c'.
Proof.
  intros [[Et ->]|(Et&Etr&_&Es&Hd)]%DispatchMessage_begun.
  - split; [done|]. right. split; [done|]. split; [lia|congruence].
  - assert (errors c' = errors c) as Ee by (unfold errors; by rewrite Es).
    split; [congruence|]. destruct Hd as [[Ht Hc]|Ht].
    + right. rewrite Ee. split; [done|]. split; [lia|by right].
    + left. by exists HStartWrite.
Qed.

Lemma moves_HandleReadSize ec c c' : HandleReadSize ec c = Ok (tt, c') → moves c c'.
Proof.
  intros ([]&c1&E1&E)%M_bind_inv. apply CheckTimeout_same in E1. apply (moves_same _ _ _ E1). clear E1.
  apply M_bind_inv in E as (x&c2&[= <- <-]&E). destruct (negb (is_open c1)); [by eapply tcp_CloseOnError_moves|].
  destruct ec; [by eapply tcp_CloseOnError_moves|].
  do 4 apply liftR_inv in E as (?&_&E).
  apply M_bind_inv in E as ([]&c2&[= <-]&E). apply M_bind_inv in E as ([]&c2&[= <-]&E).
  eapply moves_eq; [..|by apply moves_StartReadData]; done.
Qed.

Lemma moves_HandleReadData ec n c c' : HandleReadData ec n c = Ok (tt, c') → moves c c'.
Proof.
  intros ([]&c1&E1&E)%M_bind_inv. apply CheckTimeout_same in E1. apply (moves_same _ _ _ E1). clear E1.
  apply M_bind_inv in E as (x&c2&[= <- <-]&E). destruct (negb (is_open c1)); [by eapply tcp_CloseOnError_moves|].
  destruct ec; [by eapply tcp_CloseOnError_moves|].
  apply M_bind_inv in E as ([]&c2&[= <-]&E). apply M_bind_inv in E as (x&c2&[= <- <-]&E).
  destruct (_ =? _).
  - apply M_bind_inv in E as ([]&c2&[= <-]&E). injection E as <-. apply (moves_begun HDispatchMessage).
    split; try done. unfold talks. cbn. by rewrite filter_app.
  - eapply moves_eq; [..|by apply moves_StartReadData]; done.
Qed.

Lemma moves_run_handler h ec bytes c c' :
  talking h = true → run_handler respond h ec bytes c = Ok (tt, c') → moves c c'.
Proof.
  intros Hh E. destruct h as [| |off n| | | | |]; try discriminate Hh; cbn [run_handler] in E.
  - apply M_bind_inv in E as (x&c1&[= <- <-]&E). destruct (negb (is_open c)); [by eapply tcp_CloseOnError_moves|].
    destruct ec; [by eapply tcp_CloseOnError_moves|by apply moves_StartWrite].
  - apply M_bind_inv in E as ([]&c1&[= <-]&E). eapply moves_eq; [..|by eapply moves_HandleReadSize]; done.
  - apply M_bind_inv in E as ([]&c1&[= <-]&E). eapply moves_eq; [..|by eapply moves_HandleReadData]; done.
  - apply M_bind_inv in E as (x&c1&[= <- <-]&E). destruct (negb (is_open c)); [by eapply tcp_CloseOnError_moves|].
    destruct ec; [by eapply tcp_CloseOnError_moves|].
    destruct (negb _); [by apply moves_StartReadSize|by apply tcp_DoClose_moves].
  - by apply moves_DispatchMessage.
  - by apply moves_StartWrite.
Qed.

(** How a connection begins. *)
Inductive start := ToReceive | ToSend (data : list Z) (timeout : Z) (open_ec : bool).
Definition begin_ (k : start) : M TcpConnection unit :=
  match k with
  | ToReceive => StartReceiving
  | ToSend data timeout open_ec => StartSending data timeout open_ec
  end.

(** The connection that begins: asio has opened the socket of one that was accepted. *)
Definition made (k : start) (w : World) : TcpConnection :=
  match k with ToReceive => set_open true (new_connection w) | ToSend _ _ _ => new_connection w end.

(** Its life: handlers run in any order, with any outcome, and it may be told to close. *)
Inductive lives (k : start) : TcpConnection → Prop :=
  | lives_start w c : begin_ k (made k w) = Ok (tt, c) → lives k c
  | lives_handler c i ec bytes c' :
      lives k c → complete respond i ec bytes c = Ok (tt, c') → lives k c'
  | lives_close c c' : lives k c → DoClose c = Ok (tt, c') → lives k c'.

(** At most one operation of the conversation is pending or one error was
    signalled; and the connection is not forgotten. *)
Definition single (c : TcpConnection) : Prop :=
  (length (talks c) + length (errors c) ≤ 1)%nat ∧
  (transport_ c = true →
    talks c ≠ [] ∨ HClose ∈ handlers c ∨ SRemoveConnection ∈ signals c).

Lemma single_begin k w c : begin_ k (made k w) = Ok (tt, c) → single c.
Proof.
  intros E. destruct k as [|data t oe]; cbn [begin_ made] in E.
  - apply M_bind_inv in E as ([]&c2&E2&E).
    apply StartReadSize_begun in E2 as (_&_&[Et Es Etr]&_). apply CheckTimeout_same in E.
    unfold single. rewrite (same_talks _ _ E), (errors_signals _ _ (same_signals _ _ E)), Et, (errors_signals _ _ Es).
    cbn. split; [lia|]. intros _. by left.
  - apply M_bind_inv in E as ([]&c1&[= <-]&E). apply M_bind_inv in E as ([]&c1&[= <-]&E).
    apply M_bind_inv in E as (x&c1&[= <- <-]&E). injection E as <-. cbn. split; [done|]. intros _. by left.
Qed.

Lemma single_complete i ec bytes c c' :
  complete respond i ec bytes c = Ok (tt, c') → single c → single c'.
Proof.
  intros (x&c1&[= <- <-]&E)%M_bind_inv Hs. destruct (handlers c !! i) as [h|] eqn:Ei;
    [|by injection E as <-].
  apply M_bind_inv in E as ([]&c1&[= <-]&E). destruct Hs as [Hone Hkept].
  destruct (talking h) eqn:Hh.
  - assert (talks c = [h]) as Etalks.
    { destruct (filter_delete talking _ _ _ Ei) as (l1&l2&El&_). rewrite Hh in El. unfold talks in *.
      rewrite El, !length_app in Hone. cbn in Hone. rewrite El.
      destruct l1, l2; cbn in Hone; try lia. done. }
    assert (errors c = []) as Eerr.
    { rewrite Etalks in Hone. cbn in Hone. destruct (errors c); [done|cbn in Hone; lia]. }
    destruct (filter_delete_only talking _ _ _ _ Ei Hh Etalks) as [_ Edel].
    apply moves_run_handler in E as [Etr Hm]; [|done].
    change (talks (set_handlers (delete i (handlers c)) c)) with (filter talking (delete i (handlers c))) in Hm.
    change (errors (set_handlers (delete i (handlers c)) c)) with (errors c) in Hm.
    rewrite Edel, Eerr in Hm. destruct Hm as [(h'&Et&Ee)|(Et&Ee&Hk)].
    + split; [by rewrite Et, Ee|]. intros _. left. by rewrite Et.
    + split; [rewrite Et; cbn in *; lia|]. intros Htr. right. destruct (Hk Htr); auto.
  - assert (talks (set_handlers (delete i (handlers c)) c) = talks c) as Et1
      by exact (filter_delete_other talking _ _ _ Ei Hh).
    destruct h; try discriminate Hh; cbn [run_handler] in E.
    + apply CheckTimeout_same in E. split.
      * rewrite (same_talks _ _ E), (errors_signals _ _ (same_signals _ _ E)), Et1. exact Hone.
      * rewrite (same_talks _ _ E), (same_signals _ _ E), (same_transport _ _ E), Et1. intros Htr.
        destruct (Hkept Htr) as [?|[Hc|?]]; [by left| |by right; right]. right. left.
        apply (same_closing _ _ E). apply elem_of_delete; [done|]. by rewrite Ei.
    + apply DoClose_ends in E as (_&Et&Etr&Es). split.
      * rewrite Et, Et1. unfold errors in *. rewrite Es. cbn [transport_ set_handlers signals].
        by destruct (transport_ c).
      * rewrite Etr. intros Htr. right. right. rewrite Es. rewrite Htr. by left.
Qed.

(** A TCP connection tells its transport at most one error, and none while an
    operation of its conversation is pending, of which there is never more
    than one; and it is not forgotten: while the transport exists, an
    operation is pending, or closing is, or its removal was requested. *)
Theorem tcp_conversation_ends (k : start) c :
  lives k c →
  (length (talks c) + length (errors c) ≤ 1)%nat ∧
  (transport_ c = true → talks c ≠ [] ∨ HClose ∈ handlers c ∨ SRemoveConnection ∈ signals c).
Proof.
  induction 1 as [w c E|c i ec bytes c' _ IH E|c c' _ IH E].
  - by eapply single_begin.
  - by eapply single_complete.
  - apply DoClose_ends in E as (_&Et&Etr&Es). destruct IH as [Hone _]. split.
    + rewrite Et. unfold errors in *. rewrite Es. by destruct (transport_ c).
    + rewrite Etr, Es. intros ->. right. right. by left.
Qed.

(** ** The message that arrives *)

Definition frame (data : list Z) : list Z := size_bytes (Z.of_nat (length data)) ++ data.

Definition reads (h : handler) : bool :=
  match h with HReadSize | HReadData _ _ => true | _ => false end.

(** What happens to a connection, with the bytes its reads were given. *)
Inductive receives (c : TcpConnection) : list Z → TcpConnection → Prop :=
  | receives_nothing : receives c [] c
  | receives_handler T c1 i h ec bytes c2 :
      receives c T c1 → handlers c1 !! i = Some h → fits h ec bytes →
      complete respond i ec bytes c1 = Ok (tt, c2) →
      receives c (T ++ if reads h && negb ec then bytes else []) c2
  | receives_close T c1 c2 : receives c T c1 → DoClose c1 = Ok (tt, c2) → receives c T c2.

(** How far the message is, when the bytes [T] have come. *)
Inductive phase (data T : list Z) (c : TcpConnection) : Prop :=
  | in_size : talks c = [HReadSize] → T = [] → messages c = [] → length (size_buffer_ c) = 4%nat →
      phase data T c
  | in_data got n : talks c = [HReadData (length got) n] → messages c = [] →
      T = size_bytes (Z.of_nat (length data)) ++ got → got `prefix_of` data →
      data_size_ c = Z.of_nat (length data) → data_received_ c = Z.of_nat (length got) →
      length (data_buffer_ c) = (length got + n)%nat → take (length got) (data_buffer_ c) = got →
      Z.of_nat n = Z.min kMaxTransportChunkSize (Z.of_nat (length data) - Z.of_nat (length got)) →
      data = [] ∨ (length got < length data)%nat → phase data T c
  | in_dispatch : talks c = [HDispatchMessage] → T = frame data → messages c = [] →
      data_buffer_ c = data → phase data T c
  | arrived : T = frame data → messages c = [data] →
      talks c = [] ∨ talks c = [HStartWrite] ∨ talks c = [HWrite] ∨ talks c = [HReadSize] → phase data T c
  | over : talks c = [] → messages c = [] → is_open c = false ∨ transport_ c = false → phase data T c.

Lemma messages_signals c c' : signals c' = signals c → messages c' = messages c.
Proof. unfold messages. by intros ->. Qed.

Lemma messages_CloseOnError e c c' : CloseOnError e c = Ok (tt, c') → messages c' = messages c.
Proof. intros (_&_&_&Es)%CloseOnError_ends. unfold messages. rewrite Es. by destruct (transport_ c). Qed.

Lemma phase_over e c c' data T :
  CloseOnError e c = Ok (tt, c') → talks c = [] → messages c = [] → phase data T c'.
Proof.
  intros E Et Em. apply messages_CloseOnError in E as Em'. apply CloseOnError_ends in E as (Eo&Et'&_).
  apply over; [congruence|congruence|by left].
Qed.

(** [resize] keeps what is there. *)
Lemma resize_grow n l : (length l ≤ n)%nat →
  length (resize n l) = n ∧ take (length l) (resize n l) = l.
Proof.
  intros Hl. unfold resize. rewrite take_ge by done. split.
  - rewrite length_app, length_replicate. lia.
  - by rewrite take_app_length.
Qed.

(** The next part of the message, [got] of which is in the buffer already. *)
Lemma StartReadData_phase data got c c' :
  Z.of_nat (length data) < 2147483648 → StartReadData c = Ok (tt, c') →
  talks c = [] → messages c = [] → got `prefix_of` data →
  data_size_ c = Z.of_nat (length data) → data_received_ c = Z.of_nat (length got) →
  take (length got) (data_buffer_ c) = got → got = [] ∨ length (data_buffer_ c) = length got →
  data = [] ∨ (length got < length data)%nat → phase data (size_bytes (Z.of_nat (length data)) ++ got) c'.
Proof.
  intros Hn E Et Em Hp Es Er Hbuf Hlen Hmore. pose proof (prefix_length _ _ Hp) as Hle.
  apply StartReadData_begun in E. cbv zeta in E. rewrite Es, Er, Nat2Z.id in E.
  destruct E as (_&_&[Et' Esg _]&Eb&Es'&Er').
  rewrite (u64_small (Z.of_nat (length data) - _)), u64_small in * by (unfold kMaxTransportChunkSize; lia).
  set (n := Z.to_nat (Z.min kMaxTransportChunkSize (Z.of_nat (length data) - Z.of_nat (length got)))).
  assert (Z.to_nat (Z.of_nat (length got) + Z.min kMaxTransportChunkSize
    (Z.of_nat (length data) - Z.of_nat (length got))) = (length got + n)%nat) as Esize.
  { unfold n, kMaxTransportChunkSize. clear -Hle. lia. }
  rewrite Esize in *.
  apply (in_data _ _ _ got n); try done.
  - rewrite Et', Et. cbn. do 2 f_equal. lia.
  - by rewrite (messages_signals _ _ Esg).
  - rewrite Eb. unfold resize. rewrite length_app, length_take, length_replicate. lia.
  - rewrite Eb. destruct Hlen as [->|Hlen]; [done|].
    unfold resize. rewrite (take_ge (data_buffer_ c)) by lia.
    rewrite take_app_le by lia. exact Hbuf.
  - unfold n, kMaxTransportChunkSize. lia.
Qed.

Lemma frame_prefix_size data b0 b1 b2 b3 :
  [b0; b1; b2; b3] `prefix_of` frame data → size_bytes (Z.of_nat (length data)) = [b0; b1; b2; b3].
Proof.
  unfold frame. intros [k E]. apply (f_equal (take 4)) in E.
  rewrite take_app_length' in E by done. by rewrite E.
Qed.

Lemma prefix_app_left {A} (l1 l2 l : list A) : l1 ++ l2 `prefix_of` l → l1 `prefix_of` l.
Proof. intros H1. etrans; [by apply prefix_app_r|exact H1]. Qed.

Lemma size_step data ec bytes c c' :
  Z.of_nat (length data) < 2147483648 → fits HReadSize ec bytes →
  talks c = [] → messages c = [] → length (size_buffer_ c) = 4%nat →
  (if negb ec then bytes else []) `prefix_of` frame data →
  run_handler respond HReadSize ec bytes c = Ok (tt, c') →
  phase data (if negb ec then bytes else []) c'.
Proof.
  intros Hn [Hb Hfit] Et Em Hlen Hp E. cbn [run_handler] in E.
  apply M_bind_inv in E as ([]&c0&[= <-]&E). apply M_bind_inv in E as ([]&c1&E1&E).
  apply CheckTimeout_same in E1. apply M_bind_inv in E as (x&c2&[= <- <-]&E).
  assert (talks c1 = []) as Et1 by by rewrite (same_talks _ _ E1).
  assert (messages c1 = []) as Em1 by by rewrite (messages_signals _ _ (same_signals _ _ E1)).
  destruct (negb (is_open c1)); [by eapply phase_over|].
  destruct ec; [by eapply phase_over|]. cbn [negb] in *.
  rewrite (same_size _ _ E1) in E. cbn [set_size_buffer size_buffer_] in E.
  destruct bytes as [|b0 [|b1 [|b2 [|b3 [|]]]]]; try discriminate Hfit.
  apply frame_prefix_size in Hp.
  do 4 apply liftR_inv in E as (?&[= <-]&E). rewrite (size_bytes_round_trip (Z.of_nat (length data))) in E by (done || lia).
  apply M_bind_inv in E as ([]&c2&[= <-]&E). apply M_bind_inv in E as ([]&c2&[= <-]&E).
  rewrite <-Hp, <-(app_nil_r (size_bytes _)). eapply StartReadData_phase; [done|exact E|done|done|..].
  - apply prefix_nil.
  - cbn. apply u64_small. lia.
  - done.
  - done.
  - by left.
  - destruct data; [by left|right; cbn; lia].
Qed.

Lemma data_step data got n ec bytes c c' :
  Z.of_nat (length data) < 2147483648 → fits (HReadData (length got) n) ec bytes →
  talks c = [] → messages c = [] → got `prefix_of` data →
  data_size_ c = Z.of_nat (length data) → data_received_ c = Z.of_nat (length got) →
  length (data_buffer_ c) = (length got + n)%nat → take (length got) (data_buffer_ c) = got →
  size_bytes (Z.of_nat (length data)) ++ got ++ (if negb ec then bytes else []) `prefix_of` frame data →
  run_handler respond (HReadData (length got) n) ec bytes c = Ok (tt, c') →
  phase data (size_bytes (Z.of_nat (length data)) ++ got ++ if negb ec then bytes else []) c'.
Proof.
  intros Hn [Hb Hfit] Et Em Hgot Es Er Hlen Hbuf Hp E. cbn [run_handler] in E.
  apply M_bind_inv in E as ([]&c0&[= <-]&E). apply M_bind_inv in E as ([]&c1&E1&E).
  apply CheckTimeout_same in E1. apply M_bind_inv in E as (x&c2&[= <- <-]&E).
  assert (talks c1 = []) as Et1 by by rewrite (same_talks _ _ E1).
  assert (messages c1 = []) as Em1 by by rewrite (messages_signals _ _ (same_signals _ _ E1)).
  destruct (negb (is_open c1)); [by eapply phase_over|].
  destruct ec; [by eapply phase_over|]. cbn [negb] in *.
  assert (data_buffer_ c1 = got ++ bytes) as Eb1.
  { rewrite (same_data _ _ E1). cbn [set_data_buffer data_buffer_].
    rewrite Hbuf, (drop_ge (data_buffer_ c)), app_nil_r by lia. done. }
  unfold frame in Hp. apply prefix_app_inv in Hp.
  pose proof (prefix_length _ _ Hp) as Hle. rewrite length_app in Hle.
  apply M_bind_inv in E as ([]&c2&[= <-]&E). apply M_bind_inv in E as (x&c2&[= <- <-]&E).
  cbn [set_data_received data_received_ data_size_] in E.
  rewrite (same_received _ _ E1), (same_data_size _ _ E1) in E. cbn [set_data_buffer data_received_ data_size_] in E.
  rewrite Er, Es, u64_small in E by lia.
  destruct (Z.eqb_spec (Z.of_nat (length got) + Z.of_nat (length bytes)) (Z.of_nat (length data))) as [Efull|Hmore].
  - assert (got ++ bytes = data) as Eall.
    { apply prefix_length_eq in Hp; [done|]. rewrite length_app. lia. }
    injection E as <-. apply in_dispatch.
    + unfold talks in *. cbn. by rewrite filter_app, Et1.
    + by rewrite Eall.
    + done.
    + cbn. by rewrite Eb1.
  - eapply StartReadData_phase; [done|exact E|done|done|exact Hp|..].
    + cbn. by rewrite (same_data_size _ _ E1).
    + cbn. rewrite length_app. lia.
    + cbn. rewrite Eb1. by apply take_ge.
    + right. cbn. by rewrite Eb1.
    + right. rewrite length_app. lia.
Qed.

(** A handler that is no part of the conversation. *)
Lemma phase_other data T c c' :
  phase data T c → talks c' = talks c → messages c' = messages c →
  size_buffer_ c' = size_buffer_ c → data_buffer_ c' = data_buffer_ c →
  data_size_ c' = data_size_ c → data_received_ c' = data_received_ c →
  transport_ c' = transport_ c → (is_open c' = true → is_open c = true) → phase data T c'.
Proof.
  intros Hc Et Em Eb Ed Es Er Etr Ho. destruct Hc as [|got n| | |? ? Hover].
  - apply in_size; congruence.
  - apply (in_data _ _ _ got n); congruence.
  - apply in_dispatch; congruence.
  - apply arrived; [congruence..|]. by rewrite Et.
  - apply over; [congruence..|]. rewrite Etr. destruct Hover as [Hf|?]; [left|by right].
    destruct (is_open c'); [|done]. by rewrite Ho in Hf.
Qed.

(** What comes after the message asks for no more of its bytes. *)
Lemma arrived_step data c h ec bytes c' :
  talks c = [] → messages c = [data] → h = HStartWrite ∨ h = HWrite ∨ h = HReadSize →
  (if reads h then ec = true else True) →
  run_handler respond h ec bytes c = Ok (tt, c') → phase data (frame data) c'.
Proof.
  intros Et Em Hh Hec E.
  assert (∀ e c1, CloseOnError e c1 = Ok (tt, c') → talks c1 = [] → messages c1 = [data] →
    phase data (frame data) c') as Hclose.
  { intros e c1 E1 Et1 Em1. apply messages_CloseOnError in E1 as Em'. apply CloseOnError_ends in E1 as (_&Et'&_).
    apply arrived; [done|congruence|left; congruence]. }
  destruct Hh as [->|[->| ->]]; cbn [run_handler reads] in *.
  - apply StartWrite_begun in E as [_ [Et' Es _]].
    apply arrived; [done|by rewrite (messages_signals _ _ Es)|]. rewrite Et', Et. auto.
  - apply M_bind_inv in E as (x&c2&[= <- <-]&E). destruct (negb (is_open c)); [by eapply Hclose|].
    destruct ec; [by eapply Hclose|]. destruct (negb _).
    + apply StartReadSize_begun in E as (_&_&[Et' Es _]&_).
      apply arrived; [done|by rewrite (messages_signals _ _ Es)|]. rewrite Et', Et. auto.
    + apply DoClose_ends in E as (_&Et'&_&Es). apply arrived; [done| |left; congruence].
      unfold messages in *. rewrite Es. by destruct (transport_ c).
  - subst ec. apply M_bind_inv in E as ([]&c0&[= <-]&E). apply M_bind_inv in E as ([]&c1&E1&E).
    apply CheckTimeout_same in E1. apply M_bind_inv in E as (x&c2&[= <- <-]&E).
    assert (talks c1 = []) by by rewrite (same_talks _ _ E1).
    assert (messages c1 = [data]) by by rewrite (messages_signals _ _ (same_signals _ _ E1)).
    destruct (negb (is_open c1)); by eapply Hclose.
Qed.

Lemma phase_step data T c i h ec bytes c' :
  Z.of_nat (length data) < 2147483648 → phase data T c →
  handlers c !! i = Some h → fits h ec bytes →
  T ++ (if reads h && negb ec then bytes else []) `prefix_of` frame data →
  complete respond i ec bytes c = Ok (tt, c') →
  phase data (T ++ if reads h && negb ec then bytes else []) c'.
Proof.
  intros Hn Hc Hi Hfit Hp E. apply M_bind_inv in E as (x&c1&[= <- <-]&E). rewrite Hi in E.
  apply M_bind_inv in E as ([]&c1&[= <-]&E). set (c1 := set_handlers (delete i (handlers c)) c) in E.
  destruct (talking h) eqn:Hh.
  2: { assert (talks c1 = talks c) as Et1 by exact (filter_delete_other talking _ _ _ Hi Hh).
       destruct h; try discriminate Hh; cbn [run_handler] in E; cbn [reads andb] in *; rewrite app_nil_r in *.
       - apply CheckTimeout_same in E as [Et' Es' Ed' Eds' Er' Esg' Etr' _ Eo'].
         eapply phase_other; [exact Hc|congruence|by apply (messages_signals c1)|done..].
       - assert (data_buffer_ c' = data_buffer_ c ∧ size_buffer_ c' = size_buffer_ c ∧
           data_size_ c' = data_size_ c ∧ data_received_ c' = data_received_ c) as (?&?&?&?).
         { apply M_bind_inv in E as ([]&c2&[= <-]&E). apply M_bind_inv in E as (y&c2&[= <- <-]&E).
           unfold when in E. by destruct (transport_ _); injection E as <-. }
         apply DoClose_ends in E as (Eo&Et&Etr&Es).
         eapply phase_other; [exact Hc|congruence| |done..|congruence].
         unfold messages. rewrite Es. by destruct (transport_ c1). }
  assert (∀ h', talks c = [h'] → h = h' ∧ talks c1 = []) as Honly
    by exact (λ h', filter_delete_only talking _ _ _ _ Hi Hh).
  destruct Hc as [Et -> Em Hlen|got n Et Em -> Hgot Es Er Hlen Hbuf _ _|Et -> Em Ed| -> Em Et|Et Em Ho].
  - apply Honly in Et as [-> Et1]. cbn [reads andb app] in *. by eapply size_step.
  - apply Honly in Et as [-> Et1]. cbn [reads andb] in *. rewrite <-app_assoc in *.
    eapply data_step; [done|exact Hfit|exact Et1|exact Em|done|exact Es|exact Er|exact Hlen|exact Hbuf|exact Hp|exact E].
  - apply Honly in Et as [-> Et1]. cbn [reads andb] in *. rewrite app_nil_r in *.
    apply DispatchMessage_begun in E as [[Htr ->]|(_&_&_&Esg&Hd)].
    + apply over; [done|exact Em|by right].
    + apply arrived; [done|unfold messages in *; rewrite Esg; cbn; rewrite Em; by rewrite Ed|].
      destruct Hd as [[-> _]| ->]; rewrite Et1; auto.
  - destruct Et as [Et|Et].
    { exfalso. destruct (filter_delete talking _ _ _ Hi) as (l1&l2&El&_). rewrite Hh in El.
      unfold talks in Et. rewrite Et in El. by destruct l1. }
    assert (talks c1 = []) as Et1 by (destruct Et as [Et|[Et|Et]]; by apply Honly in Et as [_ ?]).
    assert (h = HStartWrite ∨ h = HWrite ∨ h = HReadSize) as Hh'
      by (destruct Et as [Et|[Et|Et]]; apply Honly in Et as [-> _]; auto).
    assert ((if reads h && negb ec then bytes else []) = []) as Enone.
    { destruct (reads h && negb ec) eqn:Er; [|done]. apply prefix_length in Hp. rewrite length_app in Hp.
      destruct bytes as [|b bytes']; [done|cbn in Hp; lia]. }
    rewrite Enone, app_nil_r. apply (arrived_step data c1 h ec bytes); try done.
    destruct Hh' as [->|[->| ->]]; [done..|]. cbn [reads andb] in *. destruct ec; [done|].
    cbn [negb] in Enone. subst bytes. destruct Hfit as [_ Hfit]. discriminate Hfit.
  - exfalso. destruct (filter_delete talking _ _ _ Hi) as (l1&l2&El&_). rewrite Hh in El.
    unfold talks in Et. rewrite Et in El. by destruct l1.
Qed.

(** C20: A message arrives over TCP as it was sent: of a connection that starts to read
    and is given a beginning [T] of the framed message, in parts of any size
    and with any timeouts, errors and calls in between, no message but that
    one is received, and it at most once; and when the whole frame came, the
    message was received, or its dispatch is pending with exactly its bytes (or
    the read of nothing of an empty message), or the connection was closed. *)
Theorem tcp_message_received data c0 c1 T c2 :
  Z.of_nat (length data) < 2147483648 →
  talks c0 = [] → messages c0 = [] → length (size_buffer_ c0) = 4%nat →
  StartReadSize c0 = Ok (tt, c1) → receives c1 T c2 → T `prefix_of` frame data →
  (messages c2 = [] ∨ messages c2 = [data]) ∧
  (T = frame data →
    messages c2 = [data] ∨ (talks c2 = [HDispatchMessage] ∧ data_buffer_ c2 = data) ∨
    (data = [] ∧ talks c2 = [HReadData 0 0]) ∨ is_open c2 = false ∨ transport_ c2 = false).
Proof.
  intros Hn Et Em Hlen E Hr Hp.
  assert (phase data T c2) as Hc.
  { assert (phase data [] c1) as H1.
    { apply StartReadSize_begun in E as (_&_&[Et' Es _]&Eb). apply in_size; [by rewrite Et', Et|done| |by rewrite Eb].
      by rewrite (messages_signals _ _ Es). }
    clear E. induction Hr as [|T c i h ec bytes c' Hr IH Hi Hfit E|T c c' Hr IH E]; [done|..].
    - eapply phase_step; [done|apply IH; by eapply prefix_app_left|done|done|done|done].
    - assert (data_buffer_ c' = data_buffer_ c ∧ size_buffer_ c' = size_buffer_ c ∧
        data_size_ c' = data_size_ c ∧ data_received_ c' = data_received_ c) as (?&?&?&?).
      { apply M_bind_inv in E as ([]&c3&[= <-]&E). apply M_bind_inv in E as (y&c3&[= <- <-]&E).
        unfold when in E. by destruct (transport_ _); injection E as <-. }
      apply DoClose_ends in E as (Eo&Et'&Etr&Es). eapply phase_other; [by apply IH|congruence| |done..|congruence].
      unfold messages. rewrite Es. by destruct (transport_ c). }
  destruct Hc as [Et2 -> Em2 _|got n Et2 Em2 -> Hgot Es Er _ _ Ec Hmore|Et2 -> Em2 Ed| -> Em2 Et2|Et2 Em2 Ho].
  - split; [by left|]. intros Hf. exfalso. by apply (f_equal length) in Hf.
  - split; [by left|]. intros Hf. apply app_inv_head in Hf as ->. right. right. left.
    destruct Hmore as [->|]; [|lia]. split; [done|]. rewrite Et2. cbn in *. do 2 f_equal. lia.
  - split; [by left|]. intros _. right. left. done.
  - split; [by right|]. by left.
  - split; [by left|]. intros _. right. right. right. destruct Ho; auto.
Qed.

(** What is sent is the frame. *)
Lemma tcp_encodes_frame data timeout open_ec w c :
  Z.of_nat (length data) < 2147483648 →
  StartSending data timeout open_ec (new_connection w) = Ok (tt, c) →
  size_buffer_ c ++ data_buffer_ c = frame data.
Proof.
  intros Hn E. injection E as <-. cbn [size_buffer_ data_buffer_ set_data_buffer set_size_buffer
    set_timeout_for_response set_open set_handlers set_timer set_world].
  by rewrite DataSize_small by lia.
Qed.

Lemma StartWrite_writes c c' :
  StartWrite c = Ok (tt, c') → written c' = (size_buffer_ c ++ data_buffer_ c) :: written c.
Proof.
  intros (x&c1&[= <- <-]&E)%M_bind_inv. apply M_bind_inv in E as (y&c1&Ea&E).
  unfold assertb in Ea. destruct (is_open c); [|done]. injection Ea as _ <-.
  apply M_bind_inv in E as ([]&c1&[= <-]&E). apply M_bind_inv in E as ([]&c1&[= <-]&E).
  apply M_bind_inv in E as ([]&c1&[= <-]&E). apply M_bind_inv in E as (z&c2&[= <- <-]&E).
  unfold when in E. destruct (is_open _); [|by injection E as <-].
  apply M_bind_inv in E as (t&c2&[= <- <-]&E). by destruct (ptime_leb _ _); injection E as <-.
Qed.

(** While the connection is being established nothing checks its deadline. *)
Lemma connecting_unguarded data timeout open_ec w c :
  StartSending data timeout open_ec (new_connection w) = Ok (tt, c) → handlers c = [HConnect].
Proof. intros E. by injection E as <-. Qed.
End conversation.

Module TcpExamples.
Import Shared.Demo.

Definition echo (m : list Z) : list Z * Z := (m, 0).
Definition w0 : World := MkWorld _ 0 0 [].

Definition begun_with (k : start) : TcpConnection :=
  (from_ok (tt, made k w0) (begin_ k (made k w0))).2.
Definition after (i : nat) (ec : bool) (bytes : list Z) (c : TcpConnection) : TcpConnection :=
  (from_ok (tt, c) (complete echo i ec bytes c)).2.

Lemma complete_after i ec bytes c :
  is_ok (complete echo i ec bytes c) = true → complete echo i ec bytes c = Ok (tt, after i ec bytes c).
Proof. intros E. rewrite (from_ok_eq (tt, c) _ E). unfold after. by destruct (from_ok _ _) as [[] ?]. Qed.

(** A connection was accepted, and its peer closed it. *)
Definition refused : TcpConnection := after 0 true [] (begun_with ToReceive).

Lemma tcp_conversation_ends_witness :
  lives echo ToReceive refused ∧ (length (talks refused) + length (errors refused) ≤ 1)%nat ∧
  errors refused = [kReceiveFailure].
Proof.
  assert (lives echo ToReceive refused) as Hl.
  { apply (lives_handler _ _ (begun_with ToReceive) 0 true []).
    - apply (lives_start _ _ w0). rewrite (from_ok_eq (tt, made ToReceive w0) (begin_ _ _)) by (vm_compute; reflexivity).
      unfold begun_with. by destruct (from_ok _ _) as [[] ?].
    - apply complete_after. vm_compute. reflexivity. }
  split; [exact Hl|]. split; [exact (proj1 (tcp_conversation_ends echo ToReceive refused Hl))|].
  vm_compute. reflexivity.
Defined.

(** The message [7; 8] arrives. *)
Definition opened : TcpConnection := set_open true (new_connection w0).
Definition reading : TcpConnection := (from_ok (tt, opened) (StartReadSize opened)).2.
Definition sized : TcpConnection := after 0 false [0; 0; 0; 2] reading.
Definition filled : TcpConnection := after 1 false [7; 8] sized.

Lemma filled_receives : receives echo reading [0; 0; 0; 2; 7; 8] filled.
Proof.
  apply (receives_handler echo reading [0; 0; 0; 2] sized 1 (HReadData 0 2) false [7; 8]).
  - apply (receives_handler echo reading [] reading 0 HReadSize false [0; 0; 0; 2]).
    + apply receives_nothing.
    + vm_compute. reflexivity.
    + split; [|done]. repeat (constructor; [by split; vm_compute|]). constructor.
    + apply complete_after. vm_compute. reflexivity.
  - vm_compute. reflexivity.
  - split; [|done]. repeat (constructor; [by split; vm_compute|]). constructor.
  - apply complete_after. vm_compute. reflexivity.
Qed.

Lemma tcp_message_received_witness :
  receives echo reading (frame [7; 8]) filled ∧ (messages filled = [] ∨ messages filled = [[7; 8]]) ∧
  talks filled = [HDispatchMessage] ∧ data_buffer_ filled = [7; 8].
Proof.
  split; [exact filled_receives|].
  destruct (tcp_message_received echo [7; 8] opened reading (frame [7; 8]) filled) as [Hm _].
  - cbn. lia.
  - reflexivity.
  - reflexivity.
  - reflexivity.
  - rewrite (from_ok_eq (tt, opened) (StartReadSize opened)) by (vm_compute; reflexivity).
    unfold reading. by destruct (from_ok _ _) as [[] ?].
  - exact filled_receives.
  - done.
  - split; [exact Hm|]. split; vm_compute; reflexivity.
Defined.
End TcpExamples.
