(* ===== verification/TcpTransport.v ===== *)
(** * The TCP transport

    Models src/maidsafe/transport/tcp_transport.cc: it accepts connections, opens
    one for each message it is asked to send, and keeps them in a set until they
    ask to be removed.

    Connections ([TcpConnection]) are in [store], acceptors in [acceptors], both
    addressed by their position (handles for the shared pointers).  What a
    function dispatches to a strand waits in [tasks]; [complete_task] runs one of
    them, and [complete_handler] a handler of one connection.  A strand runs its
    functions in order, so [step] takes only the first one of each strand;
    everything else happens in any order and with any outcome. *)

From S2P Require Import Prelude Environment ByteOrder Transport.
From S2P Require Import TcpConnection.
From S2P Require Shared.

Inductive task :=
  | TInsert (h : nat) | TRemove (h : nat)       (** the transport's strand *)
  | TCloseAcceptor (a : nat)
  | TAccept (a h : nat)                         (** an [async_accept] *)
  | TStartReceiving (h : nat)                   (** the strand of the connection *)
  | TStartSending (h : nat) (data : list Z) (timeout : Z).

Inductive event `{IpAddress} :=
  | EError (condition : TransportCondition) (ep : endpoint)
  | EMessage (h : nat) (message : list Z).
Arguments EError {_}.
Arguments EMessage {_}.

Record TcpTransport `{Environment} := MkTcpTransport {
  listening_port_ : Z;
  details_endpoint : endpoint;                (** [transport_details_.endpoint] *)
  acceptor_ : option nat;
  connections_ : gset nat;
  acceptors : list bool;                      (** whether each is open *)
  store : list (endpoint * TcpConnection);    (** with [remote_endpoint_] *)
  tasks : list task;
  events : list event;                        (** newest first *)
  outside : World;
  alive : bool;                               (** not destroyed yet *)
}.
Arguments MkTcpTransport {_}.

(** Where [StartListening] fails. *)
Inductive listening_error := OpenFails | BindFails | ListenFails.
#[export] Instance listening_error_eq_dec : EqDecision listening_error.
Proof. solve_decision. Defined.

Section transport.
Context `{Environment} (respond : list Z → list Z * Z).

Definition new_transport (w : World) : TcpTransport :=
  MkTcpTransport 0 endpoint_none None ∅ [] [] [] [] w true.

Definition set_listening (port : Z) (s : TcpTransport) : TcpTransport :=
  MkTcpTransport port (details_endpoint s) (acceptor_ s) (connections_ s) (acceptors s) (store s) (tasks s) (events s) (outside s) (alive s).
Definition set_details (ep : endpoint) (s : TcpTransport) : TcpTransport :=
  MkTcpTransport (listening_port_ s) ep (acceptor_ s) (connections_ s) (acceptors s) (store s) (tasks s) (events s) (outside s) (alive s).
Definition set_acceptor (a : option nat) (s : TcpTransport) : TcpTransport :=
  MkTcpTransport (listening_port_ s) (details_endpoint s) a (connections_ s) (acceptors s) (store s) (tasks s) (events s) (outside s) (alive s).
Definition set_connections (l : gset nat) (s : TcpTransport) : TcpTransport :=
  MkTcpTransport (listening_port_ s) (details_endpoint s) (acceptor_ s) l (acceptors s) (store s) (tasks s) (events s) (outside s) (alive s).
Definition set_acceptors (l : list bool) (s : TcpTransport) : TcpTransport :=
  MkTcpTransport (listening_port_ s) (details_endpoint s) (acceptor_ s) (connections_ s) l (store s) (tasks s) (events s) (outside s) (alive s).
Definition set_store (l : list (endpoint * TcpConnection)) (s : TcpTransport) : TcpTransport :=
  MkTcpTransport (listening_port_ s) (details_endpoint s) (acceptor_ s) (connections_ s) (acceptors s) l (tasks s) (events s) (outside s) (alive s).
Definition set_tasks (l : list task) (s : TcpTransport) : TcpTransport :=
  MkTcpTransport (listening_port_ s) (details_endpoint s) (acceptor_ s) (connections_ s) (acceptors s) (store s) l (events s) (outside s) (alive s).
Definition set_events (l : list event) (s : TcpTransport) : TcpTransport :=
  MkTcpTransport (listening_port_ s) (details_endpoint s) (acceptor_ s) (connections_ s) (acceptors s) (store s) (tasks s) l (outside s) (alive s).
Definition set_outside (w : World) (s : TcpTransport) : TcpTransport :=
  MkTcpTransport (listening_port_ s) (details_endpoint s) (acceptor_ s) (connections_ s) (acceptors s) (store s) (tasks s) (events s) w (alive s).
Definition set_alive (b : bool) (s : TcpTransport) : TcpTransport :=
  MkTcpTransport (listening_port_ s) (details_endpoint s) (acceptor_ s) (connections_ s) (acceptors s) (store s) (tasks s) (events s) (outside s) b.

Definition dispatch (t : task) : M TcpTransport unit := modify (λ s, set_tasks (tasks s ++ [t]) s).
Definition emit (e : event) : M TcpTransport unit := modify (λ s, set_events (e :: events s) s).

(** [std::make_shared<TcpConnection>]: its handle *)
Definition make_connection (ep : endpoint) : M TcpTransport nat := λ s,
  Ok (length (store s), set_store (store s ++ [(ep, new_connection (outside s))]) s).

(** ** Connections

    What a connection tells its transport. *)
Definition told (h : nat) (e : signal) (s : TcpTransport) : TcpTransport :=
  match e with
  | SRemoveConnection => set_tasks (tasks s ++ [TRemove h]) s
  | SError condition => set_events (EError condition endpoint_none :: events s) s
  | SMessageReceived message => set_events (EMessage h message :: events s) s
  end.

(** An operation of connection [h]; what it signals reaches the transport. *)
Definition on_connection (h : nat) (m : M TcpConnection unit) : M TcpTransport unit := λ s,
  match store s !! h with
  | Some (ep, c) =>
      match m (set_world (outside s) c) with
      | Ok (_, c') =>
          let fresh := take (length (signals c') - length (signals c)) (signals c') in
          Ok (tt, foldr (told h) (set_outside (world c') (set_store (<[h := (ep, c')]> (store s)) s)) fresh)
      | Fault f => Fault f
      end
  | None => Fault OutOfBounds
  end.

Definition DoInsertConnection (h : nat) : M TcpTransport unit :=
  modify (λ s, set_connections ({[h]} ∪ connections_ s) s).
Definition DoRemoveConnection (h : nat) : M TcpTransport unit :=
  modify (λ s, set_connections (connections_ s ∖ {[h]}) s).
Definition InsertConnection (h : nat) : M TcpTransport unit := dispatch (TInsert h).

(** ** Listening *)

Definition open_acceptor (a : nat) : M TcpTransport unit :=
  modify (λ s, set_acceptors (<[a := true]> (acceptors s)) s).
Definition CloseAcceptor (a : nat) : M TcpTransport unit :=
  modify (λ s, set_acceptors (<[a := false]> (acceptors s)) s).

(** [acceptor_.reset(new acceptor)]: an acceptor left by an earlier failure had no
    other owner and closes. *)
Definition reset_acceptor : M TcpTransport nat :=
  s ← get;
  match acceptor_ s with Some a => CloseAcceptor a | None => mret tt end;;
  let a := length (acceptors s) in
  modify (λ s, set_acceptors (acceptors s ++ [false]) s);;
  modify (set_acceptor (Some a));;
  mret a.

(** [local_port]: the port of [local_endpoint()]. *)
Definition StartListening (ep : endpoint) (ec : option listening_error) (local_port : Z) :
    M TcpTransport TransportCondition :=
  s ← get;
  if negb (listening_port_ s =? 0) then mret kAlreadyStarted
  else if ep_port ep =? 0 then mret kInvalidPort
  else
    a ← reset_acceptor;
    if bool_decide (ec = Some OpenFails) then mret kInvalidAddress
    else
      open_acceptor a;;
      if bool_decide (ec = Some BindFails) then mret kBindError
      else if bool_decide (ec = Some ListenFails) then mret kListenError
      else
        h ← make_connection endpoint_none;
        modify (set_listening local_port);;
        modify (set_details (Endpoint _ (ep_address ep) local_port));;
        dispatch (TAccept a h);;
        mret kSuccess.

Definition Bootstrap : M TcpTransport TransportCondition := mret kSuccess.

Definition StopListening : M TcpTransport unit :=
  s ← get;
  match acceptor_ s with Some a => dispatch (TCloseAcceptor a) | None => mret tt end;;
  modify (set_listening 0);;
  modify (set_acceptor None).

Definition HandleAccept (a h : nat) (ec : bool) : M TcpTransport unit :=
  s ← get;
  if negb (default false (acceptors s !! a)) then mret tt
  else
    when (negb ec) (DoInsertConnection h;; dispatch (TStartReceiving h));;
    h' ← make_connection endpoint_none;
    dispatch (TAccept a h').

(** ** Sending *)

Definition Send (data : list Z) (ep : endpoint) (timeout : Z) : M TcpTransport unit :=
  let msg_size := DataSize (Z.of_nat (length data)) in
  if kMaxTransportMessageSize <? msg_size then emit (EError kMessageSizeTooLarge endpoint_none)
  else
    h ← make_connection ep;
    InsertConnection h;;
    dispatch (TStartSending h data timeout).

(** ** The destructor

    Every connection of the set is told to close; none can lock its transport. *)
Definition Close_connection (h : nat) (l : list (endpoint * TcpConnection)) : list (endpoint * TcpConnection) :=
  alter (prod_map id (λ c, set_handlers (handlers c ++ [HClose]) c)) h l.
Definition unlock (c : TcpConnection) : TcpConnection :=
  MkTcpConnection false (is_open c) (timer_ c) (response_deadline_ c) (size_buffer_ c) (data_buffer_ c)
    (data_size_ c) (data_received_ c) (timeout_for_response_ c) (world c) (handlers c) (written c) (signals c).
Definition destroy : M TcpTransport unit :=
  modify (λ s, set_store (foldr Close_connection (store s) (elements (connections_ s))) s);;
  modify (λ s, set_store (prod_map id unlock <$> store s) s);;
  modify (set_alive false).

(** ** Running *)

(** asio opens the socket of a connection that it accepts. *)
Definition open_peer (h : nat) : M TcpTransport unit :=
  modify (λ s, set_store (alter (prod_map id (set_open true)) h (store s)) s).
(** [ec]: an accept or the opening of a socket fails. *)
Definition run_task (t : task) (ec : bool) : M TcpTransport unit :=
  match t with
  | TInsert h => DoInsertConnection h
  | TRemove h => DoRemoveConnection h
  | TCloseAcceptor a => CloseAcceptor a
  | TAccept a h => when (negb ec) (open_peer h);; HandleAccept a h ec
  | TStartReceiving h => on_connection h StartReceiving
  | TStartSending h data timeout => on_connection h (StartSending data timeout ec)
  end.

Definition complete_task (i : nat) (ec : bool) : M TcpTransport unit :=
  s ← get;
  match tasks s !! i with
  | Some t => modify (set_tasks (delete i (tasks s)));; run_task t ec
  | None => mret tt
  end.
Definition complete_handler (h i : nat) (ec : bool) (bytes : list Z) : M TcpTransport unit :=
  on_connection h (complete respond i ec bytes).

(** The strand that runs a task: the transport's, or that of a connection. *)
Definition strand (t : task) : option (option nat) :=
  match t with
  | TInsert _ | TRemove _ | TCloseAcceptor _ => Some None
  | TAccept _ _ => None
  | TStartReceiving h | TStartSending h _ _ => Some (Some h)
  end.
(** Nothing of its strand comes before it. *)
Definition turn (s : TcpTransport) (i : nat) (t : task) : Prop :=
  tasks s !! i = Some t ∧
  (strand t = None ∨ ∀ j t', (j < i)%nat → tasks s !! j = Some t' → strand t' ≠ strand t).
Definition handler_turn (s : TcpTransport) (h i : nat) (ec : bool) (bytes : list Z) : Prop :=
  ∃ ep c k, store s !! h = Some (ep, c) ∧ handlers c !! i = Some k ∧ fits k ec bytes ∧
    (∀ t, t ∈ tasks s → strand t ≠ Some (Some h)) ∧
    (k = HClose → HStartWrite ∉ take i (handlers c)) ∧
    (k = HCheckTimeout → ec = false).
(** A task that keeps the transport alive. *)
Definition holds_transport (t : task) : bool :=
  match t with TInsert _ | TRemove _ | TAccept _ _ => true | _ => false end.

Inductive call :=
  | CListen (ep : endpoint) (ec : option listening_error) (local_port : Z)
  | CStop
  | CSend (data : list Z) (ep : endpoint) (timeout : Z)
  | CDestroy
  | CTask (i : nat) (ec : bool)
  | CHandler (h i : nat) (ec : bool) (bytes : list Z).

Definition run_call (k : call) : M TcpTransport unit :=
  match k with
  | CListen ep ec port => _ ← StartListening ep ec port; mret tt
  | CStop => StopListening
  | CSend data ep timeout => Send data ep timeout
  | CDestroy => destroy
  | CTask i ec => complete_task i ec
  | CHandler h i ec bytes => complete_handler h i ec bytes
  end.

(** What can happen: calls while the transport exists, which is destroyed when
    nothing refers to it any more; tasks and handlers in turn.  The port of a bound
    acceptor is not 0. *)
Definition can (s : TcpTransport) (k : call) : Prop :=
  match k with
  | CListen _ _ port => alive s = true ∧ port ≠ 0
  | CStop | CSend _ _ _ => alive s = true
  | CDestroy => alive s = true ∧ Forall (λ t, holds_transport t = false) (tasks s)
  | CTask i _ => ∃ t, turn s i t
  | CHandler h i ec bytes => handler_turn s h i ec bytes
  end.

Inductive reachable : TcpTransport → Prop :=
  | reachable_new w : reachable (new_transport w)
  | reachable_step s k s' : reachable s → can s k → run_call k s = Ok (tt, s') → reachable s'.
End transport.

(** ** What a connection promises

    [sound n c]: no handler of [c] can fault, and while its transport exists [n]
    things are to come or to be removed: nothing before it starts, one after. *)
Section soundness.
Context `{Environment, !EnvironmentLaws} (respond : list Z → list Z * Z).
Implicit Types (c : TcpConnection) (n : nat).

Definition active (h : handler) : bool := match h with HCheckTimeout => false | _ => true end.
Definition removing (e : signal) : bool := match e with SRemoveConnection => true | _ => false end.
Definition pending c : list handler := filter active (handlers c).
Definition removals c : nat := length (filter removing (signals c)).
(** No timeout closes the socket. *)
Definition guarded c : Prop := is_open c = true ∧ timer_ c = pos_infin.

Record sound n c : Prop := {
  sound_size : length (size_buffer_ c) = 4%nat;
  sound_talks : (length (talks c) ≤ 1)%nat;
  sound_kept : transport_ c = true → (length (pending c) + removals c = n)%nat;
  sound_order i j : handlers c !! i = Some HClose → handlers c !! j = Some HStartWrite → (j < i)%nat;
  sound_dispatch : transport_ c = true → HDispatchMessage ∈ handlers c → guarded c;
  sound_write : HStartWrite ∈ handlers c → guarded c;
}.

(** Nothing is to come of the conversation. *)
Record idle n c : Prop := {
  idle_size : length (size_buffer_ c) = 4%nat;
  idle_talks : talks c = [];
  idle_kept : transport_ c = true → pending c = [] ∧ removals c = n;
}.

Lemma talks_no h c : talks c = [] → talking h = true → h ∉ handlers c.
Proof. unfold talks. intros E Hh. apply (filter_nil_not_elem_of talking _ h E). by rewrite Hh. Qed.

Lemma idle_close n c : idle n c → HClose ∈ handlers c → transport_ c = false.
Proof.
  intros [_ _ Hk] Hin. destruct (transport_ c); [|done]. destruct (Hk eq_refl) as [Hp _].
  by destruct (filter_nil_not_elem_of active _ HClose Hp).
Qed.

Lemma idle_sound n c : idle n c → sound n c.
Proof.
  intros Hi. destruct Hi as [Hs Ht Hk]. split.
  - done.
  - rewrite Ht. cbn. lia.
  - intros [-> ->]%Hk. cbn. lia.
  - intros i j _ Hj%list_elem_of_lookup_2. by destruct (talks_no HStartWrite c).
  - intros _ Hd. by destruct (talks_no HDispatchMessage c).
  - intros Hd. by destruct (talks_no HStartWrite c).
Qed.

(** One handler more: it is the only one of the conversation. *)
Lemma idle_post n h c c' : idle n c → active h = true →
  handlers c' = handlers c ++ [h] → length (size_buffer_ c') = 4%nat →
  transport_ c' = transport_ c → removals c' = removals c →
  (h = HDispatchMessage ∨ h = HStartWrite → guarded c') →
  (h = HStartWrite → transport_ c = true) →
  sound (S n) c'.
Proof.
  intros Hi Hh Eh Hs Et Es Hg Hw. pose proof (idle_talks _ _ Hi) as Ht. split.
  - done.
  - unfold talks in *. rewrite Eh, filter_app, Ht, filter_cons. destruct (decide _); cbn; lia.
  - rewrite Et, Es. unfold pending. rewrite Eh. intros [Hp Hr]%(idle_kept _ _ Hi).
    unfold pending in Hp. rewrite filter_app, Hp, Hr, filter_cons. by rewrite Hh.
  - intros i j Hi' Hj. rewrite Eh in Hi', Hj. apply lookup_app_Some in Hj as [Hj|[Hl Hj]].
    { apply list_elem_of_lookup_2 in Hj. by destruct (talks_no HStartWrite c). }
    destruct (j - length (handlers c))%nat eqn:Ej; [|done]. injection Hj as Hj.
    apply lookup_app_Some in Hi' as [Hi'|[_ Hi']].
    + apply list_elem_of_lookup_2, (idle_close n) in Hi'; [|done]. specialize (Hw ltac:(done)). congruence.
    + destruct (i - length (handlers c))%nat; [|done]. injection Hi' as Hx; congruence.
  - intros _. rewrite Eh, elem_of_app. intros [Hd|Hd%list_elem_of_singleton]; [|subst h; auto].
    by destruct (talks_no HDispatchMessage c).
  - rewrite Eh, elem_of_app. intros [Hd|Hd%list_elem_of_singleton]; [|subst h; auto].
    by destruct (talks_no HStartWrite c).
Qed.

(** Checking the time. *)
Lemma wp_CheckTimeout c (Q : unit → TcpConnection → Prop) :
  (∀ c', handlers c' = handlers c ∨ handlers c' = handlers c ++ [HCheckTimeout] →
     size_buffer_ c' = size_buffer_ c → data_buffer_ c' = data_buffer_ c → transport_ c' = transport_ c → signals c' = signals c →
     timer_ c' = timer_ c → (is_open c' = true → is_open c = true) → (guarded c → is_open c' = true) → Q tt c') →
  wp (CheckTimeout false) c Q.
Proof.
  intros HQ. unfold CheckTimeout. apply wp_bind, wp_get, wp_when; [|intros Eo; apply HQ; auto; by intros [? _]].
  intros Eo. apply wp_bind. unfold now. apply wp_zoom, wp_Now.
  assert (guarded c → ptime_leb (timer_ c) (clock (w_clock (world c))) = false) as Hg.
  { intros [_ ->]. unfold ptime_leb. by rewrite ltb_infin by apply clock_finite. }
  destruct (ptime_leb _ _).
  - apply wp_modify, HQ; auto. intros Hc%Hg. done.
  - apply wp_modify, HQ; auto.
Qed.

Lemma active_timeouts l c c' :
  handlers c' = handlers c ∨ handlers c' = handlers c ++ [HCheckTimeout] → (∀ h, l h = true → active h = true) →
  filter l (handlers c') = filter l (handlers c).
Proof.
  intros [->| ->] Hl; [done|]. rewrite filter_app, filter_cons. destruct (decide (l HCheckTimeout)) as [Hc|_];
    [|by rewrite app_nil_r]. apply Is_true_true, Hl in Hc. done.
Qed.

Lemma idle_change n k c c' : idle n c →
  handlers c' = handlers c ∨ handlers c' = handlers c ++ [HCheckTimeout] →
  length (size_buffer_ c') = 4%nat → transport_ c' = transport_ c →
  (transport_ c = true → removals c' = (k + removals c)%nat) → idle (k + n) c'.
Proof.
  intros [Hs Ht Hk] Eh Es Et Er. split; [done| |].
  - unfold talks in *. rewrite (active_timeouts talking c c' Eh); [done|]. by intros [].
  - rewrite Et. intros Htr. destruct (Hk Htr) as [Hp Hr]. rewrite Er by done. split; [|lia].
    unfold pending in *. rewrite (active_timeouts active c c' Eh); done.
Qed.

Lemma sound_CheckTimeout n c : sound n c → wp (CheckTimeout false) c (λ _ c', sound n c').
Proof.
  intros [Hs Ht Hk Ho Hd Hw]. apply wp_CheckTimeout. intros c' Eh Es _ Et Esi Eti Ho1 Hg.
  assert (∀ h, h ∈ handlers c' → h ≠ HCheckTimeout → h ∈ handlers c) as Hin.
  { intros h. destruct Eh as [->| ->]; [done|]. rewrite elem_of_app, list_elem_of_singleton. by intros []. }
  assert (guarded c → guarded c') as Hgg.
  { intros Hc. split; [by apply Hg|]. rewrite Eti. apply Hc. }
  split.
  - by rewrite Es.
  - unfold talks in *. rewrite (active_timeouts talking c c' Eh); [done|]. by intros [].
  - unfold pending, removals in *. rewrite Et, Esi, (active_timeouts active c c' Eh); done.
  - assert (∀ i h, handlers c' !! i = Some h → h ≠ HCheckTimeout → handlers c !! i = Some h) as Hl.
    { intros i h. destruct Eh as [->| ->]; [done|]. intros [?|[_ Hx]]%lookup_app_Some Hne; [done|].
      destruct (i - _)%nat; [|done]. cbn in Hx. congruence. }
    intros i j Hi Hj. apply Ho; by apply Hl.
  - rewrite Et. intros Htr Hx. apply Hgg, Hd; [done|]. by apply Hin.
  - intros Hx. apply Hgg, Hw. by apply Hin.
Qed.

Lemma idle_CheckTimeout n c (Q : unit → TcpConnection → Prop) :
  idle n c → (∀ c', idle n c' → data_buffer_ c' = data_buffer_ c → Q tt c') → wp (CheckTimeout false) c Q.
Proof.
  intros Hi HQ. apply wp_CheckTimeout. intros c' Eh Es Ed Et Esi _ _ _. apply HQ; [|done].
  apply (idle_change n 0 c); [done|done| |done|].
  - rewrite Es. apply Hi.
  - unfold removals. by rewrite Esi.
Qed.

Lemma wp_DoClose n c : idle n c → wp DoClose c (λ _ c', idle (S n) c').
Proof.
  intros Hi. unfold DoClose. apply wp_bind, wp_modify, wp_bind, wp_get. cbn [transport_ set_open].
  apply wp_when; intros Et.
  - apply wp_modify. apply (idle_change n 1 c); [done|by left|apply Hi|done|]. intros _. done.
  - apply (idle_change n 1 c); [done|by left|apply Hi|done|]. by rewrite Et.
Qed.

Lemma wp_CloseOnError n e c : idle n c → wp (CloseOnError e) c (λ _ c', idle (S n) c').
Proof.
  intros Hi. unfold CloseOnError. apply wp_bind, wp_get, wp_bind, wp_when.
  - intros _. apply wp_modify, wp_DoClose. apply (idle_change n 0 c); [done|by left|apply Hi|done|done].
  - intros _. by apply wp_DoClose.
Qed.

Lemma closes_sound n (m : M TcpConnection unit) c :
  wp m c (λ _ c', idle (S n) c') → wp m c (λ _ c', sound (S n) c').
Proof. intros Hm. eapply wp_mono; [exact Hm|]. intros ? c'. apply idle_sound. Qed.

Lemma wp_StartReadSize n c : idle n c → is_open c = true → wp StartReadSize c (λ _ c', sound (S n) c').
Proof.
  intros Hi Ho. unfold StartReadSize. apply wp_bind, wp_get, wp_bind, wp_assertb; [done|].
  apply wp_bind, wp_modify, wp_bind. unfold now. apply wp_zoom, wp_Now, wp_bind, wp_modify, wp_modify.
  apply (idle_post n HReadSize c); try done; [apply Hi|by intros []].
Qed.

Lemma wp_StartReadData n c : idle n c → is_open c = true → wp StartReadData c (λ _ c', sound (S n) c').
Proof.
  intros Hi Ho. unfold StartReadData. apply wp_bind, wp_get, wp_bind, wp_assertb; [done|]. cbv zeta.
  apply wp_bind, wp_modify, wp_bind, wp_modify, wp_bind. unfold now. apply wp_zoom, wp_Now, wp_modify.
  eapply (idle_post n (HReadData _ _) c); try done; [apply Hi|by intros []].
Qed.

Lemma wp_StartWrite n c : idle n c → is_open c = true → wp StartWrite c (λ _ c', sound (S n) c').
Proof.
  intros Hi Ho. unfold StartWrite. apply wp_bind, wp_get, wp_bind, wp_assertb; [done|]. cbv zeta.
  apply wp_bind, wp_modify, wp_bind, wp_modify, wp_bind. unfold expires_from_now. apply wp_bind. unfold now.
  apply wp_zoom, wp_Now, wp_modify, sound_CheckTimeout.
  apply (idle_post n HWrite c); try done; [apply Hi|by intros []].
Qed.

Lemma wp_byte {A} l i (k : Z → M TcpConnection A) c Q : (i < length l)%nat →
  (∀ b, wp (k b) c Q) → wp (b ← liftR (byte_at l i); k b) c Q.
Proof.
  intros Hi HQ. apply wp_bind. destruct (lookup_lt_is_Some_2 l i Hi) as [b Eb].
  apply (wp_liftR _ _ b); [|apply HQ]. unfold byte_at. by rewrite Eb.
Qed.

Lemma wp_HandleReadSize n ec c : idle n c → wp (HandleReadSize ec) c (λ _ c', sound (S n) c').
Proof.
  intros Hi. unfold HandleReadSize. apply wp_bind, (idle_CheckTimeout n); [done|]. intros c1 Hi1 _. clear c Hi. rename c1 into c, Hi1 into Hi.
  apply wp_bind, wp_get, wp_if; [intros _; by apply closes_sound, wp_CloseOnError|].
  intros Ho%negb_false_iff. apply wp_if; [intros _; by apply closes_sound, wp_CloseOnError|]. intros _.
  pose proof (idle_size _ _ Hi). do 4 (apply wp_byte; [lia|]; intros ?).
  apply wp_bind, wp_modify, wp_bind, wp_modify, wp_StartReadData; [|done].
  apply (idle_change n 0 c); [done|by left|done|done|done].
Qed.

Lemma wp_HandleReadData n ec len c : idle n c → wp (HandleReadData ec len) c (λ _ c', sound (S n) c').
Proof.
  intros Hi. unfold HandleReadData. apply wp_bind, (idle_CheckTimeout n); [done|]. intros c1 Hi1 _. clear c Hi. rename c1 into c, Hi1 into Hi.
  apply wp_bind, wp_get, wp_if; [intros _; by apply closes_sound, wp_CloseOnError|].
  intros Ho%negb_false_iff. apply wp_if; [intros _; by apply closes_sound, wp_CloseOnError|]. intros _.
  apply wp_bind, wp_modify, wp_bind, wp_get, wp_if; intros _.
  - apply wp_bind, wp_modify, wp_modify. apply (idle_post n HDispatchMessage c); try done. apply Hi.
  - apply wp_StartReadData; [|done]. apply (idle_change n 0 c); [done|by left|apply Hi|done|done].
Qed.

Lemma idle_any n m c : idle n c → transport_ c = false → idle m c.
Proof. intros [Hs Ht _] Et. split; [done|done|]. by rewrite Et. Qed.

Lemma wp_HandleConnect n ec c : idle n c → wp (HandleConnect ec) c (λ _ c', sound (S n) c').
Proof.
  intros Hi. unfold HandleConnect.
  apply wp_bind, wp_get, wp_if; [intros _; by apply closes_sound, wp_CloseOnError|].
  intros Ho%negb_false_iff. apply wp_if; [intros _; by apply closes_sound, wp_CloseOnError|]. intros _.
  by apply wp_StartWrite.
Qed.

Lemma wp_HandleWrite n ec c : idle n c → wp (HandleWrite ec) c (λ _ c', sound (S n) c').
Proof.
  intros Hi. unfold HandleWrite.
  apply wp_bind, wp_get, wp_if; [intros _; by apply closes_sound, wp_CloseOnError|].
  intros Ho%negb_false_iff. apply wp_if; [intros _; by apply closes_sound, wp_CloseOnError|]. intros _.
  apply wp_if; intros _; [by apply wp_StartReadSize|by apply closes_sound, wp_DoClose].
Qed.

Lemma wp_DispatchMessage n c : idle n c → (transport_ c = true → guarded c) →
  wp (DispatchMessage respond) c (λ _ c', sound (S n) c').
Proof.
  intros Hi Hg. unfold DispatchMessage. apply wp_bind, wp_get, wp_when.
  2: { intros Et. by eapply idle_sound, idle_any. }
  intros Et. apply wp_bind, wp_modify. destruct (respond _) as [response t]. cbv zeta. apply wp_if; intros _.
  - apply wp_modify. apply (idle_post n HClose c); first [done|by apply Hi|by intros []].
  - apply wp_bind. unfold EncodeData. apply wp_bind, wp_modify, wp_modify, wp_bind, wp_modify, wp_modify.
    apply (idle_post n HStartWrite c); try done. intros _. by apply Hg.
Qed.

(** Starting, on a socket that is open when it was accepted. *)
Definition accepts (k : start) : bool := match k with ToReceive => true | ToSend _ _ _ => false end.
Lemma wp_begin n k c : idle n c → is_open c = accepts k → wp (begin_ k) c (λ _ c', sound (S n) c').
Proof.
  intros Hi Ho. destruct k as [|data t oe]; cbn [begin_].
  - unfold StartReceiving. apply wp_bind. eapply wp_mono; [by apply (wp_StartReadSize n)|].
    intros ? c'. apply sound_CheckTimeout.
  - unfold StartSending, EncodeData, StartConnect. apply wp_bind, wp_bind, wp_modify, wp_modify, wp_bind, wp_modify.
    apply wp_bind, wp_get, wp_bind, wp_assertb; [by cbn; rewrite Ho|].
    apply wp_bind, wp_modify, wp_bind, wp_modify. unfold expires_from_now. apply wp_bind. unfold now.
    apply wp_zoom, wp_Now, wp_modify. apply (idle_post n HConnect c); first [done|by apply Hi|by intros []].
Qed.

(** ** Running a handler *)

Lemma delete_order (l : list handler) k :
  (∀ i j, l !! i = Some HClose → l !! j = Some HStartWrite → (j < i)%nat) →
  ∀ i j, delete k l !! i = Some HClose → delete k l !! j = Some HStartWrite → (j < i)%nat.
Proof.
  intros Ho i j Hi Hj.
  assert (∀ i, delete k l !! i = l !! (if decide (i < k)%nat then i else S i)) as El.
  { intros x. destruct (decide (x < k)%nat); [by apply list_lookup_delete_lt|apply list_lookup_delete_ge; lia]. }
  rewrite El in Hi, Hj. specialize (Ho _ _ Hi Hj). destruct (decide (i < k)%nat), (decide (j < k)%nat); lia.
Qed.

Lemma talks_pending c : pending c = [] → talks c = [].
Proof.
  intros Ep. unfold talks. destruct (filter talking (handlers c)) as [|h l] eqn:Et; [done|].
  assert (h ∈ filter talking (handlers c)) as [Hh Hin]%list_elem_of_filter by (rewrite Et; left).
  destruct (filter_nil_not_elem_of active _ h Ep); [by destruct h|done].
Qed.

Definition drop_handler (i : nat) c : TcpConnection := set_handlers (delete i (handlers c)) c.

(** The handler of the conversation, while the transport exists, is all there is. *)
Lemma drop_active c i h : sound 1 c → handlers c !! i = Some h → active h = true →
  transport_ c = true → pending (drop_handler i c) = [] ∧ removals c = 0%nat.
Proof.
  intros Hs Ei Hh Et. pose proof (sound_kept _ _ Hs Et) as Hk. unfold pending in *.
  destruct (filter_delete active _ _ _ Ei) as (l1&l2&El&Ed). rewrite Hh in El. rewrite El, !length_app in Hk.
  cbn [length] in Hk. cbn [drop_handler set_handlers handlers]. rewrite Ed.
  destruct l1, l2; cbn in Hk; try lia. by split; [|lia].
Qed.

Lemma drop_talk c i h : sound 1 c → handlers c !! i = Some h → talking h = true → idle 0 (drop_handler i c).
Proof.
  intros Hs Ei Hh. split; [apply Hs| |].
  - pose proof (sound_talks _ _ Hs) as Ht. unfold talks in *.
    destruct (filter_delete talking _ _ _ Ei) as (l1&l2&El&Ed). rewrite Hh in El. rewrite El, !length_app in Ht.
    cbn [length] in Ht. cbn [drop_handler set_handlers handlers]. rewrite Ed. by destruct l1, l2; cbn in Ht; try lia.
  - intros Et. apply (drop_active c i h); [done|done|by destruct h|done].
Qed.

Lemma drop_other c i h : sound 1 c → handlers c !! i = Some h → talking h = false →
  (transport_ c = true → active h = false) → sound 1 (drop_handler i c).
Proof.
  intros [Hs Ht Hk Ho Hd Hw] Ei Hh Ha.
  assert (∀ x, x ∈ delete i (handlers c) → x ∈ handlers c) as Hin.
  { intros x Hx. rewrite <-(take_drop_middle (handlers c) i h Ei). rewrite delete_take_drop, elem_of_app in Hx.
    rewrite elem_of_app, elem_of_cons. tauto. }
  split; cbn [drop_handler set_handlers].
  - done.
  - assert (talks (drop_handler i c) = talks c) as Et by exact (filter_delete_other talking _ _ _ Ei Hh).
    change (length (talks (drop_handler i c)) ≤ 1)%nat. by rewrite Et.
  - intros Et. assert (pending (drop_handler i c) = pending c) as Ep
      by exact (filter_delete_other active _ _ _ Ei (Ha Et)).
    change (length (pending (drop_handler i c)) + removals c = 1)%nat. rewrite Ep. by apply Hk.
  - by apply delete_order.
  - intros Et Hx. apply (Hd Et), Hin, Hx.
  - intros Hx. apply Hw, Hin, Hx.
Qed.

(** A sound connection goes on without fault, and is sound again. *)
Lemma sound_complete i k ec bytes c :
  sound 1 c → handlers c !! i = Some k → fits k ec bytes →
  (k = HClose → HStartWrite ∉ take i (handlers c)) → (k = HCheckTimeout → ec = false) →
  wp (complete respond i ec bytes) c (λ _ c', sound 1 c').
Proof.
  intros Hs Ei Hf Hc Ht. unfold complete. apply wp_bind, wp_get. rewrite Ei. apply wp_bind, wp_modify.
  fold (drop_handler i c). pose proof (drop_talk c i k Hs Ei) as Hd.
  assert (k ∈ handlers c) as Hin by by eapply list_elem_of_lookup_2.
  destruct k as [| |off n| | | | |]; cbn [run_handler]; try specialize (Hd eq_refl).
  - by apply wp_HandleConnect.
  - apply wp_bind, wp_modify, wp_HandleReadSize. apply (idle_change 0 0 (drop_handler i c)); [done|by left| |done|done].
    destruct Hf as [_ Hf]. cbn. rewrite length_app, length_drop. pose proof (sound_size _ _ Hs). destruct ec; lia.
  - apply wp_bind, wp_modify, wp_HandleReadData.
    apply (idle_change 0 0 (drop_handler i c)); [done|by left|apply Hd|done|done].
  - by apply wp_HandleWrite.
  - rewrite (Ht eq_refl). apply sound_CheckTimeout. by apply (drop_other c i HCheckTimeout).
  - apply wp_DispatchMessage; [done|]. intros Et. by apply (sound_dispatch _ _ Hs).
  - apply wp_StartWrite; [done|]. by apply (sound_write _ _ Hs).
  - destruct (transport_ c) eqn:Et.
    + destruct (drop_active c i HClose Hs Ei eq_refl Et) as [Hp Hr].
      apply closes_sound, wp_DoClose. split; [apply Hs|by apply talks_pending|done].
    + unfold DoClose. apply wp_bind, wp_modify, wp_bind, wp_get. cbn [transport_ set_open drop_handler set_handlers].
      rewrite Et. cbn [when]. apply wp_ret. destruct (drop_other c i HClose Hs Ei) as [Hs' Ht' Hk' Ho' _ _]; [done|congruence|].
      split; [done|done|by intros; cbn in *; congruence|done|by intros; cbn in *; congruence|].
      intros [j Ej]%list_elem_of_lookup. exfalso. cbn [drop_handler set_open set_handlers handlers] in Ej.
      destruct (decide (j < i)%nat).
      * rewrite list_lookup_delete_lt in Ej by done. apply (Hc eq_refl), list_elem_of_lookup. exists j.
        by rewrite lookup_take_lt.
      * rewrite list_lookup_delete_ge in Ej by lia. pose proof (sound_order _ _ Hs i (S j) Ei Ej). lia.
Qed.

Lemma sound_new w : idle 0 (new_connection w).
Proof. by split. Qed.

(** What a connection tells while its transport exists, and nothing after. *)
Definition tells (t0 : bool) (l0 : list signal) c : Prop :=
  transport_ c = t0 ∧ ∃ l, signals c = l ++ l0 ∧ (t0 = false → l = []).

Lemma tcp_tells_get_when t0 l0 (m : TcpConnection → M TcpConnection unit) :
  (∀ c, t0 = true → preserves (tells t0 l0) (m c)) → preserves (tells t0 l0) (c ← get; when (transport_ c) (m c)).
Proof.
  intros Hm. apply preserves_get_bind. intros c [] c' E [Et Hl]. destruct (transport_ c) eqn:Etc; cbn [when] in E.
  - eapply Hm; [congruence|exact E|]. split; [congruence|done].
  - injection E as <-. split; [congruence|done].
Qed.
Lemma tcp_tells_signal l0 e : preserves (tells true l0) (signal_ e).
Proof. apply preserves_modify. intros c [Et (l&El&_)]. split; [done|]. exists (e :: l). split; [by cbn; rewrite El|done]. Qed.

Ltac tells_step := first [apply preserves_modify; intros ? [? ?]; by split | preserves_step].
Ltac tells := repeat tells_step.

Lemma tcp_tells_now t0 l0 : preserves (tells t0 l0) now.
Proof. intros c t c' (w&[= _ <-]&->)%zoom_inv [? ?]. by split. Qed.
Lemma tcp_tells_post t0 l0 h : preserves (tells t0 l0) (post h).
Proof. unfold post. tells. Qed.
Lemma tcp_tells_DoClose t0 l0 : preserves (tells t0 l0) DoClose.
Proof.
  unfold DoClose. apply preserves_bind; [tells|intros _]. apply tcp_tells_get_when. intros _ ->. apply tcp_tells_signal.
Qed.
Lemma tcp_tells_CloseOnError t0 l0 e : preserves (tells t0 l0) (CloseOnError e).
Proof.
  intros c [] c' E. unfold CloseOnError in E. apply M_bind_inv in E as (x&c1&[= <- <-]&E).
  apply M_bind_inv in E as ([]&c1&E1&E). intros Hc. eapply tcp_tells_DoClose; [exact E|].
  eapply (tcp_tells_get_when t0 l0 (λ _, signal_ (SError e))); [intros _ ->; apply tcp_tells_signal| |exact Hc].
  unfold mbind, M_bind, get. exact E1.
Qed.

Create HintDb tcp_tells.
#[local] Hint Resolve tcp_tells_now tcp_tells_post tcp_tells_DoClose tcp_tells_CloseOnError : tcp_tells.
Ltac tells_auto := repeat first [by auto with tcp_tells | tells_step].

Lemma tcp_tells_CheckTimeout t0 l0 ec : preserves (tells t0 l0) (CheckTimeout ec).
Proof. unfold CheckTimeout. tells_auto. Qed.
#[local] Hint Resolve tcp_tells_CheckTimeout : tcp_tells.
Lemma tcp_tells_StartReadSize t0 l0 : preserves (tells t0 l0) StartReadSize.
Proof. unfold StartReadSize. tells_auto. Qed.
Lemma tcp_tells_StartReadData t0 l0 : preserves (tells t0 l0) StartReadData.
Proof. unfold StartReadData. tells_auto. Qed.
Lemma tcp_tells_StartWrite t0 l0 : preserves (tells t0 l0) StartWrite.
Proof. unfold StartWrite, expires_from_now, expires_at. tells_auto. Qed.
#[local] Hint Resolve tcp_tells_StartReadSize tcp_tells_StartReadData tcp_tells_StartWrite : tcp_tells.

Lemma tcp_tells_DispatchMessage t0 l0 : preserves (tells t0 l0) (DispatchMessage respond).
Proof.
  unfold DispatchMessage. apply tcp_tells_get_when. intros c ->. apply preserves_bind; [apply tcp_tells_signal|intros _].
  unfold EncodeData. tells_auto.
Qed.

Lemma tcp_tells_complete t0 l0 i ec bytes : preserves (tells t0 l0) (complete respond i ec bytes).
Proof.
  unfold complete. apply preserves_bind; [tells|intros c]. destruct (handlers c !! i) as [k|]; [|tells].
  apply preserves_bind; [tells|intros _]. destruct k; cbn [run_handler];
    unfold HandleConnect, HandleReadSize, HandleReadData, HandleWrite, expires_at; try apply tcp_tells_DispatchMessage; tells_auto.
Qed.

Lemma tcp_tells_begin t0 l0 k : preserves (tells t0 l0) (begin_ k).
Proof.
  destruct k; cbn [begin_]; unfold StartReceiving, StartSending, EncodeData, StartConnect, expires_from_now, expires_at;
    tells_auto.
Qed.
End soundness.

(** ** The transport and its connections *)
Section invariant.
Context `{Environment, !EnvironmentLaws} (respond : list Z → list Z * Z).
Implicit Types (c : TcpConnection) (s : TcpTransport) (h : nat) (t : task).

Definition subject t : option nat :=
  match t with
  | TInsert h | TRemove h | TAccept _ h | TStartReceiving h | TStartSending h _ _ => Some h
  | TCloseAcceptor _ => None
  end.
Definition about h t : bool := bool_decide (subject t = Some h).
Definition mine h s : list task := filter (about h) (tasks s).
Definition starts h t : Prop := strand t = Some (Some h).
Definition member h s : bool := bool_decide (h ∈ connections_ s).

(** Still to be inserted, or inserted. *)
Inductive entering h : list task → bool → Prop :=
  | entering_waits : entering h [TInsert h] false
  | entering_done : entering h [] true.

Record fresh c : Prop := { fresh_idle : idle 0 c; fresh_handlers : handlers c = [] }.
(** The socket is open when it was accepted. *)
Definition ready t c : Prop := is_open c = match t with TStartReceiving _ => true | _ => false end.

(** The life of connection [h]: whether the transport exists, the tasks of [h],
    whether it is in the set, and the connection itself. *)
Inductive stage h : bool → list task → bool → TcpConnection → Prop :=
  | stage_waiting a c : fresh c → is_open c = false → stage h true [TAccept a h] false c
  | stage_unused c : fresh c → stage h true [] false c
  | stage_starting t ins b c : starts h t → entering h ins b → fresh c → ready t c → stage h true (ins ++ [t]) b c
  | stage_open ins b c : entering h ins b → sound 1 c → removals c = 0%nat → stage h true ins b c
  | stage_leaving ins b c : entering h ins b → sound 1 c → removals c = 1%nat →
      stage h true (ins ++ [TRemove h]) b c
  | stage_gone c : sound 1 c → removals c = 1%nat → stage h true [] false c
  | stage_left_starting t b c : starts h t → idle 0 c → ready t c → stage h false [t] b c
  | stage_left b c : sound 1 c ∨ handlers c = [] → stage h false [] b c.

Record inv s : Prop := {
  inv_tasks t h : t ∈ tasks s → subject t = Some h → (h < length (store s))%nat;
  inv_members h : h ∈ connections_ s → (h < length (store s))%nat;
  inv_stage h ep c : store s !! h = Some (ep, c) → transport_ c = alive s ∧ stage h (alive s) (mine h s) (member h s) c;
}.

Lemma sound_set_world w n c : sound n c → sound n (set_world w c).
Proof. by intros []. Qed.
Lemma idle_set_world w n c : idle n c → idle n (set_world w c).
Proof. by intros []. Qed.

(** *** One operation of a connection *)
Record effect h (ep : endpoint) c c' s s' : Prop := {
  effect_store : store s' = <[h := (ep, c')]> (store s);
  effect_sound : sound 1 c';
  effect_transport : transport_ c' = transport_ c;
  effect_tasks : tasks s' = tasks s ++ replicate (removals c' - removals c) (TRemove h);
  effect_removals : (removals c ≤ removals c')%nat;
  effect_dead : transport_ c = false → removals c' = removals c;
  effect_members : connections_ s' = connections_ s;
  effect_alive : alive s' = alive s;
}.

Lemma told_all h l s :
  let s' := foldr (told h) s l in
  tasks s' = tasks s ++ replicate (length (filter removing l)) (TRemove h) ∧
  store s' = store s ∧ connections_ s' = connections_ s ∧ alive s' = alive s.
Proof.
  induction l as [|e l (Et&Es&Ec&Ea)]; cbn [foldr].
  { split_and!; try done. by rewrite app_nil_r. }
  cbv zeta in *. rewrite filter_cons.
  destruct e; cbn [told removing tasks store connections_ alive set_tasks set_events];
    split_and!; try done; try (rewrite decide_False by (by intros [])); try done.
  rewrite decide_True by done. cbn [length]. by rewrite Et, <-(assoc_L (++)), replicate_S_end.
Qed.

Lemma wp_on_connection h m s ep c : store s !! h = Some (ep, c) →
  (∀ w, wp m (set_world w c) (λ _ c', sound 1 c')) → (∀ b l, preserves (tells b l) m) →
  wp (on_connection h m) s (λ _ s', ∃ c', effect h ep c c' s s').
Proof.
  intros Es Hm Ht. unfold wp, on_connection. rewrite Es. specialize (Hm (outside s)). unfold wp in Hm.
  destruct (m _) as [[[] c']|] eqn:Em; [|done].
  destruct (Ht (transport_ c) (signals c) _ _ _ Em) as (Etr&l&El&Hl); [by split; [|exists []]|].
  rewrite El, length_app, Nat.add_sub, take_app_length.
  destruct (told_all h l (set_outside (world c') (set_store (<[h:=(ep, c')]> (store s)) s))) as (E1&E2&E3&E4).
  assert (removals c' = (length (filter removing l) + removals c)%nat) as Er.
  { unfold removals. by rewrite El, filter_app, length_app. }
  exists c'. split; try done.
  - rewrite E1, Er, Nat.add_sub. done.
  - lia.
  - intros Hd. by rewrite Er, (Hl Hd).
Qed.

(** *** The tasks of a connection *)
Lemma about_spec h t : about h t = true ↔ subject t = Some h.
Proof. apply bool_decide_eq_true. Qed.

Lemma mine_append h s l : filter (about h) (tasks s ++ l) = mine h s ++ filter (about h) l.
Proof. by rewrite filter_app. Qed.

Lemma mine_own h l : Forall (λ t, subject t = Some h) l → filter (about h) l = l.
Proof.
  induction 1 as [|t l Ht _ IH]; [done|]. rewrite filter_cons_True, IH; [done|].
  by rewrite (proj2 (about_spec h t) Ht).
Qed.
Lemma mine_other h h' l : Forall (λ t, subject t = Some h') l → h ≠ h' → filter (about h) l = [].
Proof.
  intros Hl Hne. induction Hl as [|t l Ht _ IH]; [done|]. rewrite filter_cons_False, IH; [done|].
  unfold about. rewrite Ht, bool_decide_eq_false_2; [by intros []|congruence].
Qed.

(** Taking a task whose turn it is. *)
Lemma mine_turn s i t h : turn s i t → subject t = Some h → ∃ l1 l2,
  mine h s = l1 ++ t :: l2 ∧ filter (about h) (delete i (tasks s)) = l1 ++ l2 ∧
  (strand t = None ∨ ∀ t', t' ∈ l1 → strand t' ≠ strand t).
Proof.
  intros [Ei Ht] Hs. exists (filter (about h) (take i (tasks s))), (filter (about h) (drop (S i) (tasks s))).
  split_and!.
  - unfold mine. rewrite <-(take_drop_middle _ i t Ei) at 1. rewrite filter_app, filter_cons_True; [done|].
    by rewrite (proj2 (about_spec h t) Hs).
  - by rewrite delete_take_drop, filter_app.
  - destruct Ht as [?|Ht]; [by left|right]. intros t' [_ [j Ej]%list_elem_of_lookup]%list_elem_of_filter.
    apply lookup_take_Some in Ej as [Ej Hj]. by eapply Ht.
Qed.

Lemma mine_turn_other s i t h : turn s i t → subject t ≠ Some h →
  filter (about h) (delete i (tasks s)) = mine h s.
Proof.
  intros [Ei _] Hs. apply (filter_delete_other (about h) _ _ _ Ei). unfold about. by apply bool_decide_eq_false_2.
Qed.

Lemma stage_after h ins b c :
  entering h ins b → sound 1 c → transport_ c = true →
  stage h true (ins ++ replicate (removals c) (TRemove h)) b c.
Proof.
  intros He Hs Et. pose proof (sound_kept _ _ Hs Et). destruct (removals c) as [|[|]] eqn:Er; [| |lia].
  - rewrite app_nil_r. by apply stage_open.
  - by apply stage_leaving.
Qed.

Ltac list_cases l1 :=
  destruct l1 as [|? [|? l1]]; simplify_list_eq;
  try match goal with E : [] = ?l ++ _ :: _ |- _ => by destruct l end.

(** What the task that runs says of the stage. *)
Lemma starts_not h t : starts h t → t ≠ TInsert h ∧ t ≠ TRemove h ∧ ∀ a, t ≠ TAccept a h.
Proof. by destruct t. Qed.

Lemma stage_insert h a l1 l2 b c :
  stage h a (l1 ++ TInsert h :: l2) b c → a = true ∧ stage h a (l1 ++ l2) true c.
Proof.
  intros Hs. remember (l1 ++ TInsert h :: l2) as l eqn:El.
  destruct Hs as [ac c Hf Hw|c Hf|t ins b c Ht [] Hf Hy|ins b c [] Hs Hr|ins b c [] Hs Hr|c Hs Hr|t b c Ht Hi Ho|b c Hc];
    try apply starts_not in Ht as Ht'; list_cases l1; try tauto; split; try done.
  - by apply (stage_starting h t [] true c); [|constructor| |].
  - by apply (stage_open h [] true c); [constructor| |].
  - by apply (stage_leaving h [] true c); [constructor| |].
Qed.

Lemma stage_remove h a l1 l2 b c :
  stage h a (l1 ++ TRemove h :: l2) b c → (∀ t, t ∈ l1 → strand t ≠ Some None) →
  a = true ∧ stage h a (l1 ++ l2) false c.
Proof.
  intros Hs Hl. remember (l1 ++ TRemove h :: l2) as l eqn:El.
  destruct Hs as [ac c Hf Hw|c Hf|t ins b c Ht [] Hf Hy|ins b c [] Hs Hr|ins b c [] Hs Hr|c Hs Hr|t b c Ht Hi Ho|b c Hc];
    try apply starts_not in Ht as Ht'; list_cases l1; try tauto.
  - exfalso. apply (Hl (TInsert h)); [left|done].
  - split; [done|]. by apply stage_gone.
Qed.

Lemma stage_accept h a ac l1 l2 b c :
  stage h a (l1 ++ TAccept ac h :: l2) b c → a = true ∧ l1 ++ l2 = [] ∧ b = false ∧ fresh c ∧ is_open c = false.
Proof.
  intros Hs. remember (l1 ++ TAccept ac h :: l2) as l eqn:El.
  destruct Hs as [ac' c Hf Hw|c Hf|t ins b c Ht [] Hf Hy|ins b c [] Hs Hr|ins b c [] Hs Hr|c Hs Hr|t b c Ht Hi Ho|b c Hc];
    try (destruct (starts_not _ _ Ht) as (?&?&?)); list_cases l1; try done; exfalso; eauto.
Qed.

Lemma stage_start h a t l1 l2 b c : starts h t → stage h a (l1 ++ t :: l2) b c →
  l2 = [] ∧ idle 0 c ∧ ready t c ∧ (a = true ∧ entering h l1 b ∨ a = false ∧ l1 = []).
Proof.
  intros Hst Hs. remember (l1 ++ t :: l2) as l eqn:El. destruct (starts_not _ _ Hst) as (Hn1&Hn2&Hn3).
  destruct Hs as [ac' c Hf Hw|c Hf|t' ins b c Ht [] Hf Hy|ins b c [] Hs Hr|ins b c [] Hs Hr|c Hs Hr|t' b c Ht Hi Ho|b c Hc];
    list_cases l1; try (exfalso; by eauto); (split; [done|]); try (split; [by destruct Hf|]); try (split; [done|]).
  - left. split; [done|constructor].
  - left. split; [done|constructor].
  - split; [done|]. by right.
Qed.

Lemma inv_update h s s' : inv s →
  alive s' = alive s → length (store s') = length (store s) → (h < length (store s))%nat →
  (∀ h', h' ≠ h → store s' !! h' = store s !! h' ∧ mine h' s' = mine h' s ∧ member h' s' = member h' s) →
  (∀ t h', t ∈ tasks s' → subject t = Some h' → h' = h ∨ t ∈ tasks s) →
  (∀ ep c, store s' !! h = Some (ep, c) →
     transport_ c = alive s ∧ stage h (alive s) (mine h s') (member h s') c) →
  inv s'.
Proof.
  intros [Ht Hm Hs] Ea El Hh Ho Htk Hst. split.
  - intros t h' Hin Esub. rewrite El. destruct (Htk t h' Hin Esub) as [->|Hin']; [done|by eapply Ht].
  - intros h' Hin. rewrite El. destruct (decide (h' = h)) as [->|Hne]; [done|].
    destruct (Ho h' Hne) as (_&_&Em). apply Hm.
    apply (bool_decide_eq_true (h' ∈ connections_ s)). unfold member in Em. rewrite <-Em.
    by apply bool_decide_eq_true.
  - intros h' ep c E. rewrite Ea. destruct (decide (h' = h)) as [->|Hne]; [by eapply Hst|].
    destruct (Ho h' Hne) as (E1&->&->). rewrite E1 in E. by eapply Hs.
Qed.

Lemma inv_lookup s t h : inv s → t ∈ tasks s → subject t = Some h → ∃ ep c, store s !! h = Some (ep, c).
Proof.
  intros Hi Hin Es. destruct (lookup_lt_is_Some_2 (store s) h) as [[ep c] E]; [by eapply inv_tasks|eauto].
Qed.

Lemma delete_in (l : list task) i t : t ∈ delete i l → t ∈ l.
Proof.
  rewrite delete_take_drop, elem_of_app. intros [Hin|Hin].
  - rewrite <-(take_drop i l), elem_of_app. by left.
  - rewrite <-(take_drop (S i) l), elem_of_app. by right.
Qed.

Lemma inv_same s s' : inv s → store s' = store s → connections_ s' = connections_ s → alive s' = alive s →
  (∀ h, mine h s' = mine h s) → (∀ t h, t ∈ tasks s' → subject t = Some h → t ∈ tasks s) → inv s'.
Proof.
  intros [Ht Hm Hs] Es Ec Ea Em Hin. split; rewrite ?Es, ?Ec, ?Ea; [eauto|done|].
  intros h ep c E. rewrite Em. unfold member. rewrite Ec. by eapply Hs.
Qed.

(** A new connection, with its tasks. *)
Lemma inv_add s s' l ep w : inv s → alive s = true →
  store s' = store s ++ [(ep, new_connection w)] → connections_ s' = connections_ s → alive s' = true →
  tasks s' = tasks s ++ l → Forall (λ t, subject t = Some (length (store s))) l →
  stage (length (store s)) true l false (new_connection w) → inv s'.
Proof.
  intros [Ht Hm Hs] Ha Es Ec Ea Et Hl Hst. set (n := length (store s)) in *.
  assert (mine n s = []) as Hn.
  { unfold mine. destruct (filter (about n) (tasks s)) as [|t l'] eqn:Ef; [done|].
    assert (t ∈ filter (about n) (tasks s)) as [Hab Hin]%list_elem_of_filter by (rewrite Ef; left).
    apply Is_true_true, about_spec in Hab. pose proof (Ht _ _ Hin Hab). lia. }
  split; rewrite ?Es, ?Ec, ?Ea, ?length_app.
  - intros t h. rewrite Et, elem_of_app. intros [Hin|Hin] Esub; [pose proof (Ht _ _ Hin Esub); cbn; lia|].
    rewrite Forall_forall in Hl. rewrite (Hl t Hin) in Esub. injection Esub as <-. cbn. lia.
  - intros h Hin%Hm. cbn. lia.
  - intros h ep' c E. unfold mine, member. rewrite Et, Ec, mine_append.
    apply lookup_app_Some in E as [E|[Hle E]].
    + rewrite <-Ha, (mine_other h n l Hl), app_nil_r; [by eapply Hs|]. apply lookup_lt_Some in E. unfold n. lia.
    + destruct (h - length (store s))%nat eqn:Eh; [|done]. injection E as <- <-. split; [done|].
      assert (h = n) as -> by (unfold n; lia). rewrite Hn, (mine_own n l Hl), bool_decide_eq_false_2; [done|].
      intros Hin%Hm. unfold n in Hin. lia.
Qed.

(** A task that inserts or removes. *)
Lemma inv_member s i t h K : inv s → turn s i t → subject t = Some h →
  (∀ h', h' ≠ h → h' ∈ K ↔ h' ∈ connections_ s) →
  (∀ ep c, store s !! h = Some (ep, c) →
     stage h (alive s) (filter (about h) (delete i (tasks s))) (bool_decide (h ∈ K)) c) →
  inv (set_connections K (set_tasks (delete i (tasks s)) s)).
Proof.
  intros Hi Ht Hs HK Hst. destruct (inv_lookup s t h Hi) as (ep&c&E); [by eapply list_elem_of_lookup_2, Ht|done|].
  apply (inv_update h s); [done|done|done| | | |].
  - by eapply lookup_lt_Some.
  - intros h' Hne. split; [done|]. split; [apply (mine_turn_other s i t); [done|congruence]|].
    unfold member. apply bool_decide_ext. by apply HK.
  - intros t' h' Hin _. right. exact (delete_in _ _ _ Hin).
  - intros ep' c' E'. split; [by eapply inv_stage|]. by eapply Hst.
Qed.

Lemma inv_insert s i h : inv s → turn s i (TInsert h) →
  inv (set_connections ({[h]} ∪ connections_ s) (set_tasks (delete i (tasks s)) s)).
Proof.
  intros Hi Ht. eapply inv_member; [done|exact Ht|done|set_solver +|]. intros ep c E.
  destruct (mine_turn s i _ h Ht eq_refl) as (l1&l2&El&->&_).
  destruct (inv_stage _ Hi _ _ _ E) as [_ Hs]. rewrite El in Hs. rewrite bool_decide_eq_true_2 by set_solver +.
  by apply stage_insert in Hs as [_ ?].
Qed.

Lemma inv_remove s i h : inv s → turn s i (TRemove h) →
  inv (set_connections (connections_ s ∖ {[h]}) (set_tasks (delete i (tasks s)) s)).
Proof.
  intros Hi Ht. eapply inv_member; [done|exact Ht|done|set_solver +|]. intros ep c E.
  destruct (mine_turn s i _ h Ht eq_refl) as (l1&l2&El&->&[?|Hl]); [done|].
  destruct (inv_stage _ Hi _ _ _ E) as [_ Hs]. rewrite El in Hs. rewrite bool_decide_eq_false_2 by set_solver +.
  by apply stage_remove in Hs as [_ ?].
Qed.

(** An operation of connection [h]; [s1] is [s] without the task that starts it. *)
Lemma inv_effect h ep c c' s s1 s' : inv s → store s !! h = Some (ep, c) →
  store s1 = store s → connections_ s1 = connections_ s → alive s1 = alive s →
  (∀ t, t ∈ tasks s1 → t ∈ tasks s) → (∀ h', h' ≠ h → mine h' s1 = mine h' s) →
  effect h ep c c' s1 s' →
  stage h (alive s) (mine h s1 ++ replicate (removals c' - removals c) (TRemove h)) (member h s) c' → inv s'.
Proof.
  intros Hi E Es Ec Ea Hin Hmine [Est Hsn Etr Etk Hr Hd Em Eal] Hst.
  assert (Forall (λ t, subject t = Some h) (replicate (removals c' - removals c) (TRemove h))) as Hl
    by by apply Forall_replicate.
  apply (inv_update h s); try congruence.
  - by rewrite Est, length_insert, Es.
  - by eapply lookup_lt_Some.
  - intros h' Hne. rewrite Est, Es, list_lookup_insert_ne by congruence. split; [done|].
    split; [|unfold member; by rewrite Em, Ec].
    unfold mine. rewrite Etk, mine_append, (mine_other h' h _ Hl Hne), app_nil_r. by apply Hmine.
  - intros t h' Hin' Esub. rewrite Etk, elem_of_app in Hin'. destruct Hin' as [?|Hin']; [right; by apply Hin|].
    rewrite Forall_forall in Hl. left. specialize (Hl t Hin'). congruence.
  - intros ep' x Ex. rewrite Est, Es, list_lookup_insert_eq in Ex by by eapply lookup_lt_Some.
    injection Ex as <- <-. split.
    + rewrite Etr. by destruct (inv_stage _ Hi _ _ _ E).
    + unfold mine, member. rewrite Etk, mine_append, (mine_own h _ Hl), Em, Ec. exact Hst.
Qed.

Lemma begin_returns h s s1 ep c k : store s1 = store s → store s !! h = Some (ep, c) → idle 0 c → is_open c = accepts k →
  wp (on_connection h (begin_ k)) s1 (λ _ s', ∃ c', effect h ep c c' s1 s').
Proof.
  intros Es E Hi Ho. apply wp_on_connection; [by rewrite Es| |intros; apply tcp_tells_begin].
  intros w. apply wp_begin; [by apply idle_set_world|done].
Qed.

Lemma wp_start s i t h k : inv s → turn s i t → starts h t → (∀ c, ready t c → is_open c = accepts k) →
  wp (on_connection h (begin_ k)) (set_tasks (delete i (tasks s)) s) (λ _ s', inv s').
Proof.
  intros Hi Ht Hst Hk. assert (subject t = Some h) as Hsub by (unfold starts in Hst; destruct t; simplify_eq/=; done).
  destruct (inv_lookup s t h Hi) as (ep&c&E); [by eapply list_elem_of_lookup_2, Ht|done|].
  destruct (inv_stage _ Hi _ _ _ E) as [Etr Hs]. destruct (mine_turn s i t h Ht Hsub) as (l1&l2&El&Ed&_).
  rewrite El in Hs. apply (stage_start h _ t) in Hs as (->&Hic&Ho%Hk&Hs); [|done]. rewrite app_nil_r in Ed.
  eapply wp_mono; [by apply (begin_returns h s)|]. intros _ s' (c'&He).
  apply (inv_effect h ep c c' s (set_tasks (delete i (tasks s)) s) s'); try done.
  - intros x. apply delete_in.
  - intros h' Hne. apply (mine_turn_other s i t); [done|congruence].
  - change (mine h (set_tasks (delete i (tasks s)) s)) with (filter (about h) (delete i (tasks s))). rewrite Ed.
    pose proof (effect_sound _ _ _ _ _ _ He) as Hsn. pose proof (effect_transport _ _ _ _ _ _ He) as Et'.
    destruct Hs as [(Ha&Hen)|(Ha&->)]; rewrite Ha in *.
    + assert (removals c = 0%nat) as -> by (apply (idle_kept _ _ Hic); congruence). rewrite Nat.sub_0_r.
      apply stage_after; [done|done|congruence].
    + rewrite (effect_dead _ _ _ _ _ _ He) by done. rewrite Nat.sub_diag. apply stage_left. by left.
Qed.

Lemma wp_handler s h i ec bytes : inv s → handler_turn s h i ec bytes →
  wp (complete_handler respond h i ec bytes) s (λ _ s', inv s').
Proof.
  intros Hi (ep&c&k&E&Ek&Hf&Hstr&Hcl&Hto). destruct (inv_stage _ Hi _ _ _ E) as [Etr Hs].
  assert (sound 1 c) as Hsn.
  { remember (mine h s) as l eqn:El.
    destruct Hs as [ac c [? Eh] Hw|c [? Eh]|t ins b c Ht Hen [? Eh] Hy|ins b c Hen Hs Hr|ins b c Hen Hs Hr|c Hs Hr|t b c Ht Hid Ho|b c [?|Eh]];
      try done; try (by rewrite Eh in Ek). exfalso. apply (Hstr t); [|done].
    assert (t ∈ mine h s) as [_ ?]%list_elem_of_filter by (rewrite <-El; left). done. }
  eapply wp_mono.
  { apply (wp_on_connection h _ s ep c E); [|intros; apply tcp_tells_complete].
    intros w. apply (sound_complete respond i k); [by apply sound_set_world|done..]. }
  intros _ s' (c'&He). apply (inv_effect h ep c c' s s s'); try done.
  pose proof (effect_sound _ _ _ _ _ _ He) as Hsn'. pose proof (effect_transport _ _ _ _ _ _ He) as Et'.
  pose proof (effect_removals _ _ _ _ _ _ He) as Hle.
  assert (alive s = true → (removals c' ≤ 1)%nat) as Hone.
  { intros Ha. assert (transport_ c' = true) as Htr by congruence. pose proof (sound_kept _ _ Hsn' Htr). lia. }
  remember (mine h s) as l eqn:El. remember (alive s) as a eqn:Ea.
  destruct Hs as [ac c [? Eh] Hw|c [? Eh]|t ins b c Ht Hen [? Eh] Hy|ins b c Hen Hs Hr|ins b c Hen Hs Hr|c Hs Hr|t b c Ht Hid Ho|b c Hc];
    try (by rewrite Eh in Ek).
  - rewrite Hr, Nat.sub_0_r. apply stage_after; [done|done|congruence].
  - specialize (Hone eq_refl). assert (removals c' = 1%nat) as Er by lia. rewrite Er, Hr, app_nil_r.
    by apply stage_leaving.
  - specialize (Hone eq_refl). assert (removals c' = 1%nat) as Er by lia. rewrite Er, Hr. by apply stage_gone.
  - exfalso. apply (Hstr t); [|done].
    assert (t ∈ mine h s) as [_ ?]%list_elem_of_filter by (rewrite <-El; left). done.
  - rewrite (effect_dead _ _ _ _ _ _ He) by done. rewrite Nat.sub_diag. apply stage_left. by left.
Qed.

(** *** Tasks and calls *)
Lemma inv_stop_accept s i a h : inv s → turn s i (TAccept a h) →
  alive s = true ∧ (h < length (store s))%nat ∧ mine h (set_tasks (delete i (tasks s)) s) = [] ∧
  inv (set_tasks (delete i (tasks s)) s) ∧
  (∀ ep c, store s !! h = Some (ep, c) → fresh c ∧ member h s = false).
Proof.
  intros Hi Ht. destruct (inv_lookup s _ h Hi (list_elem_of_lookup_2 _ _ _ (proj1 Ht)) eq_refl) as (ep&c&E).
  destruct (inv_stage _ Hi _ _ _ E) as [_ Hs]. destruct (mine_turn s i _ h Ht eq_refl) as (l1&l2&El&Ed&_).
  rewrite El in Hs. apply stage_accept in Hs as (Ha&El'&Hb&Hf&_).
  split; [done|]. split; [by eapply lookup_lt_Some|]. rewrite El' in Ed. split; [exact Ed|].
  split; [|intros ep' c' E'; rewrite E in E'; injection E' as <- <-; by split].
  apply (inv_same (set_connections (connections_ s) (set_tasks (delete i (tasks s)) s))); try done.
  apply (inv_member s i (TAccept a h) h); [done|done|done|done|]. intros ep' c' E'. rewrite E in E'.
  injection E' as <- <-. rewrite Ed, Ha. fold (member h s). rewrite Hb. by apply stage_unused.
Qed.

(** A connection is made to be accepted. *)
Lemma inv_accepting a ep s : inv s → alive s = true →
  inv (set_tasks (tasks s ++ [TAccept a (length (store s))])
    (set_store (store s ++ [(ep, new_connection (outside s))]) s)).
Proof.
  intros Hi Ha. eapply (inv_add s _ [TAccept a (length (store s))]); try done.
  - by repeat constructor.
  - by apply stage_waiting.
Qed.

Lemma inv_open_peer h s : inv s → mine h s = [] → alive s = true → (∀ ep c, store s !! h = Some (ep, c) → fresh c ∧ member h s = false) →
  (h < length (store s))%nat → inv (set_store (alter (prod_map id (set_open true)) h (store s)) s).
Proof.
  intros Hi Hm Ha Hf Hh. apply (inv_update h s); try done.
  - apply length_alter.
  - intros h' Hne. split; [by apply list_lookup_alter_ne|done].
  - intros t h' Hin _. by right.
  - intros ep c. cbn [set_store store]. rewrite list_lookup_alter_eq. intros ([ep0 c0]&E&Ex)%fmap_Some; cbn in Ex; injection Ex as -> ->.
    destruct (inv_stage _ Hi _ _ _ E) as [Et _]. destruct (Hf _ _ E) as [[Hid Eh] Eb]. split; [done|].
    change (mine h _) with (mine h s). change (member h _) with (member h s). rewrite Ha, Hm, Eb.
    apply stage_unused. split; [by destruct Hid|done].
Qed.

(** An accepted connection is inserted and starts to receive. *)
Lemma inv_accepted h s : inv s → mine h s = [] → alive s = true → (h < length (store s))%nat →
  (∀ ep c, store s !! h = Some (ep, c) → fresh c ∧ is_open c = true) →
  inv (set_tasks (tasks s ++ [TStartReceiving h]) (set_connections ({[h]} ∪ connections_ s) s)).
Proof.
  intros Hi Hm Ha Hh Hf. assert (Forall (λ t, subject t = Some h) [TStartReceiving h]) as Hl by by repeat constructor.
  set (s2 := set_tasks _ _). apply (inv_update h s); try done.
  - intros h' Hne. split; [done|]. split.
    + unfold mine. cbn [s2 set_tasks tasks set_connections]. by rewrite mine_append, (mine_other _ _ _ Hl Hne), app_nil_r.
    + unfold member. apply bool_decide_ext. cbn [s2 set_tasks set_connections connections_]. set_solver +Hne.
  - intros t h' Hin Esub. cbn [s2 set_tasks tasks set_connections] in Hin. apply elem_of_app in Hin as [?|Hin]; [by right|].
    left. apply list_elem_of_singleton in Hin as ->. by injection Esub as <-.
  - intros ep c E. split; [by eapply (inv_stage s)|].
    assert (mine h s2 = [TStartReceiving h]) as ->.
    { unfold mine. cbn [s2 set_tasks tasks set_connections]. rewrite mine_append. fold (mine h s). rewrite Hm. exact (mine_own h _ Hl). }
    assert (member h s2 = true) as -> by (apply bool_decide_eq_true; set_solver +).
    rewrite Ha. destruct (Hf _ _ E). by apply (stage_starting h (TStartReceiving h) [] true c); [|constructor| |].
Qed.

Lemma wp_HandleAccept s i a h ec : inv s → turn s i (TAccept a h) →
  wp (when (negb ec) (open_peer h);; HandleAccept a h ec) (set_tasks (delete i (tasks s)) s) (λ _ s', inv s').
Proof.
  intros Hi Ht. destruct (inv_stop_accept s i a h Hi Ht) as (Ha&Hh&Hm&Hi'&Hf).
  set (s1 := set_tasks (delete i (tasks s)) s) in *.
  assert (inv (set_store (alter (prod_map id (set_open true)) h (store s1)) s1)) as Hi2.
  { apply inv_open_peer; try done. }
  destruct ec; cbn [negb when]; apply wp_bind; [apply wp_ret|apply wp_modify]; unfold HandleAccept;
    (apply wp_bind, wp_get, wp_if; [done|intros _]); cbn [negb when]; apply wp_bind.
  - apply wp_ret, wp_bind. by apply (inv_accepting a endpoint_none s1).
  - apply wp_bind, wp_modify, wp_modify, wp_bind. set (s2 := set_tasks _ (set_connections _ _)).
    apply (inv_accepting a endpoint_none s2); [|done].
    apply (inv_accepted h (set_store (alter (prod_map id (set_open true)) h (store s1)) s1)); try done.
    + cbn [set_store store]. by rewrite length_alter.
    + intros ep c. cbn [set_store store]. rewrite list_lookup_alter_eq. intros ([ep0 c0]&E&Ex)%fmap_Some; cbn in Ex; injection Ex as -> ->.
      destruct (Hf _ _ E) as [[[] ?] _]. by split.
Qed.

Lemma wp_task s i ec t : inv s → turn s i t → wp (complete_task i ec) s (λ _ s', inv s').
Proof.
  intros Hi Ht. unfold complete_task. apply wp_bind, wp_get. rewrite (proj1 Ht). apply wp_bind, wp_modify.
  destruct t as [h|h|a|a h|h|h data timeout]; cbn [run_task].
  - apply wp_modify. exact (inv_insert s i h Hi Ht).
  - apply wp_modify. exact (inv_remove s i h Hi Ht).
  - apply wp_modify, (inv_same s); try done.
    + intros h. by apply (mine_turn_other s i (TCloseAcceptor a)).
    + intros t h Hin _. exact (delete_in _ _ _ Hin).
  - by apply wp_HandleAccept.
  - by apply (wp_start s i (TStartReceiving h) h ToReceive).
  - by apply (wp_start s i (TStartSending h data timeout) h (ToSend data timeout ec)).
Qed.

Lemma wp_StartListening s ep ec port : inv s → alive s = true →
  wp (StartListening ep ec port) s (λ _ s', inv s').
Proof.
  intros Hi Ha. unfold StartListening. apply wp_bind, wp_get, wp_if; [done|intros _]. apply wp_if; [done|intros _].
  apply wp_bind. unfold reset_acceptor. apply wp_bind, wp_get, wp_bind.
  assert (∀ s1, tasks s1 = tasks s → store s1 = store s → connections_ s1 = connections_ s → alive s1 = true → inv s1) as Hsame.
  { intros s1 E1 E2 E3 E4. apply (inv_same s); try done; [congruence|intros h; unfold mine; by rewrite E1|by rewrite E1]. }
  assert (∀ a s1, tasks s1 = tasks s → store s1 = store s → connections_ s1 = connections_ s → alive s1 = true →
    wp (modify (λ s, set_acceptors (acceptors s ++ [false]) s);; modify (set_acceptor (Some a));; mret a) s1
      (λ a s2, tasks s2 = tasks s ∧ store s2 = store s ∧ connections_ s2 = connections_ s ∧ alive s2 = true)) as Hreset.
  { intros a s1 E1 E2 E3 E4. by apply wp_bind, wp_modify, wp_bind, wp_modify, wp_ret. }
  assert (∀ a s2, tasks s2 = tasks s ∧ store s2 = store s ∧ connections_ s2 = connections_ s ∧ alive s2 = true →
    wp (if bool_decide (ec = Some OpenFails) then mret kInvalidAddress else
        open_acceptor a;;
        (if bool_decide (ec = Some BindFails) then mret kBindError
         else if bool_decide (ec = Some ListenFails) then mret kListenError
         else h ← make_connection endpoint_none; modify (set_listening port);;
           modify (set_details (Endpoint _ (ep_address ep) port));; dispatch (TAccept a h);; mret kSuccess)) s2
      (λ _ s', inv s')) as Hrest.
  { intros a s2 (E1&E2&E3&E4). apply wp_if; [intros _; by apply wp_ret, Hsame|intros _].
    apply wp_bind, wp_modify, wp_if; [intros _; by apply wp_ret, Hsame|intros _].
    apply wp_if; [intros _; by apply wp_ret, Hsame|intros _].
    apply wp_bind. set (s3 := set_acceptors _ s2). assert (inv s3) as Hi3 by by apply Hsame.
    apply wp_bind, wp_modify, wp_bind, wp_modify, wp_bind, wp_modify, wp_ret.
    apply (inv_same (set_tasks (tasks s3 ++ [TAccept a (length (store s3))])
      (set_store (store s3 ++ [(endpoint_none, new_connection (outside s3))]) s3))); try done.
    by apply inv_accepting. }
  destruct (acceptor_ s) as [a|]; [apply wp_modify|apply wp_ret]; (eapply wp_mono; [by apply (Hreset (length (acceptors s)))|]); intros a' s2; apply Hrest.
Qed.

Lemma wp_StopListening s : inv s → wp StopListening s (λ _ s', inv s').
Proof.
  intros Hi. unfold StopListening. apply wp_bind, wp_get, wp_bind.
  assert (∀ s1, tasks s1 = tasks s ∨ (∃ a, tasks s1 = tasks s ++ [TCloseAcceptor a]) → store s1 = store s →
    connections_ s1 = connections_ s → alive s1 = alive s → inv s1) as Hsame.
  { intros s1 E1 E2 E3 E4. apply (inv_same s); try done.
    - intros h. unfold mine. destruct E1 as [->|[a ->]]; [done|]. by rewrite mine_append, app_nil_r.
    - intros t h. destruct E1 as [->|[a ->]]; [done|]. rewrite elem_of_app. intros [?|Ht]; [done|].
      by apply list_elem_of_singleton in Ht as ->. }
  destruct (acceptor_ s) as [a|]; [apply wp_modify|apply wp_ret]; apply wp_bind, wp_modify, wp_modify, Hsame; try done;
    [right; by exists a|by left].
Qed.

Lemma wp_tcp_Send s data ep timeout : inv s → alive s = true → wp (Send data ep timeout) s (λ _ s', inv s').
Proof.
  intros Hi Ha. unfold Send. cbv zeta. apply wp_if; intros _; [by apply wp_modify, (inv_same s)|].
  apply wp_bind. unfold wp at 1, make_connection. apply wp_bind, wp_modify, wp_modify.
  set (h := length (store s)).
  apply (inv_add s _ [TInsert h; TStartSending h data timeout] ep (outside s)); try done.
  - cbn. by rewrite <-(assoc_L (++)).
  - by repeat constructor.
  - by apply (stage_starting h (TStartSending h data timeout) [TInsert h] false); [|constructor| |].
Qed.

(** *** The destructor *)
Lemma close_all h ks l : NoDup ks → foldr Close_connection l ks !! h =
  (if decide (h ∈ ks) then prod_map id (λ c, set_handlers (handlers c ++ [HClose]) c) <$> l !! h else l !! h).
Proof.
  induction 1 as [|k ks Hk _ IH]; [done|]. cbn [foldr]. unfold Close_connection at 1.
  destruct (decide (h = k)) as [->|Hne].
  - rewrite list_lookup_alter_eq, IH, decide_False by done. by rewrite decide_True by left.
  - rewrite list_lookup_alter_ne, IH by done. apply decide_ext. set_solver +Hne.
Qed.

Lemma sound_unlock c : sound 1 c → sound 1 (unlock c) ∧ sound 1 (unlock (set_handlers (handlers c ++ [HClose]) c)).
Proof.
  intros [Hs Ht Hk Ho Hd Hw]. split; split; try done; cbn [unlock set_handlers handlers].
  - unfold talks in *. cbn [unlock set_handlers handlers]. rewrite filter_app. cbn. by rewrite app_nil_r.
  - intros i j Hi Hj. apply lookup_app_Some in Hj as [Hj|[_ Hj]]; [|by destruct (j - _)%nat].
    apply lookup_app_Some in Hi as [Hi|[Hle _]]; [by eapply Ho|]. apply lookup_lt_Some in Hj. lia.
  - rewrite elem_of_app, list_elem_of_singleton. intros [Hin|]; [by apply Hw|done].
Qed.

Lemma idle_unlock c : idle 0 c → idle 0 (unlock c) ∧ idle 0 (unlock (set_handlers (handlers c ++ [HClose]) c)).
Proof.
  intros [Hs Ht _]. split; split; try done.
  unfold talks in *. cbn [unlock set_handlers handlers]. rewrite filter_app. cbn. by rewrite app_nil_r.
Qed.

Lemma stage_destroyed h l b c :
  stage h true l b c → Forall (λ t, holds_transport t = false) l →
  stage h false l b (unlock (if b then set_handlers (handlers c ++ [HClose]) c else c)).
Proof.
  intros Hs Hl. remember true as a eqn:Ea. destruct Hs as [ac c Hf Hw|c [_ Eh]|t ins b c Ht Hen [Hic _] Ho|ins b c Hen Hs Hr|ins b c Hen Hs Hr|c Hs Hr|t b c Ht Hi Ho|b c Hc];
    try done.
  - by inversion Hl.
  - apply stage_left. by right.
  - destruct Hen; [by inversion Hl|]. apply stage_left_starting; [done|by apply idle_unlock|done].
  - destruct Hen; [by inversion Hl|]. apply stage_left. left. by apply sound_unlock.
  - exfalso. rewrite Forall_app in Hl. destruct Hl as [_ Hl]. by inversion Hl.
  - apply stage_left. left. by apply sound_unlock.
Qed.

Lemma wp_destroy s : inv s → alive s = true → Forall (λ t, holds_transport t = false) (tasks s) →
  wp destroy s (λ _ s', inv s').
Proof.
  intros [Ht Hm Hs] Ha Hl. unfold destroy. apply wp_bind, wp_modify, wp_bind, wp_modify, wp_modify.
  set (l := foldr Close_connection (store s) (elements (connections_ s))).
  assert (∀ h, l !! h = if decide (h ∈ elements (connections_ s)) then
    prod_map id (λ c, set_handlers (handlers c ++ [HClose]) c) <$> store s !! h else store s !! h) as El.
  { intros h. apply close_all, NoDup_elements. }
  assert (length l = length (store s)) as Elen.
  { unfold l. generalize (elements (connections_ s)). intros ks. induction ks as [|k ks IH]; [done|].
    cbn [foldr]. unfold Close_connection at 1. by rewrite length_alter. }
  split; cbn [set_alive set_store store tasks connections_ alive].
  - intros t h. rewrite length_fmap, Elen. apply Ht.
  - intros h. rewrite length_fmap, Elen. apply Hm.
  - intros h ep c E. rewrite list_lookup_fmap, El in E.
    change (mine h _) with (mine h s). change (member h _) with (member h s).
    destruct (store s !! h) as [[ep' c0]|] eqn:E0; [|by destruct (decide _)].
    destruct (Hs h ep' c0 E0) as [Et Hst]. rewrite Ha in Hst.
    apply stage_destroyed in Hst; [|apply Forall_forall; intros t [_ Hin]%list_elem_of_filter; rewrite Forall_forall in Hl; by apply Hl].
    destruct (decide (h ∈ elements (connections_ s))) as [Hin|Hin]; rewrite elem_of_elements in Hin;
      injection E as <- <-; (split; [done|]); unfold member in *.
    + by rewrite bool_decide_eq_true_2 in Hst |- * by done.
    + by rewrite bool_decide_eq_false_2 in Hst |- * by done.
Qed.

Lemma wp_call s k : inv s → can s k → wp (run_call respond k) s (λ _ s', inv s').
Proof.
  intros Hi Hc. destruct k as [ep ec port| |data ep timeout| |i ec|h i ec bytes]; cbn [can run_call] in *.
  - apply wp_bind. eapply wp_mono; [by apply wp_StartListening; [|apply Hc]|]. intros x s' Hi'. by apply wp_ret.
  - by apply wp_StopListening.
  - by apply wp_tcp_Send.
  - destruct Hc. by apply wp_destroy.
  - destruct Hc as [t Ht]. by eapply wp_task.
  - by apply wp_handler.
Qed.

Lemma reachable_inv s : reachable respond s → inv s.
Proof.
  induction 1 as [w|s k s' _ IH Hc E].
  - split; [intros ?? []%not_elem_of_nil|intros ? []%not_elem_of_empty|done].
  - exact (wp_det _ _ _ _ _ E (wp_call s k IH Hc)).
Qed.

(** C17: The TCP transport and its connections never fail an assertion or read outside
    a buffer, whatever calls are made of it and in whatever order the pending
    tasks and handlers of its strands run, with any outcome of their
    operations, also after it was destroyed. *)
Theorem tcp_transport_never_faults s k :
  reachable respond s → can s k → ∃ s', run_call respond k s = Ok (tt, s').
Proof.
  intros Hr Hc. pose proof (wp_call s k (reachable_inv s Hr) Hc) as Hw.
  apply wp_Ok in Hw as ([]&s'&E&_). by exists s'.
Qed.

(** Something is still to happen on connection [h]. *)
Definition busy h s : Prop :=
  (∃ t, t ∈ tasks s ∧ starts h t) ∨ ∃ ep c, store s !! h = Some (ep, c) ∧ pending c ≠ [].

(** C18: While the TCP transport exists, its set keeps exactly the connections with
    something to do: one that is to be started, or has an operation, a message
    or its closing pending, is in the set or about to be inserted, and one in
    the set has something to do or is about to be removed.  None is lost and
    none is kept for ever. *)
Theorem tcp_connections_kept s h :
  reachable respond s → alive s = true →
  (busy h s → h ∈ connections_ s ∨ TInsert h ∈ tasks s) ∧
  (h ∈ connections_ s → busy h s ∨ TRemove h ∈ tasks s).
Proof.
  intros Hr%reachable_inv Ha.
  assert (∀ t, t ∈ mine h s → t ∈ tasks s) as Hin by (by intros t [_ ?]%list_elem_of_filter).
  split.
  - intros Hb. assert (∃ ep c, store s !! h = Some (ep, c)) as (ep&c&E).
    { destruct Hb as [(t&Ht&Hst)|(ep&c&E&_)]; [|eauto]. apply (inv_lookup s t); [done|done|].
      unfold starts in Hst. destruct t; simplify_eq/=; done. }
    destruct (inv_stage _ Hr _ _ _ E) as [Et Hs]. rewrite Ha in Hs, Et.
    assert (∀ ins, entering h ins (member h s) → (∀ t, t ∈ ins → t ∈ tasks s) → h ∈ connections_ s ∨ TInsert h ∈ tasks s) as Hen.
    { intros ins He Hins. unfold member in He. destruct (bool_decide _) eqn:Eb; [left; by apply bool_decide_eq_true in Eb|].
      right. inversion He; subst. apply Hins. by left. }
    assert (pending c = [] → (∃ t, t ∈ mine h s ∧ starts h t)) as Hstart.
    { intros Ep. destruct Hb as [(t&Ht&Hst)|(ep'&c'&E'&Hp)]; [|congruence]. exists t. split; [|done].
      apply list_elem_of_filter. split; [|done]. unfold about. rewrite bool_decide_eq_true_2; [done|].
      unfold starts in Hst. destruct t; simplify_eq/=; done. }
    remember (mine h s) as l eqn:El. remember (member h s) as b eqn:Eb. remember true as a eqn:Ea.
    destruct Hs as [ac c [_ Eh] Hw|c [_ Eh]|t ins b c Ht He Hf Hy|ins b c He Hso Hre|ins b c He Hso Hre|c Hso Hre|t b c Ht Hi Ho|b c Hc];
      try done; try (apply (Hen ins He); intros t' Hin'; apply Hin; set_solver +Hin').
    + destruct Hstart as (t&Ht&Hst); [unfold pending; by rewrite Eh|]. by apply list_elem_of_singleton in Ht as ->.
    + destruct Hstart as (t&[]%not_elem_of_nil&_); unfold pending; by rewrite Eh.
    + destruct Hstart as (t&[]%not_elem_of_nil&_). pose proof (sound_kept _ _ Hso Et).
      by destruct (pending c); [|cbn in *; lia].
  - intros Hm. destruct (lookup_lt_is_Some_2 (store s) h) as [[ep c] E]; [by apply inv_members|].
    destruct (inv_stage _ Hr _ _ _ E) as [Et Hs]. rewrite Ha in Hs, Et.
    assert (member h s = true) as Hb by by apply bool_decide_eq_true.
    remember (mine h s) as l eqn:El. remember (member h s) as b eqn:Eb. remember true as a eqn:Ea in Hs.
    destruct Hs as [ac c Hf Hw|c Hf|t ins b c Ht He Hf Hy|ins b c He Hso Hre|ins b c He Hso Hre|c Hso Hre|t b c Ht Hi Ho|b c Hc]; try done.
    + left. left. exists t. split; [|done]. apply Hin. set_solver +.
    + left. right. exists ep, c. split; [done|]. pose proof (sound_kept _ _ Hso Et). by destruct (pending c); [cbn in *; lia|].
    + right. apply Hin. set_solver +.
Qed.

(** ** Accepting *)

(** While it listens, its acceptor is open and waits for a connection. *)
Record listens s : Prop := {
  listens_accepts : listening_port_ s ≠ 0 →
    ∃ a h, acceptor_ s = Some a ∧ acceptors s !! a = Some true ∧ TAccept a h ∈ tasks s;
  listens_closing a : TCloseAcceptor a ∈ tasks s → acceptor_ s ≠ Some a;
  listens_known a : acceptor_ s = Some a ∨ TCloseAcceptor a ∈ tasks s → (a < length (acceptors s))%nat;
}.

(** Changes that are not about accepting. *)
Lemma listens_same s s' : listens s → listening_port_ s' = listening_port_ s → acceptor_ s' = acceptor_ s →
  acceptors s' = acceptors s → (∀ a h, TAccept a h ∈ tasks s → acceptors s !! a = Some true → ∃ h', TAccept a h' ∈ tasks s') →
  (∀ a, TCloseAcceptor a ∈ tasks s' → TCloseAcceptor a ∈ tasks s) → listens s'.
Proof.
  intros [Ha Hc Hk] E1 E2 E3 Hta Htc. split; rewrite ?E1, ?E2, ?E3.
  - intros (a&h&Ea&Eo&Hin)%Ha. destruct (Hta a h Hin Eo) as [h' Hin']. by exists a, h'.
  - intros a Hin%Htc. by apply Hc.
  - intros a Hin. apply Hk. destruct Hin as [?|Hin%Htc]; auto.
Qed.

Lemma listens_told h l s : listens s → listens (foldr (told h) s l).
Proof.
  intros Hl. induction l as [|e l IH]; [done|]. cbn [foldr]. set (s1 := foldr _ _ _) in *.
  destruct e; cbn [told]; apply (listens_same s1); try done; cbn [tasks set_tasks set_events].
  - by intros; eexists.
  - intros a h' Hin _. exists h'. apply elem_of_app. by left.
  - intros a. rewrite elem_of_app. intros [?|Hin%list_elem_of_singleton]; done.
  - by intros; eexists.
Qed.

Lemma listens_on_connection h m s s' : listens s → on_connection h m s = Ok (tt, s') → listens s'.
Proof.
  intros Hl. unfold on_connection. destruct (store s !! h) as [[ep c]|]; [|done]. destruct (m _) as [[x c']|]; [|done].
  intros [= <-]. apply listens_told, (listens_same s); try done. by intros; eexists.
Qed.

Lemma listens_drop s i t : listens s → tasks s !! i = Some t → (∀ a h, t = TAccept a h → acceptors s !! a ≠ Some true) →
  listens (set_tasks (delete i (tasks s)) s).
Proof.
  intros Hl Ei Ht. apply (listens_same s); try done; cbn [set_tasks tasks].
  - intros a h Hin Ea. exists h. apply elem_of_delete; [done|]. rewrite Ei. intros [= ->].
    by apply (Ht a h).
  - intros a Hin. by apply delete_in in Hin.
Qed.

(** One more task. *)
Lemma listens_dispatch t s : listens s → (∀ a, t ≠ TCloseAcceptor a) → listens (set_tasks (tasks s ++ [t]) s).
Proof.
  intros Hl Ht. apply (listens_same s); try done; cbn [set_tasks tasks].
  - intros a h Hin _. exists h. apply elem_of_app. by left.
  - intros a. rewrite elem_of_app. intros [?|Hin%list_elem_of_singleton]; [done|]. by destruct (Ht a).
Qed.

Lemma listens_HandleAccept s i a h ec s' : listens s → tasks s !! i = Some (TAccept a h) →
  HandleAccept a h ec (set_tasks (delete i (tasks s)) s) = Ok (tt, s') → listens s'.
Proof.
  intros Hl Ei E. set (s1 := set_tasks (delete i (tasks s)) s) in *.
  unfold HandleAccept in E. apply M_bind_inv in E as (x&s2&[= <- <-]&E).
  change (acceptors s1) with (acceptors s) in E.
  destruct (default false (acceptors s !! a)) eqn:Eo; cbn [negb] in E.
  2: { injection E as <-. apply (listens_drop s i (TAccept a h)); [done|done|]. intros a' h' [= <- _] Ea.
       by rewrite Ea in Eo. }
  assert (∀ a' h' l, TAccept a' h' ∈ tasks s → ∃ h2, TAccept a' h2 ∈ delete i (tasks s) ++ l ++ [TAccept a (length (store s))]) as Hin.
  { intros a' h' l Hin. destruct (decide (a' = a)) as [->|Hne].
    - exists (length (store s)). rewrite !elem_of_app. right. right. by left.
    - exists h'. apply elem_of_app. left. apply elem_of_delete; [done|]. rewrite Ei. by intros [= ->]. }
  assert (∀ a' l, TCloseAcceptor a' ∈ delete i (tasks s) ++ l ++ [TAccept a (length (store s))] →
    TCloseAcceptor a' ∉ l → TCloseAcceptor a' ∈ tasks s) as Hcl.
  { intros a' l. rewrite !elem_of_app. intros [Hx|[?|Hx%list_elem_of_singleton]]; [by intros _; apply delete_in in Hx|done|done]. }
  destruct ec; injection E as <-; apply (listens_same s); try done; cbn [set_tasks tasks set_store set_connections s1 store].
  - intros a' h' Hx _. by apply (Hin a' h' []).
  - intros a' Hx. by apply (Hcl a' []); [|intros []%not_elem_of_nil].
  - intros a' h' Hx _. rewrite <-(assoc_L (++)). by apply (Hin a' h' [TStartReceiving h]).
  - intros a' Hx. rewrite <-(assoc_L (++)) in Hx. apply (Hcl a' [TStartReceiving h] Hx). by intros ?%list_elem_of_singleton.
Qed.

Lemma listens_task s i ec s' : listens s → complete_task i ec s = Ok (tt, s') → listens s'.
Proof.
  intros Hl (x&s1&[= <- <-]&E)%M_bind_inv. destruct (tasks s !! i) as [t|] eqn:Ei; [|by injection E as <-].
  apply M_bind_inv in E as ([]&s1&[= <-]&E).
  destruct t as [h|h|a|a h|h|h data timeout]; cbn [run_task] in E.
  - injection E as <-. apply (listens_same (set_tasks (delete i (tasks s)) s)); try done; [by apply (listens_drop s i (TInsert h))|by intros; eexists].
  - injection E as <-. apply (listens_same (set_tasks (delete i (tasks s)) s)); try done; [by apply (listens_drop s i (TRemove h))|by intros; eexists].
  - injection E as <-. destruct Hl as [Ha Hc Hk]. assert (TCloseAcceptor a ∈ tasks s) as Hin by by eapply list_elem_of_lookup_2.
    split; cbn [set_acceptors set_tasks tasks acceptor_ acceptors listening_port_].
    + intros (a'&h&Ea&Eo&Hx)%Ha. exists a', h. split; [done|]. split.
      * rewrite list_lookup_insert_ne; [done|]. intros ->. by apply (Hc a').
      * apply elem_of_delete; [done|]. by rewrite Ei.
    + intros a' Hx%delete_in. by apply Hc.
    + intros a' Hx. rewrite length_insert. apply Hk. destruct Hx as [?|Hx%delete_in]; auto.
  - assert (listens (set_store (alter (prod_map id (set_open true)) h (store s)) s)) as Hl'
      by (apply (listens_same s); try done; by intros; eexists).
    destruct ec; apply M_bind_inv in E as ([]&s1&[= <-]&E).
    + by apply (listens_HandleAccept s i a h true).
    + by apply (listens_HandleAccept (set_store (alter (prod_map id (set_open true)) h (store s)) s) i a h false).
  - eapply listens_on_connection; [|exact E]. by apply (listens_drop s i (TStartReceiving h)).
  - eapply listens_on_connection; [|exact E]. by apply (listens_drop s i (TStartSending h data timeout)).
Qed.

Lemma listens_StartListening s ep ec port x s' : listens s → port ≠ 0 →
  StartListening ep ec port s = Ok (x, s') → listens s'.
Proof.
  intros Hl Hp (y&s1&[= <- <-]&E)%M_bind_inv. destruct (listening_port_ s =? 0) eqn:E0; cbn [negb] in E; [|by injection E as _ <-].
  apply Z.eqb_eq in E0. destruct (ep_port ep =? 0); [by injection E as _ <-|].
  assert (∀ s2, listening_port_ s2 = 0 → acceptor_ s2 = Some (length (acceptors s)) →
    length (acceptors s2) = S (length (acceptors s)) → tasks s2 = tasks s → listens s2) as Hz.
  { intros s2 E1 E2 E3 E4. destruct Hl as [_ Hc Hk]. split; rewrite ?E1, ?E2, ?E3, ?E4.
    - done.
    - intros a Hin [= <-]. specialize (Hk _ (or_intror Hin)). lia.
    - intros a [[= <-]|Hin]; [lia|]. specialize (Hk _ (or_intror Hin)). lia. }
  set (l := match acceptor_ s with Some a => <[a := false]> (acceptors s) | None => acceptors s end).
  assert (length l = length (acceptors s)) as Elen by (unfold l; destruct (acceptor_ s); [by rewrite length_insert|done]).
  set (s2 := set_acceptor (Some (length (acceptors s))) (set_acceptors (l ++ [false]) s)).
  apply M_bind_inv in E as (a&s3&E3&E).
  assert (a = length (acceptors s) ∧ s3 = s2) as [-> ->].
  { unfold reset_acceptor in E3. unfold s2, l. unfold mbind, M_bind, get, CloseAcceptor, modify, mret, M_ret in E3.
    destruct (acceptor_ s); injection E3 as <- <-; done. }
  destruct (bool_decide (ec = Some OpenFails)); [injection E as _ <-; apply Hz; try done; cbn; rewrite length_app, Elen; cbn; lia|].
  apply M_bind_inv in E as ([]&s3&[= <-]&E).
  assert (length (<[length (acceptors s) := true]> (l ++ [false])) = S (length (acceptors s))) as Elen2
    by (rewrite length_insert, length_app, Elen; cbn; lia).
  destruct (bool_decide (ec = Some BindFails)); [injection E as _ <-; by apply Hz|].
  destruct (bool_decide (ec = Some ListenFails)); [injection E as _ <-; by apply Hz|].
  injection E as _ <-. destruct Hl as [_ Hc Hk]. split; cbn [set_tasks set_details set_listening set_store set_acceptors set_acceptor
    s2 tasks acceptors acceptor_ listening_port_ store].
  - intros _. exists (length (acceptors s)), (length (store s)). split; [done|]. split.
    + apply list_lookup_insert_eq. rewrite length_app, Elen. cbn. lia.
    + apply elem_of_app. right. by left.
  - intros a. rewrite elem_of_app. intros [Hin|Hin%list_elem_of_singleton] [= <-]; [|done]. specialize (Hk _ (or_intror Hin)). lia.
  - intros a. rewrite Elen2. intros [[= <-]|Hin]; [lia|]. apply elem_of_app in Hin as [Hin|Hin%list_elem_of_singleton]; [|done].
    specialize (Hk _ (or_intror Hin)). lia.
Qed.

Lemma listens_StopListening s s' : listens s → StopListening s = Ok (tt, s') → listens s'.
Proof.
  intros [_ Hc Hk] (x&s1&[= <- <-]&E)%M_bind_inv. apply M_bind_inv in E as ([]&s1&E1&E). injection E as <-.
  assert (acceptors s1 = acceptors s ∧ (tasks s1 = tasks s ∨ ∃ a, acceptor_ s = Some a ∧ tasks s1 = tasks s ++ [TCloseAcceptor a]))
    as [Ea Et] by (destruct (acceptor_ s) as [a|]; injection E1 as <-; eauto).
  split; cbn [set_acceptor set_listening acceptor_ acceptors tasks listening_port_]; try done.
  intros a [?|Hin]; [done|]. rewrite Ea. destruct Et as [Et|(b&Eb&Et)]; rewrite Et in Hin; [by apply Hk; right|].
  apply elem_of_app in Hin as [Hin|Hin%list_elem_of_singleton]; [by apply Hk; right|]. injection Hin as ->. apply Hk. by left.
Qed.

Lemma listens_call s k s' : listens s → can s k → run_call respond k s = Ok (tt, s') → listens s'.
Proof.
  intros Hl Hc E. destruct k as [ep ec port| |data ep timeout| |i ec|h i ec bytes]; cbn [can run_call] in *.
  - apply M_bind_inv in E as (x&s1&E1&E). injection E as <-. eapply listens_StartListening; [exact Hl|apply Hc|exact E1].
  - by eapply listens_StopListening.
  - unfold Send in E. cbv zeta in E. destruct (_ <? _); injection E as <-.
    + apply (listens_same s); try done. by intros; eexists.
    + apply (listens_dispatch (TStartSending (length (store s)) data timeout)
        (set_tasks (tasks s ++ [TInsert (length (store s))]) (set_store (store s ++ [(ep, new_connection (outside s))]) s))); [|done].
      apply (listens_dispatch (TInsert (length (store s))) (set_store (store s ++ [(ep, new_connection (outside s))]) s)); [|done].
      apply (listens_same s); try done. by intros; eexists.
  - injection E as <-. apply (listens_same s); try done. by intros; eexists.
  - by eapply listens_task.
  - by eapply listens_on_connection.
Qed.

(** C19: A TCP transport that listens always has an open acceptor with an accept pending
    on it: no failed accept, stopped or repeated listening or anything else
    that happens makes it deaf. *)
Theorem tcp_keeps_accepting s :
  reachable respond s → listening_port_ s ≠ 0 →
  ∃ a h, acceptor_ s = Some a ∧ acceptors s !! a = Some true ∧ TAccept a h ∈ tasks s.
Proof.
  intros Hr. apply listens_accepts. induction Hr as [w|s k s' _ IH Hc E]; [|by eapply listens_call].
  split; [done|intros a []%not_elem_of_nil|intros a [?|[]%not_elem_of_nil]; done].
Qed.
End invariant.

Module TransportExamples.
Import Shared.Demo.

Definition echo (m : list Z) : list Z * Z := (m, 0).
Definition t0 : TcpTransport := new_transport (MkWorld _ 0 0 []).
Definition here : endpoint := Endpoint _ (Sim.V4 127 0 0 1) 5483.

Definition after_call (k : call) (s : TcpTransport) : TcpTransport := (from_ok (tt, s) (run_call echo k s)).2.

Lemma call_after k s : is_ok (run_call echo k s) = true → run_call echo k s = Ok (tt, after_call k s).
Proof. intros E. rewrite (from_ok_eq (tt, s) _ E). unfold after_call. by destruct (from_ok _ _) as [[] ?]. Qed.

Lemma reachable_call k s : reachable echo s → can s k → is_ok (run_call echo k s) = true →
  reachable echo (after_call k s).
Proof. intros Hr Hc E. eapply reachable_step; [exact Hr|exact Hc|]. by apply call_after. Qed.

Definition peer (h : nat) (s : TcpTransport) : TcpConnection :=
  from_option snd (new_connection (outside s)) (store s !! h).
Lemma store_peer h s : bool_decide (is_Some (store s !! h)) = true → ∃ ep, store s !! h = Some (ep, peer h s).
Proof. intros [[ep c] E]%bool_decide_eq_true. exists ep. unfold peer. by rewrite E. Qed.

(** It listens, and a connection is accepted and starts to read. *)
Definition listening : TcpTransport := after_call (CListen here None 5483) t0.
Definition accepted : TcpTransport := after_call (CTask 0 false) listening.
Definition receiving : TcpTransport := after_call (CTask 0 false) accepted.
(** The peer closes it. *)
Definition ended : TcpTransport := after_call (CHandler 0 0 true []) receiving.

Lemma listening_reachable : reachable echo listening.
Proof. apply reachable_call; [apply reachable_new|by split|vm_compute; reflexivity]. Qed.
Lemma accepted_reachable : reachable echo accepted.
Proof.
  apply reachable_call; [exact listening_reachable| |vm_compute; reflexivity].
  exists (TAccept 0 0). split; [vm_compute; reflexivity|by left].
Qed.
Lemma receiving_reachable : reachable echo receiving.
Proof.
  apply reachable_call; [exact accepted_reachable| |vm_compute; reflexivity].
  exists (TStartReceiving 0). split; [vm_compute; reflexivity|]. right. intros j t Hj. lia.
Qed.

Lemma ending : can receiving (CHandler 0 0 true []).
Proof.
  destruct (store_peer 0 receiving) as [ep E]; [vm_compute; reflexivity|].
  exists ep, (peer 0 receiving), HReadSize. split; [exact E|]. split; [vm_compute; reflexivity|].
  split; [split; [constructor|cbn; lia]|]. split; [|by split].
  assert (tasks receiving = [TAccept 0 1]) as -> by (vm_compute; reflexivity).
  by intros t ->%list_elem_of_singleton.
Qed.
Lemma ended_reachable : reachable echo ended.
Proof. apply reachable_call; [exact receiving_reachable|exact ending|vm_compute; reflexivity]. Qed.

Lemma tcp_transport_never_faults_witness :
  reachable echo receiving ∧ can receiving (CHandler 0 0 true []) ∧
  ∃ s', run_call echo (CHandler 0 0 true []) receiving = Ok (tt, s').
Proof.
  split; [exact receiving_reachable|]. split; [exact ending|].
  apply (tcp_transport_never_faults echo receiving _ receiving_reachable ending).
Defined.

Lemma tcp_connections_kept_witness :
  connections_ ended = {[0%nat]} ∧ (busy 0 ended ∨ TRemove 0 ∈ tasks ended) ∧
  tasks ended = [TAccept 0 1; TRemove 0].
Proof.
  split; [vm_compute; reflexivity|]. split; [|vm_compute; reflexivity].
  apply (tcp_connections_kept echo ended 0 ended_reachable); [vm_compute; reflexivity|].
  assert (connections_ ended = {[0%nat]}) as -> by (vm_compute; reflexivity). set_solver.
Defined.

Lemma tcp_keeps_accepting_witness :
  listening_port_ ended = 5483 ∧
  ∃ a h, acceptor_ ended = Some a ∧ acceptors ended !! a = Some true ∧ TAccept a h ∈ tasks ended.
Proof.
  split; [vm_compute; reflexivity|]. apply (tcp_keeps_accepting echo ended ended_reachable).
  assert (listening_port_ ended = 5483) as -> by (vm_compute; reflexivity). done.
Defined.

(** Each read of a message starts one more wait for its timer. *)
Lemma timeout_waits_accumulate :
  length (filter (λ h, h = HCheckTimeout) (handlers (TcpExamples.begun_with ToReceive))) = 1%nat ∧
  length (filter (λ h, h = HCheckTimeout) (handlers
    (TcpExamples.after 2 false [7; 8] (TcpExamples.after 0 false [0; 0; 0; 2] (TcpExamples.begun_with ToReceive))))) = 3%nat.
Proof. split; vm_compute; reflexivity. Qed.
End TransportExamples.
