(* ===== verification/RudpTransport.v ===== *)
(** * The RUDP transport

    Models src/maidsafe/transport/rudp_transport.cc: the top of the RUDP stack.  It
    puts together [Multiplexer] (the UDP socket with its dispatcher, acceptor and
    sockets) and [Connection] (one conversation over one of these sockets).

    Multiplexers are in [nodes], addressed by position, and connections in [peers];
    a connection and its socket have the same handle, and [on_connection] runs an
    operation of the connection on the socket in the multiplexer's store.  The
    functions dispatched to the strand and the handlers bound to the acceptor and
    to the UDP socket wait in [tasks].  What is dispatched from inside the strand
    runs at once ([inside]).  [Connection] holds the other handlers.  Objects are
    not deleted here; what deleting them does is in [Multiplexer]. *)

From S2P Require Import Prelude Environment Packet ControlPackets Transport SlidingWindow CongestionControl.
From S2P Require Import Shared Decoded Dispatcher Frames.
From S2P Require DataPacket HandshakePacket NegativeAckPacket Session Sender Receiver Socket.
From S2P Require Multiplexer Connection Contact.

Inductive task `{IpAddress} :=
  | TCloseAcceptor (m : nat) (a : handle)
  | TCloseMultiplexer (m : nat)
  | TRemove (h : handle)
  | TAccept (m : nat) (a h : handle) (since : nat)   (** [AsyncAccept] of [h] *)
  | TDispatch (m : nat)                              (** [AsyncDispatch] *)
  | TSend (data : list Z) (ep : endpoint) (timeout : Z)
  | TConnect (ep : endpoint) (timeout : Z).
Arguments TCloseAcceptor {_}.
Arguments TCloseMultiplexer {_}.
Arguments TRemove {_}.
Arguments TAccept {_}.
Arguments TDispatch {_}.
Arguments TSend {_}.
Arguments TConnect {_}.
#[export] Instance rudp_task_eq_dec `{IpAddress} : EqDecision task.
Proof. solve_decision. Defined.

Inductive event `{IpAddress} :=
  | EError (condition : TransportCondition) (ep : endpoint)
  | EMessage (h : handle) (message : list Z)
  | EConnected (h : handle) (condition : TransportCondition).
Arguments EError {_}.
Arguments EMessage {_}.
Arguments EConnected {_}.

(** A connection without its socket, on multiplexer [mux]. *)
Record Peer `{Environment} := MkPeer {
  conn : Connection.Connection;
  mux : nat;
  read_at : nat;
  waits : list Connection.pending;
  told : list Connection.signal;
}.
Arguments MkPeer {_}.

Record RudpTransport `{Environment} := MkRudpTransport {
  listening_port_ : Z;
  details_endpoint : endpoint;                (** [transport_details_.endpoint] *)
  multiplexer_ : nat;
  acceptor_ : option handle;                  (** of that multiplexer *)
  connections_ : gset handle;
  nodes : list Multiplexer.Node;
  peers : gmap handle Peer;
  tasks : list task;
  events : list event;                        (** newest first *)
  outside : World;
}.
Arguments MkRudpTransport {_}.

Section transport.
Context `{Environment} (fuel : nat) (respond : list Z → list Z * Z).

Definition new_transport (w : World) : RudpTransport :=
  MkRudpTransport 0 endpoint_none 0 None ∅ [Multiplexer.new_node w] ∅ [] [] w.

Definition set_listening (port : Z) (s : RudpTransport) : RudpTransport :=
  MkRudpTransport port (details_endpoint s) (multiplexer_ s) (acceptor_ s) (connections_ s) (nodes s) (peers s) (tasks s) (events s) (outside s).
Definition set_details (ep : endpoint) (s : RudpTransport) : RudpTransport :=
  MkRudpTransport (listening_port_ s) ep (multiplexer_ s) (acceptor_ s) (connections_ s) (nodes s) (peers s) (tasks s) (events s) (outside s).
Definition set_multiplexer (m : nat) (s : RudpTransport) : RudpTransport :=
  MkRudpTransport (listening_port_ s) (details_endpoint s) m (acceptor_ s) (connections_ s) (nodes s) (peers s) (tasks s) (events s) (outside s).
Definition set_acceptor (a : option handle) (s : RudpTransport) : RudpTransport :=
  MkRudpTransport (listening_port_ s) (details_endpoint s) (multiplexer_ s) a (connections_ s) (nodes s) (peers s) (tasks s) (events s) (outside s).
Definition set_connections (l : gset handle) (s : RudpTransport) : RudpTransport :=
  MkRudpTransport (listening_port_ s) (details_endpoint s) (multiplexer_ s) (acceptor_ s) l (nodes s) (peers s) (tasks s) (events s) (outside s).
Definition set_nodes (l : list Multiplexer.Node) (s : RudpTransport) : RudpTransport :=
  MkRudpTransport (listening_port_ s) (details_endpoint s) (multiplexer_ s) (acceptor_ s) (connections_ s) l (peers s) (tasks s) (events s) (outside s).
Definition set_peers (l : gmap handle Peer) (s : RudpTransport) : RudpTransport :=
  MkRudpTransport (listening_port_ s) (details_endpoint s) (multiplexer_ s) (acceptor_ s) (connections_ s) (nodes s) l (tasks s) (events s) (outside s).
Definition set_tasks (l : list task) (s : RudpTransport) : RudpTransport :=
  MkRudpTransport (listening_port_ s) (details_endpoint s) (multiplexer_ s) (acceptor_ s) (connections_ s) (nodes s) (peers s) l (events s) (outside s).
Definition set_events (l : list event) (s : RudpTransport) : RudpTransport :=
  MkRudpTransport (listening_port_ s) (details_endpoint s) (multiplexer_ s) (acceptor_ s) (connections_ s) (nodes s) (peers s) (tasks s) l (outside s).
Definition set_outside (w : World) (s : RudpTransport) : RudpTransport :=
  MkRudpTransport (listening_port_ s) (details_endpoint s) (multiplexer_ s) (acceptor_ s) (connections_ s) (nodes s) (peers s) (tasks s) (events s) w.

Definition dispatch (t : task) : M RudpTransport unit := modify (λ s, set_tasks (tasks s ++ [t]) s).
Definition emit (e : event) : M RudpTransport unit := modify (λ s, set_events (e :: events s) s).

(** ** The multiplexers

    [m] runs on the [i]-th multiplexer, whose world is the transport's.  Bytes that
    its sockets read go to the buffers of the connections. *)
Definition absorb (old new : option Socket.Socket) (p : Peer) : Peer :=
  match old, new with
  | Some s, Some s' =>
      let bytes := drop (length (Connection.read_bytes s)) (Connection.read_bytes s') in
      MkPeer (Connection.set_buffer (Connection.write_at (read_at p) bytes (Connection.buffer_ (conn p))) (conn p))
        (mux p) (read_at p + length bytes) (waits p) (told p)
  | _, _ => p
  end.
Definition absorb_all (i : nat) (n n' : Multiplexer.Node) (l : gmap handle Peer) : gmap handle Peer :=
  map_imap (λ h p, Some (if (mux p =? i)%nat
    then absorb (Multiplexer.sockets n !! h) (Multiplexer.sockets n' !! h) p else p)) l.
Definition on_node {A} (i : nat) (m : M Multiplexer.Node A) : M RudpTransport A := λ s,
  match nodes s !! i with
  | Some n =>
      match m (Multiplexer.set_net ((Multiplexer.net n).1, outside s) n) with
      | Ok (a, n') => Ok (a, set_outside (Multiplexer.net n').2
          (set_nodes (<[i := n']> (nodes s)) (set_peers (absorb_all i n n' (peers s)) s)))
      | Fault f => Fault f
      end
  | None => Fault OutOfBounds
  end.

(** ** The connections *)

Definition DoInsertConnection (h : handle) : M RudpTransport unit :=
  modify (λ s, set_connections ({[h]} ∪ connections_ s) s).
Definition DoRemoveConnection (h : handle) (s : RudpTransport) : RudpTransport :=
  set_connections (connections_ s ∖ {[h]}) s.
Definition RemoveConnection (inside : bool) (h : handle) (s : RudpTransport) : RudpTransport :=
  if inside then DoRemoveConnection h s else set_tasks (tasks s ++ [TRemove h]) s.

(** What a connection tells its transport. *)
Definition heard (inside : bool) (h : handle) (ep : endpoint) (e : Connection.signal) (s : RudpTransport) : RudpTransport :=
  match e with
  | Connection.SRemoveConnection => RemoveConnection inside h s
  | Connection.SError condition => set_events (EError condition ep :: events s) s
  | Connection.SMessageReceived message => set_events (EMessage h message :: events s) s
  | Connection.SConnectResult condition => set_events (EConnected h condition :: events s) s
  end.

Definition assemble (p : Peer) (so : Socket.Socket) (net : Socket.Net) : Connection.State :=
  Connection.MkState (conn p) so net (read_at p) (waits p) (told p).
Definition apart (i : nat) (st : Connection.State) : Peer :=
  MkPeer (Connection.conn st) i (Connection.read_at st) (Connection.handlers st) (Connection.signals st).

(** An operation of connection [h], in the strand or not. *)
Definition on_connection (inside : bool) (h : handle) (m : M Connection.State unit) : M RudpTransport unit := λ s,
  match peers s !! h with
  | Some p =>
      match nodes s !! mux p with
      | Some n =>
          match Multiplexer.sockets n !! h with
          | Some so =>
              match m (assemble p so ((Multiplexer.net n).1, outside s)) with
              | Ok (_, st) =>
                  let fresh := take (length (Connection.signals st) - length (told p)) (Connection.signals st) in
                  let n' := Multiplexer.put h (Connection.socket_ st, Connection.net st) n in
                  Ok (tt, foldr (heard inside h (Connection.remote_endpoint_ (conn p)))
                    (set_outside (Connection.net st).2 (set_nodes (<[mux p := n']> (nodes s))
                      (set_peers (<[h := apart (mux p) st]> (peers s)) s))) fresh)
              | Fault f => Fault f
              end
          | None => Fault OutOfBounds
          end
      | None => Fault OutOfBounds
      end
  | None => Fault OutOfBounds
  end.

(** [std::make_shared<RudpConnection>]: its handle *)
Definition make_connection (ep : endpoint) : M RudpTransport handle :=
  s ← get;
  let h := fresh (dom (peers s)) in
  on_node (multiplexer_ s) (Multiplexer.new_socket_at fuel h);;
  modify (λ s, set_peers (<[h := MkPeer (Connection.MkConnection true not_a_date_time not_a_date_time ep [] 0 0
    kDefaultInitialTimeout Connection.kNoTimeout) (multiplexer_ s) 0 [] []]> (peers s)) s);;
  mret h.

(** ** Dispatching and accepting *)

Definition StartDispatch : M RudpTransport unit := s ← get; dispatch (TDispatch (multiplexer_ s)).

Definition HandleDispatch (m : nat) : M RudpTransport unit :=
  open ← on_node m (gets Multiplexer.socket_is_open);
  when open StartDispatch.

(** The acceptor is used through a pointer, which may be null. *)
Definition StartAccept : M RudpTransport unit :=
  h ← make_connection endpoint_none;
  s ← get;
  match acceptor_ s with
  | Some a =>
      acc ← on_node (multiplexer_ s) (Multiplexer.acceptor a);
      on_node (multiplexer_ s) (Multiplexer.AsyncAccept a h);;
      dispatch (TAccept (multiplexer_ s) a h (S (length (Multiplexer.waiting_accept_ acc))))
  | None => throw OutOfBounds
  end.

Definition HandleAccept (m : nat) (a h : handle) (ec : bool) : M RudpTransport unit :=
  open ← on_node m (gets (Multiplexer.IsOpen a));
  if negb open then mret tt
  else
    when (negb ec) (DoInsertConnection h;; on_connection true h (Connection.StartReceiving fuel h));;
    StartAccept.

(** ** Listening *)

Definition CloseAcceptor (m : nat) (a : handle) : M RudpTransport unit := on_node m (Multiplexer.Close a).
Definition CloseMultiplexer (m : nat) : M RudpTransport unit := on_node m Multiplexer.CloseMultiplexer.

Definition new_acceptor_handle (s : RudpTransport) : handle :=
  fresh (default ∅ (dom ∘ Multiplexer.acceptors <$> nodes s !! multiplexer_ s)).

(** [open_ec], [io_control_ec], [bind_ec]: as for [Multiplexer.Open_on]. *)
Definition StartListening (ep : endpoint) (open_ec io_control_ec bind_ec : bool) :
    M RudpTransport TransportCondition :=
  s ← get;
  if negb (listening_port_ s =? 0) then mret kAlreadyStarted
  else
    condition ← on_node (multiplexer_ s) (Multiplexer.Open_on ep open_ec io_control_ec bind_ec);
    if negb (bool_decide (condition = kSuccess)) then mret condition
    else
      let a := new_acceptor_handle s in
      on_node (multiplexer_ s) (Multiplexer.new_acceptor a);;
      modify (set_acceptor (Some a));;
      modify (set_listening (ep_port ep));;
      modify (set_details (Endpoint _ (ep_address ep) (ep_port ep)));;
      StartAccept;;
      StartDispatch;;
      mret kSuccess.

Definition Bootstrap : M RudpTransport TransportCondition := mret kSuccess.

Definition StopListening (inside : bool) : M RudpTransport unit :=
  s ← get;
  match acceptor_ s with
  | Some a => if inside then CloseAcceptor (multiplexer_ s) a else dispatch (TCloseAcceptor (multiplexer_ s) a)
  | None => mret tt
  end;;
  (if inside then CloseMultiplexer (multiplexer_ s) else dispatch (TCloseMultiplexer (multiplexer_ s)));;
  modify (set_listening 0);;
  modify (set_acceptor None);;
  modify (λ s, set_nodes (nodes s ++ [Multiplexer.new_node (outside s)]) s);;
  modify (λ s, set_multiplexer (length (nodes s) - 1) s).

(** ** Sending *)

(** Opens the multiplexer unless it is open: the error, or whether it was opened now. *)
Definition open_multiplexer (open_ec io_control_ec : bool) : M RudpTransport (TransportCondition + bool) :=
  s ← get;
  open ← on_node (multiplexer_ s) (gets Multiplexer.socket_is_open);
  if open : bool then mret (inr false)
  else
    condition ← on_node (multiplexer_ s) (Multiplexer.Open_as_client open_ec io_control_ec);
    if bool_decide (condition = kSuccess) then mret (inr true) else mret (inl condition).

Definition start_connection (ep : endpoint) (k : Connection.start) (opened : TransportCondition + bool) :
    M RudpTransport unit :=
  match opened with
  | inl condition => emit (EError condition ep)
  | inr multiplexer_opened_now =>
      h ← make_connection ep;
      DoInsertConnection h;;
      on_connection true h (Connection.begin_ fuel h k);;
      when multiplexer_opened_now StartDispatch
  end.

Definition DoSend (data : list Z) (ep : endpoint) (timeout : Z) (open_ec io_control_ec : bool) : M RudpTransport unit :=
  opened ← open_multiplexer open_ec io_control_ec;
  start_connection ep (Connection.ToSend data timeout) opened.
Definition DoConnect (ep : endpoint) (timeout : Z) (open_ec io_control_ec : bool) : M RudpTransport unit :=
  opened ← open_multiplexer open_ec io_control_ec;
  start_connection ep (Connection.ToConnect timeout) opened.

Definition Send (data : list Z) (ep : endpoint) (timeout : Z) : M RudpTransport unit := dispatch (TSend data ep timeout).
Definition Connect (ep : endpoint) (timeout : Z) : M RudpTransport unit := dispatch (TConnect ep timeout).
Definition ConnectCallback (result : TransportCondition) (data : list Z) (ep : endpoint) (timeout : Z) :
    M RudpTransport unit :=
  when (bool_decide (result = kSuccess)) (Send data ep timeout).
(** The message handler of the rendezvous request is a null pointer. *)
Definition SendTo (data : list Z) (remote_contact : Contact.Contact) (timeout : Z) : M RudpTransport unit :=
  if negb (bool_decide (ep_address (Contact.rendezvous_endpoint_ remote_contact) = ip_none)) then throw OutOfBounds
  else Send data (Contact.endpoint_ remote_contact) timeout.

(** The destructor: no connection can lock the transport any more, and those of the
    set are told to close. *)
Definition destroy : M RudpTransport unit :=
  modify (λ s, set_peers (map_imap (λ h p, Some (MkPeer (Connection.set_attached false (conn p)) (mux p) (read_at p)
    (waits p ++ (if bool_decide (h ∈ connections_ s) then [Connection.MkPending Connection.HClose 0] else []))
    (told p))) (peers s)) s).

(** ** Running

    [queue]: the datagrams that a receive and the reads after it return. *)
Definition run_task (t : task) (open_ec io_control_ec : bool) (queue : list (list Z * endpoint)) : M RudpTransport unit :=
  match t with
  | TCloseAcceptor m a => CloseAcceptor m a
  | TCloseMultiplexer m => CloseMultiplexer m
  | TRemove h => modify (DoRemoveConnection h)
  | TAccept m a h _ =>
      ec ← on_node m (Multiplexer.AcceptOp h);
      HandleAccept m a h (Connection.failed ec)
  | TDispatch m => on_node m (Multiplexer.DispatchOp queue);; HandleDispatch m
  | TSend data ep timeout => DoSend data ep timeout open_ec io_control_ec
  | TConnect ep timeout => DoConnect ep timeout open_ec io_control_ec
  end.

(** An accept completes when the acceptor's timer was cancelled since; the others
    may run at any time, but nothing is received from a closed socket. *)
Definition ready (t : task) (queue : list (list Z * endpoint)) (s : RudpTransport) : bool :=
  match t with
  | TAccept m a _ since =>
      from_option (Connection.completed since ∘ Multiplexer.waiting_accept_) false
        (nodes s !! m ≫= λ n, Multiplexer.acceptors n !! a)
  | TDispatch m => from_option Multiplexer.socket_is_open false (nodes s !! m) || bool_decide (queue = [])
  | _ => true
  end.

Definition complete_task (i : nat) (open_ec io_control_ec : bool) (queue : list (list Z * endpoint)) :
    M RudpTransport unit :=
  s ← get;
  match tasks s !! i with
  | Some t =>
      when (ready t queue s) (
        modify (set_tasks (delete i (tasks s)));; run_task t open_ec io_control_ec queue)
  | None => mret tt
  end.

(** The [i]-th handler of connection [h]; messages are dispatched outside the strand. *)
Definition in_strand (h : Connection.handler) : bool :=
  match h with Connection.HDispatchMessage => false | _ => true end.
Definition complete_handler (h : handle) (i : nat) (ec : bool) : M RudpTransport unit :=
  s ← get;
  match peers s !! h ≫= λ p, waits p !! i with
  | Some k => on_connection (in_strand (Connection.p_handler k)) h (Connection.complete respond i ec)
  | None => mret tt
  end.

Inductive call :=
  | CListen (ep : endpoint) (open_ec io_control_ec bind_ec : bool)
  | CStop (inside : bool)
  | CSend (data : list Z) (ep : endpoint) (timeout : Z)
  | CSendTo (data : list Z) (contact : Contact.Contact) (timeout : Z)
  | CConnect (ep : endpoint) (timeout : Z)
  | CTask (i : nat) (open_ec io_control_ec : bool) (queue : list (list Z * endpoint))
  | CHandler (h : handle) (i : nat) (ec : bool).

Definition run_call (k : call) : M RudpTransport unit :=
  match k with
  | CListen ep e1 e2 e3 => _ ← StartListening ep e1 e2 e3; mret tt
  | CStop inside => StopListening inside
  | CSend data ep timeout => Send data ep timeout
  | CSendTo data contact timeout => SendTo data contact timeout
  | CConnect ep timeout => Connect ep timeout
  | CTask i e1 e2 queue => complete_task i e1 e2 queue
  | CHandler h i ec => complete_handler h i ec
  end.

(** Reached by calls that satisfy [can]. *)
Inductive reachable (can : call → Prop) : RudpTransport → Prop :=
  | reachable_new w : reachable can (new_transport w)
  | reachable_step s k s' : reachable can s → can k → run_call k s = Ok (tt, s') → reachable can s'.
End transport.

(** ** The set of connections *)

Section membership.
Context `{Environment} (fuel : nat) (respond : list Z → list Z * Z).
Implicit Types (s : RudpTransport) (h : handle) (p : Peer).
#[local] Existing Instance Connection.signal_eq_dec.

Definition attached p : bool := Connection.attached (conn p).
Definition told_ok p : Prop :=
  if attached p then Forall Connection.ordinary (told p)
  else ∃ rest, Forall Connection.ordinary rest ∧
    (told p = Connection.SRemoveConnection :: rest ∨
     ∃ e, told p = Connection.SRemoveConnection :: Connection.SError e :: rest).

Definition accepts h (t : task) : bool := match t with TAccept _ _ h' _ => bool_decide (h' = h) | _ => false end.
Definition accepting h s : list task := filter (accepts h) (tasks s).

(** [h] in a state: started ones are members until they detach. *)
Record member_ok s h p : Prop := {
  member_told : told_ok p;
  member_started : attached p = true → waits p ≠ [] → h ∈ connections_ s;
  member_attached : h ∈ connections_ s → attached p = true ∨ TRemove h ∈ tasks s;
  member_removed : TRemove h ∈ tasks s → attached p = false;
  member_accepting : accepting h s ≠ [] → attached p = true ∧ waits p = [];
  member_once : (length (accepting h s) ≤ 1)%nat;
}.
Record members_ok s : Prop := {
  members_known h : h ∈ connections_ s ∨ TRemove h ∈ tasks s ∨ accepting h s ≠ [] → is_Some (peers s !! h);
  members_each h p : peers s !! h = Some p → member_ok s h p;
}.

Lemma told_ordinary p e : attached p = true → told_ok p → e ∈ told p → Connection.ordinary e.
Proof. unfold told_ok. intros -> Hf. rewrite Forall_forall in Hf. auto. Qed.

(** What an operation of the connection tells, after what was told before. *)
Lemma told_fresh p p' l : told_ok p → told_ok p' → told p' = l ++ told p →
  (attached p' = true → attached p = true ∧ Connection.SRemoveConnection ∉ l) ∧
  (attached p' = false → attached p = true → Connection.SRemoveConnection ∈ l) ∧
  (attached p = false → l = []).
Proof.
  intros Hp Hp' El. assert (attached p = false → attached p' = false ∧ l = []) as Hoff.
  { intros Ea. unfold told_ok in Hp. rewrite Ea in Hp. destruct Hp as (rest&Hr&Ht).
    assert (Connection.SRemoveConnection ∈ told p) as Hin by (destruct Ht as [->|[e ->]]; left).
    assert (attached p' = false) as Ea'.
    { apply not_true_is_false. intros Ea'. apply (told_ordinary p' Connection.SRemoveConnection Ea' Hp').
      rewrite El. set_solver +Hin. }
    split; [done|]. unfold told_ok in Hp'. rewrite Ea', El in Hp'. destruct Hp' as (rest'&Hr'&Ht').
    rewrite Forall_forall in Hr'. destruct l as [|x [|y l]]; [done| |]; exfalso.
    - destruct Ht' as [[= -> Er]|[e [= -> Er]]].
      + apply (Hr' Connection.SRemoveConnection). by rewrite <-Er.
      + destruct Ht as [Et|[e' Et]]; rewrite Et in Er; discriminate.
    - destruct Ht' as [[= -> Er]|[e [= -> -> Er]]]; apply (Hr' Connection.SRemoveConnection); try done;
        rewrite <-Er; set_solver +Hin. }
  destruct (attached p) eqn:Ea.
  - split_and!; [|intros Ea' _|done].
    + intros Ea'. split; [done|]. intros Hin. apply (told_ordinary p' Connection.SRemoveConnection Ea' Hp').
      rewrite El. set_solver +Hin.
    + unfold told_ok in Hp, Hp'. rewrite Ea in Hp. rewrite Ea', El in Hp'. destruct Hp' as (rest&Hr&Ht).
      destruct l as [|x l]; [|destruct Ht as [[= -> _]|[e [= -> _]]]; left].
      exfalso. rewrite Forall_forall in Hp. apply (Hp Connection.SRemoveConnection).
      cbn in Ht. destruct Ht as [->|[e ->]]; left.
  - destruct (Hoff eq_refl) as [Ea' ->]. split_and!; congruence.
Qed.

(** *** Changes that are not about membership *)
Definition view p := (attached p, waits p, told p).
Record unmoved s s' : Prop := {
  unmoved_connections : connections_ s' = connections_ s;
  unmoved_tasks : tasks s' = tasks s;
  unmoved_peers h : view <$> peers s' !! h = view <$> peers s !! h;
}.

Lemma unmoved_refl s : unmoved s s.
Proof. done. Qed.
Lemma unmoved_trans s1 s2 s3 : unmoved s1 s2 → unmoved s2 s3 → unmoved s1 s3.
Proof. intros [] []. split; [congruence|congruence|intros; etrans; eauto]. Qed.

Lemma member_ok_same s s' h p p' : view p' = view p → (h ∈ connections_ s' ↔ h ∈ connections_ s) →
  (TRemove h ∈ tasks s' ↔ TRemove h ∈ tasks s) → accepting h s' = accepting h s →
  member_ok s h p → member_ok s' h p'.
Proof.
  intros [= Ea Ew Et] Hc Ht Eac [M1 M2 M3 M4 M5 M6].
  split; rewrite ?Ea, ?Ew, ?Eac; try done.
  - unfold told_ok in *. by rewrite Ea, Et.
  - intros. by apply Hc, M2.
  - intros ?%Hc. rewrite Ht. by apply M3.
  - intros ?%Ht. by apply M4.
Qed.

Lemma unmoved_members s s' : unmoved s s' → members_ok s → members_ok s'.
Proof.
  intros [Ec Et Ep] [Hk He].
  assert (∀ h, accepting h s' = accepting h s) as Ea by (intros h; unfold accepting; by rewrite Et).
  split.
  - intros h. rewrite Ec, Et, Ea. intros Hh%Hk. specialize (Ep h). destruct Hh as [p E]. rewrite E in Ep.
    by destruct (peers s' !! h).
  - intros h p' E. specialize (Ep h). rewrite E in Ep. destruct (peers s !! h) as [p|] eqn:E'; [|done].
    injection Ep as E1 E2 E3. eapply member_ok_same; [by unfold view; rewrite E1, E2, E3|by rewrite Ec|by rewrite Et|apply Ea|].
    by apply He.
Qed.

Lemma view_absorb o o' p : view (absorb o o' p) = view p.
Proof. by destruct o, o'. Qed.

Lemma unmoved_on_node {A} i (m : M Multiplexer.Node A) s a s' : on_node i m s = Ok (a, s') → unmoved s s'.
Proof.
  unfold on_node. destruct (nodes s !! i) as [n|]; [|done]. destruct (m _) as [[b n']|]; [|done]. intros [= _ <-].
  split; try done. intros h. cbn [set_outside set_nodes set_peers peers]. unfold absorb_all.
  rewrite map_lookup_imap. destruct (peers s !! h) as [p|]; cbn; [|done]. destruct (_ =? _)%nat; [|done].
  by rewrite view_absorb.
Qed.

(** *** Operations that move connections *)

Lemma heard_all inside h ep l s :
  let s' := foldr (heard inside h ep) s l in
  peers s' = peers s ∧
  (Connection.SRemoveConnection ∉ l → connections_ s' = connections_ s ∧ tasks s' = tasks s) ∧
  (Connection.SRemoveConnection ∈ l →
    if inside then connections_ s' = connections_ s ∖ {[h]} ∧ tasks s' = tasks s
    else connections_ s' = connections_ s ∧ ∃ n, tasks s' = tasks s ++ replicate (S n) (TRemove h)).
Proof.
  cbv zeta. induction l as [|e l (Ep&Hno&Hyes)]; cbn [foldr].
  { split; [done|]. split; [done|]. by intros ?%not_elem_of_nil. }
  assert (∀ e s, peers (heard inside h ep e s) = peers s) as Hp by (intros [] ?; [done| |done|done]; by destruct inside).
  rewrite Hp. split; [done|]. set (s1 := foldr _ _ _) in *.
  destruct (decide (e = Connection.SRemoveConnection)) as [->|Hne].
  - split; [intros Hn; destruct Hn; left|intros _]. cbn [heard]. unfold RemoveConnection, DoRemoveConnection.
    destruct (decide (Connection.SRemoveConnection ∈ l)) as [Hin|Hin].
    + destruct inside.
      * destruct (Hyes Hin) as [Ec Et]. split; [|done]. cbn. rewrite Ec. set_solver +.
      * destruct (Hyes Hin) as [Ec [n Et]]. split; [done|]. exists (S n). cbn [tasks set_tasks].
        by rewrite Et, <-(assoc_L (++)), (replicate_S_end (S n)).
    + destruct (Hno Hin) as [Ec Et]. destruct inside; (split; [cbn; by rewrite Ec|]); [done|].
      exists 0%nat. cbn [tasks set_tasks]. by rewrite Et.
  - assert (connections_ (heard inside h ep e s1) = connections_ s1 ∧ tasks (heard inside h ep e s1) = tasks s1) as [-> ->]
      by by destruct e.
    split; [intros Hn; apply Hno; set_solver +Hn|]. intros [?|?]%elem_of_cons; [congruence|]. by apply Hyes.
Qed.

Lemma accepting_replicate h h' k l :
  filter (accepts h') (l ++ replicate k (TRemove h)) = filter (accepts h') l.
Proof.
  rewrite filter_app. induction k as [|k IH]; [by rewrite app_nil_r|]. cbn [replicate].
  rewrite filter_cons_False by (by intros []). exact IH.
Qed.
Lemma remove_replicate h h' k l : h' ≠ h → TRemove h' ∈ l ++ replicate k (TRemove h) ↔ TRemove h' ∈ l.
Proof.
  intros Hne. rewrite elem_of_app. split; [|by left]. intros [?|[Hx _]%elem_of_replicate]; [done|congruence].
Qed.

(** [h] was [p] and is [p'], still attached or not, and removed if it detached. *)
Lemma members_after s s' h p p' : members_ok s → peers s !! h = Some p → peers s' = <[h := p']> (peers s) →
  told_ok p' → accepting h s = [] → (attached p = true → h ∈ connections_ s) →
  (attached p' = attached p ∧ connections_ s' = connections_ s ∧ tasks s' = tasks s ∨
   attached p' = false ∧ (h ∉ connections_ s' ∨ TRemove h ∈ tasks s') ∧
   (∀ h', h' ≠ h → h' ∈ connections_ s' ↔ h' ∈ connections_ s) ∧ ∃ k, tasks s' = tasks s ++ replicate k (TRemove h)) →
  members_ok s'.
Proof.
  intros [Hk He] Ep Ep' Hok Hacc Hin Hs. pose proof (He h p Ep) as [M1 M2 M3 M4 M5 M6].
  assert ((∀ h', h' ≠ h → h' ∈ connections_ s' ↔ h' ∈ connections_ s) ∧
    (∀ h', h' ≠ h → TRemove h' ∈ tasks s' ↔ TRemove h' ∈ tasks s) ∧ (∀ h', accepting h' s' = accepting h' s)) as (Hc&Ht&Ha).
  { destruct Hs as [(_&Ec&Et)|(_&_&Ec&k&Et)]; unfold accepting; rewrite Et; [by rewrite Ec|].
    split; [done|]. split; [intros h' ?; by apply remove_replicate|]. intros h'. apply accepting_replicate. }
  split.
  - intros h' Hh. rewrite Ep'. destruct (decide (h' = h)) as [->|Hne]; [by rewrite lookup_insert_eq|].
    rewrite lookup_insert_ne by done. rewrite Hc, Ht, Ha in Hh by done. by apply Hk.
  - intros h' q. rewrite Ep'. destruct (decide (h' = h)) as [->|Hne].
    + rewrite lookup_insert_eq. intros [= <-]. split; rewrite ?Ha, ?Hacc; try done.
      * intros Ea _. destruct Hs as [(Ea'&->&_)|(Ea'&_)]; [apply Hin; congruence|congruence].
      * intros Hx. destruct Hs as [(Ea'&Ec&Et)|(Ea'&[?|?]&_)]; [|done|by right].
        rewrite Ea', Et. rewrite Ec in Hx. by apply M3.
      * intros Hx. destruct Hs as [(Ea'&_&Et)|(Ea'&_)]; [|done]. rewrite Ea'. rewrite Et in Hx. by apply M4.
      * cbn. lia.
    + rewrite lookup_insert_ne by done. intros E. eapply (member_ok_same s s' h' q q); [done|by apply Hc|by apply Ht|apply Ha|by apply He].
Qed.

Lemma members_on_connection inside h m s s' : members_ok s → accepting h s = [] →
  (∀ p, peers s !! h = Some p → attached p = true → h ∈ connections_ s) → Connection.tells m →
  on_connection inside h m s = Ok (tt, s') → members_ok s'.
Proof.
  intros [Hk He] Hacc Hin Ht E. unfold on_connection in E. destruct (peers s !! h) as [p|] eqn:Ep; [|done].
  destruct (nodes s !! mux p) as [n|]; [|done]. destruct (Multiplexer.sockets n !! h) as [so|]; [|done].
  destruct (m _) as [[x st]|] eqn:Em; [|done]. injection E as E.
  pose proof (He h p Ep) as Hp.
  destruct (Ht _ _ _ Em) as [Hok [l El]]; [apply (member_told _ _ _ Hp)|]. cbn [Connection.signals assemble] in El.
  rewrite El, length_app, Nat.add_sub, take_app_length in E.
  set (p' := apart (mux p) st) in *. set (s1 := set_outside _ _) in E.
  destruct (told_fresh p p' l (member_told _ _ _ Hp) Hok El) as (Hon&Hoff&Hold).
  destruct (heard_all inside h (Connection.remote_endpoint_ (conn p)) l s1) as (Ep1&Hno&Hyes). rewrite E in Ep1, Hno, Hyes.
  change (connections_ s1) with (connections_ s) in *. change (tasks s1) with (tasks s) in *.
  change (peers s1) with (<[h := p']> (peers s)) in Ep1.
  assert ((Connection.SRemoveConnection ∉ l) ∧ connections_ s' = connections_ s ∧ tasks s' = tasks s ∨
    (Connection.SRemoveConnection ∈ l) ∧ (h ∉ connections_ s' ∨ TRemove h ∈ tasks s') ∧
    (∀ h', h' ≠ h → h' ∈ connections_ s' ↔ h' ∈ connections_ s) ∧ ∃ k, tasks s' = tasks s ++ replicate k (TRemove h)) as Hs.
  { destruct (decide (Connection.SRemoveConnection ∈ l)) as [Hl|Hl]; [right|left; destruct (Hno Hl); by split_and!].
    split; [done|]. specialize (Hyes Hl). destruct inside.
    - destruct Hyes as [-> ->]. split; [left; set_solver +|]. split; [set_solver +|]. exists 0%nat. by rewrite app_nil_r.
    - destruct Hyes as [-> [k Ek]]. split; [|split; [done|by exists (S k)]]. right. rewrite Ek, elem_of_app. right. left. }
  clear E Hno Hyes. apply (members_after s s' h p p'); [by split|done|done|exact Hok|done|by apply Hin|].
  destruct Hs as [(Hl&Ec&Et)|(Hl&Hgone&Ec&k&Et)].
  - left. split; [|by split]. destruct (attached p') eqn:Ea; [symmetry; by apply Hon|].
    destruct (attached p) eqn:Ea0; [by destruct Hl; apply Hoff|done].
  - right. split; [|split; [done|split; [done|by exists k]]]. apply not_true_is_false. intros Ea. by apply Hon in Ea as [_ ?].
Qed.

(** A connection that is made is not in the set yet. *)
Lemma members_make_connection ep s h s' : members_ok s → make_connection fuel ep s = Ok (h, s') →
  members_ok s' ∧ connections_ s' = connections_ s ∧ tasks s' = tasks s ∧ accepting h s' = [] ∧ (TRemove h ∉ tasks s') ∧
  ∃ p, peers s' !! h = Some p ∧ attached p = true ∧ waits p = [].
Proof.
  intros Hm E. unfold make_connection in E. apply M_bind_inv in E as (x&s1&[= <- <-]&E).
  set (h0 := fresh (dom (peers s))) in *.
  assert (peers s !! h0 = None) as Hfresh by (apply not_elem_of_dom, is_fresh).
  apply M_bind_inv in E as ([]&s1&E1&E). apply unmoved_on_node in E1 as Hu. injection E as <- <-.
  set (p := MkPeer _ _ _ _ _). pose proof (unmoved_members _ _ Hu Hm) as [Hk He]. destruct Hu as [Ec Et Ep].
  assert (peers s1 !! h0 = None) as Hnone.
  { specialize (Ep h0). rewrite Hfresh in Ep. by destruct (peers s1 !! h0). }
  assert (∀ P : Prop, (P → is_Some (peers s1 !! h0)) → ¬ P) as Hnot.
  { intros P HP Hx. destruct (HP Hx) as [q Eq]. congruence. }
  assert ((h0 ∉ connections_ s1) ∧ (TRemove h0 ∉ tasks s1) ∧ accepting h0 s1 = []) as (N1&N2&N3).
  { split_and!; [apply Hnot; auto|apply Hnot; auto|]. destruct (accepting h0 s1) eqn:Ea; [done|].
    exfalso. apply (Hnot (accepting h0 s1 ≠ [])); [auto|]. by rewrite Ea. }
  split; [split|].
  - intros h Hh. cbn [set_peers peers]. destruct (decide (h = h0)) as [->|Hne]; [by rewrite lookup_insert_eq|].
    rewrite lookup_insert_ne by done. by apply Hk.
  - intros h q. cbn [set_peers peers]. destruct (decide (h = h0)) as [->|Hne].
    + rewrite lookup_insert_eq. intros [= <-]. split; try done; cbn [set_peers connections_ tasks].
      * by apply Forall_nil_2.
      * change (length (accepting h0 s1) ≤ 1)%nat. rewrite N3. cbn. lia.
    + rewrite lookup_insert_ne by done. intros Eq. by apply (member_ok_same s1 _ h q q), He.
  - split_and!; try done. exists p. cbn [set_peers peers]. by rewrite lookup_insert_eq.
Qed.

(** *** The set and the tasks *)

(** A task that is neither an accept nor a removal. *)
Definition neutral (t : task) : bool := match t with TAccept _ _ _ _ | TRemove _ => false | _ => true end.

Lemma members_same s s' : members_ok s → connections_ s' = connections_ s → peers s' = peers s →
  (∀ h, TRemove h ∈ tasks s' ↔ TRemove h ∈ tasks s) → (∀ h, accepting h s' = accepting h s) → members_ok s'.
Proof.
  intros [Hk He] Ec Ep Et Ea. split.
  - intros h. rewrite Ec, Ep, Et, Ea. apply Hk.
  - intros h p. rewrite Ep. intros E. apply (member_ok_same s s' h p p); [done|by rewrite Ec|apply Et|apply Ea|by apply He].
Qed.

Lemma members_dispatch t s : neutral t = true → members_ok s → members_ok (set_tasks (tasks s ++ [t]) s).
Proof.
  intros Ht Hm. apply (members_same s); try done; intros h; cbn [set_tasks tasks].
  - rewrite elem_of_app, list_elem_of_singleton. split; [intros [?|<-]; done|by left].
  - unfold accepting. cbn [set_tasks tasks]. rewrite filter_app, filter_cons_False; [by rewrite app_nil_r|destruct t; try done; by intros []].
Qed.

Lemma delete_other_task i t x s : tasks s !! i = Some t → x ≠ t → x ∈ delete i (tasks s) ↔ x ∈ tasks s.
Proof.
  intros Ei Hne. split; [|intros Hx; apply elem_of_delete; [done|]; rewrite Ei; congruence].
  intros [j Ej]%list_elem_of_lookup. apply list_elem_of_lookup. destruct (decide (j < i)%nat).
  - exists j. by rewrite list_lookup_delete_lt in Ej.
  - exists (S j). by rewrite list_lookup_delete_ge in Ej by lia.
Qed.

Lemma members_drop i t s : tasks s !! i = Some t → neutral t = true → members_ok s → members_ok (set_tasks (delete i (tasks s)) s).
Proof.
  intros Ei Ht Hm. apply (members_same s); try done; intros h; cbn [set_tasks tasks].
  - apply (delete_other_task i t); [done|]. by intros <-.
  - apply (filter_delete_other (accepts h) _ _ _ Ei). by destruct t.
Qed.

Lemma members_insert h p s : members_ok s → peers s !! h = Some p → attached p = true →
  members_ok (set_connections ({[h]} ∪ connections_ s) s).
Proof.
  intros [Hk He] E Ha. split.
  - intros h' Hh. destruct (decide (h' = h)) as [->|Hne]; [by eexists|]. apply Hk.
    cbn [set_connections connections_ tasks] in Hh. destruct Hh as [Hh|Hh]; [left; set_solver +Hh Hne|by right].
  - intros h' p' E'. destruct (decide (h' = h)) as [->|Hne].
    + assert (p' = p) as -> by (cbn in E'; congruence). destruct (He h p E) as [M1 M2 M3 M4 M5 M6].
      split; try done; cbn [set_connections connections_]; [set_solver +|by left].
    + apply (member_ok_same s _ h' p' p'); try done; [cbn; set_solver +Hne|by apply He].
Qed.

(** A connection of which nothing is known yet is inserted and started. *)
Lemma members_begin h p k s x s1 s2 : members_ok s → accepting h s = [] →
  peers s !! h = Some p → attached p = true →
  DoInsertConnection h s = Ok (x, s1) → on_connection true h (Connection.begin_ fuel h k) s1 = Ok (tt, s2) → members_ok s2.
Proof.
  intros Hm Ha E Hat [= _ <-] E2. eapply members_on_connection; [by eapply members_insert| | | |exact E2].
  - exact Ha.
  - intros. cbn. set_solver +.
  - apply Connection.tells_begin.
Qed.

Lemma members_StartAccept : preserves members_ok (StartAccept fuel).
Proof.
  intros s [] s' E Hm. unfold StartAccept in E. apply M_bind_inv in E as (h&s1&E1&E).
  destruct (members_make_connection _ _ _ _ Hm E1) as (Hm1&_&_&Ha&Hr&p&Ep&Hat&Hw).
  apply M_bind_inv in E as (y&s2&[= <- <-]&E). destruct (acceptor_ s1) as [a|]; [|done].
  apply M_bind_inv in E as (acc&s2&E2&E). apply M_bind_inv in E as ([]&s3&E3&E).
  apply unmoved_on_node in E2, E3. pose proof (unmoved_trans _ _ _ E2 E3) as Hu.
  pose proof (unmoved_members _ _ Hu Hm1) as [Hk He]. destruct Hu as [Ec Et Ev].
  injection E as <-. set (t := TAccept _ a h _).
  assert (accepting h s3 = []) as Ha3 by (unfold accepting; by rewrite Et).
  assert (∀ h', accepting h' (set_tasks (tasks s3 ++ [t]) s3) = accepting h' s3 ++ (if decide (h' = h) then [t] else [])) as Eacc.
  { intros h'. unfold accepting. cbn [set_tasks tasks]. rewrite filter_app. f_equal. rewrite filter_cons. cbn [accepts t].
    destruct (decide (h' = h)) as [->|]; [by rewrite bool_decide_eq_true_2|by rewrite bool_decide_eq_false_2]. }
  assert (∀ h', TRemove h' ∈ tasks s3 ++ [t] ↔ TRemove h' ∈ tasks s3) as Erem.
  { intros h'. rewrite elem_of_app, list_elem_of_singleton. split; [by intros [?|?]|by left]. }
  split.
  - intros h' Hh. cbn [set_tasks peers connections_ tasks] in *. rewrite Erem, Eacc in Hh.
    destruct (decide (h' = h)) as [->|]; [|apply Hk; by rewrite app_nil_r in Hh].
    specialize (Ev h). rewrite Ep in Ev. by destruct (peers s3 !! h).
  - intros h' p' E'. cbn [set_tasks peers] in E'. destruct (decide (h' = h)) as [->|Hne].
    + destruct (He h p' E') as [M1 M2 M3 M4 M5 M6]. specialize (Ev h). rewrite Ep, E' in Ev. injection Ev as Ea Ew _.
      split; [exact M1|exact M2| | | |].
      * intros [?|?]%M3; [by left|right]. by apply Erem.
      * intros Hx%Erem. by apply M4.
      * intros _. by rewrite Ea, Ew.
      * rewrite Eacc, decide_True, Ha3 by done. cbn. lia.
    + apply (member_ok_same s3 _ h' p' p'); [done|done|apply Erem|by rewrite Eacc, decide_False, app_nil_r|by apply He].
Qed.

Lemma members_HandleAccept m a h ec s s' : members_ok s → accepting h s = [] →
  (∃ p, peers s !! h = Some p ∧ attached p = true) → HandleAccept fuel m a h ec s = Ok (tt, s') → members_ok s'.
Proof.
  intros Hm Ha (p&Ep&Hat) E. unfold HandleAccept in E. apply M_bind_inv in E as (open&s1&E1&E).
  apply unmoved_on_node in E1 as Hu. pose proof (unmoved_members _ _ Hu Hm) as Hm1. destruct Hu as [Ec Et Ev].
  destruct open; cbn [negb] in E; [|by injection E as <-].
  apply M_bind_inv in E as ([]&s2&E2&E). apply (members_StartAccept _ _ _ E). destruct ec; cbn [negb when] in E2; [by injection E2 as <-|].
  apply M_bind_inv in E2 as (x&s3&E3&E2). specialize (Ev h). rewrite Ep in Ev.
  destruct (peers s1 !! h) as [p1|] eqn:Ep1; [|done]. injection Ev as Ea1 _ _.
  eapply (members_begin h p1 Connection.ToReceive); [exact Hm1| |exact Ep1|by rewrite Ea1|exact E3|exact E2].
  unfold accepting. by rewrite Et.
Qed.

Lemma members_StartDispatch : preserves members_ok StartDispatch.
Proof. intros s [] s' (x&s1&[= <- <-]&[= <-])%M_bind_inv Hm. by apply members_dispatch. Qed.

Lemma members_on_node {A} i (m : M Multiplexer.Node A) : preserves members_ok (on_node i m).
Proof. intros s a s' E. by apply unmoved_members, (unmoved_on_node i m s a). Qed.

Lemma members_start_connection ep k opened : preserves members_ok (start_connection fuel ep k opened).
Proof.
  intros s [] s' E Hm. destruct opened as [c|now]; cbn [start_connection] in E.
  { injection E as <-. by apply (members_same s). }
  apply M_bind_inv in E as (h&s1&E1&E). destruct (members_make_connection _ _ _ _ Hm E1) as (Hm1&_&_&Ha&Hr&p&Ep&Hat&Hw).
  apply M_bind_inv in E as (x&s2&E2&E). apply M_bind_inv in E as ([]&s3&E3&E).
  pose proof (members_begin h p k s1 x s2 s3 Hm1 Ha Ep Hat E2 E3) as Hm3.
  destruct now; [by apply (members_StartDispatch _ _ _ E)|by injection E as <-].
Qed.

Lemma members_open_multiplexer e1 e2 : preserves members_ok (open_multiplexer e1 e2).
Proof.
  unfold open_multiplexer. repeat first [apply members_on_node | preserves_step].
Qed.

(** Running the removal, and taking the accept. *)
Lemma members_remove i h s : tasks s !! i = Some (TRemove h) → members_ok s →
  members_ok (DoRemoveConnection h (set_tasks (delete i (tasks s)) s)).
Proof.
  intros Ei [Hk He]. set (s' := DoRemoveConnection _ _).
  assert (∀ h', accepting h' s' = accepting h' s) as Ea by (intros h'; exact (filter_delete_other (accepts h') _ _ _ Ei eq_refl)).
  assert (∀ h', TRemove h' ∈ tasks s' → TRemove h' ∈ tasks s) as Ht.
  { intros h' Hx. destruct (decide (TRemove h' = TRemove h)) as [->|Hne]; [by eapply list_elem_of_lookup_2|].
    exact (proj1 (delete_other_task i (TRemove h) _ s Ei Hne) Hx). }
  split.
  - intros h' Hh. apply Hk. rewrite Ea in Hh. destruct Hh as [Hh|[Hh|?]]; [left; cbn in Hh; set_solver +Hh|right; left; by apply Ht|by right; right].
  - intros h' p E. destruct (He h' p E) as [M1 M2 M3 M4 M5 M6]. destruct (decide (h' = h)) as [->|Hne].
    + assert (attached p = false) as Hd by by apply M4; eapply list_elem_of_lookup_2.
      split; rewrite ?Ea; try done; [by rewrite Hd|cbn; set_solver +].
    + apply (member_ok_same s s' h' p p); [done|cbn; set_solver +Hne| |apply Ea|by split].
      apply (delete_other_task i (TRemove h) (TRemove h') s Ei). congruence.
Qed.

Lemma members_take_accept i m a h since s : tasks s !! i = Some (TAccept m a h since) → members_ok s →
  let s1 := set_tasks (delete i (tasks s)) s in
  members_ok s1 ∧ accepting h s1 = [] ∧ ∃ p, peers s1 !! h = Some p ∧ attached p = true.
Proof.
  intros Ei [Hk He] s1. destruct (filter_delete (accepts h) _ _ _ Ei) as (l1&l2&El&Ed).
  cbn [accepts] in El. rewrite bool_decide_eq_true_2 in El by done. change (accepting h s = l1 ++ [TAccept m a h since] ++ l2) in El.
  destruct (Hk h) as [p Ep]; [right; right; rewrite El; by destruct l1|].
  destruct (He h p Ep) as [M1 M2 M3 M4 M5 M6].
  assert (attached p = true ∧ waits p = []) as [Hat Hw] by (apply M5; rewrite El; by destruct l1).
  assert (accepting h s1 = []) as Ha.
  { unfold accepting. cbn [s1 set_tasks tasks]. rewrite Ed. rewrite El, !length_app in M6. cbn in M6. destruct l1, l2; cbn in M6; [done|lia..]. }
  assert (∀ h', h' ≠ h → accepting h' s1 = accepting h' s) as Eo.
  { intros h' Hne. apply (filter_delete_other (accepts h') _ _ _ Ei). cbn. apply bool_decide_eq_false_2. congruence. }
  assert (∀ h', TRemove h' ∈ tasks s1 ↔ TRemove h' ∈ tasks s) as Et by (intros h'; by apply (delete_other_task i (TAccept m a h since))).
  split; [split|split; [done|by exists p]].
  - intros h' Hh. rewrite Et in Hh. apply Hk. destruct (decide (h' = h)) as [->|Hne]; [|by rewrite Eo in Hh].
    right. right. rewrite El. by destruct l1.
  - intros h' p' E'. destruct (decide (h' = h)) as [->|Hne].
    + assert (p' = p) as -> by (cbn in E'; congruence). split; rewrite ?Ha, ?Et; try done. cbn. lia.
    + apply (member_ok_same s s1 h' p' p'); [done|done|apply Et|by apply Eo|by apply He].
Qed.

Lemma members_task i e1 e2 queue : preserves members_ok (complete_task fuel i e1 e2 queue).
Proof.
  intros s [] s' E Hm. unfold complete_task in E. apply M_bind_inv in E as (x&s1&[= <- <-]&E).
  destruct (tasks s !! i) as [t|] eqn:Ei; [|by injection E as <-]. destruct (ready _ _ _); [|by injection E as <-].
  apply M_bind_inv in E as ([]&s1&[= <-]&E). set (s1 := set_tasks (delete i (tasks s)) s) in *.
  destruct t as [m a|m|h|m a h since|m|data ep timeout|ep timeout]; cbn [run_task] in E.
  - apply (members_on_node _ _ _ _ _ E). by eapply members_drop.
  - apply (members_on_node _ _ _ _ _ E). by eapply members_drop.
  - injection E as <-. by apply (members_remove i).
  - destruct (members_take_accept i m a h since s Ei Hm) as (Hm1&Ha&p&Ep&Hat). fold s1 in Hm1, Ha, Ep.
    apply M_bind_inv in E as (ec&s2&E2&E). apply unmoved_on_node in E2 as Hu.
    pose proof (unmoved_members _ _ Hu Hm1) as Hm2. destruct Hu as [Ec Et Ev]. specialize (Ev h). rewrite Ep in Ev.
    eapply members_HandleAccept; [exact Hm2| | |exact E]; [unfold accepting; by rewrite Et|].
    destruct (peers s2 !! h) as [p2|]; [|done]. injection Ev as Ea _ _. exists p2. split; [done|]. by rewrite Ea.
  - apply M_bind_inv in E as ([]&s2&E2&E). assert (members_ok s2) as Hm2.
    { apply (members_on_node _ _ _ _ _ E2). by eapply members_drop. }
    apply M_bind_inv in E as (o&s3&E3&E). pose proof (members_on_node _ _ _ _ _ E3 Hm2) as Hm3.
    destruct o; [by apply (members_StartDispatch _ _ _ E)|by injection E as <-].
  - apply M_bind_inv in E as (o&s2&E2&E). apply (members_start_connection _ _ _ _ _ _ E), (members_open_multiplexer _ _ _ _ _ E2).
    by eapply members_drop.
  - apply M_bind_inv in E as (o&s2&E2&E). apply (members_start_connection _ _ _ _ _ _ E), (members_open_multiplexer _ _ _ _ _ E2).
    by eapply members_drop.
Qed.

Lemma members_handler h i ec : preserves members_ok (complete_handler respond h i ec).
Proof.
  intros s [] s' E Hm. unfold complete_handler in E. apply M_bind_inv in E as (x&s1&[= <- <-]&E).
  destruct (peers s !! h) as [p|] eqn:Ep; cbn [mbind option_bind] in E; [|by injection E as <-].
  destruct (waits p !! i) as [k|] eqn:Ek; [|by injection E as <-].
  destruct (members_each _ Hm h p Ep) as [M1 M2 M3 M4 M5 M6].
  assert (waits p ≠ []) as Hw by (intros Ew; by rewrite Ew in Ek).
  eapply members_on_connection; [exact Hm| | |apply Connection.tells_complete|exact E].
  - destruct (accepting h s) eqn:Ea; [done|]. exfalso. apply Hw, M5. done.
  - intros p' Ep' Ha. rewrite Ep in Ep'. injection Ep' as <-. by apply M2.
Qed.

Lemma members_call k : preserves members_ok (run_call fuel respond k).
Proof.
  assert (∀ f : RudpTransport → RudpTransport, (∀ s, connections_ (f s) = connections_ s ∧ peers (f s) = peers s ∧ tasks (f s) = tasks s) →
    preserves members_ok (modify f)) as Hmod.
  { intros f Hf. apply preserves_modify. intros s Hm. destruct (Hf s) as (E1&E2&E3).
    apply (members_same s); try done; [by rewrite E3|intros h; unfold accepting; by rewrite E3]. }
  assert (∀ t, neutral t = true → preserves members_ok (dispatch t)) as Hdis.
  { intros t Ht. apply preserves_modify. intros s. by apply members_dispatch. }
  destruct k as [ep e1 e2 e3|inside|data ep timeout|data contact timeout|ep timeout|i e1 e2 queue|h i ec]; cbn [run_call].
  - apply preserves_bind; [|intros _; apply preserves_ret]. unfold StartListening.
    repeat first [apply members_on_node | apply members_StartAccept | apply members_StartDispatch | apply Hmod; done | preserves_step].
  - unfold StopListening, CloseAcceptor, CloseMultiplexer.
    repeat first [apply members_on_node | apply Hdis; done | apply Hmod; done | preserves_step].
  - by apply Hdis.
  - unfold SendTo, Send. repeat first [apply Hdis; done | preserves_step].
  - by apply Hdis.
  - apply members_task.
  - apply members_handler.
Qed.

(** C21: Whatever happens to an RUDP transport, its set of connections is right: a
    connection that was started and is attached to its transport is in the set,
    and one in the set is attached or about to be removed.  None is forgotten
    while it works, and none stays after it asked to be removed. *)
Theorem rudp_connections_attached can s h p :
  reachable fuel respond can s → peers s !! h = Some p →
  (attached p = true → waits p ≠ [] → h ∈ connections_ s) ∧
  (h ∈ connections_ s → attached p = true ∨ TRemove h ∈ tasks s).
Proof.
  intros Hr E. assert (members_ok s) as Hm.
  { clear E. induction Hr as [w|s k s' _ IH _ Ek]; [|exact (members_call k _ _ _ Ek IH)].
    split; [|done]. by intros h' [[]%not_elem_of_empty|[[]%not_elem_of_nil|Hx]]. }
  destruct (members_each _ Hm h p E). done.
Qed.
End membership.

(** ** Examples *)
Module RudpExamples.
Import Shared.Demo.

Definition silent (_ : list Z) : list Z * Z := ([], 0).
Definition t0 : RudpTransport := new_transport (MkWorld _ 0 0 []).
Definition here : endpoint := remote 1.

Definition after_call (k : call) (s : RudpTransport) : RudpTransport := (from_ok (tt, s) (run_call 4 silent k s)).2.

Lemma rudp_call_after k s : is_ok (run_call 4 silent k s) = true → run_call 4 silent k s = Ok (tt, after_call k s).
Proof. intros E. rewrite (from_ok_eq (tt, s) _ E). unfold after_call. by destruct (from_ok _ _) as [[] ?]. Qed.

Lemma rudp_reachable_call (can : call → Prop) k s : reachable 4 silent can s → can k → is_ok (run_call 4 silent k s) = true →
  reachable 4 silent can (after_call k s).
Proof. intros Hr Hc E. eapply reachable_step; [exact Hr|exact Hc|]. by apply rudp_call_after. Qed.

(** A transport listens, and a request for a connection arrives. *)
Definition request : list Z := [0x80;0;0;0;0;0;0;0;0;0;0;0;0;0;0;0;0;0;0;4;0;0;0;0;0;0;0;0;0;0;0;0;0;0;0;0;0;0;0;1;0;0;0;7;0;0;0;0;
  0;0;0;0;0;0;0;0;0;0;0;0;0;0;0;0].
Definition listening : RudpTransport := after_call (CListen here false false false) t0.
Definition requested : RudpTransport := after_call (CTask 1 false false [(request, remote 3)]) listening.
Definition accepted : RudpTransport := after_call (CTask 0 false false []) requested.

Lemma rudp_accepted_reachable (can : call → Prop) :
  (∀ k, k = CListen here false false false ∨ (∃ i queue, k = CTask i false false queue) → can k) →
  reachable 4 silent can accepted.
Proof.
  intros Hc. apply rudp_reachable_call; [|apply Hc; eauto|vm_compute; reflexivity].
  apply rudp_reachable_call; [|apply Hc; eauto|vm_compute; reflexivity].
  apply rudp_reachable_call; [apply reachable_new|apply Hc; eauto|vm_compute; reflexivity].
Qed.

Lemma rudp_connections_attached_witness :
  ∃ p, peers accepted !! 1%positive = Some p ∧ attached p = true ∧ waits p ≠ [] ∧ 1%positive ∈ connections_ accepted.
Proof.
  destruct (Multiplexer.MultiplexerExamples.test_Some (λ p, attached p && negb (bool_decide (waits p = []))) (peers accepted !! 1%positive))
    as (p&E&[Ha Hw]%andb_true_iff); [vm_compute; reflexivity|].
  apply negb_true_iff, bool_decide_eq_false in Hw. exists p. split_and!; [done..|].
  by apply (rudp_connections_attached 4 silent (λ _, True) accepted _ p (rudp_accepted_reachable _ (λ _ _, I)) E).
Defined.
(** Sending to a contact that is reached through a rendezvous uses a null pointer. *)
Lemma send_to_rendezvous_crashes data contact timeout s :
  ep_address (Contact.rendezvous_endpoint_ contact) ≠ ip_none →
  run_call 4 silent (CSendTo data contact timeout) s = Fault OutOfBounds.
Proof. intros Hr. cbn [run_call]. unfold SendTo. by rewrite bool_decide_false. Qed.
End RudpExamples.
