(* ===== verification/RudpListening.v ===== *)
(** * The RUDP transport keeps listening

    About [RudpTransport]: which multiplexer has an acceptor, when the UDP socket is
    open, and what is pending on it.  First that operations of sockets, connections
    and acceptors leave the dispatcher's acceptor and the UDP socket alone, then the
    invariant of the transport. *)

From S2P Require Import Prelude Environment Packet ControlPackets Transport SlidingWindow CongestionControl.
From S2P Require Import Shared Decoded Dispatcher Frames.
From S2P Require DataPacket HandshakePacket NegativeAckPacket Session Sender Receiver Socket.
From S2P Require Multiplexer Connection Contact.
From S2P Require Import RudpTransport.

(** ** The doors of a multiplexer

    What is done with sockets and connections neither opens nor closes the UDP
    socket and does not change the dispatcher's acceptor. *)
Section doors.
Context `{Environment} (fuel : nat) (respond : list Z → list Z * Z).

Definition slot_of (st : Socket.State) : option handle := Dispatcher.acceptor_ st.2.1.
#[local] Instance slot_framed : Framed slot_of.
Proof. by split. Qed.

Lemma slot_upd_read g : keeps slot_of (Socket.upd_read g).
Proof. by intros s a s' [= _ <-]. Qed.
Lemma slot_in_session {A} (m : M (Session.Session * Shared) A) : keeps slot_of (Socket.in_session m).
Proof. by intros s a s' (t&_&->)%zoom_inv. Qed.
Lemma slot_remove (g : Socket.Socket → Z) : keeps slot_of (s ← Socket.me id; Socket.in_dispatcher (RemoveSocket (g s))).
Proof.
  intros s a s' (x&s1&[= <- <-]&[= _ <-])%M_bind_inv. unfold slot_of. cbn. unfold RemoveSocket. by case_match.
Qed.
#[local] Hint Resolve slot_upd_read slot_in_session slot_remove : frames.

Lemma slot_ProcessRead : keeps slot_of Socket.ProcessRead.
Proof. unfold Socket.ProcessRead. keeps. Qed.
#[local] Hint Resolve slot_ProcessRead : frames.
Lemma slot_AsyncRead size n : keeps slot_of (Socket.AsyncRead size n).
Proof. unfold Socket.AsyncRead, Socket.StartRead. keeps. Qed.
Lemma slot_Close : keeps slot_of Socket.Close.
Proof.
  unfold Socket.Close. apply keeps_bind; [keeps|intros s]. apply keeps_bind; [|intros _; keeps].
  apply keeps_when, keeps_bind; [keeps|intros _]. apply keeps_bind; [keeps|intros _]. apply (slot_remove Socket.Id).
Qed.

Lemma slot_AddSocket h : keeps slot_of (zoom snd (λ n s, (s.1, n)) (AddSocket fuel h)).
Proof.
  intros s id s' ([d w]&E&->)%zoom_inv. unfold AddSocket in E. apply M_bind_inv in E as (x&[d1 w1]&E1&E).
  apply M_bind_inv in E as ([]&s2&[= <-]&[= _ <-]). unfold slot_of. cbn.
  assert (preserves (λ n : Socket.Net, Dispatcher.acceptor_ n.1 = Dispatcher.acceptor_ s.2.1) (loop fuel (λ id,
    d ← gets fst; if taken id d then r ← zoom snd (λ w s, (s.1, w)) RandomUint32; mret (inl r) else mret (inr id)) 0)) as Hl.
  { generalize 0. clear. induction fuel as [|n IH]; intros z; [by intros ???|]. cbn [loop].
    apply preserves_bind; [|intros [y|y]; [apply IH|apply preserves_ret]].
    apply preserves_bind; [apply preserves_gets|intros d2]. destruct (taken z d2); [|apply preserves_ret].
    apply preserves_bind; [|intros; apply preserves_ret]. by intros ? ? ? (?&_&->)%zoom_inv. }
  exact (Hl _ _ _ E1 eq_refl).
Qed.
#[local] Hint Resolve slot_AsyncRead slot_Close slot_AddSocket : frames.

Lemma slot_OpenSession h mode : keeps slot_of (Socket.OpenSession fuel h mode).
Proof. unfold Socket.OpenSession. keeps. Qed.
#[local] Hint Resolve slot_OpenSession : frames.
Lemma slot_AsyncConnect h : keeps slot_of (Socket.AsyncConnect fuel h).
Proof.
  unfold Socket.AsyncConnect, Socket.StartConnect, assertb. keeps. all: by intros ???.
Qed.
Lemma slot_AsyncConnect_to h remote : keeps slot_of (Socket.AsyncConnect_to fuel h remote).
Proof. unfold Socket.AsyncConnect_to, Socket.StartConnect_to. keeps. Qed.
Lemma slot_TickOp : keeps slot_of Socket.TickOp.
Proof. unfold Socket.TickOp, Socket.HandleTick. keeps. Qed.
Lemma slot_HandleReceiveFrom data ep : keeps slot_of (Socket.HandleReceiveFrom data ep).
Proof.
  unfold Socket.HandleReceiveFrom, Socket.HandleData, Socket.HandleAck, Socket.HandleAckOfAck,
    Socket.HandleNegativeAck, Socket.HandleHandshake, Socket.if_connected. keeps.
Qed.
#[local] Hint Resolve slot_AsyncConnect slot_AsyncConnect_to slot_TickOp : frames.

(** *** Connections *)
Definition slot_is (a : option handle) (st : Connection.State) : Prop :=
  Dispatcher.acceptor_ (Connection.net st).1 = a.
Section connection.
Context (a : option handle).

Lemma slot_in_socket {A} (m : M Socket.State A) : keeps slot_of m → preserves (slot_is a) (Connection.in_socket m).
Proof.
  intros Hm st x st' E Hs. unfold Connection.in_socket in E. destruct (m _) as [[y [so n]]|] eqn:Em; [|done].
  injection E as _ <-. apply Hm in Em. unfold slot_is in *. cbn. unfold slot_of in Em. cbn in Em. congruence.
Qed.
Lemma slot_now : preserves (slot_is a) Connection.now.
Proof. intros st x st' (w&_&->)%zoom_inv Hs. exact Hs. Qed.
Lemma slot_upd_conn f : preserves (slot_is a) (Connection.upd_conn f).
Proof. by intros st x st' [= _ <-]. Qed.
Lemma slot_signal e : preserves (slot_is a) (Connection.signal_ e).
Proof. by intros st x st' [= _ <-]. Qed.
Lemma slot_await p : preserves (slot_is a) (Connection.await p).
Proof. by intros st x st' [= _ <-]. Qed.

Ltac slot := repeat first
  [ apply slot_now | apply slot_upd_conn | apply slot_signal | apply slot_await
  | apply slot_in_socket; solve [auto with frames] | apply preserves_modify; done | preserves_step ].

Lemma slot_async h calls m : keeps slot_of m → preserves (slot_is a) (Connection.async h calls m).
Proof. intros Hm. unfold Connection.async. repeat first [by apply slot_in_socket | slot]. Qed.
Lemma slot_expires_from_now d : preserves (slot_is a) (Connection.expires_from_now d).
Proof. unfold Connection.expires_from_now, Connection.expires_at. slot. Qed.
Lemma slot_DoClose : preserves (slot_is a) Connection.DoClose.
Proof.
  unfold Connection.DoClose. repeat first [apply slot_async; auto with frames | apply slot_expires_from_now | slot].
Qed.
Lemma slot_CloseOnError e : preserves (slot_is a) (Connection.CloseOnError e).
Proof. unfold Connection.CloseOnError. repeat first [apply slot_DoClose | slot]. Qed.

Ltac slots := repeat first
  [ apply slot_CloseOnError | apply slot_DoClose | apply slot_expires_from_now
  | apply slot_async; solve [auto with frames] | slot ].

Lemma slot_CheckTimeout ec : preserves (slot_is a) (Connection.CheckTimeout ec).
Proof. unfold Connection.CheckTimeout, Connection.post. slots. Qed.
Lemma slot_read_from off n h : preserves (slot_is a) (Connection.read_from off n h).
Proof. unfold Connection.read_from. slots. Qed.
Lemma slot_StartReadSize : preserves (slot_is a) Connection.StartReadSize.
Proof. unfold Connection.StartReadSize. repeat first [apply slot_read_from | slots]. Qed.
Lemma slot_StartReadData : preserves (slot_is a) Connection.StartReadData.
Proof. unfold Connection.StartReadData. repeat first [apply slot_read_from | slots]. Qed.
Lemma slot_EncodeData data : preserves (slot_is a) (Connection.EncodeData data).
Proof. unfold Connection.EncodeData. slots. Qed.
Lemma slot_begin h k : preserves (slot_is a) (Connection.begin_ fuel h k).
Proof.
  destruct k; cbn [Connection.begin_]; unfold Connection.StartReceiving, Connection.StartSending, Connection.Connect,
    Connection.StartTick, Connection.StartServerConnect, Connection.StartClientConnect, Connection.SimpleClientConnect,
    Connection.post; repeat first [apply slot_CheckTimeout | apply slot_EncodeData | slots].
Qed.
Lemma slot_complete i ec : preserves (slot_is a) (Connection.complete respond i ec).
Proof.
  unfold Connection.complete. apply preserves_bind; [slots|intros st]. destruct (Connection.handlers st !! i) as [p|]; [|slots].
  apply preserves_when, preserves_bind; [slots|intros _]. unfold Connection.run_handler.
  apply preserves_bind; [slots|intros st']. cbv zeta. destruct (Socket.read_result _) as [e n].
  destruct (Connection.p_handler p);
    unfold Connection.HandleServerConnect, Connection.HandleClientConnect, Connection.HandleSimpleClientConnect,
      Connection.HandleReadSize, Connection.HandleReadData, Connection.HandleWrite, Connection.HandleTick,
      Connection.StartTick, Connection.StartWrite, Connection.DispatchMessage, Connection.expires_at, Connection.post;
    repeat first [apply slot_CheckTimeout | apply slot_EncodeData | apply slot_StartReadSize | apply slot_StartReadData | slots].
Qed.
End connection.
End doors.

(** *** Multiplexers *)
Section nodes.
Context `{Environment} (fuel : nat) (respond : list Z → list Z * Z).

Definition slot (n : Multiplexer.Node) : option handle := Dispatcher.acceptor_ (Multiplexer.dispatcher_ n).
Definition node_keeps {A} (m : M Multiplexer.Node A) : Prop := ∀ n a n', m n = Ok (a, n') →
  Multiplexer.socket_is_open n' = Multiplexer.socket_is_open n ∧ slot n' = slot n.

Lemma node_bind {A B} (m : M Multiplexer.Node A) (k : A → M Multiplexer.Node B) :
  node_keeps m → (∀ a, node_keeps (k a)) → node_keeps (m ≫= k).
Proof. intros Hm Hk n b n' (a&n1&[??]%Hm&[??]%Hk)%M_bind_inv. split; congruence. Qed.
Lemma node_ret {A} (a : A) : node_keeps (mret a).
Proof. by intros n b n' [= _ <-]. Qed.
Lemma node_gets {A} (f : Multiplexer.Node → A) : node_keeps (gets f).
Proof. by intros n b n' [= _ <-]. Qed.
Lemma node_when b m : node_keeps m → node_keeps (when b m).
Proof. destruct b; [done|intros _; apply node_ret]. Qed.
Lemma node_liftR {A} (r : Res A) : node_keeps (liftR r).
Proof. intros n b n'. unfold liftR. destruct r; [|done]. by intros [= _ <-]. Qed.
Lemma node_assertb b : node_keeps (assertb b).
Proof. unfold assertb. destruct b; [apply node_ret|by intros ???]. Qed.
Lemma node_on_socket {A} h (m : M Socket.State A) : keeps slot_of m → node_keeps (Multiplexer.on_socket h m).
Proof.
  intros Hm n a n' E. unfold Multiplexer.on_socket in E. destruct (Multiplexer.sockets n !! h) as [so|]; [|done].
  destruct (m _) as [[b [so' net']]|] eqn:Em; [|done]. injection E as _ <-. apply Hm in Em. by split.
Qed.
Lemma node_acceptor h : node_keeps (Multiplexer.acceptor h).
Proof. intros n b n'. unfold Multiplexer.acceptor. destruct (_ !! h); [|done]. by intros [= _ <-]. Qed.
Lemma node_upd_acceptor h f : node_keeps (Multiplexer.upd_acceptor h f).
Proof. by intros n b n' [= _ <-]. Qed.

#[local] Instance slot_of_framed : Framed slot_of.
Proof. by split. Qed.
Lemma node_SetPeer h ep id : node_keeps (Multiplexer.SetPeer h ep id).
Proof. unfold Multiplexer.SetPeer. apply node_bind; [|intros _]; apply node_on_socket; keeps. Qed.

Ltac nodes := repeat first
  [ apply node_SetPeer | apply node_bind; [|intros ?] | apply node_ret | apply node_gets | apply node_when | apply node_liftR
  | apply node_assertb | apply node_acceptor | apply node_upd_acceptor
  | match goal with |- node_keeps (match ?x with _ => _ end) => destruct x end ].

Lemma node_AsyncAccept a h : node_keeps (Multiplexer.AsyncAccept a h).
Proof. unfold Multiplexer.AsyncAccept, Multiplexer.StartAccept. nodes. Qed.
Lemma node_AcceptOp h : node_keeps (Multiplexer.AcceptOp h).
Proof. unfold Multiplexer.AcceptOp. apply node_on_socket. keeps. Qed.
Lemma node_DispatchFrom data ep : node_keeps (Multiplexer.DispatchFrom data ep).
Proof.
  unfold Multiplexer.DispatchFrom, Multiplexer.HandleReceiveFrom. apply node_bind; [by intros n b n' [= _ <-]|intros n].
  nodes. apply node_on_socket, slot_HandleReceiveFrom.
Qed.
Lemma node_DispatchOp queue : node_keeps (Multiplexer.DispatchOp queue).
Proof.
  induction queue as [|[data ep] queue IH]; cbn [Multiplexer.DispatchOp]; [apply node_ret|].
  apply node_bind; [apply node_DispatchFrom|by intros _].
Qed.
Lemma node_new_socket_at h : node_keeps (Multiplexer.new_socket_at fuel h).
Proof.
  unfold Multiplexer.new_socket_at. apply node_bind; [|intros so; by intros n b n' [= _ <-]].
  by intros n b n' (w&_&->)%zoom_inv.
Qed.
End nodes.

(** ** A transport in order *)
Section tuned.
Context `{Environment} (fuel : nat) (respond : list Z → list Z * Z).
Implicit Types (s : RudpTransport) (l : list task).

Definition door (i : nat) s : option (bool * option handle) :=
  (λ n, (Multiplexer.socket_is_open n, slot n)) <$> nodes s !! i.
Definition closing (t : task) : bool := match t with TCloseAcceptor _ _ | TCloseMultiplexer _ => true | _ => false end.

(** With tasks [l]: only its own multiplexer has an acceptor; while that is open a
    receive is pending on it, and while it listens an accept. *)
Record tuned l s : Prop := {
  tuned_current : is_Some (door (multiplexer_ s) s);
  tuned_slot i o a : door i s = Some (o, a) → a = if decide (i = multiplexer_ s) then acceptor_ s else None;
  tuned_dispatch a : door (multiplexer_ s) s = Some (true, a) → TDispatch (multiplexer_ s) ∈ l;
  tuned_listens : listening_port_ s ≠ 0 → ∃ a h since, acceptor_ s = Some a ∧
    door (multiplexer_ s) s = Some (true, Some a) ∧ TAccept (multiplexer_ s) a h since ∈ l;
  tuned_closing t : t ∈ l → closing t = false;
}.

(** Nothing of that changes, but for new tasks. *)
Record still s s' : Prop := {
  still_door i : door i s' = door i s;
  still_multiplexer : multiplexer_ s' = multiplexer_ s;
  still_acceptor : acceptor_ s' = acceptor_ s;
  still_listening : listening_port_ s' = listening_port_ s;
  still_tasks : ∃ l, tasks s' = tasks s ++ l ∧ ∀ t, t ∈ l → closing t = false;
}.

Lemma still_refl s : still s s.
Proof. split; try done. exists []. rewrite app_nil_r. split; [done|]. by intros ? []%not_elem_of_nil. Qed.
Lemma still_trans s1 s2 s3 : still s1 s2 → still s2 s3 → still s1 s3.
Proof.
  intros [D1 M1 A1 L1 (l1&E1&C1)] [D2 M2 A2 L2 (l2&E2&C2)]. split; [intros; by rewrite D2|congruence..|].
  exists (l1 ++ l2). rewrite E2, E1, (assoc_L (++)). split; [done|]. intros t [?|?]%elem_of_app; auto.
Qed.
Lemma still_same s s' : (∀ i, door i s' = door i s) → multiplexer_ s' = multiplexer_ s → acceptor_ s' = acceptor_ s →
  listening_port_ s' = listening_port_ s → tasks s' = tasks s → still s s'.
Proof. intros. split; try done. exists []. rewrite app_nil_r. split; [done|]. by intros ? []%not_elem_of_nil. Qed.
Lemma still_dispatch t s : closing t = false → still s (set_tasks (tasks s ++ [t]) s).
Proof. intros Ht. split; try done. exists [t]. split; [done|]. by intros t' ->%list_elem_of_singleton. Qed.

Lemma tuned_still l s s' : still s s' → tuned l s → tuned l s'.
Proof.
  intros [D M A L _] [T1 T2 T3 T4 T5]. split; rewrite ?M, ?A, ?L; try (rewrite D); try done.
  intros i o a. rewrite D. apply T2.
Qed.
Lemma tuned_more l l' s : (∀ t, t ∈ l → t ∈ l') → (∀ t, t ∈ l' → closing t = false) → tuned l s → tuned l' s.
Proof.
  intros Hl Hc [T1 T2 T3 T4 T5]. split; try done.
  - intros a Ha. eapply Hl, T3, Ha.
  - intros (a&h&since&E1&E2&Hin)%T4. exists a, h, since. auto.
Qed.
(** The task that ran is not missed. *)
Lemma tuned_drop t l s : tuned (t :: l) s →
  match t with
  | TDispatch m => ∀ a, m = multiplexer_ s → door m s = Some (true, a) → TDispatch m ∈ l
  | TAccept m a _ _ => m = multiplexer_ s → acceptor_ s = Some a → ∃ h since, TAccept m a h since ∈ l
  | _ => True
  end → tuned l s.
Proof.
  intros [T1 T2 T3 T4 T5] Ht. split; try done.
  - intros a Ha. destruct (proj1 (elem_of_cons _ _ _) (T3 a Ha)) as [Et|?]; [|done]. subst t. by eapply Ht.
  - intros (a&h&since&E1&E2&Hin)%T4. apply elem_of_cons in Hin as [Et|Hin]; [|by exists a, h, since].
    subst t. destruct Ht as (h'&since'&Hin); [done|done|]. by exists a, h', since'.
  - intros t' Hin. apply T5. by right.
Qed.

(** *** Steps that leave the doors alone *)
Lemma door_insert i n n' (l : list Multiplexer.Node) :
  l !! i = Some n → Multiplexer.socket_is_open n' = Multiplexer.socket_is_open n → slot n' = slot n →
  ∀ j, (λ n, (Multiplexer.socket_is_open n, slot n)) <$> <[i := n']> l !! j =
       (λ n, (Multiplexer.socket_is_open n, slot n)) <$> l !! j.
Proof.
  intros E Eo Es j. destruct (decide (j = i)) as [->|Hne]; [|by rewrite list_lookup_insert_ne by congruence].
  rewrite list_lookup_insert_eq by by eapply lookup_lt_Some. rewrite E. cbn. by rewrite Eo, Es.
Qed.

Lemma still_on_node {A} i (m : M Multiplexer.Node A) s a s' : node_keeps m → on_node i m s = Ok (a, s') → still s s'.
Proof.
  intros Hm E. unfold on_node in E. destruct (nodes s !! i) as [n|] eqn:En; [|done].
  destruct (m _) as [[b n']|] eqn:Em; [|done]. injection E as _ <-. apply Hm in Em as [Eo Es].
  apply still_same; try done. intros j. unfold door. cbn [set_outside set_nodes set_peers nodes]. by apply (door_insert i n).
Qed.

Lemma still_heard inside h ep (es : list Connection.signal) s : still s (foldr (heard inside h ep) s es).
Proof.
  induction es as [|e es IH]; [apply still_refl|]. cbn [foldr]. eapply still_trans; [exact IH|]. set (s1 := foldr _ _ _).
  destruct e; cbn [heard]; try by apply still_same. destruct inside; cbn [RemoveConnection]; [by apply still_same|].
  by apply still_dispatch.
Qed.

Lemma still_on_connection inside h m s s' : (∀ a, preserves (slot_is a) m) →
  on_connection inside h m s = Ok (tt, s') → still s s'.
Proof.
  intros Hm E. unfold on_connection in E. destruct (peers s !! h) as [p|]; [|done].
  destruct (nodes s !! mux p) as [n|] eqn:En; [|done]. destruct (Multiplexer.sockets n !! h) as [so|]; [|done].
  destruct (m _) as [[x st]|] eqn:Em; [|done]. injection E as <-. eapply still_trans; [|apply still_heard].
  apply still_same; try done. intros j. unfold door. cbn [set_outside set_nodes set_peers nodes].
  apply (door_insert (mux p) n); [done|done|]. exact (Hm (slot n) _ _ _ Em eq_refl).
Qed.

Lemma still_make_connection ep s h s' : make_connection fuel ep s = Ok (h, s') → still s s'.
Proof.
  intros E. unfold make_connection in E. apply M_bind_inv in E as (x&s1&[= <- <-]&E).
  apply M_bind_inv in E as ([]&s1&E1&E). apply still_on_node in E1; [|apply node_new_socket_at].
  injection E as _ <-. eapply still_trans; [exact E1|]. by apply still_same.
Qed.

(** Accepting goes on. *)
Lemma still_StartAccept s s' : StartAccept fuel s = Ok (tt, s') →
  still s s' ∧ ∃ a h since, acceptor_ s = Some a ∧ TAccept (multiplexer_ s) a h since ∈ tasks s'.
Proof.
  intros E. unfold StartAccept in E. apply M_bind_inv in E as (h&s1&E1&E). apply still_make_connection in E1.
  apply M_bind_inv in E as (y&s2&[= <- <-]&E). destruct (acceptor_ s1) as [a|] eqn:Ea; [|done].
  apply M_bind_inv in E as (acc&s2&E2&E). apply still_on_node in E2; [|apply node_acceptor].
  apply M_bind_inv in E as ([]&s3&E3&E). apply still_on_node in E3; [|apply node_AsyncAccept].
  injection E as <-. split.
  - eapply still_trans; [exact E1|]. eapply still_trans; [exact E2|]. eapply still_trans; [exact E3|]. by apply still_dispatch.
  - rewrite (still_acceptor _ _ E1) in Ea. exists a, h. eexists. split; [done|]. cbn [set_tasks tasks].
    rewrite elem_of_app, <-(still_multiplexer _ _ E1). right. by left.
Qed.

Lemma still_StartDispatch s s' : StartDispatch s = Ok (tt, s') → still s s' ∧ TDispatch (multiplexer_ s) ∈ tasks s'.
Proof.
  intros (x&s1&[= <- <-]&[= <-])%M_bind_inv. split; [by apply still_dispatch|]. cbn. rewrite elem_of_app. right. by left.
Qed.

Lemma still_tuned s s' : still s s' → tuned (tasks s) s → tuned (tasks s') s'.
Proof.
  intros Hs Ht. destruct (still_tasks _ _ Hs) as (l'&El&Hc). apply (tuned_still _ s); [done|].
  apply (tuned_more (tasks s)); [| |done].
  - intros t. rewrite El, elem_of_app. by left.
  - intros t. rewrite El, elem_of_app. intros [Hin|?]; [by eapply tuned_closing|by apply Hc].
Qed.

(** A task is taken and what runs leaves the doors alone. *)
Lemma tuned_taken t s s' : tuned (t :: tasks s) s → still s s' → tuned (t :: tasks s') s'.
Proof.
  intros Ht Hs. destruct (still_tasks _ _ Hs) as (l'&El&Hc). apply (tuned_still _ s); [done|].
  apply (tuned_more (t :: tasks s)); [| |done]; intros x; rewrite El, elem_of_cons, ?elem_of_cons, elem_of_app.
  - tauto.
  - intros [->|[Hin|?]]; [eapply tuned_closing; [done|by left]|eapply tuned_closing; [done|by right]|by apply Hc].
Qed.

Lemma tuned_take i t s : tasks s !! i = Some t → tuned (tasks s) s →
  tuned (t :: delete i (tasks s)) (set_tasks (delete i (tasks s)) s).
Proof.
  intros Ei [T1 T2 T3 T4 T5].
  assert (∀ x, x ∈ tasks s ↔ x ∈ t :: delete i (tasks s)) as Hx.
  { intros x. by rewrite (delete_Permutation (tasks s) i t Ei) at 1. }
  split; try done.
  - intros a Ha. by eapply Hx, T3.
  - intros (a&h&since&E1&E2&Hin)%T4. exists a, h, since. split; [done|]. split; [done|]. by apply Hx.
  - intros x Hin%Hx. by apply T5.
Qed.

(** *** Opening, listening and stopping *)

Lemma gets_node {A} i (f : Multiplexer.Node → A) s a s' : on_node i (gets f) s = Ok (a, s') →
  still s s' ∧ ∃ n, nodes s !! i = Some n ∧ a = f (Multiplexer.set_net ((Multiplexer.net n).1, outside s) n).
Proof.
  intros E. split; [by eapply still_on_node, E; apply node_gets|]. unfold on_node in E.
  destruct (nodes s !! i) as [n|]; [|done]. injection E as <- _. by exists n.
Qed.

(** The multiplexer has been opened, and the receive is pending. *)
Lemma tuned_opened l l' s s' a : tuned l s → (∀ t, t ∈ l → t ∈ l') → (∀ t, t ∈ l' → closing t = false) →
  (∀ o, door (multiplexer_ s) s = Some (o, a) → door (multiplexer_ s) s' = Some (true, a)) →
  (∃ o, door (multiplexer_ s) s = Some (o, a)) →
  (∀ i, i ≠ multiplexer_ s → door i s' = door i s) → multiplexer_ s' = multiplexer_ s → acceptor_ s' = acceptor_ s →
  listening_port_ s' = listening_port_ s → TDispatch (multiplexer_ s) ∈ l' → tuned l' s'.
Proof.
  intros [T1 T2 T3 T4 T5] Hl Hc Hm [o Ho] Hd E1 E2 E3 Hin. specialize (Hm o Ho).
  split; rewrite ?E1, ?E2, ?E3; [by rewrite Hm| |done| |done].
  - intros i o' a'. destruct (decide (i = multiplexer_ s)) as [->|Hne].
    + rewrite Hm. intros [= _ <-]. rewrite (T2 _ _ _ Ho). by rewrite decide_True.
    + rewrite Hd by done. intros Hi%T2. by rewrite decide_False in Hi.
  - intros (b&h&since&Eb&Eo&Hb)%T4. exists b, h, since. split; [done|]. split; [|by apply Hl].
    rewrite Hm. rewrite Ho in Eo. by injection Eo as _ ->.
Qed.

Lemma door_lookup i s n : nodes s !! i = Some n → door i s = Some (Multiplexer.socket_is_open n, slot n).
Proof. unfold door. by intros ->. Qed.

Lemma Open_as_client_closed e1 n : Multiplexer.socket_is_open n = false →
  Multiplexer.Open_as_client e1 false n =
    if e1 then Ok (kInvalidAddress, n) else Ok (kSuccess, Multiplexer.set_socket_open true n).
Proof. intros E. unfold Multiplexer.Open_as_client, mbind, M_bind, gets. rewrite E. by destruct e1. Qed.

(** Opening: nothing, an error, or the door opens. *)
Lemma open_multiplexer_opens e1 s r s' : open_multiplexer e1 false s = Ok (r, s') →
  match r with
  | inl _ | inr false => still s s'
  | inr true => ∃ a, door (multiplexer_ s) s = Some (false, a) ∧ door (multiplexer_ s) s' = Some (true, a) ∧
      (∀ i, i ≠ multiplexer_ s → door i s' = door i s) ∧ multiplexer_ s' = multiplexer_ s ∧
      acceptor_ s' = acceptor_ s ∧ listening_port_ s' = listening_port_ s ∧
      ∃ l, tasks s' = tasks s ++ l ∧ ∀ t, t ∈ l → closing t = false
  end.
Proof.
  intros E. unfold open_multiplexer in E. apply M_bind_inv in E as (x&s1&[= <- <-]&E).
  apply M_bind_inv in E as (o&s1&E1&E). apply gets_node in E1 as [Hs (n&En&->)]. cbn [Multiplexer.socket_is_open Multiplexer.set_net] in E.
  destruct (Multiplexer.socket_is_open n) eqn:Eo; [by injection E as <- <-|].
  apply M_bind_inv in E as (c&s2&E2&E). rewrite <-(still_multiplexer _ _ Hs) in E2.
  pose proof (still_door _ _ Hs (multiplexer_ s)) as Hd. rewrite (door_lookup _ s n En), Eo in Hd.
  unfold on_node in E2. destruct (nodes s1 !! multiplexer_ s1) as [n1|] eqn:En1; [|done].
  rewrite (still_multiplexer _ _ Hs) in *. rewrite (door_lookup _ s1 n1 En1) in Hd. injection Hd as Ho Hslot.
  rewrite Open_as_client_closed in E2 by exact Ho.
  destruct e1; injection E2 as <- <-; injection E as <- <-.
  - eapply still_trans; [exact Hs|]. apply still_same; try done. intros j. unfold door.
    cbn [set_outside set_nodes set_peers nodes]. by apply (door_insert _ n1).
  - exists (slot n). split; [by rewrite (door_lookup _ s n En), Eo|]. split.
    { unfold door. cbn [set_outside set_nodes set_peers nodes]. rewrite list_lookup_insert_eq by by eapply lookup_lt_Some.
      cbn. by rewrite <-Hslot. }
    split.
    { intros i Hne. rewrite <-(still_door _ _ Hs i). unfold door. cbn [set_outside set_nodes set_peers nodes].
      by rewrite list_lookup_insert_ne by congruence. }
    split; [by apply Hs|]. split; [by apply Hs|]. split; [by apply Hs|]. exact (still_tasks _ _ Hs).
Qed.

(** A connection starts on the multiplexer, which was opened for it or not. *)
Lemma start_connection_still ep k (now : bool) s s' : start_connection fuel ep k (inr now) s = Ok (tt, s') →
  still s s' ∧ (now = true → TDispatch (multiplexer_ s) ∈ tasks s').
Proof.
  intros E. cbn [start_connection] in E. apply M_bind_inv in E as (h&s1&E1&E). apply still_make_connection in E1.
  apply M_bind_inv in E as ([]&s2&[= <-]&E). apply M_bind_inv in E as ([]&s3&E3&E).
  apply still_on_connection in E3; [|intros a; apply slot_begin].
  assert (still s s3) as Hs by (eapply still_trans; [exact E1|]; eapply still_trans; [|exact E3]; by apply still_same).
  destruct now; [|injection E as <-; by split].
  apply still_StartDispatch in E as [Hs' Hin]. split; [by eapply still_trans|]. intros _. by rewrite <-(still_multiplexer _ _ Hs).
Qed.

Lemma tuned_send t e1 ep k s s' : tuned (t :: tasks s) s →
  (opened ← open_multiplexer e1 false; start_connection fuel ep k opened) s = Ok (tt, s') → tuned (t :: tasks s') s'.
Proof.
  intros Ht (r&s1&E1&E)%M_bind_inv. apply open_multiplexer_opens in E1. destruct r as [c|[]].
  - cbn [start_connection] in E. injection E as <-. eapply tuned_taken; [exact Ht|]. eapply still_trans; [exact E1|]. by apply still_same.
  - destruct E1 as (a&D0&D1&Do&M1&A1&L1&l&El&Hc). destruct (start_connection_still _ _ _ _ _ E) as [Hs Hin].
    specialize (Hin eq_refl). rewrite M1 in Hin. apply (tuned_still _ s1); [exact Hs|].
    destruct (still_tasks _ _ Hs) as (l'&El'&Hc').
    apply (tuned_opened (t :: tasks s) _ s s1 a); try done.
    + intros x. rewrite El', El, !elem_of_cons, !elem_of_app. tauto.
    + intros x. rewrite El', El, elem_of_cons, !elem_of_app.
      intros [->|[[Hx|?]|?]]; [eapply tuned_closing; [exact Ht|by left]|eapply tuned_closing; [exact Ht|by right]|by apply Hc|by apply Hc'].
    + by exists false.
    + by right.
  - destruct (start_connection_still _ _ _ _ _ E) as [Hs _]. eapply tuned_taken; [exact Ht|]. by eapply still_trans.
Qed.

Lemma IsOpen_slot a n : Multiplexer.IsOpen a n = true ↔ slot n = Some a.
Proof. apply bool_decide_eq_true. Qed.

Lemma tuned_accept m a h since ec s s' : tuned (TAccept m a h since :: tasks s) s →
  HandleAccept fuel m a h ec s = Ok (tt, s') → tuned (tasks s') s'.
Proof.
  intros Ht E. unfold HandleAccept in E. apply M_bind_inv in E as (o&s1&E1&E).
  apply gets_node in E1 as [Hs (n&En&->)]. change (Multiplexer.IsOpen a (Multiplexer.set_net _ n)) with (Multiplexer.IsOpen a n) in E.
  pose proof (tuned_slot _ _ Ht m _ _ (door_lookup m s n En)) as Hslot.
  destruct (Multiplexer.IsOpen a n) eqn:Eo; cbn [negb] in E.
  - apply IsOpen_slot in Eo. apply M_bind_inv in E as ([]&s2&E2&E). apply still_StartAccept in E as [Hs3 (a'&h'&since'&Ea'&Hin)].
    assert (still s1 s2) as Hs2.
    { destruct ec; cbn [negb when] in E2; [injection E2 as <-; apply still_refl|].
      apply M_bind_inv in E2 as ([]&s3&[= <-]&E2). apply still_on_connection in E2; [|intros b; apply (slot_begin fuel b h Connection.ToReceive)].
      eapply still_trans; [|exact E2]. by apply still_same. }
    assert (still s s2) as Hs02 by by eapply still_trans. assert (still s s') as Hs' by by eapply still_trans.
    eapply tuned_drop; [by eapply tuned_taken|]. intros -> Ea. rewrite (still_acceptor _ _ Hs') in Ea.
    rewrite (still_acceptor _ _ Hs02), Ea in Ea'. injection Ea' as <-. exists h', since'.
    by rewrite (still_multiplexer _ _ Hs'), <-(still_multiplexer _ _ Hs02).
  - injection E as <-. eapply tuned_drop; [by eapply tuned_taken|]. intros -> Ea. exfalso.
    rewrite (still_acceptor _ _ Hs) in Ea. rewrite (still_multiplexer _ _ Hs), decide_True, Ea in Hslot by done.
    apply IsOpen_slot in Hslot. congruence.
Qed.

Lemma tuned_receive m queue s s' : tuned (TDispatch m :: tasks s) s →
  (on_node m (Multiplexer.DispatchOp queue);; HandleDispatch m) s = Ok (tt, s') → tuned (tasks s') s'.
Proof.
  intros Ht ([]&s1&E1&E)%M_bind_inv. apply still_on_node in E1; [|apply node_DispatchOp].
  apply M_bind_inv in E as (o&s2&E2&E). apply gets_node in E2 as [Hs (n&En&->)].
  change (Multiplexer.socket_is_open (Multiplexer.set_net _ n)) with (Multiplexer.socket_is_open n) in E.
  assert (still s s2) as Hs2 by by eapply still_trans.
  destruct (Multiplexer.socket_is_open n) eqn:Eo; cbn [when] in E.
  - apply still_StartDispatch in E as [Hs3 Hin]. assert (still s s') as Hs' by by eapply still_trans.
    eapply tuned_drop; [by eapply tuned_taken|]. intros a -> _. by rewrite (still_multiplexer _ _ Hs3).
  - injection E as <-. eapply tuned_drop; [by eapply tuned_taken|]. intros a _ Hd.
    rewrite (still_door _ _ Hs), (door_lookup _ _ _ En), Eo in Hd. done.
Qed.

Lemma tuned_task i e1 queue s s' : tuned (tasks s) s → complete_task fuel i e1 false queue s = Ok (tt, s') → tuned (tasks s') s'.
Proof.
  intros Ht E. unfold complete_task in E. apply M_bind_inv in E as (x&s1&[= <- <-]&E).
  destruct (tasks s !! i) as [t|] eqn:Ei; [|by injection E as <-]. destruct (ready _ _ _); [|by injection E as <-].
  apply M_bind_inv in E as ([]&s1&[= <-]&E). pose proof (tuned_take i t s Ei Ht) as Ht1.
  set (s1 := set_tasks (delete i (tasks s)) s) in *. change (delete i (tasks s)) with (tasks s1) in Ht1.
  assert (closing t = false) as Hcl by (eapply tuned_closing; [exact Ht|by eapply list_elem_of_lookup_2]).
  destruct t as [m a|m|h|m a h since|m|data ep timeout|ep timeout]; cbn [run_task] in E; try discriminate Hcl.
  - injection E as <-. apply (tuned_drop (TRemove h)); [|done]. eapply tuned_still; [|exact Ht1]. by apply still_same.
  - apply M_bind_inv in E as (ec&s2&E2&E). apply still_on_node in E2; [|apply node_AcceptOp].
    eapply tuned_accept; [|exact E]. by eapply tuned_taken.
  - by eapply tuned_receive.
  - apply (tuned_drop (TSend data ep timeout)); [by eapply tuned_send|done].
  - apply (tuned_drop (TConnect ep timeout)); [by eapply tuned_send|done].
Qed.

Lemma tuned_handler h i ec s s' : tuned (tasks s) s → complete_handler respond h i ec s = Ok (tt, s') → tuned (tasks s') s'.
Proof.
  intros Ht (x&s1&[= <- <-]&E)%M_bind_inv. destruct (peers s !! h ≫= _) as [k|]; [|by injection E as <-].
  eapply still_tuned; [|exact Ht]. eapply still_on_connection; [|exact E]. intros a. apply slot_complete.
Qed.

Lemma on_node_at {A} i (m : M Multiplexer.Node A) s a s' : on_node i m s = Ok (a, s') → ∃ n n',
  nodes s !! i = Some n ∧ m (Multiplexer.set_net ((Multiplexer.net n).1, outside s) n) = Ok (a, n') ∧
  door i s' = Some (Multiplexer.socket_is_open n', slot n') ∧ (∀ j, j ≠ i → door j s' = door j s) ∧
  length (nodes s') = length (nodes s) ∧
  multiplexer_ s' = multiplexer_ s ∧ acceptor_ s' = acceptor_ s ∧ listening_port_ s' = listening_port_ s ∧ tasks s' = tasks s.
Proof.
  intros E. unfold on_node in E. destruct (nodes s !! i) as [n|] eqn:En; [|done].
  destruct (m _) as [[b n']|] eqn:Em; [|done]. injection E as -> <-. exists n, n'. unfold door.
  cbn [set_outside set_nodes set_peers nodes multiplexer_ acceptor_ listening_port_ tasks].
  rewrite list_lookup_insert_eq by by eapply lookup_lt_Some. split_and!; try done.
  - intros j Hne. by rewrite list_lookup_insert_ne by congruence.
  - by rewrite length_insert.
Qed.

Lemma Open_on_closed ep e1 n r n' : Multiplexer.Open_on ep e1 false false n = Ok (r, n') →
  slot n' = slot n ∧ (r = kSuccess → Multiplexer.socket_is_open n' = true ∧ ep_port ep ≠ 0) ∧
  (r ≠ kSuccess → Multiplexer.socket_is_open n' = Multiplexer.socket_is_open n).
Proof.
  unfold Multiplexer.Open_on, mbind, M_bind, gets. destruct (Multiplexer.socket_is_open n) eqn:Eo; [by intros [= <- <-]|].
  destruct (ep_port ep =? 0) eqn:Ep; [by intros [= <- <-]|]. apply Z.eqb_neq in Ep.
  destruct e1; [by intros [= <- <-]|]. by intros [= <- <-].
Qed.

Lemma new_acceptor_slot a n x n' : Multiplexer.new_acceptor a n = Ok (x, n') →
  slot n' = Some a ∧ Multiplexer.socket_is_open n' = Multiplexer.socket_is_open n.
Proof.
  unfold Multiplexer.new_acceptor, Multiplexer.SetDispatcherAcceptor. intros ([]&n1&[= <-]&E)%M_bind_inv.
  apply M_bind_inv in E as (n2&n3&[= <- <-]&E). apply liftR_inv in E as (d&Ed&E). injection E as _ <-.
  unfold SetAcceptor in Ed. destruct (bool_decide _); [|done]. by injection Ed as <-.
Qed.

Lemma tuned_StartListening ep e1 s r s' : tuned (tasks s) s → StartListening fuel ep e1 false false s = Ok (r, s') →
  tuned (tasks s') s'.
Proof.
  intros Ht E. unfold StartListening in E. apply M_bind_inv in E as (x&s1&[= <- <-]&E).
  destruct (negb _); [by injection E as <- <-|]. apply M_bind_inv in E as (c&s1&E1&E).
  apply on_node_at in E1 as (n&n1&En&Eo&D1&Do1&_&M1&A1&L1&T1). apply Open_on_closed in Eo as (Sl&Hsucc&Hfail).
  pose proof (door_lookup _ s n En) as D0.
  destruct (bool_decide (c = kSuccess)) eqn:Ec; cbn [negb] in E.
  2: { injection E as <- <-. apply bool_decide_eq_false in Ec. eapply still_tuned; [|exact Ht]. apply still_same; try done.
       intros i. destruct (decide (i = multiplexer_ s)) as [->|Hne]; [|by apply Do1]. rewrite D1, D0, (Hfail Ec), Sl. done. }
  apply bool_decide_eq_true in Ec. destruct (Hsucc Ec) as [Hopen Hport]. set (a := new_acceptor_handle s) in *.
  apply M_bind_inv in E as ([]&s2&E2&E).
  apply on_node_at in E2 as (n1'&n2&En1&Ea&D2&Do2&_&M2&A2&L2&T2). apply new_acceptor_slot in Ea as [Sl2 Op2].
  apply M_bind_inv in E as ([]&s3&[= <-]&E). apply M_bind_inv in E as ([]&s3&[= <-]&E). apply M_bind_inv in E as ([]&s3&[= <-]&E).
  set (s3 := set_details _ _) in E.
  apply M_bind_inv in E as ([]&s4&E4&E). apply M_bind_inv in E as ([]&s5&E5&E). injection E as _ <-.
  apply still_StartAccept in E4 as [Hs4 (a'&h&since&Ea&Hin)]. apply still_StartDispatch in E5 as [Hs5 Hd].
  assert (still s3 s5) as Hs by by eapply still_trans.
  assert (multiplexer_ s3 = multiplexer_ s) as M3 by (cbn; congruence).
  assert (door (multiplexer_ s) s3 = Some (true, Some a)) as D3.
  { change (door (multiplexer_ s) s3) with (door (multiplexer_ s) s2). rewrite D2, Sl2, Op2.
    rewrite (door_lookup _ s1 n1' En1) in D1. injection D1 as Op1 _. apply (f_equal (λ b, Some (b, Some a))). exact (eq_trans Op1 Hopen). }
  assert (∀ i, i ≠ multiplexer_ s → door i s3 = door i s) as Do3.
  { intros i Hne. change (door i s3) with (door i s2). rewrite Do2, Do1; congruence. }
  apply (tuned_still _ s3 s5 Hs). split; rewrite ?M3, ?D3.
  - done.
  - intros i o a0. destruct (decide (i = multiplexer_ s)) as [->|Hne]; [rewrite D3; by intros [= _ <-]|].
    rewrite Do3 by done. intros Hi%(tuned_slot _ _ Ht). by rewrite decide_False in Hi.
  - intros a0 _. by rewrite <-M3, <-(still_multiplexer _ _ Hs4).
  - intros _. injection Ea as <-. exists a, h, since. split; [done|]. split; [done|]. rewrite <-M3.
    destruct (still_tasks _ _ Hs5) as (l&->&_). apply elem_of_app. by left.
  - intros t. destruct (still_tasks _ _ Hs) as (l&->&Hc). rewrite elem_of_app. change (tasks s3) with (tasks s2). rewrite T2, T1.
    intros [Hin'|?]; [by eapply tuned_closing|by apply Hc].
Qed.

Lemma Close_slot a n x n' : Multiplexer.Close a n = Ok (x, n') → slot n = Some a → slot n' = None.
Proof.
  unfold Multiplexer.Close. intros ([]&n1&[= <-]&E)%M_bind_inv Hs. apply M_bind_inv in E as ([]&n2&[= <-]&E).
  apply M_bind_inv in E as (o&n3&[= <- <-]&E). set (n2 := Multiplexer.set_acceptors _ _) in E.
  assert (Multiplexer.IsOpen a n2 = true) as Ho by by apply IsOpen_slot. rewrite Ho in E. cbn [when] in E.
  unfold Multiplexer.SetDispatcherAcceptor in E. apply M_bind_inv in E as (n4&n3&[= <- <-]&E).
  apply liftR_inv in E as (d&Ed&E). injection E as _ <-. unfold SetAcceptor in Ed. by destruct (bool_decide _); [injection Ed as <-|].
Qed.

Lemma tuned_StopListening s s' : tuned (tasks s) s → StopListening true s = Ok (tt, s') → tuned (tasks s') s'.
Proof.
  intros Ht E. unfold StopListening in E. apply M_bind_inv in E as (x&s0&[= <- <-]&E).
  apply M_bind_inv in E as ([]&s1&E1&E). apply M_bind_inv in E as ([]&s2&E2&E).
  assert (∃ o, door (multiplexer_ s) s1 = Some (o, None) ∧ (∀ i, i ≠ multiplexer_ s → door i s1 = door i s) ∧
    tasks s1 = tasks s ∧ length (nodes s1) = length (nodes s)) as (o&D1&Do1&T1&N1).
  { destruct (acceptor_ s) as [a|] eqn:Ea.
    - apply on_node_at in E1 as (n&n1&En&Ec&D1&Do1&N1&_&_&_&T1). apply Close_slot in Ec.
      + exists (Multiplexer.socket_is_open n1). rewrite Ec in D1. by split_and!.
      + change (slot n = Some a). rewrite (tuned_slot _ _ Ht _ _ _ (door_lookup _ _ _ En)), decide_True by done. exact Ea.
    - injection E1 as <-. destruct (tuned_current _ _ Ht) as [[o a] D]. exists o. split_and!; try done.
      rewrite D. rewrite (tuned_slot _ _ Ht _ _ _ D), decide_True by done. by rewrite Ea. }
  apply on_node_at in E2 as (n1&n2&En1&Ec&D2&Do2&N2&_&_&_&T2). injection Ec as <-.
  rewrite (door_lookup _ s1 n1 En1) in D1. injection D1 as _ Hsl. change (slot (Multiplexer.set_socket_open false _)) with (slot n1) in D2.
  rewrite Hsl in D2.
  injection E as <-. set (s' := set_multiplexer _ _).
  assert (multiplexer_ s' = length (nodes s)) as M'.
  { cbn. rewrite length_app. cbn. lia. }
  assert (∀ i, door i s' = if decide (i = length (nodes s)) then Some (false, None) else door i s2) as D'.
  { intros i. unfold door. cbn [s' set_multiplexer set_nodes nodes set_acceptor set_listening].
    destruct (decide (i = length (nodes s))) as [->|Hne].
    - rewrite lookup_app_r by lia. by rewrite N2, N1, Nat.sub_diag.
    - destruct (decide (i < length (nodes s))%nat).
      + by rewrite lookup_app_l by lia.
      + rewrite !lookup_ge_None_2; [done|lia|rewrite length_app; cbn; lia]. }
  split; rewrite ?M', ?D', ?decide_True by done; try done.
  - intros i o' a'. rewrite D'. destruct (decide (i = length (nodes s))) as [->|Hne]; [by intros [= _ <-]|].
    destruct (decide (i = multiplexer_ s)) as [->|Hne2]; [rewrite D2; by intros [= _ <-]|].
    rewrite Do2, Do1 by done. intros Hi%(tuned_slot _ _ Ht). by rewrite decide_False in Hi.
  - cbn. rewrite T2, T1. apply Ht.
Qed.

(** Addresses that can be listened on, and stopped from within the strand. *)
Definition orderly (k : call) : Prop :=
  match k with
  | CListen _ _ io_control_ec bind_ec => io_control_ec = false ∧ bind_ec = false
  | CStop inside => inside = true
  | CTask _ _ io_control_ec _ => io_control_ec = false
  | _ => True
  end.

Lemma tuned_call k s s' : orderly k → tuned (tasks s) s → run_call fuel respond k s = Ok (tt, s') → tuned (tasks s') s'.
Proof.
  destruct k as [ep e1 e2 e3|inside|data ep timeout|data c timeout|ep timeout|i e1 e2 queue|h i ec]; cbn [orderly run_call];
    intros Hk Ht E.
  - destruct Hk as [-> ->]. apply M_bind_inv in E as (r&s1&E1&[= <-]). by eapply tuned_StartListening.
  - subst inside. by eapply tuned_StopListening.
  - injection E as <-. eapply still_tuned; [|exact Ht]. by apply still_dispatch.
  - unfold SendTo in E. destruct (negb _); [done|]. injection E as <-. eapply still_tuned; [|exact Ht]. by apply still_dispatch.
  - injection E as <-. eapply still_tuned; [|exact Ht]. by apply still_dispatch.
  - subst e2. by eapply tuned_task.
  - by eapply tuned_handler.
Qed.

Lemma tuned_reachable s : reachable fuel respond orderly s → tuned (tasks s) s.
Proof.
  induction 1 as [w|s k s' Hr IH Hk E]; [|by eapply tuned_call]. split; try done.
  - intros [|i] o a; cbn; [by intros [= _ <-]|done].
  - by intros ? []%not_elem_of_nil.
Qed.

(** C22: while the multiplexer is open a receive is pending on its socket, and while
    the transport listens the acceptor is installed in that multiplexer's dispatcher
    and an accept is pending on it; an accept that is still open when it completes is
    one of the current acceptor, so [StartAccept] finds a pointer to use.  This holds
    after any calls, tasks and handlers in any order, as long as the socket options
    and the bind succeed and listening is stopped from within the strand. *)
Theorem rudp_keeps_listening s : reachable fuel respond orderly s →
  (∀ n, nodes s !! multiplexer_ s = Some n → Multiplexer.socket_is_open n = true → TDispatch (multiplexer_ s) ∈ tasks s) ∧
  (listening_port_ s ≠ 0 → ∃ a h since n, acceptor_ s = Some a ∧ nodes s !! multiplexer_ s = Some n ∧
     Multiplexer.socket_is_open n = true ∧ Multiplexer.IsOpen a n = true ∧ TAccept (multiplexer_ s) a h since ∈ tasks s) ∧
  (∀ m a h since n, TAccept m a h since ∈ tasks s → nodes s !! m = Some n → Multiplexer.IsOpen a n = true →
     m = multiplexer_ s ∧ acceptor_ s = Some a).
Proof.
  intros Ht%tuned_reachable. split_and!.
  - intros n En Eo. eapply tuned_dispatch; [exact Ht|]. by rewrite (door_lookup _ _ _ En), Eo.
  - intros (a&h&since&Ea&D&Hin)%(tuned_listens _ _ Ht). unfold door in D.
    apply fmap_Some in D as (n&En&[= Eo Es]). exists a, h, since, n. split_and!; try done. by apply IsOpen_slot.
  - intros m a h since n _ En Eo%IsOpen_slot. pose proof (tuned_slot _ _ Ht _ _ _ (door_lookup _ _ _ En)) as Hs.
    destruct (decide (m = multiplexer_ s)) as [->|]; [|congruence]. split; congruence.
Qed.
End tuned.

(** ** Examples *)
Module ListeningExamples.
Import Shared.Demo RudpExamples.

Lemma rudp_keeps_listening_witness :
  listening_port_ accepted = 5000 ∧ ∃ a h since n, acceptor_ accepted = Some a ∧
    nodes accepted !! multiplexer_ accepted = Some n ∧ Multiplexer.socket_is_open n = true ∧ Multiplexer.IsOpen a n = true ∧
    TAccept (multiplexer_ accepted) a h since ∈ tasks accepted.
Proof.
  split; [vm_compute; reflexivity|]. apply (rudp_keeps_listening 4 silent accepted).
  { apply rudp_accepted_reachable. by intros k [->|(i&queue&->)]. }
  assert (listening_port_ accepted = 5000) as -> by (vm_compute; reflexivity). done.
Defined.

(** Stopped from outside the strand, the transport forgets its acceptor before the
    acceptor is closed: an accept that completes in between uses a null pointer. *)
Lemma stop_outside_crashes :
  let s := after_call (CStop false) requested in
  tasks s = [TAccept 0 1%positive 1%positive 1; TDispatch 0; TCloseAcceptor 0 1%positive; TCloseMultiplexer 0] ∧
  acceptor_ s = None ∧ is_ok (run_call 4 silent (CTask 0 false false []) s) = false.
Proof. split_and!; vm_compute; reflexivity. Qed.

(** A bind that fails leaves the socket open; what is sent then has no receive. *)
Lemma half_open_deaf :
  let s := after_call (CTask 0 false false []) (after_call (CSend [1; 2; 3] (remote 2) 0)
    (after_call (CListen here false false true) t0)) in
  elements (connections_ s) = [1%positive] ∧ from_option Multiplexer.socket_is_open false (nodes s !! 0%nat) = true ∧
  tasks s = [].
Proof. split_and!; vm_compute; reflexivity. Qed.
End ListeningExamples.
